(* ===== verification/_CoqProject ===== *)
-Q . S2P
Prelude.v
PyStr.v
Regex.v
Sanitizer.v
State.v
Extractor.v
RegexSem.v
Collector.v
Renderer.v
Potential.v
RenderAll.v
Document.v
Codec.v
Links.v
Assembler.v
Cover.v
Main.v
Legacy.v
LegacyBook.v
