(* ===== verification/Prelude.v ===== *)
(** * Verification of the EPUB builder (scripts/build_epub.py, build_epub.py)

    ** The program

    The program turns a tree of markdown files into one EPUB.  Its parts,
    in the order [build_epub_async] runs them:

    - [validate_inputs] checks the root directory, the output directory and
      that some markdown file exists, and raises one [ValidationError] that
      lists every problem;
    - [create_cover_image] draws the cover: the logo, scaled to the width
      of the cover, and the title and subtitle, centred; whatever fails
      there is raised as a [CoverGenerationError];
    - [ChapterCollector] walks the chapter order ([get_chapter_order]),
      lists the markdown files of each folder ([collect_folder_files]),
      numbers the chapters and records the path of every chapter in
      [BuildState.path_to_chapter];
    - [extract_all_mermaid_blocks] reads every chapter once and returns the
      distinct diagram texts, numbered in order of discovery;
    - [MermaidRenderer.render_all] fetches one image per diagram from the
      rendering service, concurrently under a semaphore, with three
      attempts per diagram, and fills [BuildState.mermaid_cache];
    - the chapter loop replaces the diagram blocks of each chapter by
      references to the cached images ([process_mermaid_blocks]), converts
      the markdown, rewrites the links between chapters
      ([convert_internal_links]), wraps the page ([create_chapter_html])
      and builds the table of contents;
    - [main] builds the configuration from the command line and turns the
      result of the build into an exit code.

    src/build_epub.py is the older, synchronous builder with module globals
    in place of the build state: its [create_epub] walks the chapter order
    twice, first to fill the chapter map and then to write the pages, and
    fetches each diagram when it meets it.

    ** The files

    - [Prelude] (this file): the value-or-exception type [result] with its
      monad instances, the tactics and hint databases of the development,
      lemmas on sums and lists that several components use.
    - [PyStr]: the methods of Python's [str], [int] formatting and
      [pathlib] names the code calls ([strip], [title], [html.escape],
      [{n:02d}], [suffix], [stem], ...), on strings of 8-bit characters.
    - [Regex]: [re.finditer] and [re.sub] as one left-to-right scan over an
      anchored matcher; the class [Pattern] is what the scan needs of a
      matcher (a match is not empty and lies within the subject), and the
      theorems of the clients are proved against it.
    - [Sanitizer]: [sanitize_mermaid].
    - [State]: the exception classes ([exn]), [EPUBConfig], [BuildState]
      with [reset], [ChapterInfo].
    - [Extractor]: [extract_all_mermaid_blocks].
    - [RegexSem]: the two patterns and the replacement template as syntax,
      under the semantics of a backtracking matcher ([ways] lists the ways
      a pattern matches, in the order the matcher tries them), and the
      proofs that the hand-written matchers of [Sanitizer] and [Extractor]
      are the first match of the patterns.
    - [Collector]: the file system as a tree ([node]), [get_chapter_order],
      [collect_folder_files], [ChapterCollector].
    - [Renderer]: [MermaidRenderer] as a transition system.  A state
      ([sys]) holds the build state, the value and the queue of the
      semaphore, and the program point ([phase]) of each coroutine; an
      [event] is one turn of the event loop: a coroutine starts
      ([_fetch_single] up to its first suspension), a request is answered
      or raises, a back-off sleep ends.  [step_fn] is the transition
      function, [run] a schedule, [render_result] the answer of [gather].
      The file holds the model, the sequential reading [fetch_single] of one
      coroutine, the invariants and the lemmas on each operation.
    - [Potential]: the turns of the event loop as moves of one coroutine
      ([move]), and the measures every move pays from: [weight] for the
      turns, [budget] for the requests, [unsent] for the first requests.
    - [RenderAll]: the theorems about [render_all] as a whole (reachable
      states, termination, absence of deadlock, the cache after the
      answer), the retry policy, the refinement of one coroutine of the
      transition system by [fetch_single], and the schedules of the
      examples.
    - [Document]: [process_mermaid_blocks], the page templates, and the
      theorem that connects extractor, renderer and substitution.
    - [Codec]: what the builder writes, read back: [html.unescape] for the
      references [html.escape] writes, the parser of chapter file names,
      the title and the heading of a page; the class [Codec] packs a
      writer, a reader and their round trip.
    - [Links]: [convert_internal_links].
    - [Assembler]: [validate_inputs], the table of contents,
      [build_epub_async] as the composition of the components, [main].
    - [Cover]: [load_font], [_add_logo_to_cover], [_draw_text_centered] and
      [create_cover_image] over the interface [ImageLibrary] (the calls of
      the image library, and the promise that [resize] returns the size
      asked for); the cover is the list of the paste and text operations
      ([draw_op]); [build_with_cover] is the build with the cover it draws.
    - [Main]: the text of [create_stylesheet], [create_epub], and [main]
      from the namespace of the parsed arguments ([args]) to the exit code.
    - [Legacy]: [mermaid_to_image] and [process_mermaid_blocks] of the older
      builder.
    - [LegacyBook]: [create_cover_image], [md_to_html] and [create_epub] of
      the older builder, with its two passes.

    ** How the model corresponds to the code

    A Python [str] or [bytes] is a Rocq [string]; a [dict] with string keys
    is a [gmap string]; a [set] is a [gset]; a dataclass is a [Record]; the
    exception classes are the constructors of [exn]; a function that can
    raise returns a [result exn]; a function that mutates the build state
    takes it and returns it.  Paths are lists of components below the root.
    A definition keeps the name of the function it models; for a loop, the
    body and the loop are separate definitions ([add_code] / [scan_text],
    [collect_item] / [collect_all_chapters], [toc_step] / [build_toc]).

    ** What the theorems show

    - Sanitizer: sanitizing is idempotent; it leaves a text unchanged
      exactly when the pattern does not occur; the length grows by the
      number of occurrences.
    - Extractor: the loop with its [seen] set and counter equals the
      reference [first_seen] numbered from 1; no duplicates; indices
      1..n; which exceptions of reading abort it.
    - RegexSem: [sanitize_mermaid] is [re.sub] of its pattern and
      template, and the blocks of the extractor are [re.finditer] of
      theirs: the greedy quantifiers never give back a character because
      what follows them cannot start with one of their class, and the lazy
      body ends at the first closing fence.
    - Renderer: at most [max_concurrent_requests] requests are in flight
      in every reachable state; every schedule has at most 7 turns per
      diagram; with at least one slot there is no deadlock and every
      reachable state can be run to an answer; when [render_all] returns,
      every diagram is cached under its key; image names are unique; a
      status other than 200 is not retried; a timeout is retried twice with
      back-off 1 s and 2 s and the third one is re-raised as it is; with
      one diagram, every answer of the transition system is the answer of
      [fetch_single] on some list of outcomes ([solo_refines]); a run sends
      at most three requests per diagram, one per diagram when no request
      fails, and none when [render_all] has returned before.
    - Document: the substitution succeeds exactly when every key is
      cached, returns the text with the blocks replaced, and keeps the book
      free of duplicate items; after extraction and rendering it succeeds
      on every chapter whose blocks do not end in an open numbered label.
    - Collector: chapter file names are pairwise distinct; every entry of
      the chapter map is the file of a chapter; the folder listing lists
      only [.md] entries of the tree; fuel for the depth is enough.
    - Links: external links are untouched; a rewritten link points to a
      chapter of the book and keeps its anchor.
    - Assembler: a build that returns a book has a page for every chapter
      and an image for every diagram block (strict mode); the build does
      return a book when the inputs are valid, the chapters can be read and
      their blocks are clean, and [render_all] returns ([build_returns]);
      no two items of the book share a file name; validation comes first;
      the table of contents covers the chapter list in order.
    - Codec: reading what was written gives the value back, for escaped
      texts, for numbers of two digits and for chapter file names, hence
      the writers are injective; the title and the heading read from a page
      of [create_chapter_html] are the title the chapter was given,
      whatever characters it holds; every [ChapterInfo] the collector
      returns is well formed ([chapter_ok]).
    - Cover: the font is the first of its list that loads; every line is
      centred to the pixel and the lines are [line_spacing] apart; the logo
      is [cover_width - 60] wide, 30 pixels from the left and ends 80 pixels
      above the bottom; without a logo the cover is text only; a failure
      of the drawing ends the build with a [CoverGenerationError] and
      [main] with code 1.
    - Main: the defaults of the command line are the defaults of
      [EPUBConfig], so [main] without options builds what [create_epub]
      builds; what each exit code says of the build; [main] ends with code
      0 when the inputs are valid, the cover is drawn, the chapters are
      readable and clean and [render_all] returns ([main_succeeds]).
    - Legacy: image items have distinct names; the substitution never
      fails.
    - LegacyBook: the first pass computes the chapter map of the collector
      of the new builder; the pages of the second pass are the chapters of
      that collector, so every entry of the chapter map leads to a page of
      the book; the build returns whatever the network answers.

    Examples evaluate the definitions on concrete inputs, among them the
    inputs on which the code departs from its description: a block that
    ends in a bracket, a digit and a period ([key_mismatch]), two diagrams
    with one key fetched twice ([duplicate_key_fetched_twice]), a
    concurrency limit of zero ([zero_slots_deadlock]), the first exception
    of [gather] ([gather_fails_fast]), exhausted retries that [main] does
    not catch ([build_timeouts_uncaught]), a square logo that loses a row
    to rounding ([square_logo_height]), titles the older builder writes
    unescaped ([legacy_title_unescaped]) and its globals that outlive a
    build ([legacy_second_build]).

    ** Bounds and fuel

    - The retry decorator stops after attempt 3; [weight] gives a coroutine
      7 turns at most (start, wait, three requests, two sleeps), which is
      the bound of [schedule_terminates], and [budget] gives it three
      requests, which is the bound of [requests_bounded].
    - [collect_folder_files] takes fuel; [collect_folder_files_fuel] shows
      that the depth of the directory is enough, and [collect_folder] runs
      it with that much.
    - All other recursion is structural; [Regex.scan] recurses on the
      subject with a counter of characters to skip.
    - Coordinates and sizes of the cover are unbounded integers, as
      Python's are.  The height of the scaled logo is computed with the
      primitive binary64 floats of the kernel ([Cover.scaled_height]); the
      conversion of an integer to a float is exact below 2^53, far above
      the size of any image.

    ** What is not modelled

    - The libraries: httpx (a request is answered by an arbitrary
      [outcome]), zlib and base64 (the URL), markdown and BeautifulSoup
      (parameters of [Assembler]), PIL (loading a font, measuring a line,
      opening, resizing and saving an image are the fields of the class
      [ImageLibrary] of [Cover]; the pixels are not modelled), ebooklib (the book is the list of its
      items, its table and its spine; the metadata and writing the file to
      disk are left out), logging, and the parser of argparse ([Main]
      starts from the parsed arguments).
    - The test suite under scripts/tests: some of its inputs reappear as
      examples.
    - Characters beyond U+00FF, and [str.title] beyond ASCII letters.
    - Symbolic links; [Path.resolve] is the lexical one.
    - Cancellation of the coroutines that are still running when [gather]
      raises: the model lets them continue, and [render_result] is the
      first exception from then on.
    - The semaphore is modelled with hand-off: [release] gives the slot to
      the first coroutine in the queue, which sends its request in the same
      turn.  asyncio wakes that coroutine and lets it take the slot at its
      next turn; no other coroutine can take the slot in between, so the
      numbers of requests in flight agree. *)

From stdpp Require Import base tactics option list.

(** ** Results of fallible code

    A Python call either returns a value or raises.  [result E A] is the
    value-or-exception type of the whole development; [E] is instantiated
    with the exception type of the component. *)

Inductive result (E A : Type) : Type :=
| Ok (a : A)
| Err (e : E).

Arguments Ok {E A} a.
Arguments Err {E A} e.

#[export] Instance result_ret {E} : MRet (result E) := λ A a, Ok a.

#[export] Instance result_bind {E} : MBind (result E) := λ A B f m,
  match m with
  | Ok a => f a
  | Err e => Err e
  end.

#[export] Instance result_fmap {E} : FMap (result E) := λ A B f m,
  match m with
  | Ok a => Ok (f a)
  | Err e => Err e
  end.

Definition is_ok {E A} (r : result E A) : bool :=
  match r with Ok _ => true | Err _ => false end.

Definition result_to_option {E A} (r : result E A) : option A :=
  match r with Ok a => Some a | Err _ => None end.

(** [collect rs] is the join of a list of outcomes: the values in order when
    all succeeded, the first error in list order otherwise. *)
Fixpoint collect {E A} (rs : list (result E A)) : result E (list A) :=
  match rs with
  | [] => Ok []
  | r :: rs' => a ← r; as' ← collect rs'; mret (a :: as')
  end.

#[export] Instance result_eq_dec {E A} `{EqDecision E, EqDecision A} :
  EqDecision (result E A).
Proof. solve_decision. Defined.

(** ** Tactics *)

(** [case_bool]: split on the first boolean test that blocks reduction. *)
Ltac case_bool :=
  match goal with
  | |- context [if ?b then _ else _] =>
      let E := fresh "Hb" in destruct b eqn:E
  | H : context [if ?b then _ else _] |- _ =>
      let E := fresh "Hb" in destruct b eqn:E
  end.

(** [simpl_result]: unfold the monad operations of [result]. *)
Ltac simpl_result :=
  repeat (unfold mbind, mret, fmap, result_bind, result_ret, result_fmap in *;
          simpl in *).

(** Closed goals on concrete data, by evaluation. *)
Ltac by_compute :=
  vm_compute; first [reflexivity | eexists; reflexivity | done].

Create HintDb epub discriminated.
Create Rewrite HintDb epub.

(** ** Shared lemmas on [result] *)

Lemma bind_Ok {E A B} (f : A → result E B) (m : result E A) (b : B) :
  m ≫= f = Ok b ↔ ∃ a, m = Ok a ∧ f a = Ok b.
Proof. destruct m; simpl_result; naive_solver. Qed.

Lemma bind_Err {E A B} (f : A → result E B) (m : result E A) (e : E) :
  m ≫= f = Err e ↔ m = Err e ∨ ∃ a, m = Ok a ∧ f a = Err e.
Proof. destruct m; simpl_result; naive_solver. Qed.

Lemma collect_cons_Ok {E A} (r : result E A) rs (xs : list A) :
  collect (r :: rs) = Ok xs ↔
  ∃ a as', r = Ok a ∧ collect rs = Ok as' ∧ xs = a :: as'.
Proof.
  simpl. rewrite bind_Ok. setoid_rewrite bind_Ok. simpl_result. naive_solver.
Qed.

Lemma collect_Ok {E A} (rs : list (result E A)) (xs : list A) :
  collect rs = Ok xs ↔ rs = Ok <$> xs.
Proof.
  revert xs; induction rs as [|r rs IH]; intros xs.
  - destruct xs; simpl_result; naive_solver.
  - rewrite collect_cons_Ok. setoid_rewrite IH.
    destruct xs; simpl_result; naive_solver.
Qed.

Lemma collect_Err_elem {E A} (rs : list (result E A)) (e : E) :
  collect rs = Err e → Err e ∈ rs.
Proof.
  induction rs as [|r rs IH]; simpl; [done|].
  rewrite bind_Err. setoid_rewrite bind_Err. simpl_result.
  intros [->|(a & -> & [H|(? & ? & ?)])]; [left|right; auto|done].
Qed.

(** ** Shared lemmas on lists *)

(** Replacing one element of a list shifts a sum over it by the difference
    of the two summands. *)
Lemma sum_list_with_insert {A} (f : A → nat) (l : list A) i x y :
  l !! i = Some x →
  sum_list_with f (<[i:=y]> l) + f x = sum_list_with f l + f y.
Proof.
  revert i; induction l as [|z l IH]; intros [|i] Hi; simplify_eq/=; [lia|].
  specialize (IH i Hi). lia.
Qed.

Lemma sum_list_with_lookup {A} (f : A → nat) (l : list A) i x :
  l !! i = Some x → f x ≤ sum_list_with f l.
Proof.
  intros Hi. apply sum_list_with_in. by eapply list_elem_of_lookup_2.
Qed.

Lemma sum_list_with_replicate {A} (f : A → nat) n (x : A) :
  sum_list_with f (replicate n x) = n * f x.
Proof. induction n; simpl; lia. Qed.

Lemma sum_list_with_const {A} (c : nat) (l : list A) :
  sum_list_with (λ _, c) l = length l * c.
Proof. induction l as [|x l IH]; simpl; lia. Qed.

Lemma sum_list_with_const_0 {A} (l : list A) : sum_list_with (λ _, 0) l = 0.
Proof. rewrite sum_list_with_const. lia. Qed.

Lemma sum_list_with_ext {A} (f g : A → nat) (l : list A) :
  (∀ x, f x = g x) → sum_list_with f l = sum_list_with g l.
Proof. intros H. induction l as [|x l IH]; simpl; [done|]. by rewrite H, IH. Qed.

Lemma sum_list_with_le {A} (f g : A → nat) (l : list A) :
  (∀ x, x ∈ l → f x ≤ g x) → sum_list_with f l ≤ sum_list_with g l.
Proof.
  induction l as [|x l IH]; intros H; simpl; [done|].
  pose proof (H x ltac:(left)). pose proof (IH (λ y Hy, H y (list_elem_of_further _ _ _ Hy))).
  lia.
Qed.

(** A positive sum has a positive summand. *)
Lemma sum_list_with_pos {A} (f : A → nat) (l : list A) :
  0 < sum_list_with f l → ∃ i x, l !! i = Some x ∧ 0 < f x.
Proof.
  induction l as [|x l IH]; simpl; [lia|]. intros H.
  destruct (decide (0 < f x)); [by exists 0, x|].
  destruct IH as (i & y & ? & ?); [lia|]. by exists (S i), y.
Qed.

(** [all(f(x) for x in l)] on lists, by position. *)
Lemma forallb_false_lookup {A} (f : A → bool) (l : list A) :
  forallb f l = false → ∃ i x, l !! i = Some x ∧ f x = false.
Proof.
  induction l as [|x l IH]; simpl; [done|].
  destruct (f x) eqn:Hx; simpl; [|by exists 0, x].
  intros (i & y & ? & ?)%IH. by exists (S i), y.
Qed.

Lemma forallb_true_lookup {A} (f : A → bool) (l : list A) i x :
  forallb f l = true → l !! i = Some x → f x = true.
Proof.
  revert i; induction l as [|y l IH]; intros [|i]; simpl; [done..| |];
    intros [??]%andb_prop ?; simplify_eq; eauto.
Qed.

Lemma flat_map_ext_in {A B} (f g : A → list B) (l : list A) :
  (∀ x, x ∈ l → f x = g x) → flat_map f l = flat_map g l.
Proof.
  induction l as [|x l IH]; intros H; simpl; [done|].
  rewrite (H x) by left. f_equal. apply IH. intros; apply H. by right.
Qed.

Lemma elem_of_flat_map {A B} (f : A → list B) (l : list A) (y : B) :
  y ∈ flat_map f l ↔ ∃ x, x ∈ l ∧ y ∈ f x.
Proof.
  induction l as [|x l IH]; simpl.
  - split; [by intros ?%elem_of_nil|by intros (? & ?%elem_of_nil & _)].
  - rewrite elem_of_app, IH. split.
    + intros [?|(x' & ? & ?)]; [exists x|exists x']; split; done || by constructor.
    + intros (x' & [->|?]%elem_of_cons & ?); eauto.
Qed.
