(* ===== verification/PyStr.v ===== *)
(** * PyStr: the Python [str] operations the builder calls

    A Python [str] is modelled as a Rocq [string] whose characters are the
    code points U+0000..U+00FF.  Every method the scripts call on a string
    is one definition here, named after the method:

    - [is_space] is the whitespace class shared by [str.strip()] and the
      regular-expression escape [\s]; [is_digit] is the class of [\d].
      Both are exact on U+0000..U+00FF.
    - [lstrip], [rstrip], [strip] model [str.strip()];
      [rstrip_char c] models [str.rstrip(c)] for a one-character set.
    - [startswith], [endswith], [contains_char], [split_once],
      [replace_char], [title], [html_escape], [join], [pad2] and [str_of_nat]
      model the corresponding calls and format specifications.

    [title] is exact on ASCII letters; letters above U+007F are treated as
    uncased, which is where the model stops following CPython. *)

From Stdlib Require Import Ascii.
From stdpp Require Import base tactics list strings pretty.
From S2P Require Import Prelude.

#[local] Arguments String.append !_ _ : simpl nomatch.

(** ** Character classes *)

(** [Py_UNICODE_ISSPACE] restricted to U+0000..U+00FF: TAB..CR, FS..US, SPACE,
    NEL and NBSP. *)
Definition is_space (c : ascii) : bool :=
  let n := N_of_ascii c in
  ((9 <=? n) && (n <=? 13) || (28 <=? n) && (n <=? 32)
   || (n =? 133) || (n =? 160))%N.

(** The decimal digits: the only code points of category Nd below U+0100. *)
Definition is_digit (c : ascii) : bool :=
  let n := N_of_ascii c in ((48 <=? n) && (n <=? 57))%N.

Definition is_lower (c : ascii) : bool :=
  let n := N_of_ascii c in ((97 <=? n) && (n <=? 122))%N.

Definition is_upper (c : ascii) : bool :=
  let n := N_of_ascii c in ((65 <=? n) && (n <=? 90))%N.

Definition is_cased (c : ascii) : bool := is_lower c || is_upper c.

Definition to_upper (c : ascii) : ascii :=
  if is_lower c then ascii_of_N (N_of_ascii c - 32) else c.

Definition to_lower (c : ascii) : ascii :=
  if is_upper c then ascii_of_N (N_of_ascii c + 32) else c.

(** ** Stripping *)

Fixpoint lstrip (s : string) : string :=
  match s with
  | "" => ""
  | String c s' => if is_space c then lstrip s' else s
  end.

Fixpoint rstrip (s : string) : string :=
  match s with
  | "" => ""
  | String c s' =>
      match rstrip s' with
      | "" => if is_space c then "" else String c ""
      | r => String c r
      end
  end.

(** [s.strip()] *)
Definition strip (s : string) : string := lstrip (rstrip s).

(** [s.rstrip(c)] for a single character [c], as in [item.rstrip("/")]. *)
Fixpoint rstrip_char (c : ascii) (s : string) : string :=
  match s with
  | "" => ""
  | String d s' =>
      match rstrip_char c s' with
      | "" => if Ascii.eqb d c then "" else String d ""
      | r => String d r
      end
  end.

(** ** Prefixes, suffixes, search *)

(** [s.startswith(p)] *)
Fixpoint startswith (p s : string) : bool :=
  match p, s with
  | "", _ => true
  | String a p', String b s' => Ascii.eqb a b && startswith p' s'
  | String _ _, "" => false
  end.

(** [s.endswith(p)] *)
Fixpoint endswith (p s : string) : bool :=
  match s with
  | "" => String.eqb p ""
  | String _ s' => String.eqb p s || endswith p s'
  end.

(** [c in s] for a one-character needle. *)
Fixpoint contains_char (c : ascii) (s : string) : bool :=
  match s with
  | "" => false
  | String d s' => Ascii.eqb d c || contains_char c s'
  end.

(** [s.split(c, 1)]: the text before the first [c] and the text after it;
    [None] when [c] does not occur (Python then returns the one-element
    list). *)
Fixpoint split_once (c : ascii) (s : string) : option (string * string) :=
  match s with
  | "" => None
  | String d s' =>
      if Ascii.eqb d c then Some ("", s')
      else '(a, b) ← split_once c s'; Some (String d a, b)
  end.

(** [find_sub p s]: the text before the first occurrence of [p] in [s] and
    the text after that occurrence. *)
Fixpoint drop_str (n : nat) (s : string) : string :=
  match n, s with
  | 0, _ => s
  | S n', String _ s' => drop_str n' s'
  | S _, "" => ""
  end.

Fixpoint find_sub (p s : string) : option (string * string) :=
  if startswith p s then Some ("", drop_str (String.length p) s)
  else match s with
       | "" => None
       | String d s' => '(a, b) ← find_sub p s'; Some (String d a, b)
       end.

(** ** Rewriting characters *)

Fixpoint map_str (f : ascii → ascii) (s : string) : string :=
  match s with
  | "" => ""
  | String c s' => String (f c) (map_str f s')
  end.

(** [s.replace(a, b)] for one-character [a] and [b]. *)
Definition replace_char (a b : ascii) (s : string) : string :=
  map_str (λ c, if Ascii.eqb c a then b else c) s.

(** [s.title()]: [cased] records whether the previous character was cased. *)
Fixpoint title_go (cased : bool) (s : string) : string :=
  match s with
  | "" => ""
  | String c s' =>
      String (if cased then to_lower c else to_upper c)
             (title_go (is_cased c) s')
  end.

Definition title (s : string) : string := title_go false s.

(** [html.escape(s)] with its default [quote=True]. *)
Fixpoint html_escape (s : string) : string :=
  match s with
  | "" => ""
  | String c s' =>
      (if Ascii.eqb c "&" then "&amp;"
       else if Ascii.eqb c "<" then "&lt;"
       else if Ascii.eqb c ">" then "&gt;"
       else if Ascii.eqb c "034" then "&quot;"
       else if Ascii.eqb c "'" then "&#x27;"
       else String c "") +:+ html_escape s'
  end.

(** [sep.join(l)] *)
Fixpoint join (sep : string) (l : list string) : string :=
  match l with
  | [] => ""
  | [x] => x
  | x :: l' => x +:+ sep +:+ join sep l'
  end.

(** The newline character and the double quote, as one-character texts. *)
Definition nl : string := String "010" "".
Definition dq : string := String "034" "".

(** ** Formatting numbers *)

(** [str(n)] and the format [{n}] for a non-negative integer. *)
Definition str_of_nat (n : nat) : string := pretty n.

(** The format [{n:02d}]: decimal, zero-padded to two digits at least. *)
Definition pad2 (n : nat) : string :=
  if decide (n < 10) then "0" +:+ pretty n else pretty n.

(** [int(s)] for a text of decimal digits, from the value [acc] of the
    digits already read. *)
Fixpoint nat_of_str_go (acc : N) (s : string) : N :=
  match s with
  | "" => acc
  | String c s' => nat_of_str_go (10 * acc + (N_of_ascii c - 48))%N s'
  end.

Definition nat_of_str (s : string) : nat := N.to_nat (nat_of_str_go 0 s).

(** ** Names and paths *)

(** [s.split(c)] for a one-character separator. *)
Fixpoint split_on (c : ascii) (s : string) : list string :=
  match s with
  | "" => [""]
  | String d s' =>
      if Ascii.eqb d c then "" :: split_on c s'
      else match split_on c s' with
           | x :: l => String d x :: l
           | [] => [String d ""]
           end
  end.

(** [PurePosixPath(s).parts] for a relative [s]: the components between
    slashes, without the empty ones and the single dots. *)
Definition parts (s : string) : list string :=
  filter (λ x, x ≠ "" ∧ x ≠ ".") (split_on "/" s).

(** The text from the last period of [s] on, when [s] has a period. *)
Fixpoint from_last_dot (s : string) : option string :=
  match s with
  | "" => None
  | String c s' =>
      match from_last_dot s' with
      | Some x => Some x
      | None => if Ascii.eqb c "." then Some s else None
      end
  end.

(** [PurePath(name).suffix]: the last period must be neither the first nor
    the last character of the name. *)
Definition suffix (name : string) : string :=
  match name with
  | "" => ""
  | String _ rest =>
      match from_last_dot rest with
      | Some x => if decide (x = ".") then "" else x
      | None => ""
      end
  end.

(** [str(PurePosixPath(s).parent)] for a normalised path [s]. *)
Fixpoint dirname_go (s : string) : option string :=
  match s with
  | "" => None
  | String c s' =>
      match dirname_go s' with
      | Some d => Some (String c d)
      | None => if Ascii.eqb c "/" then Some "" else None
      end
  end.

Definition dirname (s : string) : string :=
  match dirname_go s with
  | None => "."
  | Some "" => "/"
  | Some d => d
  end.

(** [s[:n]] *)
Fixpoint take_str (n : nat) (s : string) : string :=
  match n, s with
  | S n', String c s' => String c (take_str n' s')
  | _, _ => ""
  end.

(** [PurePath(name).stem] *)
Definition stem (name : string) : string :=
  take_str (String.length name - String.length (suffix name)) name.

(** The order of [sorted] on texts: by code point, position by position. *)
Definition str_le (s t : string) : Prop := String.leb s t = true.

#[export] Instance str_le_dec s t : Decision (str_le s t).
Proof. unfold str_le. apply _. Defined.

(** ** Predicates used in statements *)

Definition head_char (s : string) : option ascii :=
  match s with "" => None | String c _ => Some c end.

Fixpoint last_char (s : string) : option ascii :=
  match s with
  | "" => None
  | String c s' => match last_char s' with None => Some c | o => o end
  end.

Fixpoint all_str (P : ascii → bool) (s : string) : bool :=
  match s with
  | "" => true
  | String c s' => P c && all_str P s'
  end.

(** The whitespace [s.rstrip()] removes. *)
Fixpoint tail_space (s : string) : string :=
  match s with
  | "" => ""
  | String _ s' => if all_str is_space s then s else tail_space s'
  end.

(** [stripped s]: [s] neither starts nor ends with whitespace. *)
Definition stripped (s : string) : Prop :=
  (∀ c, head_char s = Some c → is_space c = false) ∧
  (∀ c, last_char s = Some c → is_space c = false).

(** ** Append *)

Lemma app_nil_r_str (s : string) : s +:+ "" = s.
Proof. induction s; simpl; congruence. Qed.

Lemma app_assoc_str (s t u : string) : (s +:+ t) +:+ u = s +:+ t +:+ u.
Proof. induction s; simpl; congruence. Qed.

Lemma app_cons_str c (s t : string) : String c s +:+ t = String c (s +:+ t).
Proof. done. Qed.

Lemma length_app_str (s t : string) :
  String.length (s +:+ t) = String.length s + String.length t.
Proof. induction s; simpl; congruence. Qed.

Lemma drop_str_app (s t : string) : drop_str (String.length s) (s +:+ t) = t.
Proof. induction s; simpl; [by destruct t|done]. Qed.

Lemma app_inj_tail_str (s t u : string) : s +:+ u = t +:+ u → s = t.
Proof.
  revert t; induction s as [|a s IH]; intros [|b t] H; simpl in H.
  - done.
  - apply (f_equal String.length) in H. simpl in H.
    rewrite length_app_str in H. lia.
  - apply (f_equal String.length) in H. simpl in H.
    rewrite length_app_str in H. lia.
  - injection H as -> H. f_equal. by apply IH.
Qed.

#[export] Hint Rewrite app_nil_r_str app_assoc_str length_app_str
  drop_str_app : epub.

(** ** Character classes are disjoint where the code relies on it *)

Lemma is_digit_not_space c : is_digit c = true → is_space c = false.
Proof. by destruct c as [[][][][][][][][]]. Qed.

Lemma is_space_not_digit c : is_space c = true → is_digit c = false.
Proof. by destruct c as [[][][][][][][][]]. Qed.

(** ** [lstrip], [rstrip], [strip] *)

Lemma lstrip_head s c : head_char (lstrip s) = Some c → is_space c = false.
Proof.
  induction s as [|d s IH]; simpl; [done|].
  destruct (is_space d) eqn:Hd; [done|]. simpl. congruence.
Qed.

Lemma lstrip_id s :
  (∀ c, head_char s = Some c → is_space c = false) → lstrip s = s.
Proof. destruct s as [|d s]; simpl; [done|]. intros H. by rewrite H. Qed.

Lemma lstrip_idemp s : lstrip (lstrip s) = lstrip s.
Proof. apply lstrip_id, lstrip_head. Qed.

Lemma rstrip_nil_iff s : rstrip s = "" ↔ all_str is_space s = true.
Proof.
  induction s as [|d s IH]; simpl; [done|].
  destruct (rstrip s) eqn:Hr, (is_space d) eqn:Hd; simpl;
    rewrite ?andb_true_iff; naive_solver.
Qed.

Lemma last_char_None s : last_char s = None → s = "".
Proof. destruct s; simpl; [done|]. by destruct (last_char s). Qed.

Lemma last_char_cons c s :
  last_char (String c s) = if decide (s = "") then Some c else last_char s.
Proof.
  simpl. destruct (last_char s) eqn:Hl.
  - rewrite decide_False; [done|]. by intros ->.
  - by rewrite (last_char_None _ Hl).
Qed.

Lemma rstrip_last s c : last_char (rstrip s) = Some c → is_space c = false.
Proof.
  induction s as [|d s IH]; simpl; [done|].
  destruct (rstrip s) as [|e r] eqn:Hr.
  - destruct (is_space d) eqn:Hd; simpl; congruence.
  - by rewrite last_char_cons, decide_False.
Qed.

Lemma rstrip_id s :
  (∀ c, last_char s = Some c → is_space c = false) → rstrip s = s.
Proof.
  induction s as [|d s IH]; [done|].
  rewrite last_char_cons. simpl. case_decide as Hs; intros H.
  - subst s. simpl. by rewrite H.
  - rewrite IH by done. by destruct s.
Qed.

Lemma rstrip_idemp s : rstrip (rstrip s) = rstrip s.
Proof. apply rstrip_id, rstrip_last. Qed.

Lemma rstrip_head s c :
  head_char (rstrip s) = Some c → head_char s = Some c.
Proof.
  destruct s as [|d s]; simpl; [done|].
  destruct (rstrip s); [destruct (is_space d)|]; simpl; congruence.
Qed.

Lemma last_char_lstrip s c :
  last_char (lstrip s) = Some c → last_char s = Some c.
Proof.
  induction s as [|d s IH]; simpl; [done|].
  destruct (is_space d); [|done].
  intros H. rewrite (IH H). done.
Qed.

Lemma strip_stripped s : stripped (strip s).
Proof.
  split; intros c.
  - apply lstrip_head.
  - intros H%last_char_lstrip. by eapply rstrip_last.
Qed.

Lemma strip_id s : stripped s → strip s = s.
Proof. intros [Hh Hl]. unfold strip. by rewrite rstrip_id, lstrip_id. Qed.

Lemma strip_idemp s : strip (strip s) = strip s.
Proof. apply strip_id, strip_stripped. Qed.

#[export] Hint Rewrite lstrip_idemp rstrip_idemp strip_idemp : epub.

(** ** [startswith], [find_sub], [split_once] *)

Lemma startswith_app p s : startswith p (p +:+ s) = true.
Proof. induction p; simpl; [done|]. by rewrite Ascii.eqb_refl. Qed.

Lemma startswith_spec p s : startswith p s = true ↔ ∃ t, s = p +:+ t.
Proof.
  split; [|intros [t ->]; apply startswith_app].
  revert s; induction p as [|a p IH]; intros s; simpl; [by eauto|].
  destruct s as [|b s]; [done|].
  intros [->%Ascii.eqb_eq [t ->]%IH]%andb_true_iff. by exists t.
Qed.

Lemma find_sub_sound p s a b : find_sub p s = Some (a, b) → s = a +:+ p +:+ b.
Proof.
  revert a b; induction s as [|d s IH]; intros a b; simpl.
  - destruct (startswith p "") eqn:Hp; [|done].
    apply startswith_spec in Hp as [t Ht]. intros; simplify_eq.
    destruct p; [|done]. by destruct t.
  - destruct (startswith p (String d s)) eqn:Hp.
    + apply startswith_spec in Hp as [t Ht]. intros; simplify_eq.
      rewrite Ht. by rewrite drop_str_app.
    + destruct (find_sub p s) as [[a' b']|]; intros; simplify_eq/=.
      by rewrite <-(IH a' b).
Qed.

Lemma split_once_sound c s a b :
  split_once c s = Some (a, b) →
  s = a +:+ String c b ∧ contains_char c a = false.
Proof.
  revert a; induction s as [|d s IH]; intros a; simpl; [done|].
  destruct (Ascii.eqb_spec d c) as [->|Hne].
  - intros; by simplify_eq.
  - destruct (split_once c s) as [[a' b']|]; intros; simplify_eq/=.
    destruct (IH a' eq_refl) as [-> ->]. split; [done|].
    by rewrite (proj2 (Ascii.eqb_neq _ _) Hne).
Qed.

Lemma split_once_None c s : split_once c s = None ↔ contains_char c s = false.
Proof.
  induction s as [|d s IH]; simpl; [done|].
  destruct (Ascii.eqb d c); simpl; [done|].
  destruct (split_once c s) as [[??]|]; simpl; naive_solver.
Qed.

(** ** [pad2] and [str_of_nat] *)

Lemma str_of_nat_inj n m : str_of_nat n = str_of_nat m → n = m.
Proof. apply (inj pretty). Qed.

Lemma pad2_small n : n < 10 → pad2 n = "0" +:+ str_of_nat n.
Proof. intros. unfold pad2. by rewrite decide_True. Qed.

Lemma pad2_large n : 10 ≤ n → pad2 n = str_of_nat n.
Proof. intros. unfold pad2. rewrite decide_False; [done|lia]. Qed.

(** ** What [strip] removes *)

Lemma drop_str_app_le n (s t : string) :
  n ≤ String.length s → drop_str n (s +:+ t) = drop_str n s +:+ t.
Proof.
  revert s; induction n as [|n IH]; intros [|c s] Hn; simpl in *;
    done || lia || (apply IH; lia).
Qed.

(** Two ways to split a text: the shorter head is a prefix of the longer. *)
Lemma app_eq_app_le (a b c d : string) :
  a +:+ b = c +:+ d → String.length c ≤ String.length a → ∃ e, a = c +:+ e.
Proof.
  revert c; induction a as [|x a IH]; intros [|y c] H Hlen; simpl in *;
    try lia; [by eexists..|].
  injection H as -> H. destruct (IH c H) as [e ->]; [lia|]. by exists e.
Qed.

Lemma all_str_app P (s t : string) :
  all_str P (s +:+ t) = all_str P s && all_str P t.
Proof. induction s as [|c s IH]; simpl; [done|]. by rewrite IH, andb_assoc. Qed.

Lemma tail_space_all s : all_str is_space s = true → tail_space s = s.
Proof. destruct s as [|c s]; [done|]. intros H. simpl in *. by rewrite H. Qed.

Lemma tail_space_spaces s : all_str is_space (tail_space s) = true.
Proof.
  induction s as [|c s IH]; [done|]. cbn [tail_space].
  by destruct (all_str is_space (String c s)) eqn:H.
Qed.

(** A text is what [rstrip] keeps of it, then the whitespace it removes. *)
Lemma rstrip_tail s : s = rstrip s +:+ tail_space s.
Proof.
  induction s as [|c s IH]; [done|]. cbn [tail_space].
  destruct (all_str is_space (String c s)) eqn:Hall.
  { by rewrite (proj2 (rstrip_nil_iff _) Hall). }
  simpl in *. destruct (rstrip s) as [|d r] eqn:Hr.
  - apply rstrip_nil_iff in Hr. rewrite Hr, andb_true_r in Hall.
    rewrite Hall. simpl. by rewrite tail_space_all.
  - rewrite app_cons_str. by f_equal.
Qed.

Lemma lstrip_lead s : ∃ l, s = l +:+ lstrip s ∧ all_str is_space l = true.
Proof.
  induction s as [|c s (l & IH & Hl)]; [by exists ""|]. simpl.
  destruct (is_space c) eqn:Hc; [|by exists ""].
  exists (String c l). simpl. by rewrite Hc, <-IH.
Qed.

Lemma rstrip_app_space s r : all_str is_space r = true → rstrip (s +:+ r) = rstrip s.
Proof.
  intros Hr. induction s as [|c s IH]; simpl.
  - by apply rstrip_nil_iff.
  - by rewrite IH.
Qed.

Lemma strip_lpad l s : all_str is_space l = true → strip (l +:+ s) = strip s.
Proof.
  unfold strip. induction l as [|c l IH]; [done|]. simpl.
  intros [Hc Hl]%andb_prop. specialize (IH Hl).
  rewrite <-IH. destruct (rstrip (l +:+ s)); simpl; by rewrite Hc.
Qed.

Lemma strip_rpad s r : all_str is_space r = true → strip (s +:+ r) = strip s.
Proof. intros Hr. unfold strip. by rewrite rstrip_app_space. Qed.

(** A text is its [strip] between two runs of whitespace, the second of
    which is [tail_space]. *)
Lemma strip_decompose s :
  ∃ l, s = l +:+ strip s +:+ tail_space s ∧ all_str is_space l = true.
Proof.
  destruct (lstrip_lead (rstrip s)) as (l & Hl & Hsp). exists l.
  split; [|done]. unfold strip. rewrite <-app_assoc_str, <-Hl.
  apply rstrip_tail.
Qed.

(** ** The order of [sorted] *)

#[export] Instance str_le_total : Total str_le.
Proof. intros s t. apply String.leb_total. Qed.

#[export] Instance str_le_antisym : AntiSymm (=) str_le.
Proof. intros s t. apply String.leb_antisym. Qed.

(** ** Decimal numbers *)

Lemma pretty_N_char_digit x : (x < 10)%N →
  is_digit (pretty_N_char x) = true ∧ (N_of_ascii (pretty_N_char x) - 48 = x)%N.
Proof.
  intros Hx. do 10 (destruct x as [|x _] using N.peano_ind; [done|]). lia.
Qed.

(** [pretty_N_go x s] puts the digits of [x] before [s]. *)
Lemma pretty_N_go_digits x s :
  nat_of_str_go 0 (pretty_N_go x s) = nat_of_str_go x s ∧
  ∃ ds, pretty_N_go x s = ds +:+ s ∧ all_str is_digit ds = true.
Proof.
  revert s. induction (N.lt_wf_0 x) as [x _ IH]; intros s.
  destruct (decide (x = 0%N)) as [->|Hx].
  { rewrite pretty_N_go_0. split; [done|]. by exists "". }
  rewrite pretty_N_go_step by lia.
  assert (x `div` 10 < x)%N as Hlt by (apply N.div_lt; lia).
  assert (x `mod` 10 < 10)%N as Hmod by (apply N.mod_lt; lia).
  destruct (pretty_N_char_digit _ Hmod) as [Hd Hv].
  destruct (IH _ Hlt (String (pretty_N_char (x `mod` 10)) s))
    as (-> & ds & -> & Hds).
  split.
  - simpl. rewrite Hv. f_equal. pose proof (N.div_mod x 10). lia.
  - exists (ds +:+ String (pretty_N_char (x `mod` 10)) "").
    rewrite app_assoc_str, all_str_app, Hds. simpl. by rewrite Hd.
Qed.

Lemma str_of_nat_digits n :
  all_str is_digit (str_of_nat n) = true ∧ str_of_nat n ≠ "".
Proof.
  unfold str_of_nat, pretty, pretty_nat, pretty, pretty_N.
  case_decide; [done|].
  destruct (pretty_N_go_digits (N.of_nat n) "") as (_ & ds & Heq & Hds).
  rewrite Heq, app_nil_r_str. split; [done|]. intros ->.
  rewrite pretty_N_go_step in Heq by lia.
  destruct (pretty_N_go_digits (N.of_nat n `div` 10)
              (String (pretty_N_char (N.of_nat n `mod` 10)) ""))
    as (_ & ds' & Heq' & _).
  rewrite Heq' in Heq. by destruct ds'.
Qed.

Lemma nat_of_str_of_nat n : nat_of_str (str_of_nat n) = n.
Proof.
  unfold nat_of_str, str_of_nat, pretty, pretty_nat, pretty, pretty_N.
  case_decide as Hn; [simpl; lia|].
  rewrite (proj1 (pretty_N_go_digits _ _)). simpl. lia.
Qed.

Lemma pad2_digits n : all_str is_digit (pad2 n) = true ∧ pad2 n ≠ "".
Proof.
  destruct (str_of_nat_digits n) as [Hd Hne]. unfold pad2.
  case_decide; [|done]. split; [by simpl|done].
Qed.

Lemma nat_of_pad2 n : nat_of_str (pad2 n) = n.
Proof.
  unfold pad2. case_decide; apply nat_of_str_of_nat.
Qed.

Lemma pad2_inj n m : pad2 n = pad2 m → n = m.
Proof. intros H. by rewrite <-(nat_of_pad2 n), H, nat_of_pad2. Qed.

(** Two numbers followed by text that does not start with a digit: the
    numbers and the texts agree when the whole texts do. *)
Lemma digits_app_inj (d1 d2 s t : string) :
  all_str is_digit d1 = true → all_str is_digit d2 = true →
  (∀ c, head_char s = Some c → is_digit c = false) →
  (∀ c, head_char t = Some c → is_digit c = false) →
  d1 +:+ s = d2 +:+ t → d1 = d2 ∧ s = t.
Proof.
  revert d2; induction d1 as [|a d1 IH]; intros [|b d2]; simpl;
    intros H1 H2 Hs Ht Heq.
  - done.
  - subst s. apply andb_prop in H2 as [Hb _]. by rewrite (Hs b) in Hb.
  - subst t. apply andb_prop in H1 as [Ha _]. by rewrite (Ht a) in Ha.
  - apply andb_prop in H1 as [_ H1]. apply andb_prop in H2 as [_ H2].
    injection Heq as -> Heq. destruct (IH d2) as [-> ->]; done.
Qed.
