(* ===== verification/Regex.v ===== *)
(** * Regex: the scanning loop behind [re.sub] and [re.finditer]

    Both calls walk the subject from left to right; at each position they try
    the pattern, anchored there.  On a match they emit it and resume after
    its last character; otherwise they pass over one character.  [scan] is
    that loop, parameterised by the anchored matcher of the pattern.  The
    two patterns of the builder ([Sanitizer.match_numbered] and
    [Extractor.match_fence]) never match the empty string, which is what the
    class [Pattern] records; empty matches, which CPython treats specially,
    are outside the model.

    [scan_ind] is the induction principle every client proof uses: a
    property of all subjects follows from the empty subject, a literal
    character in front of a subject, and a match in front of a subject. *)

From Stdlib Require Import Ascii.
From stdpp Require Import base tactics list strings.
From S2P Require Import Prelude PyStr.

#[local] Arguments String.append !_ _ : simpl nomatch.

(** An anchored matcher: the value of the match at the start of the subject
    and the number of characters the match spans. *)
Definition matcher (A : Type) : Type := string → option (A * nat).

(** What the scanning loop needs of a pattern: a match spans at least one
    character and stays inside the subject. *)
Class Pattern {A : Type} (m : matcher A) : Prop := {
  span_pos : ∀ s a n, m s = Some (a, n) → 0 < n;
  span_le : ∀ s a n, m s = Some (a, n) → n ≤ String.length s
}.

Inductive token (A : Type) : Type :=
| Lit (c : ascii)
| Hit (a : A).

Arguments Lit {A} c.
Arguments Hit {A} a.

(** [scan m skip s]: the tokens of [s]; the first [skip] characters belong
    to a match that was already emitted. *)
Fixpoint scan {A} (m : matcher A) (skip : nat) (s : string) : list (token A) :=
  match s with
  | "" => []
  | String c s' =>
      match skip with
      | S k => scan m k s'
      | 0 =>
          match m s with
          | Some (a, n) => Hit a :: scan m (pred n) s'
          | None => Lit c :: scan m 0 s'
          end
      end
  end.

(** [re.finditer(pattern, s)]: the matches, left to right. *)
Definition finditer {A} (m : matcher A) (s : string) : list A :=
  omap (λ t, match t with Hit a => Some a | Lit _ => None end) (scan m 0 s).

Definition render {A} (repl : A → string) (t : token A) : string :=
  match t with
  | Lit c => String c ""
  | Hit a => repl a
  end.

Fixpoint concat_str (l : list string) : string :=
  match l with
  | [] => ""
  | x :: l' => x +:+ concat_str l'
  end.

(** [re.sub(pattern, repl, s)] with a callable (or template) replacement. *)
Definition sub {A} (m : matcher A) (repl : A → string) (s : string) : string :=
  concat_str (render repl <$> scan m 0 s).

(** [re.sub] with a callable replacement that reads and writes a state and
    may raise: the callable runs once per match, left to right, and the first
    exception aborts the call. *)
Fixpoint sub_st {A S E} (repl : A → S → result E (string * S))
    (ts : list (token A)) (st : S) : result E (string * S) :=
  match ts with
  | [] => Ok ("", st)
  | Lit c :: ts' =>
      '(r, st') ← sub_st repl ts' st; mret (String c r, st')
  | Hit a :: ts' =>
      '(x, st1) ← repl a st;
      '(r, st2) ← sub_st repl ts' st1;
      mret (x +:+ r, st2)
  end.

(** ** The loop, one step at a time *)

Section scan.
Context {A : Type} (m : matcher A) `{!Pattern m}.

Lemma scan_skip n s : scan m n s = scan m 0 (drop_str n s).
Proof.
  revert n. induction s as [|c s IH]; intros [|n]; simpl; auto.
Qed.

Lemma scan_lit c s : m (String c s) = None →
  scan m 0 (String c s) = Lit c :: scan m 0 s.
Proof. intros H. simpl. by rewrite H. Qed.

Lemma scan_hit s a n : m s = Some (a, n) →
  scan m 0 s = Hit a :: scan m 0 (drop_str n s).
Proof.
  intros H. pose proof (span_pos _ _ _ H). pose proof (span_le _ _ _ H).
  destruct s as [|c s]; simpl in *; [lia|]. rewrite H.
  destruct n as [|n]; [lia|]. simpl. by rewrite scan_skip.
Qed.

Lemma length_drop_str n s :
  String.length (drop_str n s) = String.length s - n.
Proof. revert n; induction s; intros [|n]; simpl; auto. Qed.

(** Induction over the subject, following the loop. *)
Lemma scan_ind (P : string → Prop) :
  P "" →
  (∀ c s, m (String c s) = None → P s → P (String c s)) →
  (∀ s a n, m s = Some (a, n) → P (drop_str n s) → P s) →
  ∀ s, P s.
Proof.
  intros Hnil Hlit Hhit s.
  remember (String.length s) as k eqn:Hk. revert s Hk.
  induction k as [k IH] using lt_wf_ind; intros s ->.
  destruct s as [|c s]; [done|].
  destruct (m (String c s)) as [[a n]|] eqn:Hm.
  - eapply Hhit; [done|]. eapply IH; [|reflexivity].
    pose proof (span_pos _ _ _ Hm). rewrite length_drop_str. simpl. lia.
  - apply Hlit; [done|]. eapply IH; [|reflexivity]. simpl. lia.
Qed.

Lemma finditer_lit c s : m (String c s) = None →
  finditer m (String c s) = finditer m s.
Proof. intros H. unfold finditer. by rewrite scan_lit. Qed.

Lemma finditer_hit s a n : m s = Some (a, n) →
  finditer m s = a :: finditer m (drop_str n s).
Proof. intros H. unfold finditer. by erewrite scan_hit. Qed.

Lemma finditer_nil : finditer m "" = [].
Proof. done. Qed.

(** A pattern of the class matches no empty subject. *)
Lemma pattern_nil : m "" = None.
Proof.
  destruct (m "") as [[a n]|] eqn:H; [|done].
  pose proof (span_pos _ _ _ H). pose proof (span_le _ _ _ H). simpl in *. lia.
Qed.

Context (repl : A → string).

Lemma sub_nil : sub m repl "" = "".
Proof. done. Qed.

Lemma sub_lit c s : m (String c s) = None →
  sub m repl (String c s) = String c (sub m repl s).
Proof. intros H. unfold sub. by rewrite scan_lit. Qed.

Lemma sub_hit s a n : m s = Some (a, n) →
  sub m repl s = repl a +:+ sub m repl (drop_str n s).
Proof. intros H. unfold sub. by erewrite scan_hit. Qed.

(** A subject without a match anywhere is returned as it is. *)
Lemma sub_no_match s :
  (∀ t u, s = t +:+ u → m u = None) → sub m repl s = s.
Proof.
  induction s as [|c s IH]; intros H; [done|].
  rewrite sub_lit by (by apply (H "")). f_equal. apply IH.
  intros t u ->. by apply (H (String c t)).
Qed.

Lemma finditer_no_match s :
  (∀ t u, s = t +:+ u → m u = None) → finditer m s = [].
Proof.
  induction s as [|c s IH]; intros H; [done|].
  rewrite finditer_lit by (by apply (H "")). apply IH.
  intros t u ->. by apply (H (String c t)).
Qed.

(** No match is found exactly when the pattern matches at no position. *)
Lemma finditer_nil_iff s :
  finditer m s = [] ↔ ∀ t u, s = t +:+ u → m u = None.
Proof.
  split; [|apply finditer_no_match].
  induction s as [|c s IH]; intros Hf t u Hs.
  - destruct t; [|done]. simpl in Hs. subst u. apply pattern_nil.
  - destruct (m (String c s)) as [[a n]|] eqn:Hm.
    { by rewrite (finditer_hit _ _ _ Hm) in Hf. }
    rewrite finditer_lit in Hf by done.
    destruct t as [|d t]; simpl in Hs; [by subst u|].
    injection Hs as -> ->. by eapply IH.
Qed.

End scan.

(** ** Stateful replacement *)

Section sub_st.
Context {A S E : Type}.
Implicit Types (f : A → S → result E (string * S)) (ts : list (token A)).

(** A replacement that neither fails nor touches the state is [sub]. *)
Lemma sub_st_pure f (g : A → string) ts st :
  (∀ a st', Hit a ∈ ts → f a st' = Ok (g a, st')) →
  sub_st f ts st = Ok (concat_str (render g <$> ts), st).
Proof.
  induction ts as [|[c|a] ts IH]; intros H; simpl; [done|..].
  - rewrite IH; [done|]. intros; apply H. by right.
  - rewrite (H a) by left. simpl_result.
    rewrite IH; [done|]. intros; apply H. by right.
Qed.

(** The first failing match aborts the call with its exception. *)
Lemma sub_st_fail f a ts st e :
  f a st = Err e → sub_st f (Hit a :: ts) st = Err e.
Proof. intros H. simpl. by rewrite H. Qed.

Lemma sub_st_lit f c ts st :
  sub_st f (Lit c :: ts) st =
  '(r, st') ← sub_st f ts st; mret (String c r, st').
Proof. done. Qed.

(** A property of the state that every replacement keeps is kept by the
    call. *)
Lemma sub_st_inv (I : S → Prop) f ts st r st' :
  (∀ a st0 x st1, Hit a ∈ ts → I st0 → f a st0 = Ok (x, st1) → I st1) →
  I st → sub_st f ts st = Ok (r, st') → I st'.
Proof.
  revert st r st'; induction ts as [|[c|a] ts IH]; intros st r st' Hf Hst; simpl.
  - by intros [= _ <-].
  - destruct (sub_st f ts st) as [[r0 st0]|] eqn:H0; simpl_result; [|done].
    intros [= _ <-]. eapply IH; [|done..]. intros; eapply Hf; [by right|done..].
  - destruct (f a st) as [[x st1]|] eqn:H1; simpl_result; [|done].
    destruct (sub_st f ts st1) as [[r0 st2]|] eqn:H2; simpl_result; [|done].
    intros [= _ <-]. eapply IH; [|by eapply Hf; [left|..]|done].
    intros; eapply Hf; [by right|done..].
Qed.

(** When, in the states the call goes through, the replacement of [a]
    returns [g a], the call returns the text [sub] builds with [g]. *)
Lemma sub_st_output (I : S → Prop) f (g : A → string) ts st :
  (∀ a st0, Hit a ∈ ts → I st0 → ∃ st1, f a st0 = Ok (g a, st1) ∧ I st1) →
  I st →
  ∃ st', sub_st f ts st = Ok (concat_str (render g <$> ts), st') ∧ I st'.
Proof.
  revert st; induction ts as [|[c|a] ts IH]; intros st Hf Hst; simpl.
  - eauto.
  - destruct (IH st) as (st' & -> & ?); [|done|by eexists].
    intros; apply Hf; [by right|done].
  - destruct (Hf a st) as (st1 & -> & H1); [left|done|]. simpl_result.
    destruct (IH st1) as (st' & -> & ?); [|done|by eexists].
    intros; apply Hf; [by right|done].
Qed.

(** A call that raises raises the exception of one of its replacements. *)
Lemma sub_st_Err (I : S → Prop) f ts st e :
  (∀ a st0 x st1, Hit a ∈ ts → I st0 → f a st0 = Ok (x, st1) → I st1) →
  I st → sub_st f ts st = Err e →
  ∃ a st0, Hit a ∈ ts ∧ I st0 ∧ f a st0 = Err e.
Proof.
  revert st; induction ts as [|[c|a] ts IH]; intros st Hf Hst; simpl; [done|..].
  - destruct (sub_st f ts st) as [[r0 st0]|] eqn:H0; simpl_result; [done|].
    intros [= ->]. destruct (IH st) as (a & st1 & ? & ? & ?); [|done..|].
    + intros; eapply Hf; [by right|done..].
    + exists a, st1. split; [by right|done].
  - destruct (f a st) as [[x st1]|] eqn:H1; simpl_result.
    + destruct (sub_st f ts st1) as [[r0 st2]|] eqn:H2; simpl_result; [done|].
      intros [= ->]. destruct (IH st1) as (b & st3 & ? & ? & ?); [| |done|].
      * intros; eapply Hf; [by right|done..].
      * eapply Hf; [left|done..].
      * exists b, st3. split; [by right|done].
    + intros [= ->]. exists a, st. split; [left|done].
Qed.

End sub_st.

Lemma elem_of_finditer {A} (m : matcher A) s a :
  a ∈ finditer m s ↔ Hit a ∈ scan m 0 s.
Proof.
  unfold finditer. rewrite list_elem_of_omap. split.
  - intros ([c|b] & Hin & Heq); by simplify_eq.
  - intros Hin. by exists (Hit a).
Qed.
