(* ===== verification/Sanitizer.v ===== *)
(** * Sanitizer: [sanitize_mermaid]

    [sanitize_mermaid] is one call of [re.sub]: every occurrence of an
    opening bracket, an optional single or double quote (group 1), a run of
    digits (group 2), a period and a whitespace character (group 3) is
    replaced by the bracket, groups 1 and 2, a backslash, the period and
    group 3.

    [match_numbered] is the pattern anchored at the start of its argument.
    Its three groups are returned as they are captured.  The optional quote
    and the digit run are greedy; the matcher needs no backtracking because a
    quote is not a digit and a digit is not a period, which lemma
    [match_numbered_spec] makes precise: the matcher succeeds exactly on the
    strings the pattern describes.  [escape_numbered] is the replacement
    template and [sanitize_mermaid] the substitution, through the scanning
    loop of [Regex].

    Theorems: the functional characterisation of the pattern, that a
    sanitized text holds no occurrence of the pattern, idempotence, that a
    text is unchanged exactly when it holds no occurrence, and the length of
    the result. *)

From Stdlib Require Import Ascii.
From stdpp Require Import base tactics list strings.
From S2P Require Import Prelude PyStr Regex.

#[local] Arguments String.append !_ _ : simpl nomatch.

(** The character class of group 1: the double quote (U+0022) and the
    single quote. *)
Definition is_quote (c : ascii) : bool := Ascii.eqb c "034" || Ascii.eqb c "'".

(** Group 1, an optional quote: the quote if there is one, and the rest. *)
Definition opt_quote (s : string) : string * string :=
  match s with
  | String c r => if is_quote c then (String c "", r) else ("", s)
  | "" => ("", "")
  end.

(** A greedy run of digits: the longest one, and the rest. *)
Fixpoint span_digits (s : string) : string * string :=
  match s with
  | String c s' =>
      if is_digit c
      then let '(d, r) := span_digits s' in (String c d, r)
      else ("", s)
  | "" => ("", "")
  end.

(** The groups of a match: the quote, the digits, the whitespace. *)
Definition groups : Type := string * string * ascii.

(** The pattern, anchored: bracket, optional quote, one digit or more,
    period, whitespace. *)
Definition match_numbered : matcher groups := λ s,
  match s with
  | String c s1 =>
      if Ascii.eqb c "[" then
        let '(q, s2) := opt_quote s1 in
        let '(ds, s3) := span_digits s2 in
        match ds, s3 with
        | String _ _, String p (String w _) =>
            if Ascii.eqb p "." && is_space w
            then Some ((q, ds, w), 3 + String.length q + String.length ds)
            else None
        | _, _ => None
        end
      else None
  | "" => None
  end.

(** The replacement template. *)
Definition escape_numbered (g : groups) : string :=
  let '(q, ds, w) := g in "[" +:+ q +:+ ds +:+ "\." +:+ String w "".

(** [sanitize_mermaid(mermaid_code)] *)
Definition sanitize_mermaid (mermaid_code : string) : string :=
  sub match_numbered escape_numbered mermaid_code.

(** The text a match spans. *)
Definition matched_text (g : groups) : string :=
  let '(q, ds, w) := g in "[" +:+ q +:+ ds +:+ "." +:+ String w "".

(** [no_bracket s]: the text holds no opening bracket. *)
Definition no_bracket (s : string) : bool :=
  all_str (λ c, negb (Ascii.eqb c "[")) s.

(** What the groups of a match look like. *)
Definition groups_wf (g : groups) : Prop :=
  let '(q, ds, w) := g in
  (q = "" ∨ ∃ c, is_quote c = true ∧ q = String c "") ∧
  ds ≠ "" ∧ all_str is_digit ds = true ∧ is_space w = true.

(** [occurs s]: the pattern matches somewhere in [s]. *)
(** [straddles s w]: in [s +:+ w], an occurrence of the pattern starts in
    [s] and ends in [w]. *)
Fixpoint straddles (s w : string) : bool :=
  match s with
  | "" => false
  | String _ s' =>
      match match_numbered (s +:+ w) with
      | Some (_, n) => bool_decide (String.length s < n)
      | None => false
      end || straddles s' w
  end.

Definition occurs (s : string) : Prop :=
  ∃ t u, s = t +:+ u ∧ is_Some (match_numbered u).

(** ** Character facts *)

Lemma quote_not_bracket c : is_quote c = true → Ascii.eqb c "[" = false.
Proof.
  unfold is_quote. intros [->%Ascii.eqb_eq| ->%Ascii.eqb_eq]%orb_true_iff; done.
Qed.

Lemma quote_not_digit c : is_quote c = true → is_digit c = false.
Proof.
  unfold is_quote. intros [->%Ascii.eqb_eq| ->%Ascii.eqb_eq]%orb_true_iff; done.
Qed.

Lemma digit_not_bracket c : is_digit c = true → Ascii.eqb c "[" = false.
Proof.
  destruct (Ascii.eqb_spec c "[") as [->|]; [done|done].
Qed.

Lemma digit_not_quote c : is_digit c = true → is_quote c = false.
Proof.
  intros H. destruct (is_quote c) eqn:Hq; [|done].
  by rewrite (quote_not_digit _ Hq) in H.
Qed.

Lemma space_not_bracket c : is_space c = true → Ascii.eqb c "[" = false.
Proof.
  destruct (Ascii.eqb_spec c "[") as [->|]; [done|done].
Qed.

(** ** [span_digits] and [opt_quote] *)

Lemma span_digits_app s ds r :
  span_digits s = (ds, r) →
  s = ds +:+ r ∧ all_str is_digit ds = true ∧
  (∀ c, head_char r = Some c → is_digit c = false).
Proof.
  revert ds; induction s as [|c s IH]; intros ds; simpl.
  - intros; by simplify_eq.
  - destruct (is_digit c) eqn:Hc.
    + destruct (span_digits s) as [d r'] eqn:Hs. intros; simplify_eq.
      destruct (IH d eq_refl) as (-> & ? & ?). simpl. by rewrite Hc.
    + intros; simplify_eq. simpl. split_and!; [done..|]. congruence.
Qed.

Lemma span_digits_intro ds r :
  all_str is_digit ds = true →
  (∀ c, head_char r = Some c → is_digit c = false) →
  span_digits (ds +:+ r) = (ds, r).
Proof.
  intros Hds Hr. induction ds as [|c ds IH]; simpl in *.
  - destruct r as [|c r]; [done|]. simpl. by rewrite (Hr c).
  - apply andb_true_iff in Hds as [-> Hds]. by rewrite IH.
Qed.

Lemma opt_quote_app s q r :
  opt_quote s = (q, r) →
  s = q +:+ r ∧
  ((q = "" ∧ ∀ c, head_char r = Some c → is_quote c = false) ∨
   ∃ c, is_quote c = true ∧ q = String c "").
Proof.
  destruct s as [|c s]; simpl.
  - intros; simplify_eq. split; [done|]. by left.
  - destruct (is_quote c) eqn:Hc; intros; simplify_eq; (split; [done|]).
    + right; eauto.
    + left. split; [done|]. simpl. congruence.
Qed.

Lemma opt_quote_intro q r :
  (q = "" ∧ (∀ c, head_char r = Some c → is_quote c = false)) ∨
  (∃ c, is_quote c = true ∧ q = String c "") →
  opt_quote (q +:+ r) = (q, r).
Proof.
  intros [[-> Hr]|(c & Hc & ->)]; simpl; [|by rewrite Hc].
  destruct r as [|c r]; [done|]. simpl. by rewrite (Hr c).
Qed.

(** A well-formed tail of a match, followed by anything that does not start
    with a digit, is split as the pattern would split it. *)
Lemma split_tail q ds r :
  (q = "" ∨ ∃ c, is_quote c = true ∧ q = String c "") →
  ds ≠ "" → all_str is_digit ds = true →
  (∀ c, head_char r = Some c → is_digit c = false) →
  opt_quote (q +:+ ds +:+ r) = (q, ds +:+ r) ∧
  span_digits (ds +:+ r) = (ds, r).
Proof.
  intros Hq Hne Hds Hr. split; [|by apply span_digits_intro].
  apply opt_quote_intro. destruct Hq as [->|?]; [left|by right].
  split; [done|]. destruct ds as [|d ds]; [done|]. simpl in *.
  apply andb_true_iff in Hds as [Hd _]. intros ? [= <-].
  by apply digit_not_quote.
Qed.

(** ** The pattern *)

Lemma matched_text_app q ds w rest :
  matched_text (q, ds, w) +:+ rest =
  String "[" (q +:+ ds +:+ String "." (String w rest)).
Proof. unfold matched_text. by autorewrite with epub. Qed.

Lemma length_matched_text q ds w :
  String.length (matched_text (q, ds, w)) =
  3 + String.length q + String.length ds.
Proof.
  unfold matched_text. rewrite ?length_app_str. simpl.
  rewrite ?length_app_str. simpl. lia.
Qed.

Lemma escape_numbered_app q ds w rest :
  escape_numbered (q, ds, w) +:+ rest =
  String "[" (q +:+ ds +:+ String "\" (String "." (String w rest))).
Proof. unfold escape_numbered. by autorewrite with epub. Qed.

(** The matcher succeeds exactly on the texts the pattern describes, and
    captures their parts. *)
Lemma match_numbered_spec s g n :
  match_numbered s = Some (g, n) ↔
  ∃ rest, s = matched_text g +:+ rest ∧ groups_wf g ∧
          n = String.length (matched_text g).
Proof.
  destruct g as [[q ds] w]. split.
  - intros Hm. destruct s as [|c s1]; simpl in Hm; [done|].
    destruct (Ascii.eqb_spec c "[") as [->|]; [|done].
    destruct (opt_quote s1) as [q' s2] eqn:Hq.
    destruct (span_digits s2) as [ds' s3] eqn:Hd.
    apply opt_quote_app in Hq as [-> Hq].
    apply span_digits_app in Hd as (-> & Hds & _).
    destruct ds' as [|d ds']; [done|]. destruct s3 as [|p [|w' rest]]; [done..|].
    destruct (Ascii.eqb_spec p ".") as [->|]; [|done].
    destruct (is_space w') eqn:Hw; [|done]. simpl in Hm; simplify_eq.
    exists rest. rewrite length_matched_text, matched_text_app.
    split_and!; [done| |simpl; lia].
    split_and!; [|done..]. destruct Hq as [[-> _]|?]; [by left|by right].
  - intros (rest & -> & (Hq & Hne & Hds & Hw) & ->).
    rewrite length_matched_text, matched_text_app. simpl.
    destruct (split_tail q ds (String "." (String w rest))) as [-> ->];
      [done..|by intros ? [= <-]|].
    destruct ds; [done|]. simpl. by rewrite Hw.
Qed.

#[export] Instance match_numbered_pattern : Pattern match_numbered.
Proof.
  split; intros s [[q ds] w] n (rest & -> & _ & ->)%match_numbered_spec.
  - simpl. lia.
  - rewrite length_app_str. lia.
Qed.

Lemma match_numbered_not_bracket c s :
  Ascii.eqb c "[" = false → match_numbered (String c s) = None.
Proof. intros H. simpl. by rewrite H. Qed.

Lemma no_bracket_app s t :
  no_bracket (s +:+ t) = no_bracket s && no_bracket t.
Proof.
  unfold no_bracket. induction s as [|c s IH]; simpl; [done|].
  by rewrite IH, andb_assoc.
Qed.

Lemma no_bracket_digits ds : all_str is_digit ds = true → no_bracket ds = true.
Proof.
  unfold no_bracket. induction ds as [|c ds IH]; simpl; [done|].
  intros [Hc ?]%andb_true_iff. by rewrite (digit_not_bracket _ Hc), IH.
Qed.

(** The tail of a match holds no bracket. *)
Lemma groups_wf_no_bracket q ds w :
  groups_wf (q, ds, w) → no_bracket (q +:+ ds) = true ∧ Ascii.eqb w "[" = false.
Proof.
  intros (Hq & _ & Hds & Hw). rewrite no_bracket_app, (no_bracket_digits ds), andb_true_r by done.
  split; [|by apply space_not_bracket].
  destruct Hq as [->|(c & Hc & ->)]; [done|].
  unfold no_bracket. simpl. by rewrite (quote_not_bracket _ Hc).
Qed.

(** ** The substitution *)

Lemma sanitize_nil : sanitize_mermaid "" = "".
Proof. done. Qed.

Lemma sanitize_lit c s : match_numbered (String c s) = None →
  sanitize_mermaid (String c s) = String c (sanitize_mermaid s).
Proof. apply sub_lit. Qed.

Lemma sanitize_no_bracket p s : no_bracket p = true →
  sanitize_mermaid (p +:+ s) = p +:+ sanitize_mermaid s.
Proof.
  unfold no_bracket. induction p as [|c p IH]; simpl; [done|].
  intros [Hc%negb_true_iff Hp]%andb_true_iff.
  rewrite sanitize_lit by (by apply match_numbered_not_bracket).
  by rewrite IH.
Qed.

Lemma sanitize_hit g rest : groups_wf g →
  sanitize_mermaid (matched_text g +:+ rest) =
  escape_numbered g +:+ sanitize_mermaid rest.
Proof.
  intros Hg. unfold sanitize_mermaid.
  rewrite (sub_hit match_numbered escape_numbered _ g
             (String.length (matched_text g))).
  - by rewrite drop_str_app.
  - apply match_numbered_spec; eauto.
Qed.

(** The first character survives sanitizing. *)
Lemma sanitize_head s : head_char (sanitize_mermaid s) = head_char s.
Proof.
  destruct s as [|c s]; [done|].
  destruct (match_numbered (String c s)) as [[[[q ds] w] n]|] eqn:Hm.
  - apply match_numbered_spec in Hm as (rest & Hs & Hg & _).
    rewrite Hs, sanitize_hit by done. done.
  - by rewrite sanitize_lit.
Qed.

Lemma sanitize_cons_inv c s :
  ∃ r, sanitize_mermaid (String c s) = String c r.
Proof.
  pose proof (sanitize_head (String c s)) as H.
  destruct (sanitize_mermaid (String c s)) as [|d r]; simplify_eq/=. eauto.
Qed.

(** ** No occurrence is left *)

Lemma opt_quote_sanitize s q r :
  opt_quote s = (q, r) →
  opt_quote (sanitize_mermaid s) = (q, sanitize_mermaid r).
Proof.
  destruct s as [|c s]; simpl; [by intros; simplify_eq|].
  destruct (is_quote c) eqn:Hc; intros; simplify_eq.
  - rewrite sanitize_lit
      by (by apply match_numbered_not_bracket, quote_not_bracket). simpl.
    by rewrite Hc.
  - destruct (sanitize_cons_inv c s) as [r ->]. simpl. by rewrite Hc.
Qed.

Lemma span_digits_sanitize s ds r :
  span_digits s = (ds, r) →
  span_digits (sanitize_mermaid s) = (ds, sanitize_mermaid r).
Proof.
  intros (-> & Hds & Hr)%span_digits_app.
  rewrite sanitize_no_bracket by (by apply no_bracket_digits).
  apply span_digits_intro; [done|]. intros c. rewrite sanitize_head. apply Hr.
Qed.

(** Trying the pattern in front of a sanitized text gives what it gives in
    front of the text itself. *)
Lemma match_numbered_sanitize c s :
  match_numbered (String c (sanitize_mermaid s)) = match_numbered (String c s).
Proof.
  simpl. destruct (Ascii.eqb c "["); [|done].
  destruct (opt_quote s) as [q s2] eqn:Hq.
  rewrite (opt_quote_sanitize _ _ _ Hq).
  destruct (span_digits s2) as [ds s3] eqn:Hd.
  rewrite (span_digits_sanitize _ _ _ Hd).
  destruct ds as [|d ds]; [done|].
  destruct s3 as [|p s4]; [done|].
  destruct (Ascii.eqb_spec p ".") as [->|Hp].
  - rewrite sanitize_lit by done.
    destruct s4 as [|w s5]; [done|].
    by destruct (sanitize_cons_inv w s5) as [r ->].
  - destruct (sanitize_cons_inv p s4) as [r ->].
    apply Ascii.eqb_neq in Hp. rewrite Hp. simpl. by destruct r, s4.
Qed.

(** The replacement of a match is not a match. *)
Lemma match_numbered_escaped g rest : groups_wf g →
  match_numbered (escape_numbered g +:+ rest) = None.
Proof.
  destruct g as [[q ds] w]. intros (Hq & Hne & Hds & Hw).
  rewrite escape_numbered_app. simpl.
  destruct (split_tail q ds (String "\" (String "." (String w rest))))
    as [-> ->]; [done..|by intros ? [= <-]|].
  by destruct ds.
Qed.

(** The replacement of a match is a bracket followed by text without one. *)
Lemma escape_numbered_tail g : groups_wf g →
  ∃ p, no_bracket p = true ∧
       ∀ rest, escape_numbered g +:+ rest = String "[" (p +:+ rest).
Proof.
  destruct g as [[q ds] w]. intros Hg.
  destruct (groups_wf_no_bracket _ _ _ Hg) as [Hqd Hw].
  exists (q +:+ ds +:+ "\." +:+ String w ""). split.
  - rewrite <-app_assoc_str, no_bracket_app, Hqd.
    unfold no_bracket. simpl. by rewrite Hw.
  - intros rest. unfold escape_numbered. by autorewrite with epub.
Qed.

(** ** Sanitizing and the text that follows *)

(** A match depends only on the text it covers. *)
Lemma match_numbered_app u w g n :
  match_numbered u = Some (g, n) → match_numbered (u +:+ w) = Some (g, n).
Proof.
  intros (rest & -> & Hg & ->)%match_numbered_spec.
  apply match_numbered_spec. exists (rest +:+ w). by rewrite app_assoc_str.
Qed.

Lemma match_numbered_app_inv u w g n :
  match_numbered (u +:+ w) = Some (g, n) → n ≤ String.length u →
  match_numbered u = Some (g, n).
Proof.
  intros (rest & Heq & Hg & ->)%match_numbered_spec Hn.
  destruct (app_eq_app_le _ _ _ _ Heq Hn) as [e ->].
  apply match_numbered_spec. eauto.
Qed.

Lemma space_no_bracket w : all_str is_space w = true → no_bracket w = true.
Proof.
  unfold no_bracket. induction w as [|c w IH]; simpl; [done|].
  intros [Hc%space_not_bracket Hw]%andb_prop. rewrite Hc. auto.
Qed.

Lemma straddles_drop n s w :
  straddles s w = false → straddles (drop_str n s) w = false.
Proof.
  revert s; induction n as [|n IH]; intros [|c s]; simpl; try done.
  intros [_ H]%orb_false_elim. by apply IH.
Qed.

Lemma straddles_None c s w :
  straddles (String c s) w = false → match_numbered (String c s) = None →
  match_numbered (String c s +:+ w) = None.
Proof.
  cbn [straddles]. intros [H _]%orb_false_elim Hm.
  destruct (match_numbered (String c s +:+ w)) as [[g n]|] eqn:Hw; [|done].
  apply bool_decide_eq_false in H.
  apply match_numbered_app_inv in Hw; [congruence|lia].
Qed.

(** Text that holds no bracket and follows [s] is left alone, unless an
    occurrence of the pattern ends in it. *)
Lemma sanitize_app_tail s w :
  no_bracket w = true → straddles s w = false →
  sanitize_mermaid (s +:+ w) = sanitize_mermaid s +:+ w.
Proof.
  intros Hw. induction s as [|c s Hm IH|s g n Hm IH] using (scan_ind match_numbered);
    intros Hs.
  - pose proof (sanitize_no_bracket w "" Hw) as H.
    rewrite sanitize_nil, !app_nil_r_str in H. by rewrite sanitize_nil.
  - rewrite (sanitize_lit c s) by done. rewrite app_cons_str, sanitize_lit.
    + rewrite app_cons_str, IH; [done|]. by apply orb_false_elim in Hs as [_ ?].
    + by apply (straddles_None c s w).
  - pose proof (span_le _ _ _ Hm) as Hle.
    unfold sanitize_mermaid in *.
    rewrite (sub_hit _ _ s g n), (sub_hit _ _ (s +:+ w) g n);
      [|by apply match_numbered_app|done].
    rewrite drop_str_app_le, IH, app_assoc_str; [done| |done].
    by apply straddles_drop.
Qed.

(** ** Main results *)

(** C6. Sanitizing is idempotent: a second pass changes nothing. *)
Theorem sanitize_idempotent s :
  sanitize_mermaid (sanitize_mermaid s) = sanitize_mermaid s.
Proof.
  induction s as [|c s Hm IH|s g n Hm IH] using (scan_ind match_numbered).
  - done.
  - rewrite (sanitize_lit c s) by done.
    rewrite sanitize_lit by (by rewrite match_numbered_sanitize).
    by rewrite IH.
  - apply match_numbered_spec in Hm as (rest & -> & Hg & ->).
    rewrite drop_str_app in IH. rewrite sanitize_hit by done.
    pose proof (match_numbered_escaped g (sanitize_mermaid rest) Hg) as Hesc.
    destruct (escape_numbered_tail g Hg) as (p & Hp & Heq).
    rewrite Heq in Hesc |- *.
    by rewrite sanitize_lit, sanitize_no_bracket, IH.
Qed.

(** The result grows by one character for each occurrence. *)
Theorem sanitize_length s :
  String.length (sanitize_mermaid s) =
  String.length s + length (finditer match_numbered s).
Proof.
  induction s as [|c s Hm IH|s g n Hm IH] using (scan_ind match_numbered).
  - done.
  - rewrite sanitize_lit, finditer_lit by done. simpl. by rewrite IH.
  - rewrite (finditer_hit _ _ _ _ Hm).
    apply match_numbered_spec in Hm as (rest & -> & Hg & ->).
    rewrite drop_str_app in *. rewrite sanitize_hit by done.
    destruct g as [[q ds] w]. rewrite !length_app_str, IH, length_matched_text.
    unfold escape_numbered. rewrite ?length_app_str. simpl.
    rewrite ?length_app_str. simpl. lia.
Qed.

(** A text is returned unchanged exactly when the pattern occurs
    nowhere in it. *)
Theorem sanitize_unchanged_iff s :
  sanitize_mermaid s = s ↔ ¬ occurs s.
Proof.
  unfold occurs. split.
  - intros Heq (t & u & -> & [gn Hu]).
    pose proof (sanitize_length (t +:+ u)) as Hlen. rewrite Heq in Hlen.
    assert (finditer match_numbered (t +:+ u) = []) as Hnil
      by (destruct (finditer _ _); [done|simpl in *; lia]).
    rewrite (proj1 (finditer_nil_iff _ _) Hnil t u eq_refl) in Hu. done.
  - intros Hno. apply sub_no_match. intros t u ->.
    destruct (match_numbered u) eqn:Hu; [|done]. destruct Hno; eauto.
Qed.

(** A sanitized text holds no occurrence of the pattern. *)
Theorem sanitize_no_occurrence s : ¬ occurs (sanitize_mermaid s).
Proof. apply sanitize_unchanged_iff, sanitize_idempotent. Qed.

(** The two test cases of the repository. *)
(** Sanitizing commutes with stripping, unless an occurrence of the
    pattern starts in the stripped text and ends with the first of the
    whitespace characters that follow it. *)
Theorem sanitize_strip s :
  straddles (strip s) (tail_space s) = false →
  strip (sanitize_mermaid s) = strip (sanitize_mermaid (strip s)).
Proof.
  intros Hs. destruct (strip_decompose s) as (l & Heq & Hl).
  pose proof (tail_space_spaces s) as Hr.
  rewrite Heq at 1.
  rewrite sanitize_no_bracket by (by apply space_no_bracket).
  rewrite sanitize_app_tail by (done || by apply space_no_bracket).
  by rewrite strip_lpad, strip_rpad.
Qed.

Example sanitize_numbered_list :
  sanitize_mermaid "A[1. First item] --> B['2. Second item']" =
  "A[1\. First item] --> B['2\. Second item']".
Proof. reflexivity. Qed.

Example sanitize_no_change : sanitize_mermaid "A --> B --> C" = "A --> B --> C".
Proof. reflexivity. Qed.
