(* ===== verification/State.v ===== *)
(** * State: exceptions, configuration and build state

    The data the components share, as scripts/build_epub.py declares it:
    the exception classes, the [EPUBConfig] and [ChapterInfo] dataclasses
    and the mutable [BuildState] with its [reset].  A Python [bytes] value is
    a Rocq string of bytes; a [dict] with string keys is a [gmap string];
    a [set] of strings is a [gset string].  Paths are kept relative to the
    root directory, as lists of components. *)

From stdpp Require Import base tactics list strings gmap.
From Stdlib Require Import ZArith.
From S2P Require Import Prelude PyStr.

(** ** Exceptions *)

(** The exceptions that travel through the build: the three subclasses of
    [EPUBBuildError], the two [httpx] classes the retry policy names, the
    decoding error [read_text] raises, a user interrupt, and any other
    exception ([OSError], [AssertionError], ...), which the script does not
    handle. *)
Inductive exn : Type :=
| MermaidRenderError (msg : string)
| ValidationError (msg : string)
| CoverGenerationError (msg : string)
| TimeoutException
| NetworkError
| UnicodeDecodeError
| KeyboardInterrupt
| OtherError (msg : string).

#[export] Instance exn_eq_dec : EqDecision exn.
Proof. solve_decision. Defined.

(** [isinstance(e, EPUBBuildError)] *)
Definition is_build_error (e : exn) : bool :=
  match e with
  | MermaidRenderError _ | ValidationError _ | CoverGenerationError _ => true
  | _ => false
  end.

(** The exception classes of the retry decorator:
    [retry_if_exception_type((httpx.TimeoutException, httpx.NetworkError))]. *)
Definition is_retryable (e : exn) : bool :=
  match e with
  | TimeoutException | NetworkError => true
  | _ => false
  end.

(** ** Paths *)

(** A path below the root directory, one component per element. *)
Definition path : Type := list string.

(** [str(p)] for a relative path; the empty path is the current directory. *)
Definition path_str (p : path) : string :=
  match p with
  | [] => "."
  | _ => join "/" p
  end.

(** ** Configuration *)

Definition bytes : Type := string.
Definition rgb : Type := nat * nat * nat.

Record EPUBConfig : Type := {
  root_path : string;
  output_path : string;
  logo_path : option path;
  identifier : string;
  title : string;
  language : string;
  author : string;
  cover_width : Z;
  cover_height : Z;
  cover_bg_color : rgb;
  cover_title_color : rgb;
  cover_subtitle_color : rgb;
  kroki_base_url : string;
  request_timeout : nat;
  max_retries : nat;
  max_concurrent_requests : Z;
  title_font_paths : list string;
  subtitle_font_paths : list string
}.

(** [EPUBConfig(root_path=..., output_path=...)]: the two required fields
    and the defaults of the dataclass. *)
Definition default_config (root output : string) : EPUBConfig := {|
  root_path := root;
  output_path := output;
  logo_path := None;
  identifier := "claude-howto-guide";
  title := "Claude Code How-To Guide";
  language := "en";
  author := "Claude Code Community";
  cover_width := 600;
  cover_height := 900;
  cover_bg_color := (26, 26, 46);
  cover_title_color := (78, 205, 196);
  cover_subtitle_color := (168, 178, 209);
  kroki_base_url := "https://kroki.io";
  request_timeout := 30;
  max_retries := 3;
  max_concurrent_requests := 10;
  title_font_paths :=
    ["/System/Library/Fonts/Supplemental/Arial Bold.ttf";
     "/System/Library/Fonts/Helvetica.ttc";
     "/usr/share/fonts/truetype/dejavu/DejaVuSans-Bold.ttf";
     "C:\Windows\Fonts\arialbd.ttf"];
  subtitle_font_paths :=
    ["/System/Library/Fonts/Supplemental/Arial.ttf";
     "/System/Library/Fonts/Helvetica.ttc";
     "/usr/share/fonts/truetype/dejavu/DejaVuSans.ttf";
     "C:\Windows\Fonts\arial.ttf"]
|}.

(** The configuration [main] builds from the command line: the defaults
    with the time-out and the concurrency limit of the arguments. *)
Definition cli_config (root output : string) (timeout : nat)
    (max_concurrent : Z) : EPUBConfig :=
  let d := default_config root output in {|
  root_path := root;
  output_path := output;
  logo_path := logo_path d;
  identifier := identifier d;
  title := title d;
  language := language d;
  author := author d;
  cover_width := cover_width d;
  cover_height := cover_height d;
  cover_bg_color := cover_bg_color d;
  cover_title_color := cover_title_color d;
  cover_subtitle_color := cover_subtitle_color d;
  kroki_base_url := kroki_base_url d;
  request_timeout := timeout;
  max_retries := max_retries d;
  max_concurrent_requests := max_concurrent;
  title_font_paths := title_font_paths d;
  subtitle_font_paths := subtitle_font_paths d
|}.

(** ** Build state *)

Record BuildState : Type := mkState {
  mermaid_cache : gmap string (bytes * string);
  mermaid_counter : nat;
  mermaid_added_to_book : gset string;
  path_to_chapter : gmap string string
}.

(** [BuildState()] *)
Definition new_state : BuildState := mkState ∅ 0 ∅ ∅.

(** [state.reset()] *)
Definition reset (st : BuildState) : BuildState :=
  mkState ∅ 0 ∅ ∅.

Definition set_cache (f : gmap string (bytes * string) → gmap string (bytes * string))
    (st : BuildState) : BuildState :=
  mkState (f (mermaid_cache st)) (mermaid_counter st)
          (mermaid_added_to_book st) (path_to_chapter st).

Definition set_counter (n : nat) (st : BuildState) : BuildState :=
  mkState (mermaid_cache st) n (mermaid_added_to_book st) (path_to_chapter st).

Definition set_added (f : gset string → gset string) (st : BuildState) :
    BuildState :=
  mkState (mermaid_cache st) (mermaid_counter st)
          (f (mermaid_added_to_book st)) (path_to_chapter st).

Definition set_paths (f : gmap string string → gmap string string)
    (st : BuildState) : BuildState :=
  mkState (mermaid_cache st) (mermaid_counter st)
          (mermaid_added_to_book st) (f (path_to_chapter st)).

(** ** Chapters *)

Record ChapterInfo : Type := mkChapter {
  file_path : path;
  display_name : string;
  file_title : string;
  chapter_filename : string;
  is_folder_overview : bool;
  folder_name : option string
}.

#[export] Instance ChapterInfo_eq_dec : EqDecision ChapterInfo.
Proof. solve_decision. Defined.

(** ** Facts *)

(** The state after [reset] is the state of a fresh [BuildState()], whatever
    the state held before. *)
Lemma reset_new st : reset st = new_state.
Proof. done. Qed.

Lemma reset_fields st :
  mermaid_cache (reset st) = ∅ ∧ mermaid_counter (reset st) = 0 ∧
  mermaid_added_to_book (reset st) = ∅ ∧ path_to_chapter (reset st) = ∅.
Proof. done. Qed.

Lemma is_retryable_not_build e : is_retryable e = true → is_build_error e = false.
Proof. by destruct e. Qed.
