(* ===== verification/Extractor.v ===== *)
(** * Extractor: [extract_all_mermaid_blocks]

    The extractor reads every chapter file once, finds the fenced diagram
    blocks with [re.finditer] (three backquotes, the word mermaid and a
    newline; then, lazily, any text up to the next three backquotes), strips
    each body and keeps the bodies it has not seen, numbering them from 1.

    [match_fence] is the anchored pattern; [add_code] is the body of the
    inner loop, [scan_text] the inner loop, [scan_file] the [try] block for
    one file (a file that cannot be decoded is skipped, any other exception
    of [read_text] propagates) and [extract_all_mermaid_blocks] the function.
    Reading is a parameter of the section: the file system is the caller's.

    The reference definition [first_seen] keeps the first occurrence of each
    element of a list.  The main theorem states that the loop with its [seen]
    set and its counter computes the numbering of [first_seen] of all stripped
    bodies; the properties the build relies on (no duplicates, indices 1..n,
    every block of a readable file present) follow from it. *)

From Stdlib Require Import Ascii.
From stdpp Require Import base tactics list strings gmap.
From S2P Require Import Prelude PyStr Regex State.

#[local] Arguments String.append !_ _ : simpl nomatch.

(** The opening fence with its newline, and the closing fence. *)
Definition fence_open : string := "```mermaid" +:+ String "010" "".
Definition fence_close : string := "```".

(** The pattern of [extract_all_mermaid_blocks] and [process_mermaid_blocks],
    anchored; its value is group 1, the body. *)
Definition match_fence : matcher string := λ s,
  if startswith fence_open s then
    match find_sub fence_close (drop_str (String.length fence_open) s) with
    | Some (body, _) =>
        Some (body, String.length fence_open + String.length body
                    + String.length fence_close)
    | None => None
    end
  else None.

(** The three locals of the function: [seen], [diagrams], [counter]. *)
Record scan_state : Type := mkScan {
  seen : gset string;
  diagrams : list (nat * string);
  counter : nat
}.

Definition scan_init : scan_state := mkScan ∅ [] 0.

(** The body of the inner loop for one stripped block. *)
Definition add_code (acc : scan_state) (code : string) : scan_state :=
  if decide (code ∈ seen acc) then acc
  else mkScan ({[code]} ∪ seen acc)
              (diagrams acc ++ [(S (counter acc), code)])
              (S (counter acc)).

(** The stripped bodies of the blocks of a text, in order. *)
Definition blocks (content : string) : list string :=
  strip <$> finditer match_fence content.

(** The inner loop over the blocks of one file. *)
Definition scan_text (acc : scan_state) (content : string) : scan_state :=
  foldl add_code acc (blocks content).

(** [number l]: the elements of [l] with their positions, from 1. *)
Definition number (l : list string) : list (nat * string) :=
  imap (λ i c, (S i, c)) l.

(** Reference: the first occurrence of every element, in order. *)
Fixpoint first_seen (l : list string) : list string :=
  match l with
  | [] => []
  | x :: l' => x :: filter (λ y, y ≠ x) (first_seen l')
  end.

Section extractor.
Context {P : Type} (read_text : P → result exn string).

(** One iteration of the outer loop: the [try] block and its handler. *)
Definition scan_file (acc : scan_state) (f : P * string) :
    result exn scan_state :=
  match read_text f.1 with
  | Ok content => Ok (scan_text acc content)
  | Err UnicodeDecodeError => Ok acc
  | Err e => Err e
  end.

Fixpoint scan_files (acc : scan_state) (md_files : list (P * string)) :
    result exn scan_state :=
  match md_files with
  | [] => Ok acc
  | f :: fs => acc' ← scan_file acc f; scan_files acc' fs
  end.

(** [extract_all_mermaid_blocks(md_files, logger)] *)
Definition extract_all_mermaid_blocks (md_files : list (P * string)) :
    result exn (list (nat * string)) :=
  diagrams <$> scan_files scan_init md_files.

(** The blocks of a file as the extractor sees them: none for a file that
    cannot be decoded. *)
Definition file_blocks (f : P * string) : result exn (list string) :=
  match read_text f.1 with
  | Ok content => Ok (blocks content)
  | Err UnicodeDecodeError => Ok []
  | Err e => Err e
  end.

(** All blocks of all files, in file order then order in the file. *)
Definition all_blocks (md_files : list (P * string)) :
    result exn (list string) :=
  css ← collect (file_blocks <$> md_files); mret (concat css).

End extractor.

(** The loop state that corresponds to the blocks [bs] read so far. *)
Definition state_of (bs : list string) : scan_state :=
  mkScan (list_to_set bs) (number (first_seen bs)) (length (first_seen bs)).

(** ** The fence pattern *)

Lemma match_fence_spec s body n :
  match_fence s = Some (body, n) ↔
  ∃ rest, s = fence_open +:+ body +:+ fence_close +:+ rest ∧
          find_sub fence_close (body +:+ fence_close +:+ rest) = Some (body, rest) ∧
          n = String.length fence_open + String.length body
              + String.length fence_close.
Proof.
  unfold match_fence. split.
  - destruct (startswith fence_open s) eqn:Hs; [|done].
    apply startswith_spec in Hs as [t ->]. rewrite drop_str_app.
    destruct (find_sub fence_close t) as [[b r]|] eqn:Hf; [|done].
    intros; simplify_eq. exists r.
    pose proof (find_sub_sound _ _ _ _ Hf) as ->. by rewrite Hf.
  - intros (rest & -> & Hf & ->).
    by rewrite startswith_app, drop_str_app, Hf.
Qed.

#[export] Instance match_fence_pattern : Pattern match_fence.
Proof.
  split; intros s body n (rest & -> & _ & ->)%match_fence_spec.
  - simpl. lia.
  - rewrite !length_app_str. lia.
Qed.

(** ** The reference *)

Lemma elem_of_first_seen x l : x ∈ first_seen l ↔ x ∈ l.
Proof.
  induction l as [|y l IH]; simpl; [done|].
  rewrite !elem_of_cons, list_elem_of_filter, IH.
  destruct (decide (x = y)); naive_solver.
Qed.

Lemma NoDup_first_seen l : NoDup (first_seen l).
Proof.
  induction l as [|y l IH]; simpl; constructor.
  - rewrite list_elem_of_filter. naive_solver.
  - by apply NoDup_filter.
Qed.

Lemma first_seen_snoc l x :
  first_seen (l ++ [x]) =
  if decide (x ∈ l) then first_seen l else first_seen l ++ [x].
Proof.
  induction l as [|y l IH]; simpl; [done|]. rewrite IH.
  destruct (decide (x ∈ y :: l)) as [Hin|Hin], (decide (x ∈ l)) as [Hl|Hl];
    rewrite ?elem_of_cons in Hin; try naive_solver.
  - destruct Hin as [->|?]; [|done].
    by rewrite filter_app, filter_cons_False, filter_nil, app_nil_r by naive_solver.
  - by rewrite filter_app, filter_cons_True, filter_nil by naive_solver.
Qed.

Lemma filter_ne_id (x : string) (l : list string) :
  x ∉ l → filter (λ y, y ≠ x) l = l.
Proof.
  induction l as [|y l IH]; [done|]. intros [??]%not_elem_of_cons.
  rewrite filter_cons_True by done. f_equal. auto.
Qed.

Lemma first_seen_NoDup l : NoDup l → first_seen l = l.
Proof.
  induction 1 as [|x l Hx Hl IH]; simpl; [done|].
  by rewrite IH, filter_ne_id.
Qed.

Lemma number_snoc l x : number (l ++ [x]) = number l ++ [(S (length l), x)].
Proof. unfold number. rewrite imap_app. simpl. by rewrite Nat.add_0_r. Qed.

Lemma number_fst l : (number l).*1 = seq 1 (length l).
Proof.
  unfold number. rewrite fmap_imap, <-fmap_S_seq, <-(imap_seq_0 l S).
  by apply imap_ext.
Qed.

Lemma number_snd l : (number l).*2 = l.
Proof.
  unfold number. rewrite fmap_imap, (imap_ext _ (const id)) by done.
  by rewrite imap_const, list_fmap_id.
Qed.

(** ** The loop computes the reference *)

Lemma add_code_state_of bs code :
  add_code (state_of bs) code = state_of (bs ++ [code]).
Proof.
  unfold add_code, state_of. simpl. rewrite first_seen_snoc.
  rewrite list_to_set_app_L. simpl.
  destruct (decide (code ∈ bs)) as [Hin|Hin].
  - rewrite decide_True by set_solver. f_equal. set_solver.
  - rewrite decide_False by set_solver.
    rewrite number_snoc, length_app. simpl. f_equal; [set_solver|lia].
Qed.

Lemma foldl_add_code bs cs :
  foldl add_code (state_of bs) cs = state_of (bs ++ cs).
Proof.
  revert bs; induction cs as [|c cs IH]; intros bs; simpl.
  - by rewrite app_nil_r.
  - rewrite add_code_state_of, IH. by rewrite <-app_assoc.
Qed.

Section extractor_facts.
Context {P : Type} (read_text : P → result exn string).
Implicit Types (md_files : list (P * string)) (f : P * string).

Lemma scan_file_state_of bs f :
  scan_file read_text (state_of bs) f =
  cs ← file_blocks read_text f; Ok (state_of (bs ++ cs)).
Proof.
  unfold scan_file, file_blocks, scan_text.
  destruct (read_text f.1) as [content|[]]; simpl_result;
    rewrite ?foldl_add_code, ?app_nil_r; done.
Qed.

Lemma scan_files_state_of bs md_files :
  scan_files read_text (state_of bs) md_files =
  css ← collect (file_blocks read_text <$> md_files);
  Ok (state_of (bs ++ concat css)).
Proof.
  revert bs; induction md_files as [|f fs IH]; intros bs.
  - simpl_result. by rewrite app_nil_r.
  - cbn [scan_files fmap list_fmap collect]. rewrite scan_file_state_of.
    destruct (file_blocks read_text f) as [cs|e]; [|done].
    cbn [mbind result_bind]. rewrite IH.
    destruct (collect (file_blocks read_text <$> fs)); [|done].
    simpl. by rewrite app_assoc.
Qed.

(** C7. The extractor computes the numbering, from 1, of the first
    occurrences of the stripped blocks of all files; an exception of
    [read_text] other than a decoding error is the result of both sides. *)
Theorem extract_first_seen md_files :
  extract_all_mermaid_blocks read_text md_files =
  bs ← all_blocks read_text md_files; mret (number (first_seen bs)).
Proof.
  unfold extract_all_mermaid_blocks, all_blocks.
  change scan_init with (state_of []). rewrite scan_files_state_of.
  by destruct (collect _).
Qed.

Lemma extract_Ok md_files ds :
  extract_all_mermaid_blocks read_text md_files = Ok ds →
  ∃ bs, all_blocks read_text md_files = Ok bs ∧ ds = number (first_seen bs).
Proof.
  rewrite extract_first_seen. destruct (all_blocks _ _) as [bs|]; [|done].
  simpl_result. intros; simplify_eq. eauto.
Qed.

(** No diagram text is listed twice. *)
Theorem extract_NoDup md_files ds :
  extract_all_mermaid_blocks read_text md_files = Ok ds → NoDup ds.*2.
Proof.
  intros (bs & _ & ->)%extract_Ok. rewrite number_snd. apply NoDup_first_seen.
Qed.

(** The discovery indices are 1, 2, ..., n in list order. *)
Theorem extract_indices md_files ds :
  extract_all_mermaid_blocks read_text md_files = Ok ds →
  ds.*1 = seq 1 (length ds).
Proof.
  intros (bs & _ & ->)%extract_Ok. rewrite number_fst. f_equal.
  unfold number. by rewrite length_imap.
Qed.

Lemma all_blocks_elem md_files bs code :
  all_blocks read_text md_files = Ok bs →
  code ∈ bs ↔
  ∃ f content, f ∈ md_files ∧ read_text f.1 = Ok content ∧
               code ∈ blocks content.
Proof.
  unfold all_blocks. intros (css & Hc & [= <-])%bind_Ok.
  apply collect_Ok in Hc. rewrite list_elem_of_In, in_concat.
  setoid_rewrite <-list_elem_of_In. split.
  - intros (cs & Hcs & Hcode).
    assert (Ok cs ∈ file_blocks read_text <$> md_files) as Hin
      by (rewrite Hc; by apply list_elem_of_fmap_2).
    apply list_elem_of_fmap in Hin as (f & Hf & Hfin).
    unfold file_blocks in Hf. exists f.
    destruct (read_text f.1) as [content|[]]; simplify_eq; [eauto|].
    by apply elem_of_nil in Hcode.
  - intros (f & content & Hfin & Hr & Hcode). exists (blocks content).
    split; [|done].
    assert (Ok (blocks content) ∈ file_blocks read_text <$> md_files) as Hin.
    { apply list_elem_of_fmap. exists f. unfold file_blocks.
      by rewrite Hr. }
    rewrite Hc in Hin. by apply list_elem_of_fmap in Hin as (? & [= <-] & ?).
Qed.

(** A text is listed exactly when it is the stripped body of a block
    of a file that could be read. *)
Theorem extract_elem md_files ds code :
  extract_all_mermaid_blocks read_text md_files = Ok ds →
  code ∈ ds.*2 ↔
  ∃ f content, f ∈ md_files ∧ read_text f.1 = Ok content ∧
               code ∈ blocks content.
Proof.
  intros (bs & Hbs & ->)%extract_Ok.
  by rewrite number_snd, elem_of_first_seen, (all_blocks_elem _ _ _ Hbs).
Qed.

(** Every listed text is stripped. *)
Lemma extract_stripped md_files ds code :
  extract_all_mermaid_blocks read_text md_files = Ok ds →
  code ∈ ds.*2 → stripped code.
Proof.
  intros Hex (f & content & _ & _ & Hc)%(extract_elem _ _ _ Hex).
  unfold blocks in Hc. apply list_elem_of_fmap in Hc as (b & -> & _).
  apply strip_stripped.
Qed.

(** An exception of [read_text] other than a decoding error aborts the
    extraction: it is not caught by the handler of the loop. *)
Theorem extract_propagates fs1 f fs2 e :
  Forall (λ g, is_ok (file_blocks read_text g) = true) fs1 →
  read_text f.1 = Err e → e ≠ UnicodeDecodeError →
  extract_all_mermaid_blocks read_text (fs1 ++ f :: fs2) = Err e.
Proof.
  intros Hok Hr He. rewrite extract_first_seen. unfold all_blocks.
  assert (collect (file_blocks read_text <$> fs1 ++ f :: fs2) = Err e) as ->;
    [|done].
  induction Hok as [|g fs1 Hg _ IH]; simpl.
  - unfold file_blocks. rewrite Hr. by destruct e.
  - destruct (file_blocks read_text g); [|done]. simpl_result.
    by rewrite IH.
Qed.

(** The extraction returns when every file can be read. *)
Lemma extract_returns md_files :
  Forall (λ f, ∃ content, read_text f.1 = Ok content) md_files →
  ∃ ds, extract_all_mermaid_blocks read_text md_files = Ok ds.
Proof.
  unfold extract_all_mermaid_blocks. generalize (scan_init).
  induction md_files as [|f fs IH]; intros acc Hall; cbn [scan_files].
  - by eexists.
  - apply Forall_cons in Hall as [[content Hf] Hall].
    unfold scan_file. rewrite Hf. cbn [mbind result_bind]. by apply IH.
Qed.

End extractor_facts.

(** ** The test cases of the repository *)

Definition test_md : string :=
"# Test

```mermaid
graph TD
    A --> B
```

Some text

```mermaid
graph LR
    C --> D
```
".

Definition dup_md (n : nat) : string :=
"# File " +:+ str_of_nat n +:+ "

```mermaid
graph TD
    A --> B
```".

(** A reader over three numbered files: the test file, a binary file and a
    missing file. *)
Definition test_reader (p : nat) : result exn string :=
  match p with
  | 0 => Ok test_md
  | 1 => Err UnicodeDecodeError
  | 2 => Err (OtherError "FileNotFoundError")
  | S (S (S n)) => Ok (dup_md n)
  end.

Example extract_two_blocks :
  extract_all_mermaid_blocks test_reader [(0, "Test")] =
  Ok [(1, "graph TD
    A --> B"); (2, "graph LR
    C --> D")].
Proof. vm_compute. reflexivity. Qed.

Example extract_deduplication :
  extract_all_mermaid_blocks test_reader [(3, "Test1"); (4, "Test2")] =
  Ok [(1, "graph TD
    A --> B")].
Proof. vm_compute. reflexivity. Qed.

Example extract_skips_binary :
  extract_all_mermaid_blocks test_reader [(1, "Bin"); (3, "Test1")] =
  Ok [(1, "graph TD
    A --> B")].
Proof. vm_compute. reflexivity. Qed.

Lemma extract_NoDup_witness :
  NoDup ([(1, "graph TD
    A --> B"); (2, "graph LR
    C --> D")].*2 : list string).
Proof. exact (extract_NoDup test_reader [(0, "Test")] _ extract_two_blocks). Defined.

Lemma extract_indices_witness :
  ([(1, "graph TD
    A --> B"); (2, "graph LR
    C --> D")].*1 : list nat) = seq 1 2.
Proof.
  exact (extract_indices test_reader [(0, "Test")] _ extract_two_blocks).
Defined.

Lemma extract_propagates_witness :
  extract_all_mermaid_blocks test_reader ([(0, "Test"); (1, "Bin")] ++ (2, "Gone") :: []) =
  Err (OtherError "FileNotFoundError").
Proof.
  apply (extract_propagates test_reader [(0, "Test"); (1, "Bin")] (2, "Gone") []).
  - repeat constructor.
  - reflexivity.
  - discriminate.
Defined.
