(* ===== verification/RegexSem.v ===== *)
(** * RegexSem: the patterns of the builder under a backtracking semantics

    [Sanitizer.match_numbered] and [Extractor.match_fence] are written by
    hand, without backtracking.  This file gives the two patterns as syntax
    ([pattern_numbered], [pattern_fence]) and the replacement template of
    [sanitize_mermaid] as a list of pieces ([template_numbered]), with the
    semantics of a backtracking matcher for the fragment they use: classes
    of one character, sequence, groups, the greedy [?] and [+] and the lazy
    [*?] on a class.  [ways r s] lists the ways [r] matches a prefix of [s],
    in the order a backtracking matcher tries them; [re_match] is the first
    of them, which is what [re.match] returns.

    The theorems show that the hand-written matchers are the first match of
    the patterns, and that [sanitize_mermaid] and the block list of the
    extractor are [re.sub] and [re.finditer] of the patterns. *)

From Stdlib Require Import Ascii.
From stdpp Require Import base tactics list strings.
From S2P Require Import Prelude PyStr Regex Sanitizer Extractor.

#[local] Arguments String.append !_ _ : simpl nomatch.

(** ** Syntax *)

Inductive re : Type :=
| Eps
| Chr (p : ascii → bool)
| Seq (r1 r2 : re)
| Opt (p : ascii → bool)
| Plus (p : ascii → bool)
| LazyStar (p : ascii → bool)
| Group (r : re).

(** A literal character, the dot under [re.DOTALL], a literal text. *)
Definition is_char (a : ascii) : ascii → bool := λ c, Ascii.eqb c a.
Definition any_char : ascii → bool := λ _, true.

Fixpoint lit (s : string) : re :=
  match s with
  | "" => Eps
  | String c s' => Seq (Chr (is_char c)) (lit s')
  end.

(** A piece of a replacement template: text, or a reference to a group. *)
Inductive piece : Type :=
| Text (s : string)
| Ref (i : nat).

(** ** Semantics *)

(** A way to match: the groups closed, in the order they open; the text
    matched; the rest of the subject. *)
Definition thread : Type := list string * string * string.

Definition plain (x : string * string) : thread := ([], x.1, x.2).
Definition push (c : ascii) (x : string * string) : string * string :=
  (String c x.1, x.2).

(** One character of a class. *)
Definition one (p : ascii → bool) (s : string) : list (string * string) :=
  match s with
  | String c s' => if p c then [(String c "", s')] else []
  | "" => []
  end.

(** The prefixes of [s] in a class: the longest first for a greedy
    quantifier, the shortest first for a lazy one. *)
Fixpoint star_greedy (p : ascii → bool) (s : string) : list (string * string) :=
  match s with
  | String c s' => if p c then push c <$> star_greedy p s' else []
  | "" => []
  end ++ [("", s)].

Definition plus_greedy (p : ascii → bool) (s : string) : list (string * string) :=
  match s with
  | String c s' => if p c then push c <$> star_greedy p s' else []
  | "" => []
  end.

Fixpoint star_lazy (p : ascii → bool) (s : string) : list (string * string) :=
  ("", s) ::
  match s with
  | String c s' => if p c then push c <$> star_lazy p s' else []
  | "" => []
  end.

Definition close_group (x : thread) : thread := (x.1.2 :: x.1.1, x.1.2, x.2).

(** After a way to match [r1], a way to match [r2]. *)
Definition seq_thread (x y : thread) : thread :=
  (x.1.1 ++ y.1.1, x.1.2 +:+ y.1.2, y.2).

Fixpoint ways (r : re) (s : string) : list thread :=
  match r with
  | Eps => [([], "", s)]
  | Chr p => plain <$> one p s
  | Seq r1 r2 => x ← ways r1 s; seq_thread x <$> ways r2 x.2
  | Opt p => plain <$> (one p s ++ [("", s)])
  | Plus p => plain <$> plus_greedy p s
  | LazyStar p => plain <$> star_lazy p s
  | Group r => close_group <$> ways r s
  end.

(** [re.match(r, s)]: the groups and the length of the first match. *)
Definition re_match (r : re) : matcher (list string) := λ s,
  (λ x : thread, (x.1.1, String.length x.1.2)) <$> head (ways r s).

(** What follows the lazy body: the closing text, after the prefix [pre]
    and the part [x.1] of the body. *)
Definition after_lit (p pre : string) (x : string * string) : list thread :=
  if startswith p x.2
  then [([pre +:+ x.1], (pre +:+ x.1) +:+ p, drop_str (String.length p) x.2)]
  else [].

(** A token with the value of its match in another form. *)
Definition token_map {A B} (f : A → B) (t : token A) : token B :=
  match t with
  | Lit c => Lit c
  | Hit a => Hit (f a)
  end.

(** [match.expand(template)]; group [i] is the element [i - 1]. *)
Definition expand (template : list piece) (g : list string) : string :=
  concat_str ((λ p, match p with
                    | Text s => s
                    | Ref i => default "" (g !! pred i)
                    end) <$> template).

(** ** The patterns of the builder *)

(** The pattern of [sanitize_mermaid] after its bracket: optional quote,
    digits, period, whitespace. *)
Definition tail_numbered : re :=
  Seq (Chr (is_char ".")) (Group (Chr is_space)).

Definition digits_numbered : re := Seq (Group (Plus is_digit)) tail_numbered.

Definition pattern_numbered : re :=
  Seq (Chr (is_char "[")) (Seq (Group (Opt is_quote)) digits_numbered).

Definition template_numbered : list piece :=
  [Text "["; Ref 1; Ref 2; Text "\."; Ref 3].

(** The pattern of the diagram blocks. *)
Definition pattern_fence : re :=
  Seq (lit fence_open) (Seq (Group (LazyStar any_char)) (lit fence_close)).

(** The groups of a match of [match_numbered] as a list. *)
Definition group_list (g : groups) : list string :=
  let '(q, ds, w) := g in [q; ds; String w ""].

(** ** Sequences *)

Lemma ways_seq r1 r2 s :
  ways (Seq r1 r2) s = x ← ways r1 s; seq_thread x <$> ways r2 x.2.
Proof. done. Qed.

(** A literal character in front of a pattern. *)
Lemma ways_chr_seq a r s :
  ways (Seq (Chr (is_char a)) r) s =
  match s with
  | String c s' =>
      if Ascii.eqb c a
      then (λ x : thread, (x.1.1, String c x.1.2, x.2)) <$> ways r s' else []
  | "" => []
  end.
Proof.
  destruct s as [|c s']; [done|]. rewrite ways_seq. cbn [ways one]. unfold is_char.
  destruct (Ascii.eqb c a); [|done]. cbn. by rewrite app_nil_r.
Qed.

(** A literal text matches when the subject starts with it. *)
Lemma ways_lit p s :
  ways (lit p) s =
  if startswith p s then [([], p, drop_str (String.length p) s)] else [].
Proof.
  revert s; induction p as [|c p IH]; intros s; [done|].
  destruct s as [|d s]; [done|]. cbn [lit ways one startswith].
  unfold is_char. rewrite Ascii.eqb_sym.
  destruct (Ascii.eqb_spec c d) as [->|]; [|done].
  cbn. rewrite IH. by destruct (startswith p s).
Qed.

(** The pattern after the digits. *)
Lemma ways_tail_numbered t :
  ways tail_numbered t =
  match t with
  | String p (String w u) =>
      if Ascii.eqb p "." && is_space w
      then [([String w ""], String p (String w ""), u)] else []
  | _ => []
  end.
Proof.
  destruct t as [|p [|w u]]; cbn; unfold is_char.
  - done.
  - by destruct (Ascii.eqb p ".").
  - destruct (Ascii.eqb p "."); cbn; [|done]. by destruct (is_space w).
Qed.

(** ** Greedy quantifiers that never give back

    When what follows a greedy quantifier on a class cannot start with a
    character of the class, only the longest ways leads to a match. *)

Section commit.
Context {T : Type} (p : ascii → bool).

Lemma star_greedy_commit (k : string → string → list T) ds t :
  all_str p ds = true →
  (∀ c, head_char t = Some c → p c = false) →
  (∀ a c u, p c = true → k a (String c u) = []) →
  star_greedy p (ds +:+ t) ≫= (λ x, k x.1 x.2) = k ds t.
Proof.
  intros Hds Ht Hk. revert k Hk.
  induction ds as [|c ds IH]; intros k Hk; simpl in *.
  - destruct t as [|c u]; simpl; [by rewrite app_nil_r|].
    rewrite (Ht c) by done. simpl. by rewrite app_nil_r.
  - apply andb_true_iff in Hds as [Hc Hds]. rewrite Hc.
    rewrite bind_app, list_fmap_bind, bind_singleton. simpl.
    rewrite (Hk _ _ _ Hc), app_nil_r.
    apply (IH Hds (λ a, k (String c a))). intros; by apply Hk.
Qed.

Lemma plus_greedy_commit (k : string → string → list T) ds t :
  all_str p ds = true →
  (∀ c, head_char t = Some c → p c = false) →
  (∀ a c u, p c = true → k a (String c u) = []) →
  plus_greedy p (ds +:+ t) ≫= (λ x, k x.1 x.2) =
  if decide (ds = "") then [] else k ds t.
Proof.
  intros Hds Ht Hk. destruct ds as [|c ds]; simpl in *.
  - destruct t as [|c u]; [done|]. simpl. by rewrite (Ht c).
  - apply andb_true_iff in Hds as [Hc Hds]. rewrite Hc, list_fmap_bind.
    apply (star_greedy_commit (λ a, k (String c a))); [done..|].
    intros; by apply Hk.
Qed.

End commit.

(** ** The pattern of [sanitize_mermaid] *)

Lemma digit_not_period c : is_digit c = true → Ascii.eqb c "." = false.
Proof. by destruct (Ascii.eqb_spec c ".") as [->|]. Qed.

Lemma tail_rejects_digit c u : is_digit c = true → ways tail_numbered (String c u) = [].
Proof.
  intros Hc. rewrite ways_tail_numbered, (digit_not_period c Hc).
  by destruct u.
Qed.

(** The digits are the longest ways of digits. *)
Lemma ways_digits_numbered s :
  ways digits_numbered s =
  let '(ds, t) := span_digits s in
  if decide (ds = "") then []
  else (λ x : thread, (ds :: x.1.1, ds +:+ x.1.2, x.2)) <$> ways tail_numbered t.
Proof.
  destruct (span_digits s) as [ds t] eqn:Hs.
  apply span_digits_app in Hs as (-> & Hds & Ht).
  unfold digits_numbered. rewrite ways_seq. cbn [ways].
  rewrite !list_fmap_bind.
  apply (plus_greedy_commit is_digit
           (λ a b, seq_thread (close_group (plain (a, b))) <$> ways tail_numbered b));
    [done..|].
  intros a c u Hc. by rewrite tail_rejects_digit.
Qed.

Lemma digits_reject_quote c u :
  is_quote c = true → ways digits_numbered (String c u) = [].
Proof.
  intros Hc. rewrite ways_digits_numbered. simpl.
  by rewrite (quote_not_digit c Hc).
Qed.

(** The quote is taken when there is one. *)
Lemma ways_opt_quote r2 s :
  (∀ c u, is_quote c = true → ways r2 (String c u) = []) →
  ways (Seq (Group (Opt is_quote)) r2) s =
  let '(q, t) := opt_quote s in
  (λ x : thread, (q :: x.1.1, q +:+ x.1.2, x.2)) <$> ways r2 t.
Proof.
  intros Hr. destruct s as [|c s]; cbn.
  - by rewrite app_nil_r.
  - destruct (is_quote c) eqn:Hc; cbn; rewrite app_nil_r; [|done].
    by rewrite (Hr c s Hc), app_nil_r.
Qed.

(** The pattern matches in one way at most, the way of [match_numbered]. *)
Lemma ways_pattern_numbered s :
  ways pattern_numbered s =
  match match_numbered s with
  | Some (g, n) => [(group_list g, matched_text g, drop_str n s)]
  | None => []
  end.
Proof.
  destruct s as [|c s1]; [done|].
  unfold pattern_numbered. rewrite ways_chr_seq. cbn [match_numbered].
  destruct (Ascii.eqb_spec c "[") as [->|]; [|done].
  rewrite ways_opt_quote by apply digits_reject_quote.
  destruct (opt_quote s1) as [q s2] eqn:Hq. rewrite ways_digits_numbered.
  destruct (span_digits s2) as [ds s3] eqn:Hd.
  apply opt_quote_app in Hq as [-> _]. apply span_digits_app in Hd as (-> & _).
  rewrite ways_tail_numbered. destruct ds as [|d ds]; [done|].
  rewrite decide_False by done.
  destruct s3 as [|p [|w u]]; [done..|].
  destruct (Ascii.eqb_spec p ".") as [->|]; [|done].
  destruct (is_space w); [|done]. cbn [andb fmap list_fmap seq_thread fst snd app].
  rewrite <-(length_matched_text q (String d ds) w).
  rewrite <-(matched_text_app q (String d ds) w u), drop_str_app.
  by rewrite <-(matched_text_app q (String d ds) w ""), app_nil_r_str.
Qed.

(** [match_numbered] is [re.match] of the pattern. *)
Theorem re_match_numbered s :
  re_match pattern_numbered s = prod_map group_list id <$> match_numbered s.
Proof.
  unfold re_match. rewrite ways_pattern_numbered.
  destruct (match_numbered s) as [[g n]|] eqn:Hm; [|done].
  apply match_numbered_spec in Hm as (rest & _ & _ & ->). done.
Qed.

Lemma expand_template_numbered g :
  expand template_numbered (group_list g) = escape_numbered g.
Proof.
  destruct g as [[q ds] w]. unfold expand, escape_numbered. by simpl.
Qed.

(** ** The pattern of the diagram blocks *)

Lemma ways_seq_lit r p s :
  ways (Seq r (lit p)) s =
  x ← ways r s;
  if startswith p x.2
  then [(x.1.1, x.1.2 +:+ p, drop_str (String.length p) x.2)] else [].
Proof.
  rewrite ways_seq. apply list_bind_ext; [|done]. intros [[g t] u].
  rewrite ways_lit. cbn [fst snd]. destruct (startswith p u); [|done].
  unfold seq_thread. cbn. by rewrite app_nil_r.
Qed.

Lemma head_fmap {A B} (f : A → B) l : head (f <$> l) = f <$> head l.
Proof. by destruct l. Qed.

(** The first way to match a lazy body and a closing text ends at the
    first occurrence of the closing text. *)
Lemma lazy_find p pre t :
  head (star_lazy any_char t ≫= after_lit p pre) =
  (λ x, ([pre +:+ x.1], (pre +:+ x.1) +:+ p, x.2)) <$> find_sub p t.
Proof.
  revert pre; induction t as [|c t IH]; intros pre.
  - cbn. unfold after_lit. cbn. by destruct (startswith p "").
  - cbn [star_lazy any_char find_sub]. rewrite bind_cons. unfold after_lit at 1.
    cbn [fst snd]. destruct (startswith p (String c t)); [done|].
    rewrite list_fmap_bind.
    rewrite (list_bind_ext (after_lit p pre ∘ push c)
               (after_lit p (pre +:+ String c "")) _ (star_lazy any_char t));
      [|intros x|done].
    + cbn [app]. rewrite IH. destruct (find_sub p t) as [[a b]|]; [|done].
      cbn. by rewrite !app_assoc_str.
    + unfold after_lit, push, compose. cbn [fst snd].
      by rewrite !app_assoc_str.
Qed.

(** [match_fence] is [re.match] of the pattern. *)
Theorem re_match_fence s :
  re_match pattern_fence s = prod_map (λ body, [body]) id <$> match_fence s.
Proof.
  unfold re_match, pattern_fence, match_fence.
  rewrite ways_seq, ways_lit. destruct (startswith fence_open s); [|done].
  rewrite bind_singleton, !head_fmap. cbn [snd].
  rewrite ways_seq_lit. cbn [ways]. rewrite !list_fmap_bind.
  rewrite (lazy_find fence_close "").
  destruct (find_sub fence_close _) as [[body rest]|]; [|done].
  cbn. by rewrite length_app_str.
Qed.

(** ** [re.sub] and [re.finditer] of the patterns *)

Section scan_fmap.
Context {A B : Type} (f : A → B) (m1 : matcher A) (m2 : matcher B).
Context (Hm : ∀ s, m2 s = prod_map f id <$> m1 s).

(** Two matchers that agree up to the form of their values scan alike. *)
Lemma scan_fmap k s : scan m2 k s = token_map f <$> scan m1 k s.
Proof.
  revert k; induction s as [|c s IH]; intros k; [done|].
  destruct k as [|k]; cbn [scan]; [|done]. rewrite Hm.
  destruct (m1 (String c s)) as [[a n]|]; cbn; by rewrite IH.
Qed.

Lemma sub_fmap (repl : B → string) s : sub m2 repl s = sub m1 (repl ∘ f) s.
Proof.
  unfold sub. rewrite scan_fmap, <-list_fmap_compose.
  f_equal. apply list_fmap_ext. by intros ? [c|a].
Qed.

Lemma finditer_fmap s : finditer m2 s = f <$> finditer m1 s.
Proof.
  unfold finditer. rewrite scan_fmap.
  induction (scan m1 0 s) as [|[c|a] ts IH]; cbn; [done|done|by f_equal].
Qed.

End scan_fmap.

(** C16. [sanitize_mermaid] is [re.sub] of the pattern with the template. *)
Theorem sanitize_mermaid_regex s :
  sub (re_match pattern_numbered) (expand template_numbered) s =
  sanitize_mermaid s.
Proof.
  rewrite (sub_fmap group_list match_numbered) by apply re_match_numbered.
  unfold sanitize_mermaid, sub. f_equal. apply list_fmap_ext.
  intros ? [c|g] ?; [done|]. apply expand_template_numbered.
Qed.

(** C17. The blocks of the extractor are group 1 of [re.finditer] of the
    pattern, stripped. *)
Theorem blocks_regex content :
  (λ g, strip (default "" (g !! 0))) <$> finditer (re_match pattern_fence) content
  = blocks content.
Proof.
  rewrite (finditer_fmap (λ body, [body]) match_fence) by apply re_match_fence.
  unfold blocks. by rewrite <-list_fmap_compose.
Qed.

(** ** The semantics at work *)

(** The ways to match a greedy ways of digits, the longest first. *)
Example ways_plus_digits :
  ways (Group (Plus is_digit)) "12." =
  [(["12"], "12", "."); (["1"], "1", "2.")].
Proof. reflexivity. Qed.

(** The ways to match a lazy body, the shortest first. *)
Example ways_lazy_body :
  ways (Group (LazyStar any_char)) "ab" =
  [([""], "", "ab"); (["a"], "a", "b"); (["ab"], "ab", "")].
Proof. reflexivity. Qed.

Example re_match_numbered_quoted :
  re_match pattern_numbered "['12. x]" = Some (["'"; "12"; " "], 6).
Proof. reflexivity. Qed.

(** The lazy body ends at the first closing fence. *)
Example re_match_fence_first :
  re_match pattern_fence (fence_open +:+ "a```b```") = Some (["a"], 15).
Proof. reflexivity. Qed.
