(* ===== verification/Collector.v ===== *)
(** * Collector: chapter order, folder listing, chapter numbering

    [get_chapter_order], [collect_folder_files] and [ChapterCollector] of
    scripts/build_epub.py.  The file system below the root directory is a
    tree: a [node] is a file with what [read_text] gives for it, or a
    directory with its entries by name.  Paths are relative to the root, one
    component per element; [sorted] on sibling paths is the order of their
    names.

    [collect_folder_files] recurses into subdirectories, so its model takes
    the number of levels it may descend as fuel; [depth] levels are enough,
    and the function of the code is the model at that fuel.
    [collect_all_chapters] is the loop over the chapter order, written as a
    fold over the pair of the chapter list and the counter, with the build
    state threaded through it. *)

From Stdlib Require Import Ascii.
From stdpp Require Import base tactics list strings gmap sorting.
From S2P Require Import Prelude PyStr State.

#[local] Arguments String.append !_ _ : simpl nomatch.

(** ** The file system *)

Inductive node : Type :=
| File (text : result exn string)
| Dir (entries : list (string * node)).

Definition entries : Type := list (string * node).

(** The entry of a directory with a given name. *)
Fixpoint assoc (name : string) (es : entries) : option node :=
  match es with
  | [] => None
  | (n, x) :: es' => if decide (n = name) then Some x else assoc name es'
  end.

(** The node a path leads to. *)
Fixpoint lookup_node (n : node) (p : path) : option node :=
  match p with
  | [] => Some n
  | x :: p' =>
      match n with
      | Dir es => n' ← assoc x es; lookup_node n' p'
      | File _ => None
      end
  end.

(** [p.is_file()] and [p.is_dir()] *)
Definition is_file (root : node) (p : path) : bool :=
  match lookup_node root p with Some (File _) => true | _ => false end.

Definition is_dir (root : node) (p : path) : bool :=
  match lookup_node root p with Some (Dir _) => true | _ => false end.

(** [p.read_text(encoding="utf-8")] *)
Definition read_text (root : node) (p : path) : result exn string :=
  match lookup_node root p with
  | Some (File text) => text
  | Some (Dir _) => Err (OtherError "IsADirectoryError")
  | None => Err (OtherError "FileNotFoundError")
  end.

(** The number of directory levels of a tree. *)
Fixpoint depth (n : node) : nat :=
  match n with
  | File _ => 0
  | Dir es => S (foldr (λ e d, depth e.2 `max` d) 0 es)
  end.

(** [sorted(...)] on the entries of one directory. *)
Definition sorted_entries (es : entries) : entries :=
  merge_sort (λ a b, str_le a.1 b.1) es.

(** ** [get_chapter_order] *)

Definition get_chapter_order : list (string * string) :=
  [("README.md", "Introduction");
   ("LEARNING-ROADMAP.md", "Learning Roadmap");
   ("QUICK_REFERENCE.md", "Quick Reference");
   ("claude_concepts_guide.md", "Claude Concepts Guide");
   ("01-slash-commands", "Slash Commands");
   ("02-memory", "Memory");
   ("03-skills", "Skills");
   ("04-subagents", "Subagents");
   ("05-mcp", "MCP Protocol");
   ("06-hooks", "Hooks");
   ("07-plugins", "Plugins");
   ("08-checkpoints", "Checkpoints");
   ("09-advanced-features", "Advanced Features");
   ("resources.md", "Resources")].

(** ** [collect_folder_files] *)

(** [s.replace("-", " ").replace("_", " ").title()] *)
Definition title_of (s : string) : string :=
  PyStr.title (replace_char "_" " " (replace_char "-" " " s)).

(** The first loop: the entries [glob("*.md")] finds, but the README. *)
Definition md_files (folder_path : path) (es : entries) : list (path * string) :=
  omap (λ e : string * node,
          if endswith ".md" e.1 && negb (String.eqb e.1 "README.md")
          then Some (folder_path ++ [e.1], title_of (stem e.1))
          else None)
       (sorted_entries es).

(** The inner loop over the files of one subfolder. *)
Definition prefixed (folder_path : path) (subfiles : list (path * string)) :
    list (path * string) :=
  (λ f : path * string,
     let rel_path := drop (length folder_path) f.1 in
     if decide (1 < length rel_path)
     then (f.1, title_of (default "" (head rel_path)) +:+ ": " +:+ f.2)
     else f) <$> subfiles.

(** [collect_folder_files(folder_path)], for the directory with entries
    [es], descending at most [fuel] levels. *)
Fixpoint collect_folder_files (fuel : nat) (folder_path : path) (es : entries) :
    list (path * string) :=
  match fuel with
  | 0 => []
  | S fuel' =>
      (if assoc "README.md" es then [(folder_path ++ ["README.md"], "Overview")]
       else [])
      ++ md_files folder_path es
      ++ flat_map (λ e : string * node,
           match e.2 with
           | Dir sub =>
               if startswith "." e.1 then []
               else prefixed folder_path
                      (collect_folder_files fuel' (folder_path ++ [e.1]) sub)
           | File _ => []
           end) (sorted_entries es)
  end.

(** ** [ChapterCollector] *)

(** The formats [chap_{n:02d}.xhtml] and [chap_{n:02d}_{i:02d}.xhtml]. *)
Definition chap_file (n : nat) : string := "chap_" +:+ pad2 n +:+ ".xhtml".
Definition chap_sub_file (n i : nat) : string :=
  "chap_" +:+ pad2 n +:+ "_" +:+ pad2 i +:+ ".xhtml".

(** The loop of [_collect_folder], from index [i]. *)
Fixpoint folder_loop (display_name : string) (chapter_num i : nat)
    (folder_files : list (path * string))
    (acc : list ChapterInfo * BuildState) : list ChapterInfo * BuildState :=
  match folder_files with
  | [] => acc
  | (file_path, file_title) :: rest =>
      let chapter_filename := chap_sub_file chapter_num i in
      let rel_path := path_str file_path in
      folder_loop display_name chapter_num (S i) rest
        (acc.1 ++ [mkChapter file_path
                     (if decide (i = 0) then display_name else file_title)
                     file_title chapter_filename (bool_decide (i = 0))
                     (Some display_name)],
         set_paths <[rel_path := chapter_filename]> acc.2)
  end.

(** [self._collect_folder(folder_path, item, display_name, base_chapter_num)] *)
Definition collect_folder (folder_path : path) (es : entries)
    (item display_name : string) (base_chapter_num : nat) (st : BuildState) :
    list ChapterInfo * BuildState :=
  let folder_files := collect_folder_files (depth (Dir es)) folder_path es in
  match folder_files with
  | [] => ([], st)
  | _ =>
      let chapter_num := base_chapter_num + 1 in
      let first_filename := chap_sub_file chapter_num 0 in
      let st1 := set_paths <[item := first_filename]> st in
      let st2 := set_paths <[rstrip_char "/" item := first_filename]> st1 in
      folder_loop display_name chapter_num 0 folder_files ([], st2)
  end.

(** The locals of [collect_all_chapters] and the state of the collector. *)
Record collect_state : Type := mkCollect {
  chapters : list ChapterInfo;
  chapter_num : nat;
  build : BuildState
}.

(** One iteration of the loop of [collect_all_chapters]. *)
Definition collect_item (root : node) (acc : collect_state)
    (entry : string * string) : collect_state :=
  let '(item, display_name) := entry in
  let item_path := parts item in
  if is_file root item_path
     && String.eqb (suffix (default "" (last item_path))) ".md" then
    let n := chapter_num acc + 1 in
    let chapter_filename := chap_file n in
    mkCollect
      (chapters acc ++ [mkChapter item_path display_name display_name
                          chapter_filename false None])
      n (set_paths <[item := chapter_filename]> (build acc))
  else
    match lookup_node root item_path with
    | Some (Dir es) =>
        let '(folder_chapters, st') :=
          collect_folder item_path es item display_name (chapter_num acc)
                         (build acc) in
        match folder_chapters with
        | [] => mkCollect (chapters acc) (chapter_num acc) st'
        | _ => mkCollect (chapters acc ++ folder_chapters)
                         (chapter_num acc + 1) st'
        end
    | _ => acc
    end.

(** [ChapterCollector(root_path, state).collect_all_chapters(chapter_order)] *)
Definition collect_all_chapters (root : node)
    (chapter_order : list (string * string)) (st : BuildState) :
    list ChapterInfo * BuildState :=
  let acc := foldl (collect_item root) (mkCollect [] 0 st) chapter_order in
  (chapters acc, build acc).

(** The names of the pages of the chapters start with the same five
    characters. *)
Definition is_page (f : string) : bool := startswith "chap_" f.
Arguments is_page : simpl never.

(** A tree as a file system has it: no two entries of a directory share
    a name. *)
Fixpoint wf (n : node) : Prop :=
  match n with
  | File _ => True
  | Dir es => NoDup es.*1 ∧ foldr (λ e P, wf e.2 ∧ P) True es
  end.

(** ** Invariants *)

(** A chapter file name with a chapter number up to [k]. *)
Definition numbered (k : nat) (f : string) : Prop :=
  ∃ n, 1 ≤ n ≤ k ∧ (f = chap_file n ∨ ∃ i, f = chap_sub_file n i).

(** The invariant of the loop of [collect_all_chapters], for the chapter
    map [old] the loop started from: the file names carry numbers up to the
    counter, no two chapters share a file name, and the chapter map points
    to chapters of the list. *)
Record collect_inv (old : gmap string string) (acc : collect_state) : Prop := {
  inv_numbered : Forall (numbered (chapter_num acc))
                        (chapter_filename <$> chapters acc);
  inv_distinct : NoDup (chapter_filename <$> chapters acc);
  inv_targets : ∀ k v, path_to_chapter (build acc) !! k = Some v →
                  old !! k = Some v ∨ v ∈ chapter_filename <$> chapters acc
}.

(** ** Chapter file names *)

Lemma chap_file_inj n m : chap_file n = chap_file m → n = m.
Proof.
  unfold chap_file. intros [= H]. by apply app_inj_tail_str, pad2_inj in H.
Qed.

Lemma not_digit_head (c : ascii) (s : string) :
  is_digit c = false → ∀ d, head_char (String c s) = Some d → is_digit d = false.
Proof. by intros ? d [= <-]. Qed.

Lemma chap_sub_file_inj n i m j :
  chap_sub_file n i = chap_sub_file m j → n = m ∧ i = j.
Proof.
  unfold chap_sub_file. intros [= H].
  apply digits_app_inj in H as [Hn [= H]];
    [|apply pad2_digits|apply pad2_digits
     |by apply not_digit_head|by apply not_digit_head].
  by apply pad2_inj in Hn; apply app_inj_tail_str, pad2_inj in H.
Qed.

Lemma chap_file_ne_sub n m j : chap_file n ≠ chap_sub_file m j.
Proof.
  unfold chap_file, chap_sub_file. intros [= H].
  apply digits_app_inj in H as [_ [=]];
    [apply pad2_digits|apply pad2_digits
    |by apply not_digit_head|by apply not_digit_head].
Qed.

Lemma numbered_mono k k' f : k ≤ k' → numbered k f → numbered k' f.
Proof. intros Hk (n & Hn & H). exists n. split; [lia|done]. Qed.

(** A file name with the next number is new. *)
Lemma numbered_fresh k fs f :
  Forall (numbered k) fs → (f = chap_file (S k) ∨ ∃ i, f = chap_sub_file (S k) i) →
  f ∉ fs.
Proof.
  intros Hall Hf Hin. eapply Forall_forall in Hall; [|done].
  destruct Hall as (n & Hn & Hold).
  destruct Hf as [->|[i ->]], Hold as [H|[j H]].
  - apply chap_file_inj in H. lia.
  - by apply chap_file_ne_sub in H.
  - symmetry in H. by apply chap_file_ne_sub in H.
  - apply chap_sub_file_inj in H. lia.
Qed.

(** ** [_collect_folder] *)

Section folder.
Context (display_name : string) (n : nat).

(** The loop names its chapters by the indices from [i] on. *)
Lemma folder_loop_files i fs acc :
  chapter_filename <$> (folder_loop display_name n i fs acc).1 =
  (chapter_filename <$> acc.1) ++ (chap_sub_file n <$> seq i (length fs)).
Proof.
  revert i acc; induction fs as [|[p t] fs IH]; intros i acc; simpl.
  - by rewrite app_nil_r.
  - rewrite IH. simpl. by rewrite fmap_app, <-app_assoc.
Qed.

(** The loop writes nothing to the chapter map but names of its chapters,
    and leaves the rest of the build state alone. *)
Lemma folder_loop_paths i fs acc k v :
  path_to_chapter (folder_loop display_name n i fs acc).2 !! k = Some v →
  path_to_chapter acc.2 !! k = Some v ∨
  v ∈ chap_sub_file n <$> seq i (length fs).
Proof.
  revert i acc; induction fs as [|[p t] fs IH]; intros i acc; simpl; [auto|].
  intros [H|H]%IH; [|right; by right]. simpl in H.
  apply lookup_insert_Some in H as [[_ <-]|[_ H]]; [right; left|by left].
Qed.

Lemma folder_loop_cache i fs acc :
  mermaid_cache (folder_loop display_name n i fs acc).2 = mermaid_cache acc.2 ∧
  mermaid_counter (folder_loop display_name n i fs acc).2 = mermaid_counter acc.2 ∧
  mermaid_added_to_book (folder_loop display_name n i fs acc).2
    = mermaid_added_to_book acc.2.
Proof.
  revert i acc; induction fs as [|[p t] fs IH]; intros i acc; simpl; [done|].
  by destruct (IH (S i) (acc.1 ++ [mkChapter p
       (if decide (i = 0) then display_name else t) t (chap_sub_file n i)
       (bool_decide (i = 0)) (Some display_name)],
     set_paths <[path_str p := chap_sub_file n i]> acc.2)) as (-> & -> & ->).
Qed.

Lemma folder_loop_spec i fs acc r :
  folder_loop display_name n i fs acc = r →
  chapter_filename <$> r.1 =
    (chapter_filename <$> acc.1) ++ (chap_sub_file n <$> seq i (length fs)) ∧
  ∀ k v, path_to_chapter r.2 !! k = Some v →
         path_to_chapter acc.2 !! k = Some v ∨
         v ∈ chap_sub_file n <$> seq i (length fs).
Proof. intros <-. split; [apply folder_loop_files|apply folder_loop_paths]. Qed.

End folder.

Lemma sub_files_NoDup n i k : NoDup (chap_sub_file n <$> seq i k).
Proof.
  apply NoDup_fmap_2_strong; [|apply NoDup_seq].
  by intros a b _ _ [_ ?]%chap_sub_file_inj.
Qed.

(** What [_collect_folder] returns: nothing for a folder without files,
    and otherwise one chapter per file, named by the next chapter number and
    the position of the file. *)
Lemma collect_folder_spec folder_path es item display_name base st chs st' :
  collect_folder folder_path es item display_name base st = (chs, st') →
  (chs = [] ∧ st' = st) ∨
  (∃ k, chapter_filename <$> chs = chap_sub_file (S base) <$> seq 0 (S k)) ∧
  ∀ k v, path_to_chapter st' !! k = Some v →
         path_to_chapter st !! k = Some v ∨ v ∈ chapter_filename <$> chs.
Proof.
  unfold collect_folder.
  destruct (collect_folder_files _ folder_path es) as [|f fs] eqn:Hfs.
  { intros [= <- <-]. by left. }
  replace (base + 1) with (S base) by lia.
  intros [Hfiles Hpaths]%folder_loop_spec. simpl in *. right.
  split; [by exists (length fs)|]. intros k v Hk. rewrite Hfiles.
  destruct (Hpaths _ _ Hk) as [H|H]; [|by right].
  apply lookup_insert_Some in H as [[_ <-]|[_ H]]; [right; left|].
  apply lookup_insert_Some in H as [[_ <-]|[_ H]]; [right; left|by left].
Qed.

(** ** [collect_folder_files] *)

Lemma elem_of_sorted_entries e es : e ∈ sorted_entries es ↔ e ∈ es.
Proof. unfold sorted_entries. by rewrite merge_sort_Permutation. Qed.

Lemma depth_entry (e : string * node) es :
  e ∈ es → depth e.2 ≤ foldr (λ e d, depth e.2 `max` d) 0 es.
Proof.
  induction es as [|e' es IH]; [by intros ?%elem_of_nil|]. simpl.
  intros [->|H%IH]%elem_of_cons; lia.
Qed.

(** Two amounts of fuel that cover the depth of the directory give the
    same list. *)
Lemma collect_folder_files_irrel fuel1 fuel2 folder_path es :
  depth (Dir es) ≤ fuel1 → depth (Dir es) ≤ fuel2 →
  collect_folder_files fuel1 folder_path es
  = collect_folder_files fuel2 folder_path es.
Proof.
  revert fuel2 folder_path es.
  induction fuel1 as [|fuel1 IH]; intros [|fuel2] folder_path es;
    cbn [depth collect_folder_files]; try lia.
  intros H1 H2. do 2 f_equal. apply flat_map_ext_in.
  intros [name [text|sub]] Hin; cbn [fst snd]; [done|].
  apply (proj1 (elem_of_sorted_entries _ _)), depth_entry in Hin. cbn [fst snd depth] in Hin.
  destruct (startswith "." name); [done|]. f_equal.
  apply IH; cbn [depth]; lia.
Qed.

Lemma elem_of_prefixed folder_path l p t :
  (p, t) ∈ prefixed folder_path l → ∃ t', (p, t') ∈ l.
Proof.
  unfold prefixed. intros ([p' t'] & Heq & Hin)%list_elem_of_fmap.
  exists t'. by case_decide; simplify_eq/=.
Qed.

Lemma elem_of_md_files folder_path es p t :
  (p, t) ∈ md_files folder_path es →
  ∃ e, e ∈ es ∧ endswith ".md" e.1 = true ∧ p = folder_path ++ [e.1].
Proof.
  unfold md_files. intros (e & Hin & He)%list_elem_of_omap.
  apply (proj1 (elem_of_sorted_entries _ _)) in Hin. exists e.
  destruct (endswith ".md" e.1); simpl in He; [|done].
  destruct (negb _); by simplify_eq.
Qed.

(** The three sources of the listing. *)
Lemma elem_of_collect fuel folder_path es f :
  f ∈ collect_folder_files (S fuel) folder_path es →
  (f = (folder_path ++ ["README.md"], "Overview") ∧
   is_Some (assoc "README.md" es)) ∨
  f ∈ md_files folder_path es ∨
  ∃ name sub, (name, Dir sub) ∈ es ∧
    f ∈ prefixed folder_path
          (collect_folder_files fuel (folder_path ++ [name]) sub).
Proof.
  cbn [collect_folder_files]. rewrite !elem_of_app, elem_of_flat_map.
  intros [H|[H|([name [text|sub]] & Hin & H)]]; cbn [fst snd] in *.
  - left. destruct (assoc "README.md" es); [|by apply elem_of_nil in H].
    apply list_elem_of_singleton in H. eauto.
  - auto.
  - by apply elem_of_nil in H.
  - right; right. exists name, sub. apply (proj1 (elem_of_sorted_entries _ _)) in Hin.
    destruct (startswith "." name); [by apply elem_of_nil in H|done].
Qed.

(** Every listed path lies below the folder. *)
Lemma collected_below fuel folder_path es p t :
  (p, t) ∈ collect_folder_files fuel folder_path es →
  ∃ rel, p = folder_path ++ rel ∧ rel ≠ [].
Proof.
  revert folder_path es p t. induction fuel as [|fuel IH];
    intros folder_path es p t; [by intros ?%elem_of_nil|].
  intros [[[= -> _] _]|[H|(name & sub & _ & H)]]%elem_of_collect.
  - by eexists.
  - apply elem_of_md_files in H as (e & _ & _ & ->). by eexists.
  - apply elem_of_prefixed in H as [t' (rel & -> & Hrel)%IH].
    exists (name :: rel). by rewrite <-app_assoc.
Qed.

Lemma assoc_elem (e : string * node) es : e ∈ es → is_Some (assoc e.1 es).
Proof.
  induction es as [|[n x] es IH]; [by intros ?%elem_of_nil|]. simpl.
  intros [->|H%IH]%elem_of_cons; case_decide; simpl in *; eauto; done.
Qed.

Lemma assoc_NoDup name x es :
  NoDup es.*1 → (name, x) ∈ es → assoc name es = Some x.
Proof.
  induction es as [|[n y] es IH]; [by intros _ ?%elem_of_nil|]. simpl.
  intros [Hn Hnd]%NoDup_cons [[= -> ->]|Hin]%elem_of_cons.
  - by rewrite decide_True.
  - rewrite decide_False; [by apply IH|]. intros ->. apply Hn.
    by apply (list_elem_of_fmap_2 fst) in Hin.
Qed.

Lemma wf_entry name x es : wf (Dir es) → (name, x) ∈ es → wf x.
Proof.
  intros [_ H]. induction es as [|e es IH]; [by intros ?%elem_of_nil|].
  destruct H as [He H]. intros [<-|Hin]%elem_of_cons; [done|by apply IH].
Qed.

(** ** [collect_all_chapters] *)

Section collect.
Context (root : node) (old : gmap string string).

(** Chapters with the next chapter number keep the invariant. *)
Lemma collect_inv_extend acc chs st' :
  collect_inv old acc →
  Forall (λ f, f = chap_file (S (chapter_num acc)) ∨
               ∃ i, f = chap_sub_file (S (chapter_num acc)) i)
         (chapter_filename <$> chs) →
  NoDup (chapter_filename <$> chs) →
  (∀ k v, path_to_chapter st' !! k = Some v →
          path_to_chapter (build acc) !! k = Some v ∨
          v ∈ chapter_filename <$> chs) →
  collect_inv old (mkCollect (chapters acc ++ chs) (S (chapter_num acc)) st').
Proof.
  intros [Hnum Hnd Htg] Hnew Hnd' Htg'. split; simpl; rewrite fmap_app.
  - apply Forall_app. split.
    + eapply Forall_impl; [done|]. intros f. apply numbered_mono. lia.
    + eapply Forall_impl; [done|]. intros f Hf.
      exists (S (chapter_num acc)). split; [lia|done].
  - apply NoDup_app. split_and!; [done| |done]. intros f Hf Hin.
    eapply Forall_forall in Hnew; [|done]. by eapply numbered_fresh.
  - intros k v [H|H]%Htg'; [|right; apply elem_of_app; by right].
    destruct (Htg _ _ H); [by left|right]. apply elem_of_app. by left.
Qed.

Lemma collect_item_inv acc entry :
  collect_inv old acc → collect_inv old (collect_item root acc entry).
Proof.
  intros Hinv. destruct entry as [item display_name]. unfold collect_item.
  replace (chapter_num acc + 1) with (S (chapter_num acc)) by lia.
  destruct (is_file _ _ && _).
  - apply collect_inv_extend; simpl; [done|by repeat constructor; left
                                      |apply NoDup_singleton|].
    intros k v [[_ <-]|[_ H]]%lookup_insert_Some; [right; left|by left].
  - destruct (lookup_node root (parts item)) as [[text|es]|]; [done| |done].
    destruct (collect_folder _ _ _ _ _ _) as [chs st'] eqn:Hcf.
    apply collect_folder_spec in Hcf as [[-> ->]|[[k Hfiles] Hpaths]].
    { by destruct Hinv. }
    destruct chs as [|c chs]; [done|].
    apply collect_inv_extend; [done| |rewrite Hfiles; apply sub_files_NoDup|done].
    rewrite Hfiles. apply Forall_fmap, Forall_forall. intros i _. right. eauto.
Qed.

Lemma collect_loop_inv acc order :
  collect_inv old acc → collect_inv old (foldl (collect_item root) acc order).
Proof.
  revert acc; induction order as [|e order IH]; intros acc Hinv; simpl; [done|].
  by apply IH, collect_item_inv.
Qed.

End collect.

(** The collector writes to the chapter map only. *)
Lemma collect_item_state root acc entry :
  mermaid_cache (build (collect_item root acc entry)) = mermaid_cache (build acc) ∧
  mermaid_counter (build (collect_item root acc entry))
    = mermaid_counter (build acc) ∧
  mermaid_added_to_book (build (collect_item root acc entry))
    = mermaid_added_to_book (build acc).
Proof.
  destruct entry as [item display_name]. unfold collect_item.
  destruct (is_file _ _ && _); [done|].
  destruct (lookup_node root (parts item)) as [[text|es]|]; [done| |done].
  unfold collect_folder.
  destruct (collect_folder_files _ _ es) as [|f fs]; [done|].
  pose proof (folder_loop_cache display_name (chapter_num acc + 1) 0 (f :: fs)
    ([], set_paths <[rstrip_char "/" item := chap_sub_file (chapter_num acc + 1) 0]>
           (set_paths <[item := chap_sub_file (chapter_num acc + 1) 0]> (build acc))))
    as Hloop.
  destruct (folder_loop _ _ _ _ _) as [[|c chs] st']; apply Hloop.
Qed.

Lemma collect_all_state root chapter_order st :
  mermaid_cache (collect_all_chapters root chapter_order st).2 = mermaid_cache st ∧
  mermaid_counter (collect_all_chapters root chapter_order st).2
    = mermaid_counter st ∧
  mermaid_added_to_book (collect_all_chapters root chapter_order st).2
    = mermaid_added_to_book st.
Proof.
  unfold collect_all_chapters. simpl.
  change st with (build (mkCollect [] 0 st)) at 2 4 6.
  generalize (mkCollect [] 0 st). induction chapter_order as [|e l IH];
    intros acc; simpl; [done|].
  destruct (IH (collect_item root acc e)) as (-> & -> & ->).
  apply collect_item_state.
Qed.

Lemma collect_init_inv st : collect_inv (path_to_chapter st) (mkCollect [] 0 st).
Proof. split; simpl; [constructor|constructor|auto]. Qed.

(** Every chapter file name starts with the same five characters. *)
Lemma numbered_prefix k f : numbered k f → is_page f = true.
Proof.
  intros (n & _ & [->|[i ->]]); unfold is_page, chap_file, chap_sub_file;
    apply startswith_app.
Qed.

(** The file names of the chapters the collector returns: pairwise
    distinct, and names of chapters. *)
Lemma collected_names root chapter_order st :
  NoDup (chapter_filename <$> (collect_all_chapters root chapter_order st).1) ∧
  Forall (λ f, is_page f = true)
         (chapter_filename <$> (collect_all_chapters root chapter_order st).1).
Proof.
  unfold collect_all_chapters. simpl.
  pose proof (collect_loop_inv root (path_to_chapter st) _ chapter_order
                (collect_init_inv st)) as [Hnum Hnd _].
  split; [done|]. eapply Forall_impl; [exact Hnum|]. apply numbered_prefix.
Qed.

(** C20. No two chapters share a file name: the chapters of the book are
    written to distinct files of the package. *)
Theorem chapter_files_distinct root chapter_order st :
  NoDup (chapter_filename <$> (collect_all_chapters root chapter_order st).1).
Proof.
  unfold collect_all_chapters. simpl.
  apply (inv_distinct (path_to_chapter st)), collect_loop_inv, collect_init_inv.
Qed.

Lemma path_targets_exist_aux root chapter_order st k v :
  path_to_chapter (collect_all_chapters root chapter_order st).2 !! k = Some v →
  path_to_chapter st !! k = Some v ∨
  v ∈ chapter_filename <$> (collect_all_chapters root chapter_order st).1.
Proof.
  unfold collect_all_chapters. simpl.
  apply (inv_targets (path_to_chapter st)), collect_loop_inv, collect_init_inv.
Qed.

(** C33. Every target the collector records in the chapter map is the file
    of a chapter it returns: an entry of the map never points to a file that
    is not in the book. *)
Theorem path_targets_exist root chapter_order st k v :
  path_to_chapter (collect_all_chapters root chapter_order st).2 !! k = Some v →
  path_to_chapter st !! k = Some v ∨
  v ∈ chapter_filename <$> (collect_all_chapters root chapter_order st).1.
Proof. apply path_targets_exist_aux. Qed.

(** C37. The recursion of [collect_folder_files] ends: with fuel for the
    depth of the directory the listing is complete, and more fuel does not
    change it. *)
Theorem collect_folder_files_fuel fuel folder_path es :
  depth (Dir es) ≤ fuel →
  collect_folder_files fuel folder_path es
  = collect_folder_files (depth (Dir es)) folder_path es.
Proof. intros H. by apply collect_folder_files_irrel. Qed.

(** Every path [collect_folder_files] lists leads to an entry of the
    tree below the folder, and the name of that entry ends in [.md]. *)
Theorem collected_files_exist fuel folder_path es p t :
  wf (Dir es) → (p, t) ∈ collect_folder_files fuel folder_path es →
  ∃ rel name, p = folder_path ++ rel ∧ last rel = Some name ∧
              endswith ".md" name = true ∧ is_Some (lookup_node (Dir es) rel).
Proof.
  revert folder_path es p t. induction fuel as [|fuel IH];
    intros folder_path es p t Hwf; [by intros ?%elem_of_nil|].
  intros [[[= -> _] [x Hx]]|[H|(name & sub & Hin & H)]]%elem_of_collect.
  - exists ["README.md"], "README.md". simpl. rewrite Hx. eauto.
  - apply elem_of_md_files in H as (e & [x Hx]%assoc_elem & He & ->).
    exists [e.1], e.1. simpl. rewrite Hx. eauto.
  - apply elem_of_prefixed in H as [t' H].
    apply IH in H as (rel & file & -> & Hlast & Hmd & Hsome);
      [|by eapply wf_entry].
    exists (name :: rel), file. rewrite <-app_assoc. split_and!; [done| |done|].
    + destruct rel; [done|]. by rewrite last_cons, Hlast.
    + simpl. by rewrite (assoc_NoDup name (Dir sub)) by (done || apply Hwf).
Qed.

(** C38. The title of a file found in a subfolder always carries the name
    of the subfolder: the branch of [collect_folder_files] that would keep
    the bare title is never taken. *)
Theorem subfolder_titles_prefixed fuel folder_path name sub :
  prefixed folder_path
    (collect_folder_files fuel (folder_path ++ [name]) sub)
  = (λ f, (f.1, title_of name +:+ ": " +:+ f.2))
      <$> collect_folder_files fuel (folder_path ++ [name]) sub.
Proof.
  unfold prefixed. apply list_fmap_ext. intros i [p t] Hi%list_elem_of_lookup_2.
  apply collected_below in Hi as (rel & -> & Hrel). simpl.
  rewrite <-app_assoc, drop_app_length. destruct rel; [done|].
  by rewrite decide_True by (simpl; lia).
Qed.

(** ** The theorems at work *)

(** The project of the test suite, with a nested folder, a hidden folder
    and a folder without markdown files. *)
Definition examples_dir : entries :=
  [("b_two.md", File (Ok "b")); ("a-one.md", File (Ok "a"))].

Definition chapter_dir : entries :=
  [("section.md", File (Ok "# Section"));
   ("README.md", File (Ok "# Chapter Overview"));
   ("examples", Dir examples_dir);
   (".hidden", Dir [("x.md", File (Ok "x"))])].

Definition tmp_project : node :=
  Dir [("README.md", File (Ok "# Test Project"));
       ("claude-howto-logo.png", File (Err UnicodeDecodeError));
       ("01-test-chapter", Dir chapter_dir);
       ("02-empty", Dir [("notes.txt", File (Ok "n"))])].

Definition test_order : list (string * string) :=
  [("README.md", "Introduction"); ("02-empty", "Empty");
   ("missing.md", "Missing"); ("01-test-chapter", "Test Chapter")].

(** The chapters of the test project: the folder without markdown files and
    the missing file take no chapter number; the README of the folder comes
    first, then its files and the files of its subfolder in the order of
    their names; the hidden folder is skipped. *)
Example collect_test_project :
  (collect_all_chapters tmp_project test_order new_state).1 =
  [mkChapter ["README.md"] "Introduction" "Introduction" "chap_01.xhtml"
             false None;
   mkChapter ["01-test-chapter"; "README.md"] "Test Chapter" "Overview"
             "chap_02_00.xhtml" true (Some "Test Chapter");
   mkChapter ["01-test-chapter"; "section.md"] "Section" "Section"
             "chap_02_01.xhtml" false (Some "Test Chapter");
   mkChapter ["01-test-chapter"; "examples"; "a-one.md"] "Examples: A One"
             "Examples: A One" "chap_02_02.xhtml" false (Some "Test Chapter");
   mkChapter ["01-test-chapter"; "examples"; "b_two.md"] "Examples: B Two"
             "Examples: B Two" "chap_02_03.xhtml" false (Some "Test Chapter")].
Proof. by_compute. Qed.

Example collect_test_paths :
  path_to_chapter (collect_all_chapters tmp_project test_order new_state).2 =
  {[ "README.md" := "chap_01.xhtml";
     "01-test-chapter" := "chap_02_00.xhtml";
     "01-test-chapter/README.md" := "chap_02_00.xhtml";
     "01-test-chapter/section.md" := "chap_02_01.xhtml";
     "01-test-chapter/examples/a-one.md" := "chap_02_02.xhtml";
     "01-test-chapter/examples/b_two.md" := "chap_02_03.xhtml" ]}.
Proof. by_compute. Qed.

(** In a folder without README the first file by name is presented as the
    overview of the folder, under the name of the folder. *)
Example overview_without_readme :
  (collect_all_chapters (Dir [("examples", Dir examples_dir)])
     [("examples", "Examples")] new_state).1 =
  [mkChapter ["examples"; "a-one.md"] "Examples" "A One" "chap_01_00.xhtml"
             true (Some "Examples");
   mkChapter ["examples"; "b_two.md"] "B Two" "B Two" "chap_01_01.xhtml"
             false (Some "Examples")].
Proof. by_compute. Qed.

Lemma path_targets_exist_witness :
  path_to_chapter new_state !! "01-test-chapter" = Some "chap_02_00.xhtml" ∨
  "chap_02_00.xhtml"
    ∈ chapter_filename <$> (collect_all_chapters tmp_project test_order new_state).1.
Proof.
  apply (path_targets_exist tmp_project test_order new_state "01-test-chapter").
  by_compute.
Defined.

Lemma collect_folder_files_fuel_witness :
  collect_folder_files 5 ["01-test-chapter"] chapter_dir
  = collect_folder_files (depth (Dir chapter_dir)) ["01-test-chapter"] chapter_dir.
Proof.
  apply (collect_folder_files_fuel 5 ["01-test-chapter"] chapter_dir).
  vm_compute. lia.
Defined.

Lemma collected_files_exist_witness :
  ∃ rel name, ["01-test-chapter"; "examples"; "a-one.md"] = ["01-test-chapter"] ++ rel ∧
    last rel = Some name ∧ endswith ".md" name = true ∧
    is_Some (lookup_node (Dir chapter_dir) rel).
Proof.
  apply (collected_files_exist 2 ["01-test-chapter"] chapter_dir _ "Examples: A One").
  - vm_compute. repeat (split; [repeat constructor; set_solver|]). done.
  - vm_compute. do 2 right. left.
Defined.
