(* ===== verification/Renderer.v ===== *)
(** * Renderer: [MermaidRenderer], the concurrent diagram fetch

    [render_all] creates one [_fetch_single] coroutine per diagram and awaits
    them with [asyncio.gather].  A coroutine first looks its key up in the
    cache; on a miss it enters the semaphore and calls [_fetch_with_retry],
    whose body ([fetch_attempt]) issues one HTTP request and whose decorator
    ([retry_decision], [wait_exponential]) repeats the body after a timeout
    or a network error, three attempts at most.

    The coroutines run on one event loop, so the only points where they
    interleave are the awaits.  A coroutine is therefore in one of five
    phases ([phase]); the system state [sys] holds the build state, the
    semaphore (its value and its FIFO of parked coroutines), the phase of
    every coroutine, the first exception [gather] has seen, and a ghost
    counter of the requests issued.  An [event] is what the event loop can
    do next: run a new coroutine to its first await ([Start]), deliver the
    outcome of a request in flight ([Respond], the outcome chosen by the
    network) or end a back-off sleep ([Wake]).  [step_fn] is the transition
    function, [step] the relation it induces and [run] its iteration over a
    schedule.  Starting the coroutines is not forced to precede the
    responses: the model admits more interleavings than the event loop
    produces, and the invariants hold for all of them.

    The semaphore hands a released slot to the head of its queue in the same
    step ([release]); this is the behaviour of [asyncio.Semaphore] as far as
    the coroutines can observe it.

    [fetch_with_retry] is the sequential reading of the decorated function
    for one diagram: the body applied to the outcomes the network gives,
    one after the other.  It is the specification of what a coroutine does
    between entering and leaving the semaphore. *)

From Stdlib Require Import ZArith.
From stdpp Require Import base tactics option list strings gmap relations.
From S2P Require Import Prelude PyStr Sanitizer State.

#[local] Arguments String.append !_ _ : simpl nomatch.

(** ** The network *)

(** What [client.get] does, redirects followed: it returns a response with a
    status code and a body, or it raises. *)
Inductive outcome : Type :=
| Response (status_code : nat) (content : bytes)
| Raise (e : exn).

(** ** One diagram *)

(** [mermaid_code.strip()], the key of the cache. *)
Definition cache_key (mermaid_code : string) : string := strip mermaid_code.

(** The image name of the [n]-th rendered diagram. *)
Definition img_name (n : nat) : string :=
  "mermaid_" +:+ str_of_nat n +:+ ".png".

Definition status_error (status_code index : nat) : exn :=
  MermaidRenderError ("Kroki API returned " +:+ str_of_nat status_code
                      +:+ " for diagram " +:+ str_of_nat index).

(** The body of [_fetch_with_retry], given the outcome of its request. *)
Definition fetch_attempt (st : BuildState) (mermaid_code : string)
    (index : nat) (o : outcome) :
    result exn (option (bytes * string)) * BuildState :=
  match o with
  | Response status_code content =>
      if decide (status_code = 200) then
        let n := S (mermaid_counter st) in
        let result := (content, img_name n) in
        (Ok (Some result),
         set_cache <[cache_key mermaid_code := result]> (set_counter n st))
      else (Err (status_error status_code index), st)
  | Raise e => (Err e, st)
  end.

(** [wait_exponential(multiplier=1, min=1, max=10)] after attempt [n]. *)
Definition wait_exponential (attempt_number : nat) : nat :=
  1 `max` ((2 ^ (attempt_number - 1)) `min` 10).

Inductive retry_action : Type :=
| RetryAfter (seconds : nat)
| Reraise.

(** The decorator: retry on the two network exception classes, stop after
    the third attempt, re-raise the last exception. *)
Definition retry_decision (attempt_number : nat) (e : exn) : retry_action :=
  if is_retryable e then
    if decide (3 ≤ attempt_number) then Reraise
    else RetryAfter (wait_exponential attempt_number)
  else Reraise.

(** [_fetch_with_retry], sequentially: attempt [attempt_number] and the
    attempts that follow it, against the outcomes [os] the network gives in
    turn.  [None] when the outcomes run out before the call ends. *)
Fixpoint fetch_with_retry (st : BuildState) (mermaid_code : string)
    (index attempt_number : nat) (os : list outcome) :
    option (result exn (option (bytes * string)) * BuildState) :=
  match os with
  | [] => None
  | o :: os' =>
      let '(r, st') := fetch_attempt st mermaid_code index o in
      match r with
      | Ok v => Some (Ok v, st')
      | Err e =>
          match retry_decision attempt_number e with
          | RetryAfter _ =>
              fetch_with_retry st' mermaid_code index (S attempt_number) os'
          | Reraise => Some (Err e, st')
          end
      end
  end.

(** What [_fetch_single] makes of the result of [_fetch_with_retry]. *)
Definition fetch_single_result (cfg : EPUBConfig) (mermaid_code : string)
    (index : nat) (r : result exn (option (bytes * string))) :
    result exn (string * (bytes * string)) :=
  match r with
  | Ok (Some result) => Ok (cache_key mermaid_code, result)
  | Ok None =>
      Err (MermaidRenderError
             ("Failed to render Mermaid diagram " +:+ str_of_nat index
              +:+ " after " +:+ str_of_nat (max_retries cfg) +:+ " attempts"))
  | Err e => Err e
  end.

(** [_fetch_single] for one diagram on its own, without the semaphore: the
    cache check, then the request with its retries, against the outcomes
    [os] the network gives in turn. *)
Definition fetch_single (cfg : EPUBConfig) (st : BuildState)
    (mermaid_code : string) (index : nat) (os : list outcome) :
    option (result exn (string * (bytes * string)) * BuildState) :=
  match mermaid_cache st !! cache_key mermaid_code with
  | Some entry => Some (Ok (cache_key mermaid_code, entry), st)
  | None =>
      '(r, st') ← fetch_with_retry st mermaid_code index 1 os;
      Some (fetch_single_result cfg mermaid_code index r, st')
  end.

(** ** The coroutines *)

Inductive phase : Type :=
| Created
| Waiting
| Fetching (attempt_number : nat)
| Sleeping (attempt_number : nat)
| Done (r : result exn (string * (bytes * string))).

Record sys : Type := mkSys {
  s_state : BuildState;
  s_sem : nat;
  s_waiters : list nat;
  s_phases : list phase;
  s_failed : option exn;
  s_requests : nat
}.

Inductive event : Type :=
| Start (i : nat)
| Respond (i : nat) (o : outcome)
| Wake (i : nat).

Definition set_phase (i : nat) (ph : phase) (s : sys) : sys :=
  mkSys (s_state s) (s_sem s) (s_waiters s) (<[i := ph]> (s_phases s))
        (s_failed s) (s_requests s).

Definition set_state (st : BuildState) (s : sys) : sys :=
  mkSys st (s_sem s) (s_waiters s) (s_phases s) (s_failed s) (s_requests s).

(** Task [i] sends request number [a]. *)
Definition issue (i a : nat) (s : sys) : sys :=
  mkSys (s_state s) (s_sem s) (s_waiters s) (<[i := Fetching a]> (s_phases s))
        (s_failed s) (S (s_requests s)).

(** [Semaphore.release]: the slot goes to the first parked coroutine, which
    sends its first request; with nobody parked the value grows. *)
Definition release (s : sys) : sys :=
  match s_waiters s with
  | j :: ws =>
      issue j 1 (mkSys (s_state s) (s_sem s) ws (s_phases s)
                       (s_failed s) (s_requests s))
  | [] =>
      mkSys (s_state s) (S (s_sem s)) [] (s_phases s)
            (s_failed s) (s_requests s)
  end.

(** [Semaphore.acquire] by coroutine [i]: take a slot when one is free and
    nobody is parked, park otherwise. *)
Definition acquire (i : nat) (s : sys) : sys :=
  if decide (0 < s_sem s ∧ s_waiters s = []) then
    issue i 1 (mkSys (s_state s) (pred (s_sem s)) (s_waiters s) (s_phases s)
                     (s_failed s) (s_requests s))
  else
    mkSys (s_state s) (s_sem s) (s_waiters s ++ [i])
          (<[i := Waiting]> (s_phases s)) (s_failed s) (s_requests s).

(** [gather] keeps the first exception. *)
Definition note (r : result exn (string * (bytes * string))) (s : sys) : sys :=
  match r, s_failed s with
  | Err e, None =>
      mkSys (s_state s) (s_sem s) (s_waiters s) (s_phases s) (Some e)
            (s_requests s)
  | _, _ => s
  end.

(** Coroutine [i] ends with [r], having left the semaphore. *)
Definition finish (i : nat) (r : result exn (string * (bytes * string)))
    (s : sys) : sys :=
  release (note r (set_phase i (Done r) s)).

Section renderer.
Context (cfg : EPUBConfig).
(** The arguments of the coroutines: discovery index and sanitized text. *)
Context (tasks : list (nat * string)).

(** One turn of the event loop. *)
Definition step_fn (s : sys) (ev : event) : option sys :=
  match ev with
  | Start i =>
      '(index, code) ← tasks !! i;
      ph ← s_phases s !! i;
      match ph with
      | Created =>
          match mermaid_cache (s_state s) !! cache_key code with
          | Some entry =>
              Some (set_phase i (Done (Ok (cache_key code, entry))) s)
          | None => Some (acquire i s)
          end
      | _ => None
      end
  | Respond i o =>
      '(index, code) ← tasks !! i;
      ph ← s_phases s !! i;
      match ph with
      | Fetching a =>
          let '(r, st') := fetch_attempt (s_state s) code index o in
          let s' := set_state st' s in
          match r with
          | Ok v => Some (finish i (fetch_single_result cfg code index (Ok v)) s')
          | Err e =>
              match retry_decision a e with
              | RetryAfter _ => Some (set_phase i (Sleeping a) s')
              | Reraise => Some (finish i (Err e) s')
              end
          end
      | _ => None
      end
  | Wake i =>
      ph ← s_phases s !! i;
      match ph with
      | Sleeping a => Some (issue i (S a) s)
      | _ => None
      end
  end.

Definition step (s s' : sys) : Prop := ∃ ev, step_fn s ev = Some s'.

(** A schedule, event by event; [None] when an event is not enabled. *)
Fixpoint run (evs : list event) (s : sys) : option sys :=
  match evs with
  | [] => Some s
  | ev :: evs' => s' ← step_fn s ev; run evs' s'
  end.

(** The state in which [gather] is entered: [Semaphore(n)] raises
    [ValueError] for a negative [n]. *)
Definition init_sys (st : BuildState) : result exn sys :=
  if decide (max_concurrent_requests cfg < 0)%Z
  then Err (OtherError "ValueError: Semaphore initial value must be >= 0")
  else Ok (mkSys st (Z.to_nat (max_concurrent_requests cfg)) []
                 (replicate (length tasks) Created) None 0).

(** The results of the coroutines that have ended well, in task order. *)
Definition completed (s : sys) : list (string * (bytes * string)) :=
  omap (λ ph, match ph with Done (Ok r) => Some r | _ => None end) (s_phases s).

Definition all_done (s : sys) : bool :=
  forallb (λ ph, match ph with Done _ => true | _ => false end) (s_phases s).

(** What [render_all] returns once [gather] has an answer: the first
    exception, or the dictionary of the results. *)
Definition render_result (s : sys) :
    option (result exn (gmap string (bytes * string))) :=
  match s_failed s with
  | Some e => Some (Err e)
  | None =>
      if all_done s
      then Some (Ok (foldl (λ m r, <[r.1 := r.2]> m) ∅ (completed s)))
      else None
  end.

(** The states the event loop can be in, from a build state [st]. *)
Definition reachable (st : BuildState) (s : sys) : Prop :=
  ∃ s0 evs, init_sys st = Ok s0 ∧ run evs s0 = Some s.

(** A state in which the event loop has nothing to run. *)
Definition stuck (s : sys) : Prop := ∀ ev, step_fn s ev = None.

(** The state after the schedule [evs], when it is one. *)
Definition after (st : BuildState) (evs : list event) : option sys :=
  match init_sys st with
  | Ok s0 => run evs s0
  | Err _ => None
  end.

End renderer.

(** [render_all(diagrams)] builds its coroutines from the sanitized texts. *)
Definition render_tasks (diagrams : list (nat * string)) : list (nat * string) :=
  (λ d, (d.1, sanitize_mermaid d.2)) <$> diagrams.

(** ** Measures and invariants *)

(** A coroutine holds a slot of the semaphore from its first request to its
    end. *)
Definition holds (ph : phase) : nat :=
  match ph with
  | Fetching _ | Sleeping _ => 1
  | _ => 0
  end.

Definition holding (s : sys) : nat := sum_list_with holds (s_phases s).

(** The number of requests in flight. *)
Definition in_flight (s : sys) : nat :=
  sum_list_with (λ ph, match ph with Fetching _ => 1 | _ => 0 end) (s_phases s).

(** The number of turns a coroutine can still take. *)
Definition weight (ph : phase) : nat :=
  match ph with
  | Created => 7
  | Waiting => 6
  | Fetching a => 2 * (3 - a) + 1
  | Sleeping a => 2 * (3 - a)
  | Done _ => 0
  end.

Definition total_weight (s : sys) : nat := sum_list_with weight (s_phases s).

Definition phase_ok (ph : phase) : Prop :=
  match ph with
  | Fetching a => 1 ≤ a ≤ 3
  | Sleeping a => 1 ≤ a < 3
  | _ => True
  end.

(** The invariant of the semaphore, for [k] slots. *)
Record sem_inv (k : nat) (s : sys) : Prop := {
  inv_slots : s_sem s + holding s = k;
  inv_waiters : ∀ i, i ∈ s_waiters s ↔ s_phases s !! i = Some Waiting;
  inv_nodup : NoDup (s_waiters s);
  inv_locked : s_waiters s ≠ [] → s_sem s = 0;
  inv_phases : Forall phase_ok (s_phases s)
}.

(** The invariant of the cache: every entry carries the name of a counter
    value already passed, and no two keys share a name. *)
Record cache_inv (st : BuildState) : Prop := {
  inv_names : ∀ k d n, mermaid_cache st !! k = Some (d, n) →
              ∃ j, 1 ≤ j ≤ mermaid_counter st ∧ n = img_name j;
  inv_inj : ∀ k1 k2 d1 d2 n,
            mermaid_cache st !! k1 = Some (d1, n) →
            mermaid_cache st !! k2 = Some (d2, n) → k1 = k2
}.

(** The results of the coroutines agree with the cache: a coroutine that
    ended well returned the key of its text, and the key is cached. *)
Definition results_cached (tasks : list (nat * string)) (s : sys) : Prop :=
  ∀ i index code r,
    tasks !! i = Some (index, code) → s_phases s !! i = Some (Done (Ok r)) →
    r.1 = cache_key code ∧ is_Some (mermaid_cache (s_state s) !! r.1).

(** [gather] has seen an exception as soon as a coroutine has ended with
    one. *)
Definition failures_noted (s : sys) : Prop :=
  ∀ i e, s_phases s !! i = Some (Done (Err e)) → is_Some (s_failed s).

(** The invariant of the build state along a run of [render_all]. *)
Record render_inv (tasks : list (nat * string)) (s : sys) : Prop := {
  inv_results : results_cached tasks s;
  inv_failures : failures_noted s;
  inv_length : length (s_phases s) = length tasks
}.

(** ** Image names *)

Lemma img_name_inj n m : img_name n = img_name m → n = m.
Proof.
  unfold img_name. intros H%(inj (String.app _)).
  by apply app_inj_tail_str, str_of_nat_inj in H.
Qed.

(** ** One attempt *)

(** The body returns a result or raises: it never returns [None]. *)
Lemma fetch_attempt_not_None st code index o st' :
  fetch_attempt st code index o ≠ (Ok None, st').
Proof. destruct o; simpl; [case_decide|]; congruence. Qed.

Lemma fetch_attempt_Ok st code index o v st' :
  fetch_attempt st code index o = (Ok v, st') →
  ∃ content, o = Response 200 content ∧
    v = Some (content, img_name (S (mermaid_counter st))) ∧
    st' = set_cache <[cache_key code := (content, img_name (S (mermaid_counter st)))]>
            (set_counter (S (mermaid_counter st)) st).
Proof.
  destruct o as [status content|e]; simpl; [|done].
  case_decide; intros; simplify_eq. eauto.
Qed.

Lemma fetch_attempt_Err st code index o e st' :
  fetch_attempt st code index o = (Err e, st') →
  st' = st ∧
  ((∃ status content, o = Response status content ∧ status ≠ 200 ∧
                      e = status_error status index) ∨ o = Raise e).
Proof.
  destruct o as [status content|e']; simpl; [case_decide|];
    intros; simplify_eq; naive_solver.
Qed.

(** The cache only grows, and so does the counter. *)
Lemma fetch_attempt_mono st code index o r st' :
  fetch_attempt st code index o = (r, st') →
  mermaid_counter st ≤ mermaid_counter st' ∧
  (∀ k, is_Some (mermaid_cache st !! k) → is_Some (mermaid_cache st' !! k)) ∧
  mermaid_added_to_book st' = mermaid_added_to_book st ∧
  path_to_chapter st' = path_to_chapter st.
Proof.
  destruct r as [v|e].
  - intros (content & -> & -> & ->)%fetch_attempt_Ok. simpl.
    split_and!; [lia| |done..]. intros k Hk.
    rewrite lookup_insert. case_decide; [by eexists|done].
  - intros [-> _]%fetch_attempt_Err. done.
Qed.

Lemma fetch_attempt_cache_inv st code index o r st' :
  cache_inv st → fetch_attempt st code index o = (r, st') → cache_inv st'.
Proof.
  intros [Hn Hi]. destruct r as [v|e]; [|by intros [-> _]%fetch_attempt_Err].
  intros (content & -> & -> & ->)%fetch_attempt_Ok.
  assert (∀ k d, mermaid_cache st !! k ≠
                 Some (d, img_name (S (mermaid_counter st)))) as Hfresh.
  { intros k d Hk. apply Hn in Hk as (j & Hj & Heq%img_name_inj). lia. }
  split; simpl.
  - intros k d n. rewrite lookup_insert. case_decide.
    + intros [= <- <-]. exists (S (mermaid_counter st)). split; [lia|done].
    + intros (j & Hj & ->)%Hn. exists j. split; [lia|done].
  - intros k1 k2 d1 d2 n. rewrite !lookup_insert.
    repeat case_decide; intros; simplify_eq; try done; [by edestruct Hfresh..|].
    by eapply Hi.
Qed.

Lemma new_state_cache_inv : cache_inv new_state.
Proof. split; simpl; intros *; by rewrite lookup_empty. Qed.

(** ** The retry policy *)

Lemma retry_decision_spec a e :
  retry_decision a e =
  if decide (is_retryable e = true ∧ a < 3)
  then RetryAfter (wait_exponential a) else Reraise.
Proof.
  unfold retry_decision. destruct (is_retryable e); repeat case_decide;
    done || lia || naive_solver.
Qed.

(** The call never returns [None], so [_fetch_single] never takes the branch
    that raises with the configured retry count. *)
Lemma fetch_with_retry_not_None st code index a os st' :
  fetch_with_retry st code index a os ≠ Some (Ok None, st').
Proof.
  revert st a; induction os as [|o os IH]; intros st a; simpl; [done|].
  destruct (fetch_attempt st code index o) as [[v|e] st1] eqn:Hf.
  - intros [= -> ->]. by eapply fetch_attempt_not_None.
  - destruct (retry_decision a e); [apply IH|done].
Qed.

(** A call that returns has added its result to the cache and named it by
    the next value of the counter. *)
Lemma fetch_with_retry_Ok st code index a os v st' :
  fetch_with_retry st code index a os = Some (Ok (Some v), st') →
  st' = set_cache <[cache_key code := v]> (set_counter (S (mermaid_counter st)) st)
  ∧ ∃ content, v = (content, img_name (S (mermaid_counter st))).
Proof.
  revert st a; induction os as [|o os IH]; intros st a; simpl; [done|].
  destruct (fetch_attempt st code index o) as [[v0|e0] st1] eqn:Hf.
  - intros [= -> ->]. apply fetch_attempt_Ok in Hf as (c & _ & [= ->] & ->).
    eauto.
  - apply fetch_attempt_Err in Hf as [-> _].
    destruct (retry_decision a e0); [apply IH|done].
Qed.

(** A call that raises has not changed the build state. *)
Lemma fetch_with_retry_Err st code index a os e st' :
  fetch_with_retry st code index a os = Some (Err e, st') → st' = st.
Proof.
  revert st a; induction os as [|o os IH]; intros st a; simpl; [done|].
  destruct (fetch_attempt st code index o) as [[v|e0] st1] eqn:Hf; [done|].
  apply fetch_attempt_Err in Hf as [-> _].
  destruct (retry_decision a e0); [apply IH|congruence].
Qed.

(** ** The semaphore invariant, operation by operation *)

Lemma sem_inv_ext k s s' :
  s_sem s' = s_sem s → s_waiters s' = s_waiters s → s_phases s' = s_phases s →
  sem_inv k s → sem_inv k s'.
Proof.
  intros Hs Hw Hp [H1 H2 H3 H4 H5].
  split; unfold holding; rewrite ?Hs, ?Hw, ?Hp; done.
Qed.

Lemma holding_insert s i ph ph' :
  s_phases s !! i = Some ph →
  holding (set_phase i ph' s) + holds ph = holding s + holds ph'.
Proof. apply sum_list_with_insert. Qed.

(** Changing the phase of a coroutine that is not parked, to a phase other
    than parked, moves [holds ph' - holds ph] slots. *)
Lemma set_phase_inv k k' s i ph ph' :
  sem_inv k s → s_phases s !! i = Some ph →
  ph ≠ Waiting → ph' ≠ Waiting → phase_ok ph' →
  k' + holds ph = k + holds ph' →
  sem_inv k' (set_phase i ph' s).
Proof.
  intros [H1 H2 H3 H4 H5] Hi Hph Hph' Hok Hk.
  pose proof (holding_insert s i ph ph' Hi) as Hh.
  split; simpl; [lia| |done|done|by apply Forall_insert].
  intros j. rewrite H2, list_lookup_insert.
  case_decide as Hj; [|done]. destruct Hj as [<- _]. naive_solver.
Qed.

Lemma issue_inv k k' s i a ph :
  sem_inv k s → s_phases s !! i = Some ph → ph ≠ Waiting → 1 ≤ a ≤ 3 →
  k' + holds ph = k + 1 →
  sem_inv k' (issue i a s).
Proof.
  intros Hinv Hi Hph Ha Hk.
  apply (sem_inv_ext _ (set_phase i (Fetching a) s)); [done..|].
  by eapply set_phase_inv.
Qed.

Lemma note_inv k r s : sem_inv k s → sem_inv k (note r s).
Proof.
  apply sem_inv_ext; unfold note; by destruct r, (s_failed s).
Qed.

Lemma set_state_inv k st s : sem_inv k s → sem_inv k (set_state st s).
Proof. by apply sem_inv_ext. Qed.

(** Releasing gives back one slot. *)
Lemma release_inv k s : sem_inv k s → sem_inv (S k) (release s).
Proof.
  intros [H1 H2 H3 H4 H5]. unfold release.
  destruct (s_waiters s) as [|j ws] eqn:Hw.
  - split; unfold holding in *; simpl; [lia|done..].
  - assert (s_phases s !! j = Some Waiting) as Hj by (apply H2; left).
    apply NoDup_cons in H3 as [Hjws Hnd].
    pose proof (sum_list_with_insert holds _ j _ (Fetching 1) Hj) as Hh.
    split; simpl; unfold holding in *; simpl in *;
      [lia| |done|by intros _; apply H4|by apply Forall_insert; [|simpl; lia]].
    intros i. rewrite list_lookup_insert. case_decide as Hi.
    + destruct Hi as [<- _]. naive_solver.
    + rewrite <-H2, elem_of_cons. apply lookup_lt_Some in Hj. naive_solver.
Qed.

(** Entering the semaphore keeps the slots. *)
Lemma acquire_inv k s i :
  sem_inv k s → s_phases s !! i = Some Created → sem_inv k (acquire i s).
Proof.
  intros Hinv Hi. unfold acquire. case_decide as Hfree.
  - destruct Hfree as [Hsem Hw].
    assert (k ≠ 0) by (destruct Hinv; lia).
    apply (issue_inv (pred k) k _ i 1 Created); [|done|done|lia|simpl; lia].
    destruct Hinv as [H1 H2 H3 H4 H5].
    split; unfold holding in *; simpl; [lia|done|done|by rewrite Hw|done].
  - destruct Hinv as [H1 H2 H3 H4 H5].
    pose proof (sum_list_with_insert holds _ i _ Waiting Hi) as Hh.
    assert (i ∉ s_waiters s) as Hni by (rewrite H2, Hi; done).
    split; simpl; unfold holding in *; simpl in *.
    + lia.
    + intros j. rewrite elem_of_app, list_elem_of_singleton, H2,
        list_lookup_insert.
      apply lookup_lt_Some in Hi as Hlt. case_decide; naive_solver.
    + apply NoDup_app. split_and!; [done| |apply NoDup_singleton].
      intros j Hj ->%list_elem_of_singleton. done.
    + intros _. destruct (decide (s_waiters s = [])) as [Hw|Hw]; [|auto].
      destruct (s_sem s); [done|]. destruct Hfree. split; [lia|done].
    + by apply Forall_insert.
Qed.

Section renderer_facts.
Context (cfg : EPUBConfig) (tasks : list (nat * string)).
Implicit Types (s : sys) (ev : event) (evs : list event).

Lemma finish_inv k s i r a :
  sem_inv (S k) s → s_phases s !! i = Some (Fetching a) →
  sem_inv (S k) (finish i r s).
Proof.
  intros Hinv Hi. unfold finish. apply release_inv, note_inv.
  eapply set_phase_inv; [done..|simpl; lia].
Qed.

Lemma holding_pos s i ph k :
  sem_inv k s → s_phases s !! i = Some ph → holds ph = 1 → ∃ k', k = S k'.
Proof.
  intros [H1 _ _ _ _] Hi Hph.
  pose proof (sum_list_with_lookup holds _ _ _ Hi) as Hle.
  unfold holding in *. destruct k; [lia|eauto].
Qed.

(** The semaphore invariant is kept by every turn of the event loop. *)
Lemma step_fn_sem_inv k s ev s' :
  sem_inv k s → step_fn cfg tasks s ev = Some s' → sem_inv k s'.
Proof.
  intros Hinv Hstep. destruct ev as [i|i o|i]; simpl in Hstep.
  - destruct (tasks !! i) as [[index code]|]; [|done]. simpl in Hstep.
    destruct (s_phases s !! i) as [[| | | |]|] eqn:Hi; simplify_eq/=.
    destruct (mermaid_cache _ !! _); simplify_eq.
    + eapply set_phase_inv; [done..|simpl; lia].
    + by apply acquire_inv.
  - destruct (tasks !! i) as [[index code]|]; [|done]. simpl in Hstep.
    destruct (s_phases s !! i) as [[| |a| |]|] eqn:Hi; simplify_eq/=.
    destruct (holding_pos _ _ _ _ Hinv Hi eq_refl) as [k' ->].
    assert (phase_ok (Fetching a)) as Ha.
    { destruct Hinv as [_ _ _ _ H5]. eapply Forall_lookup_1 in H5; done. }
    destruct (fetch_attempt _ _ _ _) as [[v|e] st'].
    + simplify_eq. eapply finish_inv; [by apply set_state_inv|done].
    + destruct (retry_decision a e) eqn:Hd; simplify_eq.
      * eapply set_phase_inv; [by apply set_state_inv|done..| |simpl; lia].
        unfold retry_decision in Hd. destruct (is_retryable e); [|done].
        case_decide; [done|]. simpl in *. lia.
      * eapply finish_inv; [by apply set_state_inv|done].
  - destruct (s_phases s !! i) as [[| | |a|]|] eqn:Hi; simplify_eq/=.
    assert (phase_ok (Sleeping a)) as Ha.
    { destruct Hinv as [_ _ _ _ H5]. eapply Forall_lookup_1 in H5; done. }
    eapply issue_inv; [done..|simpl in *; lia|simpl; lia].
Qed.

(** *** Reachable states *)

Lemma run_app evs1 evs2 s :
  run cfg tasks (evs1 ++ evs2) s = run cfg tasks evs1 s ≫= run cfg tasks evs2.
Proof.
  revert s; induction evs1 as [|ev evs1 IH]; intros s; simpl; [done|].
  destruct (step_fn cfg tasks s ev); simpl; auto.
Qed.

(** A property kept by every turn holds along every schedule. *)
Lemma run_invariant (I : sys → Prop) :
  (∀ s ev s', I s → step_fn cfg tasks s ev = Some s' → I s') →
  ∀ evs s s', I s → run cfg tasks evs s = Some s' → I s'.
Proof.
  intros Hstep evs. induction evs as [|ev evs IH]; intros s s' Hs; simpl.
  - by intros [= <-].
  - destruct (step_fn cfg tasks s ev) as [s1|] eqn:H1; [|done]. simpl.
    eauto.
Qed.

Lemma init_sys_Ok st s :
  init_sys cfg tasks st = Ok s →
  (0 ≤ max_concurrent_requests cfg)%Z ∧
  s = mkSys st (Z.to_nat (max_concurrent_requests cfg)) []
            (replicate (length tasks) Created) None 0.
Proof. unfold init_sys. case_decide; intros; simplify_eq. split; [lia|done]. Qed.

Lemma holding_replicate_Created n : sum_list_with holds (replicate n Created) = 0.
Proof. rewrite sum_list_with_replicate. simpl. lia. Qed.

Lemma init_sem_inv st s :
  init_sys cfg tasks st = Ok s →
  sem_inv (Z.to_nat (max_concurrent_requests cfg)) s.
Proof.
  intros [_ ->]%init_sys_Ok.
  split; unfold holding; simpl.
  - rewrite holding_replicate_Created. lia.
  - intros i. rewrite elem_of_nil. split; [done|].
    by intros [??]%lookup_replicate.
  - constructor.
  - done.
  - by apply Forall_replicate.
Qed.

Lemma in_flight_le_holding s : in_flight s ≤ holding s.
Proof. apply sum_list_with_le. intros [| | | |] _; simpl; lia. Qed.

(** *** Lengths *)

Lemma release_length s : length (s_phases (release s)) = length (s_phases s).
Proof. unfold release. destruct (s_waiters s); simpl; by rewrite ?length_insert. Qed.

Lemma note_phases r s : s_phases (note r s) = s_phases s.
Proof. unfold note. by destruct r, (s_failed s). Qed.

Lemma step_fn_length s ev s' :
  step_fn cfg tasks s ev = Some s' →
  length (s_phases s') = length (s_phases s).
Proof.
  intros Hstep. destruct ev as [i|i o|i]; simpl in Hstep.
  - destruct (tasks !! i) as [[index code]|]; [|done]. simpl in Hstep.
    destruct (s_phases s !! i) as [[| | | |]|]; simplify_eq/=.
    destruct (mermaid_cache _ !! _); simplify_eq/=; [by rewrite length_insert|].
    unfold acquire. case_decide; simpl; by rewrite length_insert.
  - destruct (tasks !! i) as [[index code]|]; [|done]. simpl in Hstep.
    destruct (s_phases s !! i) as [[| |a| |]|]; simplify_eq/=.
    destruct (fetch_attempt _ _ _ _) as [[v|e] st'];
      [|destruct (retry_decision a e)]; simplify_eq; unfold finish;
      rewrite ?release_length, ?note_phases; simpl; by rewrite length_insert.
  - destruct (s_phases s !! i) as [[| | |a|]|]; simplify_eq/=.
    by rewrite length_insert.
Qed.

(** *** What the operations leave alone *)

Lemma release_state s : s_state (release s) = s_state s.
Proof. unfold release. by destruct (s_waiters s). Qed.

Lemma note_state r s : s_state (note r s) = s_state s.
Proof. unfold note. by destruct r, (s_failed s). Qed.

Lemma acquire_state i s : s_state (acquire i s) = s_state s.
Proof. unfold acquire. by case_decide. Qed.

Lemma finish_state i r s : s_state (finish i r s) = s_state s.
Proof. unfold finish. by rewrite release_state, note_state. Qed.

Lemma release_failed s : s_failed (release s) = s_failed s.
Proof. unfold release. by destruct (s_waiters s). Qed.

Lemma acquire_failed i s : s_failed (acquire i s) = s_failed s.
Proof. unfold acquire. by case_decide. Qed.

Lemma note_failed_mono r s : is_Some (s_failed s) → is_Some (s_failed (note r s)).
Proof. unfold note. intros [e He]. rewrite He. destruct r; simpl; rewrite He; eauto. Qed.

Lemma note_failed_Err e s : is_Some (s_failed (note (Err e) s)).
Proof. unfold note. destruct (s_failed s) eqn:E; simpl; rewrite ?E; eauto. Qed.

Lemma note_failed_None e s :
  s_failed s = None → s_failed (note (Err e) s) = Some e.
Proof. unfold note. by intros ->. Qed.

(** A finished coroutine found after [release], [acquire] or [issue] was
    finished before. *)
Lemma lookup_insert_Done (phs : list phase) i j ph r :
  <[i:=ph]> phs !! j = Some (Done r) →
  (i = j ∧ ph = Done r) ∨ phs !! j = Some (Done r).
Proof.
  rewrite list_lookup_insert. case_decide; [|by right].
  intros [= ->]. left. naive_solver.
Qed.

Lemma release_Done s j r :
  s_phases (release s) !! j = Some (Done r) → s_phases s !! j = Some (Done r).
Proof.
  unfold release. destruct (s_waiters s); simpl; [done|].
  by intros [[_ [=]]|?]%lookup_insert_Done.
Qed.

Lemma acquire_Done i s j r :
  s_phases (acquire i s) !! j = Some (Done r) → s_phases s !! j = Some (Done r).
Proof.
  unfold acquire. case_decide; simpl; by intros [[_ [=]]|?]%lookup_insert_Done.
Qed.

Lemma finish_Done i r0 s j r :
  s_phases (finish i r0 s) !! j = Some (Done r) →
  (i = j ∧ r0 = r) ∨ s_phases s !! j = Some (Done r).
Proof.
  unfold finish. intros H%release_Done. rewrite note_phases in H. simpl in H.
  apply lookup_insert_Done in H as [[-> [= ->]]|?]; auto.
Qed.

Lemma finish_failed_mono i r s :
  is_Some (s_failed s) → is_Some (s_failed (finish i r s)).
Proof.
  intros H. unfold finish. rewrite release_failed. by apply note_failed_mono.
Qed.

Lemma finish_failed_Err i e s : is_Some (s_failed (finish i (Err e) s)).
Proof. unfold finish. rewrite release_failed. apply note_failed_Err. Qed.

(** *** The build state along a run *)

Lemma results_cached_mono s s' :
  results_cached tasks s →
  (∀ k, is_Some (mermaid_cache (s_state s) !! k) →
        is_Some (mermaid_cache (s_state s') !! k)) →
  (∀ j r, s_phases s' !! j = Some (Done (Ok r)) →
          s_phases s !! j = Some (Done (Ok r)) ∨
          ∃ index code, tasks !! j = Some (index, code) ∧
            r.1 = cache_key code ∧ is_Some (mermaid_cache (s_state s') !! r.1)) →
  results_cached tasks s'.
Proof.
  intros Hres Hmono Hnew i index code r Hi [Hold|Hn]%Hnew.
  - destruct (Hres _ _ _ _ Hi Hold). auto.
  - destruct Hn as (? & ? & ? & ? & ?). simplify_eq. auto.
Qed.

Lemma step_fn_results_cached s ev s' :
  results_cached tasks s → step_fn cfg tasks s ev = Some s' →
  results_cached tasks s'.
Proof.
  intros Hres Hstep. destruct ev as [i|i o|i]; simpl in Hstep.
  - destruct (tasks !! i) as [[index code]|] eqn:Ht; [|done]. simpl in Hstep.
    destruct (s_phases s !! i) as [[| | | |]|] eqn:Hi; simplify_eq/=.
    destruct (mermaid_cache _ !! _) as [entry|] eqn:Hc; simplify_eq.
    + eapply results_cached_mono; [done|done|]. simpl.
      intros j r [[-> [= <-]]|?]%lookup_insert_Done; [right|by left].
      exists index, code. simpl. rewrite Hc. eauto.
    + eapply results_cached_mono; [done|by rewrite acquire_state|].
      intros j r ?%acquire_Done. by left.
  - destruct (tasks !! i) as [[index code]|] eqn:Ht; [|done]. simpl in Hstep.
    destruct (s_phases s !! i) as [[| |a| |]|] eqn:Hi; simplify_eq/=.
    destruct (fetch_attempt _ _ _ _) as [r0 st'] eqn:Hf.
    pose proof (fetch_attempt_mono _ _ _ _ _ _ Hf) as (_ & Hmono & _).
    destruct r0 as [v|e]; [|destruct (retry_decision a e)]; simplify_eq.
    + apply fetch_attempt_Ok in Hf as (content & -> & -> & ->).
      eapply results_cached_mono; [done|by rewrite finish_state|].
      rewrite finish_state.
      intros j r [[-> [= <-]]|?]%finish_Done; [right|by left].
      exists index, code. simpl. rewrite lookup_insert_eq. eauto.
    + eapply results_cached_mono; [done|done|]. simpl.
      intros j r [[_ [=]]|?]%lookup_insert_Done. by left.
    + eapply results_cached_mono; [done|by rewrite finish_state|].
      intros j r [[_ [=]]|?]%finish_Done. by left.
  - destruct (s_phases s !! i) as [[| | |a|]|] eqn:Hi; simplify_eq/=.
    eapply results_cached_mono; [done|done|]. simpl.
    intros j r [[_ [=]]|?]%lookup_insert_Done. by left.
Qed.

Lemma step_fn_failures_noted s ev s' :
  failures_noted s → step_fn cfg tasks s ev = Some s' → failures_noted s'.
Proof.
  intros Hfail Hstep j e Hj. destruct ev as [i|i o|i]; simpl in Hstep.
  - destruct (tasks !! i) as [[index code]|] eqn:Ht; [|done]. simpl in Hstep.
    destruct (s_phases s !! i) as [[| | | |]|] eqn:Hi; simplify_eq/=.
    destruct (mermaid_cache _ !! _) as [entry|] eqn:Hc; simplify_eq.
    + simpl in *. apply lookup_insert_Done in Hj as [[_ [=]]|?]. eauto.
    + rewrite acquire_failed. apply acquire_Done in Hj. eauto.
  - destruct (tasks !! i) as [[index code]|] eqn:Ht; [|done]. simpl in Hstep.
    destruct (s_phases s !! i) as [[| |a| |]|] eqn:Hi; simplify_eq/=.
    destruct (fetch_attempt _ _ _ _) as [r0 st'] eqn:Hf.
    destruct r0 as [v|e0]; [|destruct (retry_decision a e0)]; simplify_eq.
    + apply fetch_attempt_Ok in Hf as (content & -> & -> & ->).
      apply finish_Done in Hj as [[_ [=]]|Hj].
      apply finish_failed_mono. simpl. eauto.
    + simpl in *. apply lookup_insert_Done in Hj as [[_ [=]]|?]. eauto.
    + apply finish_Done in Hj as [[-> [= ->]]|Hj];
        [apply finish_failed_Err|apply finish_failed_mono; simpl; eauto].
  - destruct (s_phases s !! i) as [[| | |a|]|] eqn:Hi; simplify_eq/=.
    apply lookup_insert_Done in Hj as [[_ [=]]|?]. eauto.
Qed.

Lemma step_fn_render_inv s ev s' :
  render_inv tasks s → step_fn cfg tasks s ev = Some s' → render_inv tasks s'.
Proof.
  intros [Hres Hfail Hlen] Hstep. split.
  - by eapply step_fn_results_cached.
  - by eapply step_fn_failures_noted.
  - by rewrite (step_fn_length _ _ _ Hstep).
Qed.

Lemma init_render_inv st s : init_sys cfg tasks st = Ok s → render_inv tasks s.
Proof.
  intros [_ ->]%init_sys_Ok. split; simpl.
  - intros i index code r _ [[=] _]%lookup_replicate.
  - intros i e [[=] _]%lookup_replicate.
  - apply length_replicate.
Qed.

Lemma step_fn_cache_inv s ev s' :
  cache_inv (s_state s) → step_fn cfg tasks s ev = Some s' →
  cache_inv (s_state s').
Proof.
  intros Hinv Hstep. destruct ev as [i|i o|i]; simpl in Hstep.
  - destruct (tasks !! i) as [[index code]|]; [|done]. simpl in Hstep.
    destruct (s_phases s !! i) as [[| | | |]|]; simplify_eq/=.
    destruct (mermaid_cache _ !! _); simplify_eq; by rewrite ?acquire_state.
  - destruct (tasks !! i) as [[index code]|]; [|done]. simpl in Hstep.
    destruct (s_phases s !! i) as [[| |a| |]|]; simplify_eq/=.
    destruct (fetch_attempt _ _ _ _) as [r0 st'] eqn:Hf.
    apply fetch_attempt_cache_inv in Hf; [|done].
    destruct r0 as [v|e]; [|destruct (retry_decision a e)]; simplify_eq;
      by rewrite ?finish_state.
  - by destruct (s_phases s !! i) as [[| | |a|]|]; simplify_eq/=.
Qed.

(** The renderer does not touch the set of images added to the book. *)
Lemma step_fn_added s ev s' :
  step_fn cfg tasks s ev = Some s' →
  mermaid_added_to_book (s_state s') = mermaid_added_to_book (s_state s).
Proof.
  intros Hstep. destruct ev as [i|i o|i]; simpl in Hstep.
  - destruct (tasks !! i) as [[index code]|]; [|done]. simpl in Hstep.
    destruct (s_phases s !! i) as [[| | | |]|]; simplify_eq/=.
    destruct (mermaid_cache _ !! _); simplify_eq; by rewrite ?acquire_state.
  - destruct (tasks !! i) as [[index code]|]; [|done]. simpl in Hstep.
    destruct (s_phases s !! i) as [[| |a| |]|]; simplify_eq/=.
    destruct (fetch_attempt _ _ _ _) as [r0 st'] eqn:Hf.
    apply fetch_attempt_mono in Hf as (_ & _ & Hadd & _).
    destruct r0 as [v|e]; [|destruct (retry_decision a e)]; simplify_eq;
      by rewrite ?finish_state.
  - by destruct (s_phases s !! i) as [[| | |a|]|]; simplify_eq/=.
Qed.

Lemma run_added st evs s s' :
  mermaid_added_to_book (s_state s) = mermaid_added_to_book st →
  run cfg tasks evs s = Some s' →
  mermaid_added_to_book (s_state s') = mermaid_added_to_book st.
Proof.
  apply (run_invariant (λ s, mermaid_added_to_book (s_state s)
                             = mermaid_added_to_book st)).
  intros s1 ev s2 H1 ->%step_fn_added. done.
Qed.

(** *** Progress *)

Lemma all_done_false s :
  all_done s = false →
  ∃ i ph, s_phases s !! i = Some ph ∧ ∀ r, ph ≠ Done r.
Proof.
  intros (i & ph & Hi & Hph)%forallb_false_lookup.
  exists i, ph. split; [done|]. by intros r ->.
Qed.

(** A coroutine that holds a slot can take a turn. *)
Lemma holder_enabled s i ph :
  length (s_phases s) = length tasks →
  s_phases s !! i = Some ph → holds ph = 1 →
  ∃ ev s', step_fn cfg tasks s ev = Some s'.
Proof.
  intros Hlen Hi Hph.
  destruct (lookup_lt_is_Some_2 tasks i) as [[index code] Ht].
  { rewrite <-Hlen. by eapply lookup_lt_Some. }
  destruct ph as [| |a|a|]; try done.
  - exists (Respond i (Raise NetworkError)). simpl. rewrite Ht, Hi. simpl.
    destruct (retry_decision a NetworkError); eauto.
  - exists (Wake i). simpl. rewrite Hi. simpl. eauto.
Qed.

Lemma created_enabled s i :
  length (s_phases s) = length tasks →
  s_phases s !! i = Some Created →
  ∃ s', step_fn cfg tasks s (Start i) = Some s'.
Proof.
  intros Hlen Hi.
  destruct (lookup_lt_is_Some_2 tasks i) as [[index code] Ht].
  { rewrite <-Hlen. by eapply lookup_lt_Some. }
  simpl. rewrite Ht, Hi. simpl. destruct (mermaid_cache _ !! _); eauto.
Qed.

(** A coroutine waits only while every slot is taken. *)
Lemma waiting_full k s i :
  sem_inv k s → s_phases s !! i = Some Waiting → holding s = k.
Proof.
  intros [H1 H2 _ H4 _] Hi%H2. rewrite H4 in H1; [done|].
  intros Hnil. rewrite Hnil in Hi. by apply elem_of_nil in Hi.
Qed.

End renderer_facts.
