(* ===== verification/Potential.v ===== *)
(** * Potential: what a turn of the event loop costs a coroutine

    Every turn of the event loop moves one coroutine from one phase to the
    next, and a turn that ends a coroutine may hand its slot to the first
    parked coroutine, which moves too.  [move] lists the moves with what
    they send: nothing, the first request of a coroutine, or the request of
    a retry.  A potential is a measure of the phases that every move pays
    from; [step_potential] shows, by one case analysis of [step_fn], that a
    turn pays for all its moves.

    Three potentials give three bounds: [weight] bounds the length of every
    schedule ([run_weight]); [budget], the requests a coroutine may still
    send under [stop_after_attempt(3)], bounds the requests of a run by
    three per diagram ([run_budget]); [unsent] bounds the first requests by
    one per diagram, so that a run sends at most one request per diagram
    and one per back-off sleep that ends ([run_unsent]). *)

From Stdlib Require Import ZArith.
From stdpp Require Import base tactics option list strings gmap.
From S2P Require Import Prelude PyStr Sanitizer State Renderer.

(** What a move sends. *)
Inductive kind : Type :=
| Quiet
| First
| Retry.

Definition requests_of (κ : kind) : nat :=
  match κ with
  | Quiet => 0
  | First | Retry => 1
  end.

(** The moves of a coroutine. *)
Inductive move : phase → phase → kind → Prop :=
| move_hit r : move Created (Done r) Quiet
| move_enter : move Created (Fetching 1) First
| move_park : move Created Waiting Quiet
| move_handoff : move Waiting (Fetching 1) First
| move_end a r : move (Fetching a) (Done r) Quiet
| move_sleep a : a < 3 → move (Fetching a) (Sleeping a) Quiet
| move_wake a : a < 3 → move (Sleeping a) (Fetching (S a)) Retry.

(** The requests a coroutine may still send. *)
Definition budget (ph : phase) : nat :=
  match ph with
  | Created | Waiting => 3
  | Fetching a | Sleeping a => 3 - a
  | Done _ => 0
  end.

Definition total_budget (s : sys) : nat := sum_list_with budget (s_phases s).

(** Whether a coroutine has still to send its first request. *)
Definition unsent (ph : phase) : nat :=
  match ph with
  | Created | Waiting => 1
  | _ => 0
  end.

Definition total_unsent (s : sys) : nat := sum_list_with unsent (s_phases s).

(** The back-off sleeps a schedule ends. *)
Definition wakes (evs : list event) : nat :=
  sum_list_with (λ ev, match ev with Wake _ => 1 | _ => 0 end) evs.

(** What a turn sends when it hands the slot on. *)
Definition handoff (cost : kind → nat) (h : bool) : nat :=
  if h then cost First else 0.

(** ** Potentials *)

Section potential.
Context (μ : phase → nat) (cost : kind → nat).
Context (Hμ : ∀ ph ph' κ, move ph ph' κ → μ ph' + cost κ ≤ μ ph).
Context (cfg : EPUBConfig) (tasks : list (nat * string)).
Implicit Types (s : sys) (ev : event).

Notation total s := (sum_list_with μ (s_phases s)).

(** A move of coroutine [i] is paid from the potential. *)
Lemma move_potential s i ph ph' κ :
  s_phases s !! i = Some ph → move ph ph' κ →
  sum_list_with μ (<[i := ph']> (s_phases s)) + cost κ ≤ total s.
Proof.
  intros Hi Hm%Hμ.
  pose proof (sum_list_with_insert μ _ i _ ph' Hi). lia.
Qed.

(** Releasing the semaphore moves the first parked coroutine, if any. *)
Lemma release_potential k s :
  sem_inv k s →
  ∃ h, s_requests (release s) = s_requests s + handoff requests_of h ∧
       total (release s) + handoff cost h ≤ total s.
Proof.
  intros [_ H2 _ _ _]. unfold release.
  destruct (s_waiters s) as [|j ws]; [exists false; simpl; lia|].
  assert (s_phases s !! j = Some Waiting) as Hj by (apply H2; left).
  exists true. split; [simpl; lia|].
  apply (move_potential s j Waiting); [done|constructor].
Qed.

(** The end of a coroutine that holds a slot. *)
Lemma finish_potential k s i a r :
  sem_inv (S k) s → s_phases s !! i = Some (Fetching a) →
  ∃ h, s_requests (finish i r s) = s_requests s + handoff requests_of h ∧
       total (finish i r s) + cost Quiet + handoff cost h ≤ total s.
Proof.
  intros Hinv Hi. unfold finish.
  assert (sem_inv k (note r (set_phase i (Done r) s))) as Hinv'.
  { apply note_inv. eapply set_phase_inv; [done..|simpl; lia]. }
  destruct (release_potential _ _ Hinv') as (h & Hreq & Hle).
  exists h. rewrite Hreq. split; [unfold note; simpl; by destruct r, (s_failed s)|].
  pose proof (move_potential s i _ (Done r) Quiet Hi (move_end a r)).
  rewrite note_phases in Hle. simpl in *. lia.
Qed.

(** A turn of the event loop is one move, and the move of the coroutine
    that takes over the slot when there is one; a retry is sent only when a
    sleep ends. *)
Lemma step_potential k s ev s' :
  sem_inv k s → step_fn cfg tasks s ev = Some s' →
  ∃ κ h, (κ = Retry → ∃ i, ev = Wake i) ∧
    s_requests s' = s_requests s + requests_of κ + handoff requests_of h ∧
    total s' + cost κ + handoff cost h ≤ total s.
Proof.
  intros Hinv Hstep. destruct ev as [i|i o|i]; simpl in Hstep.
  - destruct (tasks !! i) as [[index code]|]; [|done]. simpl in Hstep.
    destruct (s_phases s !! i) as [[| | | |]|] eqn:Hi; simplify_eq/=.
    destruct (mermaid_cache _ !! _) as [entry|]; simplify_eq.
    + exists Quiet, false. split_and!; [done|simpl; lia|].
      pose proof (move_potential s i _ _ _ Hi
                    (move_hit (Ok (cache_key code, entry)))).
      simpl in *. lia.
    + unfold acquire. case_decide.
      * exists First, false. split_and!; [done|simpl; lia|].
        pose proof (move_potential s i _ _ _ Hi move_enter). simpl in *. lia.
      * exists Quiet, false. split_and!; [done|simpl; lia|].
        pose proof (move_potential s i _ _ _ Hi move_park). simpl in *. lia.
  - destruct (tasks !! i) as [[index code]|]; [|done]. simpl in Hstep.
    destruct (s_phases s !! i) as [[| |a| |]|] eqn:Hi; simplify_eq/=.
    destruct (holding_pos _ _ _ _ Hinv Hi eq_refl) as [k' ->].
    destruct (fetch_attempt _ _ _ _) as [r st'].
    assert (∀ r', ∃ κ h, (κ = Retry → ∃ j, Respond i o = Wake j) ∧
      s_requests (finish i r' (set_state st' s))
      = s_requests s + requests_of κ + handoff requests_of h ∧
      total (finish i r' (set_state st' s)) + cost κ + handoff cost h
      ≤ total s) as Hfin.
    { intros r'. destruct (finish_potential k' (set_state st' s) i a r')
        as (h & Hreq & Hle); [by apply set_state_inv|done|].
      exists Quiet, h. split_and!; [done|simpl in *; lia|done]. }
    destruct r as [v|e]; [by simplify_eq|].
    rewrite retry_decision_spec in Hstep. case_decide as Hd; simplify_eq; [|done].
    exists Quiet, false. split_and!; [done|simpl; lia|].
    pose proof (move_potential s i _ _ _ Hi (move_sleep a (proj2 Hd))).
    simpl in *. lia.
  - destruct (s_phases s !! i) as [[| | |a|]|] eqn:Hi; simplify_eq/=.
    assert (a < 3) as Ha.
    { destruct Hinv as [_ _ _ _ H5]. eapply Forall_lookup_1 in H5; [|done].
      simpl in H5. lia. }
    exists Retry, false. split_and!; [eauto|simpl; lia|].
    pose proof (move_potential s i _ _ _ Hi (move_wake a Ha)). simpl in *. lia.
Qed.

End potential.

(** ** The three potentials *)

Lemma weight_potential ph ph' κ : move ph ph' κ → weight ph' + 1 ≤ weight ph.
Proof. destruct 1; simpl; lia. Qed.

Lemma budget_potential ph ph' κ :
  move ph ph' κ → budget ph' + requests_of κ ≤ budget ph.
Proof. destruct 1; simpl; lia. Qed.

Lemma unsent_potential ph ph' κ :
  move ph ph' κ → unsent ph' + match κ with First => 1 | _ => 0 end ≤ unsent ph.
Proof. destruct 1; simpl; lia. Qed.

Section bounds.
Context (cfg : EPUBConfig) (tasks : list (nat * string)).
Implicit Types (s : sys) (ev : event) (evs : list event).

(** Every turn of the event loop uses up weight. *)
Lemma step_fn_weight k s ev s' :
  sem_inv k s → step_fn cfg tasks s ev = Some s' →
  total_weight s' < total_weight s.
Proof.
  intros Hinv Hstep.
  destruct (step_potential weight (λ _, 1) weight_potential
              cfg tasks k s ev s' Hinv Hstep) as (κ & h & _ & _ & Hle).
  unfold total_weight. lia.
Qed.

(** Every request is paid from the budget. *)
Lemma step_fn_budget k s ev s' :
  sem_inv k s → step_fn cfg tasks s ev = Some s' →
  total_budget s' + s_requests s' ≤ total_budget s + s_requests s.
Proof.
  intros Hinv Hstep.
  destruct (step_potential budget requests_of budget_potential
              cfg tasks k s ev s' Hinv Hstep) as (κ & h & _ & Hreq & Hle).
  unfold total_budget. lia.
Qed.

(** A request is the first one of its coroutine or follows a sleep. *)
Lemma step_fn_unsent k s ev s' :
  sem_inv k s → step_fn cfg tasks s ev = Some s' →
  total_unsent s' + s_requests s'
  ≤ total_unsent s + s_requests s + wakes [ev].
Proof.
  intros Hinv Hstep.
  destruct (step_potential unsent (λ κ, match κ with First => 1 | _ => 0 end)
              unsent_potential cfg tasks k s ev s' Hinv Hstep)
    as (κ & h & Hwake & Hreq & Hle).
  unfold total_unsent.
  destruct κ, h; simpl in *; try lia.
  all: destruct (Hwake eq_refl) as [i ->]; simpl; lia.
Qed.

(** What every turn pays, a schedule pays turn by turn. *)
Lemma run_pays (Q : sys → nat) (pay allow : event → nat) :
  (∀ k s ev s', sem_inv k s → step_fn cfg tasks s ev = Some s' →
                Q s' + pay ev ≤ Q s + allow ev) →
  ∀ k evs s s', sem_inv k s → run cfg tasks evs s = Some s' →
    Q s' + sum_list_with pay evs ≤ Q s + sum_list_with allow evs.
Proof.
  intros Hstep k evs. induction evs as [|ev evs IH]; intros s s' Hinv; simpl.
  - intros [= <-]. lia.
  - destruct (step_fn cfg tasks s ev) as [s1|] eqn:H1; [|done]. simpl.
    intros Hrun. pose proof (Hstep _ _ _ _ Hinv H1).
    pose proof (step_fn_sem_inv _ _ _ _ _ _ Hinv H1) as Hinv1.
    specialize (IH _ _ Hinv1 Hrun). lia.
Qed.

Lemma run_weight k evs s s' :
  sem_inv k s → run cfg tasks evs s = Some s' →
  length evs + total_weight s' ≤ total_weight s.
Proof.
  intros Hinv Hrun.
  assert (∀ k s ev s', sem_inv k s → step_fn cfg tasks s ev = Some s' →
            total_weight s' + 1 ≤ total_weight s + 0) as Hstep.
  { intros ???? H1 H2. pose proof (step_fn_weight _ _ _ _ H1 H2). lia. }
  pose proof (run_pays total_weight (λ _, 1) (λ _, 0) Hstep _ _ _ _ Hinv Hrun) as H.
  rewrite sum_list_with_const, sum_list_with_const_0 in H. lia.
Qed.

Lemma run_budget k evs s s' :
  sem_inv k s → run cfg tasks evs s = Some s' →
  total_budget s' + s_requests s' ≤ total_budget s + s_requests s.
Proof.
  intros Hinv Hrun.
  assert (∀ k s ev s', sem_inv k s → step_fn cfg tasks s ev = Some s' →
            total_budget s' + s_requests s' + 0
            ≤ total_budget s + s_requests s + 0) as Hstep.
  { intros ???? H1 H2. pose proof (step_fn_budget _ _ _ _ H1 H2). lia. }
  pose proof (run_pays (λ s, total_budget s + s_requests s) (λ _, 0) (λ _, 0)
                Hstep _ _ _ _ Hinv Hrun) as H.
  rewrite sum_list_with_const_0 in H. simpl in H. lia.
Qed.

Lemma run_unsent k evs s s' :
  sem_inv k s → run cfg tasks evs s = Some s' →
  total_unsent s' + s_requests s' ≤ total_unsent s + s_requests s + wakes evs.
Proof.
  intros Hinv Hrun.
  assert (∀ k s ev s', sem_inv k s → step_fn cfg tasks s ev = Some s' →
            total_unsent s' + s_requests s' + 0
            ≤ total_unsent s + s_requests s
              + match ev with Wake _ => 1 | _ => 0 end) as Hstep.
  { intros ???? H1 H2. pose proof (step_fn_unsent _ _ _ _ H1 H2) as H.
    unfold wakes in H. simpl in H. lia. }
  pose proof (run_pays (λ s, total_unsent s + s_requests s) (λ _, 0) _
                Hstep _ _ _ _ Hinv Hrun) as H.
  rewrite sum_list_with_const_0 in H. unfold wakes. simpl in H. lia.
Qed.

End bounds.
