(* ===== verification/RenderAll.v ===== *)
(** * RenderAll: the theorems of [MermaidRenderer]

    The properties of [render_all] over the transition system of
    [Renderer]: what holds in every reachable state (the bound on the
    requests in flight, the agreement of results and cache, unique image
    names), that every schedule is finite and none deadlocks, what each
    kind of response does to a coroutine, and the behaviour of one
    [_fetch_single] on its own.  The examples at the end run schedules on
    concrete diagrams. *)

From Stdlib Require Import ZArith.
From stdpp Require Import base tactics list strings gmap.
From S2P Require Import Prelude PyStr Regex Sanitizer State Renderer Potential.

#[local] Arguments String.append !_ _ : simpl nomatch.

(** ** [render_all] *)

Section render_all.
Context (cfg : EPUBConfig) (tasks : list (nat * string)).
Implicit Types (st : BuildState) (s : sys).

Lemma reachable_init st s : init_sys cfg tasks st = Ok s → reachable cfg tasks st s.
Proof. intros H. by exists s, []. Qed.

Lemma reachable_step st s ev s' :
  reachable cfg tasks st s → step_fn cfg tasks s ev = Some s' →
  reachable cfg tasks st s'.
Proof.
  intros (s0 & evs & H0 & Hrun) Hstep. exists s0, (evs ++ [ev]).
  split; [done|]. rewrite run_app, Hrun. simpl. by rewrite Hstep.
Qed.

Lemma reachable_sem_inv st s :
  reachable cfg tasks st s → sem_inv (Z.to_nat (max_concurrent_requests cfg)) s.
Proof.
  intros (s0 & evs & H0 & Hrun).
  eapply run_invariant; [apply step_fn_sem_inv| |done]. by eapply init_sem_inv.
Qed.

Lemma reachable_render_inv st s : reachable cfg tasks st s → render_inv tasks s.
Proof.
  intros (s0 & evs & H0 & Hrun).
  eapply run_invariant; [apply step_fn_render_inv| |done].
  by eapply init_render_inv.
Qed.

Lemma reachable_cache_inv st s :
  cache_inv st → reachable cfg tasks st s → cache_inv (s_state s).
Proof.
  intros Hst (s0 & evs & H0 & Hrun).
  eapply (run_invariant cfg tasks (λ s, cache_inv (s_state s)));
    [apply step_fn_cache_inv| |done].
  by apply init_sys_Ok in H0 as [_ ->].
Qed.

Lemma render_result_Ok s results :
  render_result s = Some (Ok results) →
  s_failed s = None ∧ all_done s = true ∧
  results = foldl (λ m r, <[r.1 := r.2]> m) ∅ (completed s).
Proof.
  unfold render_result. destruct (s_failed s); [done|].
  destruct (all_done s); naive_solver.
Qed.

Lemma foldl_insert_is_Some (rs : list (string * (bytes * string)))
    (m : gmap string (bytes * string)) k :
  is_Some (m !! k) ∨ k ∈ rs.*1 →
  is_Some (foldl (λ m r, <[r.1 := r.2]> m) m rs !! k).
Proof.
  revert m; induction rs as [|r rs IH]; intros m; simpl.
  - intros [?|?%elem_of_nil]; done.
  - intros H. apply IH. rewrite lookup_insert. case_decide; [left; eauto|].
    destruct H as [?|H]; [by left|right].
    apply elem_of_cons in H as [?|?]; done.
Qed.

Lemma completed_elem s i r :
  s_phases s !! i = Some (Done (Ok r)) → r ∈ completed s.
Proof.
  intros Hi. unfold completed. apply list_elem_of_omap.
  exists (Done (Ok r)). split; [by eapply list_elem_of_lookup_2|done].
Qed.

(** The coroutine that ends keeps its result: the slot it frees goes to a
    coroutine that waits, never back to itself. *)
Lemma finish_lookup k s i r a :
  sem_inv k s → s_phases s !! i = Some (Fetching a) →
  s_phases (finish i r s) !! i = Some (Done r).
Proof.
  intros [_ Hw _ _ _] Hi. unfold finish, release.
  assert (s_waiters (note r (set_phase i (Done r) s)) = s_waiters s) as ->.
  { unfold note. simpl. by destruct r, (s_failed s). }
  pose proof (lookup_lt_Some _ _ _ Hi) as Hlt.
  destruct (s_waiters s) as [|j ws] eqn:Hws; simpl; rewrite note_phases; simpl.
  - by rewrite list_lookup_insert_eq.
  - assert (j ≠ i) as Hne.
    { intros ->. assert (i ∈ i :: ws) as Hin by left.
      apply Hw in Hin. congruence. }
    rewrite list_lookup_insert_ne by done. by rewrite list_lookup_insert_eq.
Qed.

(** The answer of [gather] once a coroutine has ended with the first
    exception. *)
Lemma finish_first_failure i e s :
  s_failed s = None → render_result (finish i (Err e) s) = Some (Err e).
Proof.
  intros Hnone. unfold render_result, finish.
  rewrite release_failed, note_failed_None; done.
Qed.

(** C1. At every point of every schedule of [render_all], the number of
    requests in flight is at most [max_concurrent_requests]: the semaphore
    of [MermaidRenderer] bounds the concurrency. *)
Theorem concurrency_bound st s :
  reachable cfg tasks st s →
  in_flight s ≤ Z.to_nat (max_concurrent_requests cfg).
Proof.
  intros [H _ _ _ _]%reachable_sem_inv.
  pose proof (in_flight_le_holding s). lia.
Qed.

(** C12. Every schedule of [render_all] is finite: the event loop runs the
    coroutines of [n] diagrams for at most [7 * n] turns (a start, a wait
    for the semaphore, three requests and two sleeps each). *)
Theorem schedule_terminates st s0 evs s :
  init_sys cfg tasks st = Ok s0 → run cfg tasks evs s0 = Some s →
  length evs ≤ 7 * length tasks.
Proof.
  intros H0 Hrun.
  pose proof (run_weight _ _ _ _ _ _ (init_sem_inv _ _ _ _ H0) Hrun) as Hw.
  apply init_sys_Ok in H0 as [_ ->]. unfold total_weight in Hw at 2.
  simpl in Hw. rewrite sum_list_with_replicate in Hw. simpl in Hw. lia.
Qed.

(** With at least one slot, a state in which a coroutine has not ended
    has a coroutine that can take a turn. *)
Lemma not_done_enabled st s :
  (1 ≤ max_concurrent_requests cfg)%Z → reachable cfg tasks st s →
  all_done s = false → ∃ ev s', step_fn cfg tasks s ev = Some s'.
Proof.
  intros Hk Hreach (i & ph & Hi & Hph)%all_done_false.
  pose proof (reachable_sem_inv _ _ Hreach) as Hsem.
  destruct (reachable_render_inv _ _ Hreach) as [_ _ Hlen].
  destruct ph as [| |a|a|r]; [| |by eapply holder_enabled..|by destruct (Hph r)].
  - destruct (created_enabled cfg tasks s i) as [s' ?]; eauto.
  - pose proof (waiting_full _ _ _ Hsem Hi) as Hfull.
    destruct (sum_list_with_pos holds (s_phases s)) as (j & ph & Hj & Hpos).
    { unfold holding in Hfull. lia. }
    eapply holder_enabled; [done..|]. destruct ph; simpl in *; lia.
Qed.

(** C11. With at least one slot, [render_all] cannot deadlock: a reachable
    state in which the event loop has nothing to run is a state in which
    every coroutine has ended. *)
Theorem no_deadlock st s :
  (1 ≤ max_concurrent_requests cfg)%Z → reachable cfg tasks st s →
  stuck cfg tasks s → all_done s = true.
Proof.
  intros Hk Hreach Hstuck. destruct (all_done s) eqn:Hd; [done|].
  destruct (not_done_enabled _ _ Hk Hreach Hd) as (ev & s' & Hstep).
  by rewrite Hstuck in Hstep.
Qed.

(** C8. With at least one slot, [render_all] returns: from every reachable
    state the event loop can run every coroutine to its end, and [gather]
    then has its answer. *)
Theorem render_all_returns st s :
  (1 ≤ max_concurrent_requests cfg)%Z → reachable cfg tasks st s →
  ∃ evs s', run cfg tasks evs s = Some s' ∧ all_done s' = true ∧
            is_Some (render_result s').
Proof.
  intros Hk. remember (total_weight s) as w eqn:Hw. revert s Hw.
  induction w as [w IH] using lt_wf_ind. intros s -> Hreach.
  destruct (all_done s) eqn:Hd.
  - exists [], s. split_and!; [done..|].
    unfold render_result. rewrite Hd. destruct (s_failed s); eauto.
  - destruct (not_done_enabled _ _ Hk Hreach Hd) as (ev & s1 & Hstep).
    pose proof (step_fn_weight _ _ _ _ _ _ (reachable_sem_inv _ _ Hreach) Hstep).
    destruct (IH (total_weight s1) ltac:(lia) s1 eq_refl) as (evs & s' & ? & ?);
      [by eapply reachable_step|].
    exists (ev :: evs), s'. simpl. by rewrite Hstep.
Qed.

(** When [gather] has every result, every coroutine has ended with the
    key of its text, and the key is cached. *)
Lemma render_result_cached st s results i index code :
  reachable cfg tasks st s → render_result s = Some (Ok results) →
  tasks !! i = Some (index, code) →
  ∃ r, s_phases s !! i = Some (Done (Ok r)) ∧ r.1 = cache_key code ∧
       is_Some (mermaid_cache (s_state s) !! cache_key code).
Proof.
  intros [Hres Hfail Hlen]%reachable_render_inv
         (Hnone & Hall & ->)%render_result_Ok Ht.
  destruct (lookup_lt_is_Some_2 (s_phases s) i) as [ph Hi].
  { rewrite Hlen. by eapply lookup_lt_Some. }
  pose proof (forallb_true_lookup _ _ _ _ Hall Hi) as Hph.
  destruct ph as [| | | |[r|e]]; try done.
  - destruct (Hres _ _ _ _ Ht Hi) as [Hk Hc]. exists r. by rewrite <-Hk.
  - destruct (Hfail _ _ Hi) as [? Hsome]. congruence.
Qed.

(** C5. When [render_all] returns its dictionary, every diagram it was given
    is in the cache of the build state, under the key of its sanitized
    text, and in the dictionary returned. *)
Theorem render_all_populates_cache st s results i index code :
  reachable cfg tasks st s → render_result s = Some (Ok results) →
  tasks !! i = Some (index, code) →
  is_Some (mermaid_cache (s_state s) !! cache_key code) ∧
  is_Some (results !! cache_key code).
Proof.
  intros Hreach Hres Ht.
  destruct (render_result_cached _ _ _ _ _ _ Hreach Hres Ht)
    as (r & Hi & Hk & Hc).
  split; [done|]. apply render_result_Ok in Hres as (_ & _ & ->).
  apply foldl_insert_is_Some. right. rewrite <-Hk.
  apply list_elem_of_fmap_2. by eapply completed_elem.
Qed.

(** C23. No two keys of the cache share an image file name, at any point of
    any schedule: the counter is read and written in one turn. *)
Theorem image_names_unique st s k1 k2 d1 d2 n :
  cache_inv st → reachable cfg tasks st s →
  mermaid_cache (s_state s) !! k1 = Some (d1, n) →
  mermaid_cache (s_state s) !! k2 = Some (d2, n) → k1 = k2.
Proof.
  intros Hst Hreach. destruct (reachable_cache_inv _ _ Hst Hreach) as [_ Hinj].
  apply Hinj.
Qed.

(** C21. A response with a status other than 200 ends the coroutine with a
    [MermaidRenderError] that names the status and the diagram; the request
    is not repeated, the build state is unchanged, and when it is the first
    failure it is the exception [render_all] raises. *)
Theorem status_error_not_retried st s i index code a status content :
  reachable cfg tasks st s → tasks !! i = Some (index, code) →
  s_phases s !! i = Some (Fetching a) → status ≠ 200 →
  ∃ s', step_fn cfg tasks s (Respond i (Response status content)) = Some s' ∧
        s_phases s' !! i = Some (Done (Err (status_error status index))) ∧
        s_state s' = s_state s ∧
        (s_failed s = None →
         render_result s' = Some (Err (status_error status index))).
Proof.
  intros Hsem%reachable_sem_inv Ht Hi Hstatus. simpl. rewrite Ht, Hi. simpl.
  rewrite decide_False by done. simpl. eexists. split; [done|].
  split_and!.
  - by eapply finish_lookup; [apply set_state_inv|].
  - by rewrite finish_state.
  - intros Hnone. by apply finish_first_failure.
Qed.

(** C22. A timeout or a network error on the first or the second attempt is
    not a failure: the coroutine keeps its slot, sleeps for the time of the
    exponential back-off (one, then two seconds) and sends the request
    again. *)
Theorem retryable_error_retried st s i index code a e :
  reachable cfg tasks st s → tasks !! i = Some (index, code) →
  s_phases s !! i = Some (Fetching a) → is_retryable e = true → a < 3 →
  ∃ s1 s2, step_fn cfg tasks s (Respond i (Raise e)) = Some s1 ∧
           s_phases s1 !! i = Some (Sleeping a) ∧ s_failed s1 = s_failed s ∧
           retry_decision a e = RetryAfter (2 ^ (a - 1)) ∧
           step_fn cfg tasks s1 (Wake i) = Some s2 ∧
           s_phases s2 !! i = Some (Fetching (S a)) ∧
           s_requests s2 = S (s_requests s) ∧ s_state s2 = s_state s.
Proof.
  intros Hsem%reachable_sem_inv Ht Hi He Ha.
  pose proof (lookup_lt_Some _ _ _ Hi) as Hlt.
  assert (retry_decision a e = RetryAfter (2 ^ (a - 1))) as Hd.
  { unfold retry_decision, wait_exponential. rewrite He, decide_False by lia.
    destruct a as [|[|[|?]]]; simpl; done || lia. }
  simpl. rewrite Ht, Hi. simpl. rewrite Hd. simpl.
  eexists _, _. split; [done|]. simpl.
  rewrite !list_lookup_insert_eq by done. simpl. split_and!; try done.
  simpl. by rewrite list_lookup_insert_eq by (by rewrite length_insert).
Qed.

(** C13. The third timeout or network error in a row ends the coroutine with
    that exception itself (the decorator re-raises it): it is not a
    [MermaidRenderError], nor any other [EPUBBuildError], and when it is the
    first failure it is the exception [render_all] raises. *)
Theorem retry_exhausted_reraises st s i index code e :
  reachable cfg tasks st s → tasks !! i = Some (index, code) →
  s_phases s !! i = Some (Fetching 3) → is_retryable e = true →
  ∃ s', step_fn cfg tasks s (Respond i (Raise e)) = Some s' ∧
        s_phases s' !! i = Some (Done (Err e)) ∧ is_build_error e = false ∧
        (s_failed s = None → render_result s' = Some (Err e)).
Proof.
  intros Hsem%reachable_sem_inv Ht Hi He. simpl. rewrite Ht, Hi. simpl.
  unfold retry_decision. rewrite He. simpl. eexists. split; [done|].
  split_and!.
  - by eapply finish_lookup; [apply set_state_inv|].
  - by apply is_retryable_not_build.
  - intros Hnone. by apply finish_first_failure.
Qed.

(** A diagram whose key is in the cache costs no request: its coroutine
    ends at its first turn with the cached entry, without touching the
    semaphore or the build state. *)
Theorem cache_hit_no_request s i index code entry :
  tasks !! i = Some (index, code) → s_phases s !! i = Some Created →
  mermaid_cache (s_state s) !! cache_key code = Some entry →
  ∃ s', step_fn cfg tasks s (Start i) = Some s' ∧
        s_phases s' !! i = Some (Done (Ok (cache_key code, entry))) ∧
        s_requests s' = s_requests s ∧ s_state s' = s_state s ∧
        s_sem s' = s_sem s ∧ s_waiters s' = s_waiters s.
Proof.
  intros Ht Hi Hc. simpl. rewrite Ht, Hi. simpl. rewrite Hc.
  eexists. split_and!; try done. simpl.
  apply list_lookup_insert_eq. by eapply lookup_lt_Some.
Qed.

(** C14. A run of [render_all] sends at most three requests per diagram,
    and at most one request per diagram and one per back-off sleep that
    has ended: without a timeout or a network error, a diagram costs one
    request at most. *)
Theorem requests_bounded st s0 evs s :
  init_sys cfg tasks st = Ok s0 → run cfg tasks evs s0 = Some s →
  s_requests s ≤ 3 * length tasks ∧ s_requests s ≤ length tasks + wakes evs.
Proof.
  intros H0 Hrun. pose proof (init_sem_inv _ _ _ _ H0) as Hinv.
  pose proof (run_budget _ _ _ _ _ _ Hinv Hrun) as Hb.
  pose proof (run_unsent _ _ _ _ _ _ Hinv Hrun) as Hu.
  apply init_sys_Ok in H0 as [_ ->]. unfold total_budget, total_unsent in *.
  simpl in *. rewrite !sum_list_with_replicate in *. simpl in *. lia.
Qed.

(** With every key in the cache, the coroutines end at their first turn:
    the run sends no request and leaves the build state as it is. *)
Lemma warm_cache_run st s0 evs s :
  (∀ i index code, tasks !! i = Some (index, code) →
                   is_Some (mermaid_cache st !! cache_key code)) →
  init_sys cfg tasks st = Ok s0 → run cfg tasks evs s0 = Some s →
  s_requests s = 0 ∧ s_state s = st.
Proof.
  intros Hwarm H0 Hrun.
  pose (I := λ s, s_requests s = 0 ∧ s_state s = st ∧
                  Forall (λ ph, ph = Created ∨ ∃ r, ph = Done r) (s_phases s)).
  cut (I s); [unfold I; tauto|].
  apply (run_invariant cfg tasks I) with (evs := evs) (s := s0); [| |done].
  - clear H0 Hrun. intros s1 ev s2 (Hreq & Hst & Hphs) Hstep. unfold I.
    destruct ev as [i|i o|i]; simpl in Hstep.
    + destruct (tasks !! i) as [[index code]|] eqn:Ht; [|done]. simpl in Hstep.
      destruct (s_phases s1 !! i) as [[| | | |]|] eqn:Hi; simplify_eq/=.
      destruct (Hwarm _ _ _ Ht) as [entry Hc]. rewrite Hc in Hstep.
      simplify_eq. split_and!; [done..|]. apply Forall_insert; eauto.
    + destruct (tasks !! i) as [[index code]|]; [|done]. simpl in Hstep.
      destruct (s_phases s1 !! i) as [ph|] eqn:Hi; [|done].
      eapply Forall_lookup_1 in Hphs; [|exact Hi].
      destruct Hphs as [->|[r ->]]; by simplify_eq/=.
    + destruct (s_phases s1 !! i) as [ph|] eqn:Hi; [|done].
      eapply Forall_lookup_1 in Hphs; [|exact Hi].
      destruct Hphs as [->|[r ->]]; by simplify_eq/=.
  - apply init_sys_Ok in H0 as [_ ->]. unfold I. simpl. split_and!; [done..|].
    apply Forall_replicate. by left.
Qed.

(** C24. Rendering the same diagrams again, after a [render_all] that
    returned, costs no request and changes nothing: every diagram is
    served from the cache. *)
Theorem rerender_no_request st s results s0 evs s' :
  reachable cfg tasks st s → render_result s = Some (Ok results) →
  init_sys cfg tasks (s_state s) = Ok s0 → run cfg tasks evs s0 = Some s' →
  s_requests s' = 0 ∧ s_state s' = s_state s.
Proof.
  intros Hreach Hres. apply warm_cache_run. intros i index code Ht.
  by destruct (render_result_cached _ _ _ _ _ _ Hreach Hres Ht) as (_ & _ & _ & ?).
Qed.

End render_all.

(** ** [_fetch_with_retry] and [_fetch_single], one diagram at a time *)

Section fetch_single.
Context (cfg : EPUBConfig).

(** The retry loop ends within three requests: with the outcomes of
    three requests at hand, [_fetch_with_retry] has a result, and it never
    looks at a fourth one. *)
Theorem fetch_with_retry_total st code index os :
  3 ≤ length os →
  is_Some (fetch_with_retry st code index 1 os) ∧
  fetch_with_retry st code index 1 os =
  fetch_with_retry st code index 1 (take 3 os).
Proof.
  destruct os as [|o1 [|o2 [|o3 os]]]; simpl; try lia. intros _.
  destruct (fetch_attempt st code index o1) as [[v1|e1] st1]; [eauto|].
  rewrite (retry_decision_spec 1). case_decide; [|eauto].
  destruct (fetch_attempt st1 code index o2) as [[v2|e2] st2]; [eauto|].
  rewrite (retry_decision_spec 2). case_decide; [|eauto].
  destruct (fetch_attempt st2 code index o3) as [[v3|e3] st3]; [eauto|].
  rewrite (retry_decision_spec 3). case_decide; [lia|eauto].
Qed.

(** The configured [max_retries] has no effect on the result of
    [_fetch_single]: the number of attempts is the constant of the
    decorator, and the error that would report [max_retries] is never
    raised. *)
Theorem max_retries_ignored cfg' st code index os :
  fetch_single cfg st code index os = fetch_single cfg' st code index os.
Proof.
  unfold fetch_single. destruct (mermaid_cache st !! _); [done|].
  destruct (fetch_with_retry st code index 1 os) as [[[[v|]|e] st']|] eqn:Hf;
    try done.
  by apply fetch_with_retry_not_None in Hf.
Qed.

(** [_fetch_single] either returns the entry of the cache under the key
    of its text, leaving the build state as it found it on a hit and with
    one more entry and the counter one higher on a miss, or raises and
    leaves the build state as it found it. *)
Theorem fetch_single_spec st code index os r st' :
  fetch_single cfg st code index os = Some (r, st') →
  match r with
  | Ok (k, entry) =>
      k = cache_key code ∧ mermaid_cache st' !! k = Some entry ∧
      (st' = st ∨
       mermaid_cache st !! k = None ∧
       mermaid_counter st' = S (mermaid_counter st) ∧
       entry.2 = img_name (S (mermaid_counter st)) ∧
       mermaid_cache st' = <[k := entry]> (mermaid_cache st))
  | Err e => st' = st
  end.
Proof.
  unfold fetch_single. destruct (mermaid_cache st !! _) as [entry|] eqn:Hc.
  { intros [= <- <-]. auto. }
  destruct (fetch_with_retry st code index 1 os) as [[r0 st0]|] eqn:Hf;
    [|done].
  intros [= <- <-]. destruct r0 as [[v|]|e]; simpl.
  - split; [done|]. apply fetch_with_retry_Ok in Hf as (-> & content & ->).
    simpl. rewrite lookup_insert_eq. auto 10.
  - by apply fetch_with_retry_not_None in Hf.
  - by eapply fetch_with_retry_Err.
Qed.

End fetch_single.

(** ** One coroutine against [_fetch_single] *)

#[local] Arguments fetch_single_result : simpl never.

Section solo.
Context (cfg : EPUBConfig) (st : BuildState) (index : nat) (code : string).
Hypothesis Hslots : (1 ≤ max_concurrent_requests cfg)%Z.

Notation tasks := [(index, code)].

(** What a state of the system of one coroutine means for the function:
    the outcomes consumed so far were failures that are retried, and the
    function is at the attempt of the phase. *)
Definition at_attempt (a : nat) (s : sys) : Prop :=
  s_state s = st ∧ mermaid_cache st !! cache_key code = None ∧
  ∃ os, ∀ os', fetch_with_retry st code index 1 (os ++ os')
               = fetch_with_retry st code index a os'.

Definition solo_inv (s : sys) : Prop :=
  match s_phases s with
  | [Created] => s_state s = st
  | [Fetching a] => at_attempt a s
  | [Sleeping a] => at_attempt (S a) s
  | [Done r] => ∃ os, fetch_single cfg st code index os = Some (r, s_state s)
  | _ => False
  end.

Lemma solo_phase s :
  sem_inv (Z.to_nat (max_concurrent_requests cfg)) s → solo_inv s →
  ∃ ph, s_phases s = [ph] ∧ s_waiters s = [] ∧
        (holds ph = 0 → 0 < s_sem s).
Proof.
  intros [Hs Hw _ _ _] Hinv. unfold solo_inv, holding in *.
  destruct (s_phases s) as [|ph [|??]] eqn:Hp; [done| |by destruct ph].
  exists ph. split_and!; [done| |simpl in Hs; lia].
  destruct (s_waiters s) as [|j ws] eqn:Hws; [done|].
  assert (j ∈ j :: ws) as Hj%Hw by left.
  destruct j as [|j]; by simplify_eq/=.
Qed.

Lemma finish_solo r s ph :
  s_phases s = [ph] → s_waiters s = [] →
  s_phases (finish 0 r s) = [Done r] ∧ s_state (finish 0 r s) = s_state s.
Proof.
  intros Hp Hw. rewrite finish_state. split; [|done].
  unfold finish, release.
  assert (s_waiters (note r (set_phase 0 (Done r) s)) = []) as ->.
  { unfold note. simpl. by destruct r, (s_failed s). }
  simpl. rewrite note_phases. simpl. by rewrite Hp.
Qed.

Lemma solo_start s s' :
  sem_inv (Z.to_nat (max_concurrent_requests cfg)) s → solo_inv s →
  step_fn cfg tasks s (Start 0) = Some s' → solo_inv s'.
Proof.
  intros Hsem Hinv. destruct (solo_phase s Hsem Hinv) as (ph & Hp & Hw & Hfree).
  unfold solo_inv in *. simpl. rewrite Hp in *. simpl.
  destruct ph; try done. rewrite Hinv.
  destruct (mermaid_cache st !! cache_key code) as [entry|] eqn:Hc.
  - intros [= <-]. simpl. rewrite Hp. simpl. exists [].
    unfold fetch_single. by rewrite Hc, Hinv.
  - intros [= <-]. unfold acquire.
    rewrite decide_True by (split; [apply Hfree|]; done).
    simpl. rewrite Hp. simpl. split_and!; [done..|]. by exists [].
Qed.

Lemma solo_respond s o s' :
  sem_inv (Z.to_nat (max_concurrent_requests cfg)) s → solo_inv s →
  step_fn cfg tasks s (Respond 0 o) = Some s' → solo_inv s'.
Proof.
  intros Hsem Hinv. destruct (solo_phase s Hsem Hinv) as (ph & Hp & Hw & _).
  unfold solo_inv in Hinv. simpl. rewrite Hp in *. simpl.
  destruct ph as [| |a| |]; try done. destruct Hinv as (Hst & Hc & os & Hos).
  rewrite Hst. destruct (fetch_attempt st code index o) as [r st'] eqn:Hf.
  assert (∀ r', fetch_with_retry st code index a [o] = Some (r', st') →
    solo_inv (finish 0 (fetch_single_result cfg code index r')
                     (set_state st' s))) as Hdone.
  { intros r' Hr. destruct (finish_solo (fetch_single_result cfg code index r')
      (set_state st' s) (Fetching a)) as [Hp' Hst']; [done..|].
    unfold solo_inv. rewrite Hp', Hst'. exists (os ++ [o]).
    unfold fetch_single. by rewrite Hc, Hos, Hr. }
  destruct r as [v|e]; [|destruct (retry_decision a e) eqn:Hd];
    intros [= <-].
  - apply Hdone. simpl. by rewrite Hf.
  - unfold solo_inv. simpl. rewrite Hp. simpl.
    apply fetch_attempt_Err in Hf as Hf'. destruct Hf' as [-> _].
    split_and!; [done..|]. exists (os ++ [o]). intros os'.
    rewrite <-app_assoc, Hos. simpl. by rewrite Hf, Hd.
  - apply (Hdone (Err e)). simpl. by rewrite Hf, Hd.
Qed.

Lemma solo_wake s s' :
  solo_inv s → step_fn cfg tasks s (Wake 0) = Some s' → solo_inv s'.
Proof.
  unfold solo_inv. simpl.
  destruct (s_phases s) as [|[| | |a|] [|??]] eqn:Hp; simpl; try done.
  intros Hinv [= <-]. simpl. by rewrite Hp.
Qed.

Lemma solo_step s ev s' :
  sem_inv (Z.to_nat (max_concurrent_requests cfg)) s → solo_inv s →
  step_fn cfg tasks s ev = Some s' → solo_inv s'.
Proof.
  intros Hsem Hinv. destruct (solo_phase s Hsem Hinv) as (ph & Hp & _).
  destruct ev as [[|i]|[|i] o|[|i]];
    eauto using solo_start, solo_respond, solo_wake; simpl;
    rewrite ?Hp, ?lookup_nil; done.
Qed.

(** C9. The coroutine of one diagram refines [_fetch_single]: whatever the
    schedule, the result it ends with and the build state it leaves are
    those of the function on the outcomes of its requests. *)
Theorem solo_refines s r :
  reachable cfg tasks st s → s_phases s !! 0 = Some (Done r) →
  ∃ os, fetch_single cfg st code index os = Some (r, s_state s).
Proof.
  intros (s0 & evs & H0 & Hrun) Hr.
  assert (sem_inv (Z.to_nat (max_concurrent_requests cfg)) s ∧ solo_inv s)
    as [_ Hinv].
  { eapply (run_invariant cfg tasks (λ s, sem_inv _ s ∧ solo_inv s));
      [|split; [by eapply init_sem_inv|]|done].
    - intros s1 ev s2 [??] ?. split; [by eapply step_fn_sem_inv|].
      by eapply solo_step.
    - by apply init_sys_Ok in H0 as [_ ->]. }
  unfold solo_inv in Hinv.
  destruct (s_phases s) as [|ph [|??]]; simplify_eq/=; done.
Qed.

End solo.

(** ** The theorems at work *)

Definition one_slot : EPUBConfig := cli_config "." "out.epub" 30 1.
Definition no_slot : EPUBConfig := cli_config "." "out.epub" 30 0.
Definition two_diagrams : list (nat * string) :=
  render_tasks [(1, "graph TD"); (2, "graph LR")].
(** Two texts that differ only by the escape the sanitizer adds. *)
Definition twin_diagrams : list (nat * string) :=
  render_tasks [(1, "A[1. x]"); (2, "A[1\. x]")].
Definition demo_sys (k : nat) (phs : list phase) : sys :=
  mkSys new_state k [] phs None 0.

(** The state a schedule of the two diagrams leads to, through one slot. *)
Definition state_after (evs : list event) : sys :=
  default (demo_sys 0 []) (after one_slot two_diagrams new_state evs).

Lemma reachable_after cfg tasks st evs s :
  after cfg tasks st evs = Some s → reachable cfg tasks st s.
Proof.
  unfold after. destruct (init_sys cfg tasks st) as [s0|] eqn:H0; [|done].
  intros Hrun. by exists s0, evs.
Qed.

Lemma reachable_state_after evs :
  is_Some (after one_slot two_diagrams new_state evs) →
  reachable one_slot two_diagrams new_state (state_after evs).
Proof.
  intros [s Hs]. apply (reachable_after _ _ _ evs). unfold state_after.
  by rewrite Hs.
Qed.

(** A run of two diagrams through one slot: the second waits until the
    first has its image, both images are cached, the names follow the order
    of the responses. *)
Example render_two_diagrams :
  ∃ s, after one_slot two_diagrams new_state
         [Start 0; Start 1; Respond 0 (Raise TimeoutException); Wake 0;
          Respond 0 (Response 200 "png-1"); Respond 1 (Response 200 "png-2")]
       = Some s ∧
       render_result s = Some (Ok {[ "graph TD" := ("png-1", "mermaid_1.png");
                                     "graph LR" := ("png-2", "mermaid_2.png") ]}) ∧
       mermaid_counter (s_state s) = 2 ∧ s_requests s = 3 ∧ s_sem s = 1.
Proof. eexists. split; [vm_compute; reflexivity|]. by vm_compute. Qed.

(** With [--max-concurrent 0] the semaphore has no slot: the first coroutine
    parks, nothing can run, and [render_all] never returns. *)
Example zero_slots_deadlock :
  ∃ s, after no_slot [(1, "graph TD")] new_state [Start 0] = Some s ∧
       stuck no_slot [(1, "graph TD")] s ∧ render_result s = None.
Proof.
  eexists. split; [vm_compute; reflexivity|]. split; [|done].
  intros [[|i]|[|i] o|[|i]]; reflexivity.
Qed.

(** A negative [--max-concurrent] makes the constructor of the renderer
    raise [ValueError], which [main] does not catch. *)
Example negative_slots_rejected tasks st :
  ∃ e, init_sys (cli_config "." "out.epub" 30 (-1)) tasks st = Err e ∧
       is_build_error e = false.
Proof. by eexists. Qed.


(** The same two diagrams cost one request when the first has its image
    before the second starts. *)
Example duplicate_key_fetched_once :
  ∃ s, after one_slot twin_diagrams new_state
         [Start 0; Respond 0 (Response 200 "png-a"); Start 1] = Some s ∧
       s_requests s = 1 ∧ all_done s = true ∧
       mermaid_cache (s_state s) = {[ "A[1\. x]" := ("png-a", "mermaid_1.png") ]}.
Proof. eexists. split; [vm_compute; reflexivity|]. by vm_compute. Qed.

(** The image names follow the order of the responses, not the order of
    discovery. *)
Example names_follow_responses :
  ∃ s, after (cli_config "." "out.epub" 30 10) two_diagrams new_state
         [Start 0; Start 1; Respond 1 (Response 200 "png-2");
          Respond 0 (Response 200 "png-1")] = Some s ∧
       mermaid_cache (s_state s) =
         {[ "graph TD" := ("png-1", "mermaid_2.png");
            "graph LR" := ("png-2", "mermaid_1.png") ]}.
Proof. eexists. split; [vm_compute; reflexivity|]. by vm_compute. Qed.

(** [gather] answers with the first exception while another coroutine still
    has its request in flight. *)
Example gather_fails_fast :
  ∃ s, after (cli_config "." "out.epub" 30 10) two_diagrams new_state
         [Start 0; Start 1; Respond 1 (Response 500 "Internal Server Error")] = Some s ∧
       render_result s = Some (Err (status_error 500 2)) ∧
       s_phases s !! 0 = Some (Fetching 1) ∧ in_flight s = 1.
Proof. eexists. split; [vm_compute; reflexivity|]. by vm_compute. Qed.

Lemma requests_bounded_witness :
  s_requests (state_after [Start 0; Start 1; Respond 0 (Raise NetworkError);
                           Wake 0]) ≤ 3 * 2 ∧
  s_requests (state_after [Start 0; Start 1; Respond 0 (Raise NetworkError);
                           Wake 0]) ≤ 2 + 1.
Proof.
  apply (requests_bounded one_slot two_diagrams new_state
           (demo_sys 1 [Created; Created])
           [Start 0; Start 1; Respond 0 (Raise NetworkError); Wake 0]);
    by_compute.
Defined.

Lemma rerender_no_request_witness :
  s_requests (default (demo_sys 0 [])
                (after one_slot two_diagrams
                   (s_state (state_after [Start 0; Start 1;
                      Respond 0 (Response 200 "png-1");
                      Respond 1 (Response 200 "png-2")]))
                   [Start 1; Start 0])) = 0 ∧
  s_state (default (demo_sys 0 [])
                (after one_slot two_diagrams
                   (s_state (state_after [Start 0; Start 1;
                      Respond 0 (Response 200 "png-1");
                      Respond 1 (Response 200 "png-2")]))
                   [Start 1; Start 0]))
  = s_state (state_after [Start 0; Start 1; Respond 0 (Response 200 "png-1");
                          Respond 1 (Response 200 "png-2")]).
Proof.
  eapply (rerender_no_request one_slot two_diagrams new_state _ _ _
            [Start 1; Start 0]).
  - apply reachable_state_after. by_compute.
  - by_compute.
  - by_compute.
  - by_compute.
Defined.

Lemma concurrency_bound_witness : in_flight (state_after [Start 0; Start 1]) ≤ 1.
Proof.
  apply (concurrency_bound one_slot two_diagrams new_state).
  apply reachable_state_after. by_compute.
Defined.

Lemma schedule_terminates_witness :
  length [Start 0; Start 1; Respond 0 (Raise NetworkError); Wake 0] ≤ 7 * 2.
Proof.
  apply (schedule_terminates one_slot two_diagrams new_state
           (demo_sys 1 [Created; Created]) _ (state_after [Start 0; Start 1;
              Respond 0 (Raise NetworkError); Wake 0])); by_compute.
Defined.

Lemma no_deadlock_witness :
  all_done (state_after [Start 0; Start 1; Respond 0 (Response 200 "png-1");
                         Respond 1 (Response 404 "Not Found")]) = true.
Proof.
  apply (no_deadlock one_slot two_diagrams new_state); [done| |].
  - apply reachable_state_after. by_compute.
  - intros [[|[|i]]|[|[|i]] o|[|[|i]]]; reflexivity.
Defined.

Lemma render_all_returns_witness :
  ∃ evs s', run one_slot two_diagrams evs (state_after [Start 0; Start 1]) = Some s' ∧
            all_done s' = true ∧ is_Some (render_result s').
Proof.
  apply (render_all_returns one_slot two_diagrams new_state); [done|].
  apply reachable_state_after. by_compute.
Defined.

Lemma render_all_populates_cache_witness :
  is_Some (mermaid_cache (s_state (state_after
             [Start 0; Start 1; Respond 0 (Response 200 "png-1");
              Respond 1 (Response 200 "png-2")])) !! cache_key "graph LR") ∧
  is_Some (({[ "graph TD" := ("png-1", "mermaid_1.png");
               "graph LR" := ("png-2", "mermaid_2.png") ]}
            : gmap string (bytes * string)) !! cache_key "graph LR").
Proof.
  apply (render_all_populates_cache one_slot two_diagrams new_state _ _ 1 2).
  - apply reachable_state_after. by_compute.
  - by_compute.
  - by_compute.
Defined.

Lemma image_names_unique_witness : "graph TD" = "graph TD".
Proof.
  apply (image_names_unique one_slot two_diagrams new_state
           (state_after [Start 0; Start 1; Respond 0 (Response 200 "png-1")])
           _ _ "png-1" "png-1" "mermaid_1.png").
  - apply new_state_cache_inv.
  - apply reachable_state_after. by_compute.
  - by_compute.
  - by_compute.
Defined.

Lemma status_error_not_retried_witness :
  ∃ s', step_fn one_slot two_diagrams (state_after [Start 0; Start 1])
          (Respond 0 (Response 503 "Service Unavailable")) = Some s' ∧
        s_phases s' !! 0 = Some (Done (Err (status_error 503 1))) ∧
        s_state s' = s_state (state_after [Start 0; Start 1]) ∧
        (s_failed (state_after [Start 0; Start 1]) = None →
         render_result s' = Some (Err (status_error 503 1))).
Proof.
  apply (status_error_not_retried one_slot two_diagrams new_state _ 0 1
           "graph TD" 1 503); [|by_compute..|lia].
  apply reachable_state_after. by_compute.
Defined.

Lemma retryable_error_retried_witness :
  ∃ s1 s2, step_fn one_slot two_diagrams (state_after [Start 0; Start 1])
             (Respond 0 (Raise TimeoutException)) = Some s1 ∧
           s_phases s1 !! 0 = Some (Sleeping 1) ∧
           s_failed s1 = s_failed (state_after [Start 0; Start 1]) ∧
           retry_decision 1 TimeoutException = RetryAfter (2 ^ (1 - 1)) ∧
           step_fn one_slot two_diagrams s1 (Wake 0) = Some s2 ∧
           s_phases s2 !! 0 = Some (Fetching 2) ∧
           s_requests s2 = S (s_requests (state_after [Start 0; Start 1])) ∧
           s_state s2 = s_state (state_after [Start 0; Start 1]).
Proof.
  apply (retryable_error_retried one_slot two_diagrams new_state _ 0 1
           "graph TD" 1 TimeoutException); [|by_compute..|lia].
  apply reachable_state_after. by_compute.
Defined.

Lemma retry_exhausted_reraises_witness :
  ∃ s', step_fn one_slot two_diagrams
          (state_after [Start 0; Respond 0 (Raise NetworkError); Wake 0;
                        Respond 0 (Raise NetworkError); Wake 0])
          (Respond 0 (Raise TimeoutException)) = Some s' ∧
        s_phases s' !! 0 = Some (Done (Err TimeoutException)) ∧
        is_build_error TimeoutException = false ∧
        (s_failed (state_after [Start 0; Respond 0 (Raise NetworkError); Wake 0;
                                Respond 0 (Raise NetworkError); Wake 0]) = None →
         render_result s' = Some (Err TimeoutException)).
Proof.
  apply (retry_exhausted_reraises one_slot two_diagrams new_state _ 0 1
           "graph TD" TimeoutException); [|by_compute..].
  apply reachable_state_after. by_compute.
Defined.

Lemma cache_hit_no_request_witness :
  let s := mkSys (set_cache <["A[1\. x]" := ("png-a", "mermaid_1.png")]> new_state)
                 1 [] [Created; Created] None 0 in
  ∃ s', step_fn one_slot twin_diagrams s (Start 1) = Some s' ∧
        s_phases s' !! 1 =
          Some (Done (Ok (cache_key "A[1\. x]", ("png-a", "mermaid_1.png")))) ∧
        s_requests s' = s_requests s ∧ s_state s' = s_state s ∧
        s_sem s' = s_sem s ∧ s_waiters s' = s_waiters s.
Proof.
  intros s.
  apply (cache_hit_no_request one_slot twin_diagrams s 1 2 "A[1\. x]"
           ("png-a", "mermaid_1.png")); by_compute.
Defined.

Lemma fetch_with_retry_total_witness :
  is_Some (fetch_with_retry new_state "graph TD" 1 1
             [Raise TimeoutException; Raise NetworkError; Response 200 "png"]) ∧
  fetch_with_retry new_state "graph TD" 1 1
    [Raise TimeoutException; Raise NetworkError; Response 200 "png"] =
  fetch_with_retry new_state "graph TD" 1 1
    (take 3 [Raise TimeoutException; Raise NetworkError; Response 200 "png"]).
Proof. apply (fetch_with_retry_total new_state "graph TD" 1). simpl. lia. Defined.

Lemma fetch_single_spec_witness : new_state = new_state.
Proof.
  exact (fetch_single_spec one_slot new_state "graph TD" 1
           [Raise TimeoutException; Raise NetworkError; Raise NetworkError]
           (Err NetworkError) new_state eq_refl).
Defined.

(** One coroutine, one slot: a timeout, then the image. *)
Definition solo_state : sys :=
  default (demo_sys 0 [])
    (after one_slot [(1, "graph TD")] new_state
       [Start 0; Respond 0 (Raise TimeoutException); Wake 0;
        Respond 0 (Response 200 "png")]).

Lemma solo_refines_witness :
  ∃ os, fetch_single one_slot new_state "graph TD" 1 os
        = Some (Ok ("graph TD", ("png", "mermaid_1.png")), s_state solo_state).
Proof.
  apply (solo_refines one_slot new_state 1 "graph TD").
  - vm_compute. discriminate.
  - apply (reachable_after _ _ _ [Start 0; Respond 0 (Raise TimeoutException);
             Wake 0; Respond 0 (Response 200 "png")]). by_compute.
  - by_compute.
Defined.
