(* ===== verification/Document.v ===== *)
(** * Document: diagram substitution and chapter pages

    [process_mermaid_blocks] of scripts/build_epub.py replaces each fenced
    diagram block of a chapter by a reference to its image.  Its callback
    [replace_mermaid] sanitizes the body of the block, strips it, and looks
    the result up in the cache of the build state; the first reference to
    an image also adds the image to the book.  The book is the list of its
    items in the order [add_item] received them; the callback reads and
    writes the pair of the build state and the book.

    [create_chapter_html] and [handle_svg_image] are the two page templates.

    The theorems state when the substitution succeeds (exactly when every
    block has its key in the cache), what text it returns, that the book
    never holds two items for one image, and that the diagrams the extractor
    found and the renderer fetched are the ones the substitution looks up,
    as long as no block ends in an opening bracket, digits and a period
    followed only by whitespace.  The last example is a chapter for which
    the substitution fails after a successful [render_all]. *)

From Stdlib Require Import Ascii.
From stdpp Require Import base tactics list strings gmap.
From S2P Require Import Prelude PyStr Regex Sanitizer State Extractor Renderer RenderAll.

#[local] Arguments String.append !_ _ : simpl nomatch.

(** ** The book *)

(** [epub.EpubItem(uid=..., file_name=..., media_type=..., content=...)] *)
Record EpubItem : Type := mkItem {
  uid : string;
  file_name : string;
  media_type : string;
  content : bytes
}.

(** The items of the book, in the order of the calls of [add_item]. *)
Definition book : Type := list EpubItem.

(** What the substitution reads and writes. *)
Definition doc_state : Type := BuildState * book.

(** ** [process_mermaid_blocks] *)

(** The markdown image that replaces a block. *)
Definition image_ref (img_name : string) : string :=
  nl +:+ "![Diagram](images/" +:+ img_name +:+ ")" +:+ nl.

(** The file of an image in the package. *)
Definition image_path (img_name : string) : string := "images/" +:+ img_name.
Arguments image_path : simpl never.

Definition image_item (img_data : bytes) (img_name : string) : EpubItem :=
  mkItem (replace_char "." "_" img_name) (image_path img_name)
         "image/png" img_data.

(** The key the substitution looks up for the body of a block. *)
Definition block_key (body : string) : string :=
  strip (sanitize_mermaid body).

(** The callback [replace_mermaid], applied to group 1 of the match. *)
Definition replace_mermaid (body : string) (σ : doc_state) :
    result exn (string * doc_state) :=
  let cache_key := block_key body in
  match mermaid_cache σ.1 !! cache_key with
  | Some (img_data, img_name) =>
      if decide (img_name ∈ mermaid_added_to_book σ.1)
      then Ok (image_ref img_name, σ)
      else Ok (image_ref img_name,
               (set_added (λ added, {[img_name]} ∪ added) σ.1,
                σ.2 ++ [image_item img_data img_name]))
  | None => Err (MermaidRenderError "Mermaid diagram not found in cache")
  end.

Definition process_mermaid_blocks (md_content : string) (σ : doc_state) :
    result exn (string * doc_state) :=
  sub_st replace_mermaid (scan match_fence 0 md_content) σ.

(** The reference that stands for a block, given the cache. *)
Definition image_of (cache : gmap string (bytes * string)) (body : string) :
    string :=
  match cache !! block_key body with
  | Some (_, img_name) => image_ref img_name
  | None => ""
  end.

(** ** The page templates *)

(** [create_chapter_html(display_name, file_title, html_content, is_overview)] *)
Definition create_chapter_html (display_name file_title html_content : string)
    (is_overview : bool) : string :=
  let safe_display := html_escape display_name in
  let safe_title := html_escape file_title in
  let heading := if is_overview then "h1" else "h2" in
  let shown := if is_overview then safe_display else safe_title in
  "<!DOCTYPE html>" +:+ nl +:+
  "<html xmlns=" +:+ dq +:+ "http://www.w3.org/1999/xhtml" +:+ dq +:+
  " lang=" +:+ dq +:+ "en" +:+ dq +:+ ">" +:+ nl +:+
  "<head>" +:+ nl +:+
  "    <meta charset=" +:+ dq +:+ "utf-8" +:+ dq +:+ "/>" +:+ nl +:+
  "    <title>" +:+ shown +:+ "</title>" +:+ nl +:+
  "</head>" +:+ nl +:+
  "<body>" +:+ nl +:+
  "    <" +:+ heading +:+ ">" +:+ shown +:+ "</" +:+ heading +:+ ">" +:+ nl +:+
  "    " +:+ html_content +:+ nl +:+
  "</body>" +:+ nl +:+
  "</html>".

(** [handle_svg_image(src, alt, logger)] *)
Definition handle_svg_image (src alt : string) : string :=
  nl +:+
  "    <div class=" +:+ dq +:+ "svg-placeholder" +:+ dq +:+ " style=" +:+ dq +:+ nl +:+
  "        border: 1px dashed #ccc;" +:+ nl +:+
  "        padding: 1em;" +:+ nl +:+
  "        text-align: center;" +:+ nl +:+
  "        background: #f9f9f9;" +:+ nl +:+
  "        border-radius: 4px;" +:+ nl +:+
  "        margin: 1em 0;" +:+ nl +:+
  "    " +:+ dq +:+ ">" +:+ nl +:+
  "        <p><em>[SVG Image: " +:+ html_escape alt +:+ "]</em></p>" +:+ nl +:+
  "        <p style=" +:+ dq +:+ "font-size: 0.8em; color: #666;" +:+ dq +:+ ">" +:+ nl +:+
  "            Original: " +:+ html_escape src +:+ nl +:+
  "        </p>" +:+ nl +:+
  "    </div>" +:+ nl +:+
  "    ".

(** ** Invariants *)

(** No two items of the book share a file name, and the image items are
    the images the build state has marked as added. *)
Record book_inv (σ : doc_state) : Prop := {
  inv_files : NoDup (file_name <$> σ.2);
  inv_added : ∀ n, image_path n ∈ file_name <$> σ.2 ↔
                   n ∈ mermaid_added_to_book σ.1
}.

(** The images the build state has marked as added are in the book. *)
Definition added_present (σ : doc_state) : Prop :=
  ∀ n, n ∈ mermaid_added_to_book σ.1 → image_path n ∈ file_name <$> σ.2.

(** ** The callback *)

Section replace.
Implicit Types (σ : doc_state) (body : string).

Notation missing := (MermaidRenderError "Mermaid diagram not found in cache").

(** A call that returns has found the key, returns the reference to its
    image and leaves the cache, the counter and the chapter map alone. *)
Lemma replace_mermaid_Ok body σ x σ' :
  replace_mermaid body σ = Ok (x, σ') →
  x = image_of (mermaid_cache σ.1) body ∧
  mermaid_cache σ'.1 = mermaid_cache σ.1.
Proof.
  unfold replace_mermaid, image_of.
  destruct (mermaid_cache σ.1 !! block_key body) as [[d n]|]; [|done].
  case_decide; by intros [= <- <-].
Qed.

Lemma replace_mermaid_hit body σ d n :
  mermaid_cache σ.1 !! block_key body = Some (d, n) →
  ∃ σ', replace_mermaid body σ = Ok (image_ref n, σ') ∧
        mermaid_cache σ'.1 = mermaid_cache σ.1.
Proof. unfold replace_mermaid. intros ->. case_decide; eauto. Qed.

Lemma replace_mermaid_miss body σ :
  mermaid_cache σ.1 !! block_key body = None →
  replace_mermaid body σ = Err missing.
Proof. unfold replace_mermaid. by intros ->. Qed.

Lemma replace_mermaid_Err body σ e : replace_mermaid body σ = Err e → e = missing.
Proof.
  unfold replace_mermaid.
  destruct (mermaid_cache σ.1 !! block_key body) as [[d n]|]; [|congruence].
  by case_decide.
Qed.

Lemma images_inj n m : image_path n = image_path m → n = m.
Proof. unfold image_path. by intros [= ->]. Qed.

Lemma replace_mermaid_inv body σ x σ' :
  book_inv σ → replace_mermaid body σ = Ok (x, σ') → book_inv σ'.
Proof.
  intros [Hnd Hadd]. unfold replace_mermaid.
  destruct (mermaid_cache σ.1 !! block_key body) as [[d n]|]; [|done].
  case_decide as Hn; intros [= <- <-]; [done|]. split; simpl.
  - rewrite fmap_app. apply NoDup_app. split_and!; [done| |apply NoDup_singleton].
    intros f Hf ->%list_elem_of_singleton. by apply Hn, Hadd.
  - intros m. rewrite fmap_app. simpl.
    rewrite elem_of_app, list_elem_of_singleton, elem_of_union,
      elem_of_singleton, Hadd.
    split; intros [?|?]; auto using images_inj. right. by subst.
Qed.

(** A call that returns leaves the image of the block in the book, and
    takes no item out of it. *)
Lemma replace_mermaid_present body σ x σ' :
  added_present σ → replace_mermaid body σ = Ok (x, σ') →
  added_present σ' ∧
  (∀ f, f ∈ file_name <$> σ.2 → f ∈ file_name <$> σ'.2) ∧
  ∃ d n, mermaid_cache σ.1 !! block_key body = Some (d, n) ∧
         image_path n ∈ file_name <$> σ'.2.
Proof.
  intros Hadd. unfold replace_mermaid.
  destruct (mermaid_cache σ.1 !! block_key body) as [[d n]|]; [|done].
  case_decide as Hn; intros [= <- <-]; simpl.
  - split_and!; [done..|]. exists d, n. split; [done|]. by apply Hadd.
  - unfold added_present. simpl. setoid_rewrite fmap_app.
    setoid_rewrite elem_of_app. setoid_rewrite elem_of_union.
    setoid_rewrite elem_of_singleton. split_and!; [|by auto|].
    + intros m [->|?%Hadd]; [right; left|by left].
    + exists d, n. split; [done|]. right. left.
Qed.

(** The only files a substitution adds to the book are images. *)
Lemma sub_st_files (P : string → Prop) ts σ out σ' :
  (∀ n, P (image_path n)) → Forall P (file_name <$> σ.2) →
  sub_st replace_mermaid ts σ = Ok (out, σ') → Forall P (file_name <$> σ'.2).
Proof.
  intros Himg. apply (sub_st_inv (λ σ0, Forall P (file_name <$> σ0.2))).
  intros body σ0 x σ1 _ H0. unfold replace_mermaid.
  destruct (mermaid_cache σ0.1 !! block_key body) as [[d n]|]; [|done].
  case_decide; intros [= <- <-]; [done|]. simpl.
  rewrite fmap_app. apply Forall_app. split; [done|].
  constructor; [apply Himg|constructor].
Qed.

(** A block whose key is missing makes the substitution raise, wherever
    the block stands. *)
Lemma sub_st_missing ts body σ :
  Hit body ∈ ts → mermaid_cache σ.1 !! block_key body = None →
  sub_st replace_mermaid ts σ = Err missing.
Proof.
  revert σ; induction ts as [|[c|b] ts IH]; intros σ Hin Hnone.
  - by apply elem_of_nil in Hin.
  - apply elem_of_cons in Hin as [[=]|Hin]. simpl. by rewrite IH.
  - simpl. destruct (replace_mermaid b σ) as [[x σ1]|e] eqn:Hb; simpl_result.
    + pose proof (replace_mermaid_Ok _ _ _ _ Hb) as [_ Hc].
      apply elem_of_cons in Hin as [[= ->]|Hin].
      * by rewrite replace_mermaid_miss in Hb.
      * rewrite IH; [done..|]. by rewrite Hc.
    + by rewrite (replace_mermaid_Err _ _ _ Hb).
Qed.

(** A substitution that returns leaves the image of every block in the
    book. *)
Lemma sub_st_present ts σ out σ' :
  added_present σ → sub_st replace_mermaid ts σ = Ok (out, σ') →
  added_present σ' ∧
  (∀ f, f ∈ file_name <$> σ.2 → f ∈ file_name <$> σ'.2) ∧
  ∀ body, Hit body ∈ ts →
    ∃ d n, mermaid_cache σ.1 !! block_key body = Some (d, n) ∧
           image_path n ∈ file_name <$> σ'.2.
Proof.
  revert σ out σ'; induction ts as [|[c|b] ts IH]; intros σ out σ' Hinv; simpl.
  - intros [= _ <-]. split_and!; [done..|]. by intros body ?%elem_of_nil.
  - destruct (sub_st _ ts σ) as [[r σ1]|] eqn:H1; simpl_result; [|done].
    intros [= _ <-]. destruct (IH _ _ _ Hinv H1) as (? & ? & Hall).
    split_and!; [done..|]. intros body [[=]|?]%elem_of_cons. auto.
  - destruct (replace_mermaid b σ) as [[x σ1]|] eqn:Hb; simpl_result; [|done].
    destruct (sub_st _ ts σ1) as [[r σ2]|] eqn:H1; simpl_result; [|done].
    intros [= _ <-].
    destruct (replace_mermaid_present _ _ _ _ Hinv Hb)
      as (Hinv1 & Hm1 & d & n & Hk & Hn).
    pose proof (replace_mermaid_Ok _ _ _ _ Hb) as [_ Hc].
    destruct (IH _ _ _ Hinv1 H1) as (? & Hm2 & Hall).
    split_and!; [done|auto|].
    intros body [[= ->]|Hin]%elem_of_cons; [by eauto 6|].
    rewrite <-Hc. auto.
Qed.

End replace.

(** ** [process_mermaid_blocks] *)

Section process.
Implicit Types (σ : doc_state) (md : string).

Lemma process_replaces_blocks_aux md σ :
  (∀ body, body ∈ finditer match_fence md →
           is_Some (mermaid_cache σ.1 !! block_key body)) →
  ∃ σ', process_mermaid_blocks md σ =
          Ok (sub match_fence (image_of (mermaid_cache σ.1)) md, σ') ∧
        mermaid_cache σ'.1 = mermaid_cache σ.1.
Proof.
  intros Hall.
  apply (sub_st_output (λ σ0, mermaid_cache σ0.1 = mermaid_cache σ.1));
    [|done].
  intros body σ0 [[d n] Hk]%elem_of_finditer%Hall Hσ0. rewrite <-Hσ0 in Hk.
  destruct (replace_mermaid_hit _ _ _ _ Hk) as (σ1 & Hr & Hc).
  exists σ1. split; [|congruence].
  unfold image_of. by rewrite <-Hσ0, Hk.
Qed.

(** C30. When every block of a chapter has its key in the cache, the
    substitution returns the chapter with each block replaced by the
    reference to its image, and leaves the cache as it was. *)
Theorem process_replaces_blocks md σ :
  (∀ body, body ∈ finditer match_fence md →
           is_Some (mermaid_cache σ.1 !! block_key body)) →
  ∃ σ', process_mermaid_blocks md σ =
          Ok (sub match_fence (image_of (mermaid_cache σ.1)) md, σ') ∧
        mermaid_cache σ'.1 = mermaid_cache σ.1.
Proof. apply process_replaces_blocks_aux. Qed.

(** C25. A block whose key is not in the cache makes the substitution raise
    [MermaidRenderError], whatever the other blocks are: no chapter is
    produced with a diagram missing. *)
Theorem process_missing_fails md σ body :
  body ∈ finditer match_fence md →
  mermaid_cache σ.1 !! block_key body = None →
  process_mermaid_blocks md σ =
  Err (MermaidRenderError "Mermaid diagram not found in cache").
Proof. intros Hin%elem_of_finditer Hnone. by eapply sub_st_missing. Qed.

(** C29. The substitution keeps the book free of duplicates: no two items
    share a file name, and an image is in the book only when the build
    state has marked it as added. *)
Theorem process_book_inv md σ out σ' :
  book_inv σ → process_mermaid_blocks md σ = Ok (out, σ') → book_inv σ'.
Proof.
  intros Hinv. apply (sub_st_inv book_inv); [|done].
  intros body σ0 x σ1 _. apply replace_mermaid_inv.
Qed.

End process.

(** ** From the extractor to the substitution *)

Section pipeline.
Context {P : Type} (read_text : P → result exn string).
Context (cfg : EPUBConfig).

(** The key the substitution looks up is the key [render_all] has cached,
    for a block of a chapter the extractor has read. *)
Lemma rendered_key fs ds st s results f md body :
  extract_all_mermaid_blocks read_text fs = Ok ds →
  reachable cfg (render_tasks ds) st s →
  render_result s = Some (Ok results) →
  f ∈ fs → read_text f.1 = Ok md → body ∈ finditer match_fence md →
  straddles (strip body) (tail_space body) = false →
  is_Some (mermaid_cache (s_state s) !! block_key body).
Proof.
  intros Hex Hreach Hres Hf Hmd Hbody Hclean.
  assert (strip body ∈ ds.*2) as Hin.
  { eapply extract_elem; [done|]. exists f, md. split_and!; [done..|].
    by apply list_elem_of_fmap_2. }
  apply list_elem_of_fmap in Hin as ([index code] & Heq & Hin).
  simpl in Heq. subst code. apply list_elem_of_lookup_1 in Hin as [i Hi].
  destruct (render_result_cached cfg (render_tasks ds) st s results i index
              (sanitize_mermaid (strip body))) as (_ & _ & _ & Hc); [done..| |].
  { unfold render_tasks. by rewrite list_lookup_fmap, Hi. }
  unfold block_key. by rewrite sanitize_strip.
Qed.

(** C2. After [extract_all_mermaid_blocks] and a [render_all] that has
    returned, the substitution succeeds on every chapter the extractor has
    read, provided that in no block an occurrence of the numbered-list
    pattern ends with the whitespace that closes the block. *)
Theorem diagrams_found fs ds st s results f md bk :
  extract_all_mermaid_blocks read_text fs = Ok ds →
  reachable cfg (render_tasks ds) st s →
  render_result s = Some (Ok results) →
  f ∈ fs → read_text f.1 = Ok md →
  (∀ body, body ∈ finditer match_fence md →
           straddles (strip body) (tail_space body) = false) →
  ∃ σ', process_mermaid_blocks md (s_state s, bk) =
          Ok (sub match_fence (image_of (mermaid_cache (s_state s))) md, σ').
Proof.
  intros Hex Hreach Hres Hf Hmd Hclean.
  destruct (process_replaces_blocks_aux md (s_state s, bk)) as (σ' & H & _);
    [|by exists σ'].
  intros body Hbody. eapply rendered_key; eauto.
Qed.

End pipeline.

(** ** The theorems at work *)

Definition test_diagrams : list (nat * string) :=
  [(1, "graph TD
    A --> B"); (2, "graph LR
    C --> D")].

(** The state after [render_all] has fetched the two diagrams of the test
    chapter. *)
Definition rendered : sys :=
  default (demo_sys 0 [])
    (after one_slot (render_tasks test_diagrams) new_state
       [Start 0; Start 1; Respond 0 (Response 200 "png-1");
        Respond 1 (Response 200 "png-2")]).


Lemma rendered_reachable :
  reachable one_slot (render_tasks test_diagrams) new_state rendered.
Proof.
  apply (reachable_after _ _ _ [Start 0; Start 1;
           Respond 0 (Response 200 "png-1"); Respond 1 (Response 200 "png-2")]).
  by_compute.
Qed.

Lemma test_md_blocks :
  finditer match_fence test_md = ["graph TD
    A --> B
"; "graph LR
    C --> D
"].
Proof. by_compute. Qed.

(** The test chapter after the substitution: two references, two image
    items in the book, in the order of the blocks. *)
Example process_test_chapter :
  process_mermaid_blocks test_md (s_state rendered, []) =
  Ok ("# Test

" +:+ image_ref "mermaid_1.png" +:+ "

Some text

" +:+ image_ref "mermaid_2.png" +:+ nl,
      (set_added (λ _, {[ "mermaid_1.png"; "mermaid_2.png" ]}) (s_state rendered),
       [mkItem "mermaid_1_png" "images/mermaid_1.png" "image/png" "png-1";
        mkItem "mermaid_2_png" "images/mermaid_2.png" "image/png" "png-2"])).
Proof. by_compute. Qed.

(** A chapter that shows one diagram twice adds its image once. *)
Example process_adds_image_once :
  ∃ out st, process_mermaid_blocks (dup_md 0 +:+ nl +:+ dup_md 1)
              (s_state rendered, []) = Ok (out, (st, [mkItem "mermaid_1_png"
                "images/mermaid_1.png" "image/png" "png-1"])).
Proof. eexists _, _. by_compute. Qed.


Lemma process_replaces_blocks_witness :
  ∃ σ', process_mermaid_blocks test_md (s_state rendered, []) =
          Ok (sub match_fence (image_of (mermaid_cache (s_state rendered))) test_md, σ') ∧
        mermaid_cache σ'.1 = mermaid_cache (s_state rendered).
Proof.
  apply (process_replaces_blocks test_md (s_state rendered, [])).
  intros body Hb. rewrite test_md_blocks in Hb.
  repeat (apply elem_of_cons in Hb as [->|Hb]); [by_compute..|].
  by apply elem_of_nil in Hb.
Defined.

Lemma process_missing_fails_witness :
  process_mermaid_blocks test_md (new_state, []) =
  Err (MermaidRenderError "Mermaid diagram not found in cache").
Proof.
  apply (process_missing_fails test_md (new_state, []) "graph LR
    C --> D
").
  - rewrite test_md_blocks. right. left.
  - reflexivity.
Defined.

Lemma process_book_inv_witness :
  book_inv (set_added (λ _, {[ "mermaid_1.png"; "mermaid_2.png" ]}) (s_state rendered),
            [mkItem "mermaid_1_png" "images/mermaid_1.png" "image/png" "png-1";
             mkItem "mermaid_2_png" "images/mermaid_2.png" "image/png" "png-2"]).
Proof.
  eapply (process_book_inv test_md (s_state rendered, []));
    [|exact process_test_chapter].
  split; [constructor|]. intros n. simpl. by rewrite elem_of_nil.
Defined.

Lemma diagrams_found_witness :
  ∃ σ', process_mermaid_blocks test_md (s_state rendered, []) =
          Ok (sub match_fence (image_of (mermaid_cache (s_state rendered))) test_md, σ').
Proof.
  apply (diagrams_found test_reader one_slot [(0, "Test")] test_diagrams
           new_state rendered
           {[ "graph TD
    A --> B" := ("png-1", "mermaid_1.png"); "graph LR
    C --> D" := ("png-2", "mermaid_2.png") ]} (0, "Test") test_md []).
  - exact extract_two_blocks.
  - exact rendered_reachable.
  - by_compute.
  - left.
  - reflexivity.
  - intros body Hb. rewrite test_md_blocks in Hb.
    repeat (apply elem_of_cons in Hb as [->|Hb]); [by_compute..|].
    by apply elem_of_nil in Hb.
Defined.
