(* ===== verification/Codec.v ===== *)
(** * Codec: texts the builder writes, read back

    The builder writes three kinds of text that something else reads: the
    titles it escapes with [html.escape] into the pages of the chapters
    ([create_chapter_html], [handle_svg_image]), the numbers it formats
    into file names ([chap_file], [chap_sub_file]), and the pages
    themselves.  A [Codec] packs a writer with a reader and the law that
    reading what was written gives the value back; injectivity of the
    writer follows from the law once, for every instance.

    [html_unescape] is [html.unescape] for the five references
    [html.escape] produces, as the substitution of [Regex] over the
    anchored matcher [match_entity], which is how CPython runs it.
    [page_title] and [page_heading] read a page of [create_chapter_html]
    the way a reader of the package does: the text between the tags,
    unescaped.

    Theorems: the round trips of the three codecs; an escaped text holds no
    markup character, so a title, an alternative text or a source adds no
    markup to a page; the title and the heading of a page are the title the
    chapter was given, whatever characters it holds; the chapters of the
    collector are well formed. *)

From Stdlib Require Import Ascii Lia.
From stdpp Require Import base tactics option list strings.
From S2P Require Import Prelude PyStr Regex Sanitizer State Collector Document.

#[local] Arguments String.append !_ _ : simpl nomatch.

(** ** Writers with readers *)

Class Codec (A : Type) : Type := {
  encode : A → string;
  decode : string → option A;
  decode_encode : ∀ x, decode (encode x) = Some x
}.

(** ** [html.escape] and [html.unescape] *)

(** The characters of markup: [html.escape] leaves none of them. *)
Definition is_markup (c : ascii) : bool :=
  Ascii.eqb c "<" || Ascii.eqb c ">" || Ascii.eqb c "034" || Ascii.eqb c "'".

(** What [html.escape] writes for one character. *)
Definition escape_char (c : ascii) : string :=
  if Ascii.eqb c "&" then "&amp;"
  else if Ascii.eqb c "<" then "&lt;"
  else if Ascii.eqb c ">" then "&gt;"
  else if Ascii.eqb c "034" then "&quot;"
  else if Ascii.eqb c "'" then "&#x27;"
  else String c "".

(** The five character references, anchored: the character a reference
    stands for and the length of the reference. *)
Definition match_entity : matcher ascii := λ s,
  if startswith "&amp;" s then Some ("&"%char, 5)
  else if startswith "&lt;" s then Some ("<"%char, 4)
  else if startswith "&gt;" s then Some (">"%char, 4)
  else if startswith "&quot;" s then Some ("034"%char, 6)
  else if startswith "&#x27;" s then Some ("'"%char, 6)
  else None.

(** [html.unescape(s)], for these references. *)
Definition html_unescape (s : string) : string :=
  sub match_entity (λ c, String c "") s.

(** ** File names *)

(** The number of a chapter, and the index of a file in the folder of a
    chapter. *)
Definition chapter_id : Type := nat * option nat.

Definition chapter_file (x : chapter_id) : string :=
  match x.2 with
  | None => chap_file x.1
  | Some i => chap_sub_file x.1 i
  end.

(** A run of digits as a number; [None] for an empty run. *)
Definition read_nat (s : string) : option nat :=
  if all_str is_digit s && negb (String.eqb s "") then Some (nat_of_str s)
  else None.

(** The reader of chapter file names. *)
Definition read_chapter_file (s : string) : option chapter_id :=
  if startswith "chap_" s then
    let '(ds, r) := span_digits (drop_str 5 s) in
    n ← read_nat ds;
    if String.eqb r ".xhtml" then Some (n, None)
    else if startswith "_" r then
      let '(ix, r') := span_digits (drop_str 1 r) in
      i ← read_nat ix;
      if String.eqb r' ".xhtml" then Some (n, Some i) else None
    else None
  else None.

(** ** Chapters

    What the fields of a [ChapterInfo] are to each other, read off the
    name of its page: a single file has a page without index, no folder,
    and its title as display name; a file of a folder has a page with an
    index, the folder, and is the overview, shown under the name of the
    folder, exactly at index 0.  Chapter numbers start at 1. *)
Definition chapter_ok (ch : ChapterInfo) : bool :=
  match read_chapter_file (chapter_filename ch) with
  | Some (n, None) =>
      bool_decide (1 ≤ n) && bool_decide (folder_name ch = None)
      && negb (is_folder_overview ch)
      && bool_decide (display_name ch = file_title ch)
  | Some (n, Some i) =>
      bool_decide (1 ≤ n)
      && bool_decide (is_folder_overview ch = bool_decide (i = 0))
      && match folder_name ch with
         | Some folder =>
             bool_decide (display_name ch
                          = if decide (i = 0) then folder else file_title ch)
         | None => false
         end
  | None => false
  end.

(** ** Pages *)

(** The text between the first [open] and the next [close]. *)
Definition between (open close s : string) : option string :=
  '(_, rest) ← find_sub open s;
  '(body, _) ← find_sub close rest;
  Some body.

(** The title and the heading of a page, as a reader shows them. *)
Definition page_title (page : string) : option string :=
  html_unescape <$> between "<title>" "</title>" page.

Definition page_heading (h page : string) : option string :=
  html_unescape <$> between ("<" +:+ h +:+ ">") ("</" +:+ h +:+ ">") page.

(** The page before its title. *)
Definition page_head : string :=
  "<!DOCTYPE html>" +:+ nl +:+
  "<html xmlns=" +:+ dq +:+ "http://www.w3.org/1999/xhtml" +:+ dq +:+
  " lang=" +:+ dq +:+ "en" +:+ dq +:+ ">" +:+ nl +:+
  "<head>" +:+ nl +:+
  "    <meta charset=" +:+ dq +:+ "utf-8" +:+ dq +:+ "/>" +:+ nl +:+ "    ".

(** The page after its title, with the heading [h] that shows [shown]. *)
Definition page_body (h shown html_content : string) : string :=
  nl +:+ "</head>" +:+ nl +:+ "<body>" +:+ nl +:+
  "    <" +:+ h +:+ ">" +:+ shown +:+ "</" +:+ h +:+ ">" +:+ nl +:+
  "    " +:+ html_content +:+ nl +:+ "</body>" +:+ nl +:+ "</html>".

(** The page between its title and its heading, and after its heading. *)
Definition page_mid : string :=
  "</title>" +:+ nl +:+ "</head>" +:+ nl +:+ "<body>" +:+ nl +:+ "    ".

Definition page_foot (html_content : string) : string :=
  nl +:+ "    " +:+ html_content +:+ nl +:+ "</body>" +:+ nl +:+ "</html>".

(** [clear_of p a rest]: [p] starts at no position of [a] in [a +:+ rest]. *)
Fixpoint clear_of (p a rest : string) : bool :=
  match a with
  | "" => true
  | String c a' => negb (startswith p (a +:+ rest)) && clear_of p a' rest
  end.

(** The number of characters of markup in a text. *)
Fixpoint markup_count (s : string) : nat :=
  match s with
  | "" => 0
  | String c s' => (if is_markup c then 1 else 0) + markup_count s'
  end.

(** ** Codecs in general *)

Lemma encode_inj `{Codec A} (x y : A) : encode x = encode y → x = y.
Proof.
  intros Heq. assert (Some x = Some y) as [= ->]; [|done].
  by rewrite <-!decode_encode, Heq.
Qed.

(** ** Escaping *)

Lemma html_escape_cons c s :
  html_escape (String c s) = escape_char c +:+ html_escape s.
Proof. done. Qed.

(** A reference that is read was written for its character. *)
Lemma match_entity_Some s c n :
  match_entity s = Some (c, n) →
  ∃ t, s = escape_char c +:+ t ∧ n = String.length (escape_char c).
Proof.
  unfold match_entity.
  repeat (destruct (startswith _ s) eqn:Hs;
    [apply startswith_spec in Hs as [t ->]; intros [= <- <-]; by exists t
    |clear Hs]).
  done.
Qed.

#[export] Instance match_entity_pattern : Pattern match_entity.
Proof.
  split; intros s c n (t & -> & ->)%match_entity_Some.
  - unfold escape_char. repeat case_match; simpl; lia.
  - rewrite length_app_str. lia.
Qed.

(** A reference is read as the character it was written for. *)
Lemma match_entity_escape c s :
  match_entity (escape_char c +:+ s) =
  if Ascii.eqb c "&" || is_markup c
  then Some (c, String.length (escape_char c))
  else match_entity (String c s).
Proof.
  unfold escape_char, is_markup.
  destruct (Ascii.eqb_spec c "&") as [->|]; [done|].
  destruct (Ascii.eqb_spec c "<") as [->|]; [done|].
  destruct (Ascii.eqb_spec c ">") as [->|]; [done|].
  destruct (Ascii.eqb_spec c "034") as [->|]; [done|].
  by destruct (Ascii.eqb_spec c "'") as [->|].
Qed.

Lemma match_entity_other c s :
  Ascii.eqb c "&" = false → match_entity (String c s) = None.
Proof.
  intros Hc. unfold match_entity. cbn [startswith].
  by rewrite (Ascii.eqb_sym "&" c), Hc.
Qed.

Lemma html_unescape_escape s : html_unescape (html_escape s) = s.
Proof.
  unfold html_unescape. induction s as [|c s IH]; [done|].
  rewrite html_escape_cons.
  destruct (Ascii.eqb c "&" || is_markup c) eqn:Hc.
  - rewrite (sub_hit _ _ _ c (String.length (escape_char c)))
      by (by rewrite match_entity_escape, Hc).
    by rewrite drop_str_app, IH.
  - apply orb_false_iff in Hc as [Hamp Hm].
    assert (escape_char c = String c "") as ->.
    { unfold escape_char, is_markup in *. rewrite Hamp.
      by repeat (apply orb_false_iff in Hm as [Hm ->]); rewrite Hm. }
    cbn [String.append]. rewrite sub_lit by (by apply match_entity_other).
    by rewrite IH.
Qed.

#[export] Instance html_codec : Codec string := {|
  encode := html_escape;
  decode := λ s, Some (html_unescape s);
  decode_encode := λ s, f_equal Some (html_unescape_escape s)
|}.

(** Two titles are escaped to the same text only when they are equal. *)
Lemma html_escape_inj s t : html_escape s = html_escape t → s = t.
Proof. exact (encode_inj (H := html_codec) s t). Qed.

(** An escaped text holds no character of markup. *)
Lemma html_escape_no_markup s :
  all_str (λ c, negb (is_markup c)) (html_escape s) = true.
Proof.
  induction s as [|c s IH]; [done|].
  rewrite html_escape_cons, all_str_app, IH, andb_true_r.
  unfold escape_char. repeat case_match; try done.
  unfold is_markup. simpl. by repeat (match goal with H : _ = false |- _ =>
    rewrite H; clear H end).
Qed.

Lemma markup_count_app s t :
  markup_count (s +:+ t) = markup_count s + markup_count t.
Proof. induction s as [|c s IH]; simpl; [done|]. rewrite IH. lia. Qed.

Lemma markup_count_clear s :
  all_str (λ c, negb (is_markup c)) s = true → markup_count s = 0.
Proof.
  induction s as [|c s IH]; simpl; [done|].
  intros [Hc Hs]%andb_true_iff. rewrite (IH Hs).
  by destruct (is_markup c).
Qed.

Lemma markup_count_escape s : markup_count (html_escape s) = 0.
Proof. apply markup_count_clear, html_escape_no_markup. Qed.

(** The markup of a page is the markup of its template and of its content,
    and the markup of the placeholder of an image is that of its template:
    a title, an alternative text or a source adds none. *)
Theorem page_markup display_name file_title html_content is_overview :
  markup_count
    (create_chapter_html display_name file_title html_content is_overview)
  = 30 + markup_count html_content.
Proof.
  unfold create_chapter_html. destruct is_overview;
    rewrite !markup_count_app, !markup_count_escape; cbn; lia.
Qed.

Theorem placeholder_markup src alt :
  markup_count (handle_svg_image src alt) = 22.
Proof.
  unfold handle_svg_image.
  rewrite !markup_count_app, !markup_count_escape. by cbn.
Qed.

(** ** Numbers *)

Lemma read_nat_pad2 n : read_nat (pad2 n) = Some n.
Proof.
  unfold read_nat. destruct (pad2_digits n) as [-> Hne].
  apply String.eqb_neq in Hne as ->. simpl. by rewrite nat_of_pad2.
Qed.

#[export] Instance pad2_codec : Codec nat := {|
  encode := pad2;
  decode := read_nat;
  decode_encode := read_nat_pad2
|}.

(** ** File names *)

(** The digits of a number, followed by a text that starts with no digit,
    are read back as that number. *)
Lemma span_digits_pad2 n r :
  (∀ c, head_char r = Some c → is_digit c = false) →
  span_digits (pad2 n +:+ r) = (pad2 n, r).
Proof. intros Hr. apply span_digits_intro; [apply pad2_digits|done]. Qed.

Lemma read_chapter_file_chapter x : read_chapter_file (chapter_file x) = Some x.
Proof.
  destruct x as [n [i|]]; unfold read_chapter_file, chapter_file; simpl.
  - unfold chap_sub_file. cbn [String.append startswith Ascii.eqb Bool.eqb andb drop_str].
    rewrite span_digits_pad2 by (by intros ? [= <-]).
    rewrite read_nat_pad2. cbn [mbind option_bind String.eqb Ascii.eqb Bool.eqb
      startswith andb drop_str].
    rewrite span_digits_pad2 by (by intros ? [= <-]).
    by rewrite read_nat_pad2.
  - unfold chap_file. cbn [String.append startswith Ascii.eqb Bool.eqb andb drop_str].
    rewrite span_digits_pad2 by (by intros ? [= <-]).
    by rewrite read_nat_pad2.
Qed.

#[export] Instance chapter_codec : Codec chapter_id := {|
  encode := chapter_file;
  decode := read_chapter_file;
  decode_encode := read_chapter_file_chapter
|}.

(** A page name stands for one chapter number and one index. *)
Lemma chapter_file_inj x y : chapter_file x = chapter_file y → x = y.
Proof. exact (encode_inj (H := chapter_codec) x y). Qed.

(** ** Pages *)

(** The search passes over a text that holds no first character of what
    it looks for. *)
Lemma find_sub_skip (d : ascii) p a rest :
  all_str (λ c, negb (Ascii.eqb c d)) a = true →
  find_sub (String d p) (a +:+ rest)
  = (λ x, (a +:+ x.1, x.2)) <$> find_sub (String d p) rest.
Proof.
  intros Ha. induction a as [|c a IH]; cbn [String.append].
  - by destruct (find_sub _ rest) as [[]|].
  - cbn [all_str] in Ha. apply andb_true_iff in Ha as [Hc Ha].
    apply negb_true_iff in Hc. cbn [find_sub startswith].
    rewrite (Ascii.eqb_sym d c), Hc, IH by done. cbn.
    by destruct (find_sub _ rest) as [[]|].
Qed.

Lemma find_sub_prefix p a rest :
  clear_of p a rest = true →
  find_sub p (a +:+ rest) = (λ x, (a +:+ x.1, x.2)) <$> find_sub p rest.
Proof.
  induction a as [|c a IH]; cbn [String.append clear_of].
  - by destruct (find_sub _ rest) as [[]|].
  - intros [Hc Ha]%andb_true_iff. apply negb_true_iff in Hc.
    cbn [String.append] in Hc. cbn [find_sub]. rewrite Hc, IH by done. cbn.
    by destruct (find_sub _ rest) as [[]|].
Qed.

Lemma find_sub_here p rest :
  find_sub p (p +:+ rest) = Some ("", rest).
Proof.
  destruct p as [|d p]; [by destruct rest|].
  cbn [String.append find_sub]. change (String d (p +:+ rest)) with (String d p +:+ rest).
  by rewrite startswith_app, drop_str_app.
Qed.

(** A text that is followed by [p] and holds no first character of [p] ends
    at the first occurrence of [p]. *)
Lemma find_sub_first (d : ascii) p a b :
  all_str (λ c, negb (Ascii.eqb c d)) a = true →
  find_sub (String d p) (a +:+ String d p +:+ b) = Some (a, b).
Proof.
  intros Ha. rewrite find_sub_skip, find_sub_here by done. cbn.
  by rewrite app_nil_r_str.
Qed.

Lemma no_markup_no_open s :
  all_str (λ c, negb (is_markup c)) s = true →
  all_str (λ c, negb (Ascii.eqb c "<")) s = true.
Proof.
  induction s as [|c s IH]; simpl; [done|].
  intros [Hc Hs]%andb_true_iff. rewrite IH by done.
  unfold is_markup in Hc. by destruct (Ascii.eqb c "<").
Qed.

(** What stands between two tags is read back, when it was escaped. *)
Lemma between_escaped pre open close t post :
  find_sub open (pre +:+ open +:+ html_escape t +:+ String "<" close +:+ post)
  = Some (pre, html_escape t +:+ String "<" close +:+ post) →
  html_unescape
    <$> between open (String "<" close)
          (pre +:+ open +:+ html_escape t +:+ String "<" close +:+ post)
  = Some t.
Proof.
  intros Hopen. unfold between. rewrite Hopen. cbn [mbind option_bind].
  rewrite find_sub_first by apply no_markup_no_open, html_escape_no_markup.
  cbn. by rewrite html_unescape_escape.
Qed.

Lemma create_chapter_html_eq display_name file_title html_content is_overview :
  create_chapter_html display_name file_title html_content is_overview =
  let shown := html_escape (if is_overview then display_name else file_title) in
  page_head +:+ "<title>" +:+ shown +:+ "</title>" +:+
  page_body (if is_overview then "h1" else "h2") shown html_content.
Proof. by destruct is_overview. Qed.

Lemma find_title rest :
  find_sub "<title>" (page_head +:+ "<title>" +:+ rest) = Some (page_head, rest).
Proof. reflexivity. Qed.

(** C18. The title of the page of a chapter is the title the chapter was given,
    whatever characters it holds: the title cannot close its tag. *)
Theorem page_title_roundtrip display_name file_title html_content is_overview :
  page_title
    (create_chapter_html display_name file_title html_content is_overview)
  = Some (if is_overview then display_name else file_title).
Proof.
  rewrite create_chapter_html_eq. cbv zeta. unfold page_title.
  apply (between_escaped page_head "<title>" "/title>"), find_title.
Qed.

(** The first occurrence of a tag after a concrete text, an escaped text
    and another concrete text. *)
Lemma find_sub_chain (d : ascii) p a1 e a2 rest :
  clear_of (String d p) a1 (e +:+ a2 +:+ String d p +:+ rest) = true →
  all_str (λ c, negb (Ascii.eqb c d)) e = true →
  clear_of (String d p) a2 (String d p +:+ rest) = true →
  find_sub (String d p) (a1 +:+ e +:+ a2 +:+ String d p +:+ rest)
  = Some (a1 +:+ e +:+ a2, rest).
Proof.
  intros H1 He H2.
  rewrite find_sub_prefix, find_sub_skip, find_sub_prefix, find_sub_here by done.
  cbn. by rewrite app_nil_r_str.
Qed.

Lemma find_heading (is_overview : bool) t html_content :
  let h := if is_overview then "h1" else "h2" in
  find_sub ("<" +:+ h +:+ ">")
    (page_head +:+ "<title>" +:+ html_escape t +:+ "</title>" +:+
     page_body h (html_escape t) html_content)
  = Some ((page_head +:+ "<title>") +:+ html_escape t +:+ page_mid,
          html_escape t +:+ ("</" +:+ h +:+ ">") +:+ page_foot html_content).
Proof.
  pose proof (no_markup_no_open _ (html_escape_no_markup t)) as He.
  destruct is_overview; cbv zeta.
  - by apply (find_sub_chain "<"%char "h1>" (page_head +:+ "<title>") _ page_mid).
  - by apply (find_sub_chain "<"%char "h2>" (page_head +:+ "<title>") _ page_mid).
Qed.

(** The heading of the page of a chapter is of the first level for the
    overview of a folder and of the second otherwise, and shows the title
    the chapter was given. *)
Theorem page_heading_roundtrip display_name file_title html_content
    (is_overview : bool) :
  page_heading (if is_overview then "h1" else "h2")
    (create_chapter_html display_name file_title html_content is_overview)
  = Some (if is_overview then display_name else file_title).
Proof.
  rewrite create_chapter_html_eq. cbv zeta. unfold page_heading, between.
  rewrite find_heading. cbn [mbind option_bind].
  destruct is_overview;
    [change ("</" +:+ "h1" +:+ ">") with (String "<" "/h1>")
    |change ("</" +:+ "h2" +:+ ">") with (String "<" "/h2>")];
    (rewrite find_sub_first by apply no_markup_no_open, html_escape_no_markup);
    cbn; by rewrite html_unescape_escape.
Qed.

(** ** Chapters *)

Section chapters.
Implicit Types (ch : ChapterInfo) (acc : collect_state).

Notation ok := (λ ch, chapter_ok ch = true).

Lemma file_chapter_ok p display_name n :
  1 ≤ n → chapter_ok (mkChapter p display_name display_name (chap_file n) false None) = true.
Proof.
  intros Hn. unfold chapter_ok. cbn [chapter_filename].
  change (chap_file n) with (chapter_file (n, None)).
  rewrite read_chapter_file_chapter. cbn.
  by rewrite !bool_decide_eq_true_2.
Qed.

Lemma folder_chapter_ok p display_name t n i :
  1 ≤ n →
  chapter_ok (mkChapter p (if decide (i = 0) then display_name else t) t
                (chap_sub_file n i) (bool_decide (i = 0)) (Some display_name))
  = true.
Proof.
  intros Hn. unfold chapter_ok. cbn [chapter_filename].
  change (chap_sub_file n i) with (chapter_file (n, Some i)).
  rewrite read_chapter_file_chapter. cbn.
  by rewrite !bool_decide_eq_true_2.
Qed.

Lemma folder_loop_ok display_name n i fs (acc : list ChapterInfo * BuildState) :
  1 ≤ n → Forall ok acc.1 →
  Forall ok (folder_loop display_name n i fs acc).1.
Proof.
  intros Hn. revert i acc. induction fs as [|[p t] fs IH]; intros i acc Hacc;
    cbn [folder_loop]; [done|].
  apply IH. cbn [fst]. apply Forall_app. split; [done|].
  constructor; [by apply folder_chapter_ok|constructor].
Qed.

Lemma collect_item_ok root acc entry :
  Forall ok (chapters acc) → Forall ok (chapters (collect_item root acc entry)).
Proof.
  intros Hacc. destruct entry as [item display_name]. unfold collect_item.
  destruct (is_file root (parts item) && _).
  - cbn [chapters]. apply Forall_app. split; [done|].
    constructor; [apply file_chapter_ok; lia|constructor].
  - destruct (lookup_node root (parts item)) as [[text|es]|]; [done| |done].
    unfold collect_folder.
    destruct (collect_folder_files _ _ _) as [|f fs] eqn:Hfs; [done|].
    pose proof (folder_loop_ok display_name (chapter_num acc + 1) 0 (f :: fs)
                  ([], set_paths <[rstrip_char "/" item :=
                         chap_sub_file (chapter_num acc + 1) 0]>
                       (set_paths <[item := chap_sub_file (chapter_num acc + 1) 0]>
                          (build acc)))) as Hloop.
    destruct (folder_loop _ _ _ _ _) as [[|ch chs] st']; [done|].
    cbn [chapters]. apply Forall_app. split; [done|]. apply Hloop; [lia|done].
Qed.

(** C19. The chapters the collector returns are well formed. *)
Theorem chapters_well_formed root chapter_order st :
  Forall (λ ch, chapter_ok ch = true)
         (collect_all_chapters root chapter_order st).1.
Proof.
  unfold collect_all_chapters. cbn [fst].
  assert (Forall ok (chapters (mkCollect [] 0 st))) as Hinit by constructor.
  revert Hinit. generalize (mkCollect [] 0 st).
  induction chapter_order as [|e order IH]; intros acc Hacc; [done|].
  cbn [foldl]. by apply IH, collect_item_ok.
Qed.

End chapters.

(** ** The codecs at work *)

(** A title with markup in it is written escaped and read back as it was. *)
Example page_title_markup :
  page_title (create_chapter_html "Q&A <beta> 'x'" "t" "<p>text</p>" true)
  = Some "Q&A <beta> 'x'" ∧
  between "<title>" "</title>"
    (create_chapter_html "Q&A <beta> 'x'" "t" "<p>text</p>" true)
  = Some "Q&amp;A &lt;beta&gt; &#x27;x&#x27;".
Proof. by vm_compute. Qed.

(** A reference that [html.escape] does not write is left as it is. *)
Example html_unescape_other : html_unescape "&copy; &amp;lt;" = "&copy; &lt;".
Proof. by vm_compute. Qed.

(** The names of pages, read: the number of the chapter and the index in
    its folder; a number of three digits is not cut. *)
Example read_chapter_files :
  read_chapter_file <$> ["chap_01.xhtml"; "chap_02_03.xhtml"; "chap_100.xhtml";
                         "chap_.xhtml"; "images/mermaid_1.png"]
  = [Some (1, None); Some (2, Some 3); Some (100, None); None; None].
Proof. by vm_compute. Qed.

(** The chapters of the test project, checked by evaluation. *)
Example test_project_chapters_ok :
  forallb chapter_ok (collect_all_chapters tmp_project test_order new_state).1
  = true.
Proof. by vm_compute. Qed.
