(* ===== verification/Links.v ===== *)
(** * Links: [convert_internal_links]

    [convert_internal_links] of scripts/build_epub.py walks the anchors of
    a chapter and replaces the targets that lead to another chapter by the
    file name of that chapter.  The HTML tree belongs to BeautifulSoup; what
    the function does to the [href] of one anchor is [convert_href], and
    the function is [convert_href] on every anchor in document order.

    A target is resolved against the directory of the current file as
    [Path.resolve] does without symbolic links: components are read left to
    right below the absolute path of the root, [..] drops the last
    component, and the result must lie below the root again.

    The theorems: external targets and targets outside the root are left
    alone; a target that is rewritten becomes an entry of the chapter map
    followed by the anchor of the original target; with the chapter map of
    the collector every rewritten target is the file of a chapter. *)

From Stdlib Require Import Ascii.
From stdpp Require Import base tactics list strings gmap.
From S2P Require Import Prelude PyStr State Collector.

#[local] Arguments String.append !_ _ : simpl nomatch.

(** ** Resolving a target *)

(** [href.startswith(("http://", "https://", "mailto:", "#"))] *)
Definition is_external (href : string) : bool :=
  startswith "http://" href || startswith "https://" href
  || startswith "mailto:" href || startswith "#" href.

(** The target without its anchor, and the anchor with its number sign. *)
Definition split_anchor (href : string) : string * string :=
  match split_once "#" href with
  | Some (target, anchor) => (target, "#" +:+ anchor)
  | None => (href, "")
  end.

(** [Path.resolve] on the components [cs] from the directory whose
    components, last first, are [stack]. *)
Fixpoint normalize (stack : list string) (cs : list string) : list string :=
  match cs with
  | [] => rev stack
  | c :: cs' =>
      if decide (c = "..") then normalize (tail stack) cs'
      else normalize (c :: stack) cs'
  end.

(** [p.relative_to(root)] *)
Fixpoint relative_to (root p : list string) : option (list string) :=
  match root, p with
  | [], _ => Some p
  | r :: root', c :: p' => if decide (r = c) then relative_to root' p' else None
  | _ :: _, [] => None
  end.

(** [(current_file.parent / href).resolve().relative_to(root_path)], for
    the absolute components [root] of the root directory. *)
Definition resolve (root : list string) (current_file : path) (href : string) :
    option path :=
  let dir := removelast current_file in
  let start := if startswith "/" href then [] else rev (root ++ dir) in
  relative_to root (normalize start (parts href)).

(** The forms of the path the function looks up, in order. *)
Definition paths_to_try (lookup_path : string) : list string :=
  [lookup_path; rstrip_char "/" lookup_path;
   if endswith ".md" lookup_path then lookup_path
   else lookup_path +:+ "/README.md"].

(** The first of the paths that is in the chapter map. *)
Fixpoint first_chapter (m : gmap string string) (paths : list string) :
    option string :=
  match paths with
  | [] => None
  | p :: paths' =>
      match m !! p with
      | Some chapter => Some chapter
      | None => first_chapter m paths'
      end
  end.

(** ** [convert_internal_links] *)

(** The body of the loop for one anchor: its new [href]. *)
Definition convert_href (root : list string) (st : BuildState)
    (current_file : path) (href : string) : string :=
  if String.eqb href "" || is_external href then href
  else
    let '(target, anchor) := split_anchor href in
    if String.eqb target "" then href
    else
      match resolve root current_file target with
      | None => href
      | Some rel_to_root =>
          match first_chapter (path_to_chapter st)
                              (paths_to_try (path_str rel_to_root)) with
          | Some chapter => chapter +:+ anchor
          | None => href
          end
      end.

(** The function, on the targets of the anchors of the chapter. *)
Definition convert_internal_links (root : list string) (st : BuildState)
    (current_file : path) (hrefs : list string) : list string :=
  convert_href root st current_file <$> hrefs.

(** ** Facts *)

Lemma first_chapter_Some m paths chapter :
  first_chapter m paths = Some chapter →
  ∃ p, p ∈ paths ∧ m !! p = Some chapter.
Proof.
  induction paths as [|p paths IH]; simpl; [done|].
  destruct (m !! p) as [c|] eqn:Hp.
  - intros [= ->]. exists p. split; [left|done].
  - intros (q & ? & ?)%IH. exists q. split; [by right|done].
Qed.

(** A target that is rewritten is an entry of the chapter map followed by
    the anchor of the original. *)
Lemma convert_href_changed root st current_file href :
  convert_href root st current_file href ≠ href →
  ∃ p chapter, path_to_chapter st !! p = Some chapter ∧
    convert_href root st current_file href
    = chapter +:+ (split_anchor href).2.
Proof.
  unfold convert_href. destruct (_ || _); [done|].
  destruct (split_anchor href) as [target anchor].
  destruct (String.eqb target ""); [done|].
  destruct (resolve _ _ _) as [rel|]; [|done].
  destruct (first_chapter _ _) as [chapter|] eqn:Hc; [|done].
  apply first_chapter_Some in Hc as (p & _ & Hp). eauto.
Qed.

(** Links to the web, mail links, links within the page and empty
    targets are left as they are. *)
Theorem external_links_unchanged root st current_file href :
  href = "" ∨ is_external href = true →
  convert_href root st current_file href = href.
Proof.
  unfold convert_href. intros [-> | ->]; [done|]. by rewrite orb_true_r.
Qed.

(** C32. With the chapter map of the collector, a link that is rewritten
    points to the file of a chapter of the book, and keeps its anchor. *)
Theorem links_point_to_chapters tree chapter_order root current_file href :
  let collected := collect_all_chapters tree chapter_order new_state in
  convert_href root collected.2 current_file href ≠ href →
  ∃ ch, ch ∈ collected.1 ∧
    convert_href root collected.2 current_file href
    = chapter_filename ch +:+ (split_anchor href).2.
Proof.
  intros collected (p & chapter & Hp & ->)%convert_href_changed.
  destruct (path_targets_exist_aux tree chapter_order new_state p chapter Hp)
    as [H|H]; [done|].
  apply list_elem_of_fmap in H as (ch & -> & Hch). eauto.
Qed.

(** A target that leads out of the root directory is left as it is. *)
Theorem outside_links_unchanged root st current_file href :
  resolve root current_file (split_anchor href).1 = None →
  convert_href root st current_file href = href.
Proof.
  unfold convert_href. destruct (_ || _); [done|].
  destruct (split_anchor href) as [target anchor]. simpl. intros ->.
  by destruct (String.eqb target "").
Qed.

(** ** The theorems at work *)

Definition test_root : list string := ["home"; "user"; "claude-howto"].
Definition test_state : BuildState :=
  (collect_all_chapters tmp_project test_order new_state).2.

(** The links of the overview of the test chapter: to a sibling with an
    anchor, to the README of the root, to the folder itself, to a folder
    without chapter, to the web, and out of the repository. *)
Example convert_test_links :
  convert_internal_links test_root test_state ["01-test-chapter"; "README.md"]
    ["section.md#intro"; "../README.md"; "../01-test-chapter/"; "./examples/a-one.md";
     "examples"; "https://kroki.io"; "#top"; "../../other/README.md";
     "/etc/passwd"; "../02-empty/notes.txt"]
  = ["chap_02_01.xhtml#intro"; "chap_01.xhtml"; "chap_02_00.xhtml";
     "chap_02_02.xhtml"; "examples"; "https://kroki.io"; "#top";
     "../../other/README.md"; "/etc/passwd"; "../02-empty/notes.txt"].
Proof. by_compute. Qed.

Lemma external_links_unchanged_witness :
  convert_href test_root test_state ["README.md"] "mailto:someone@example.org"
  = "mailto:someone@example.org".
Proof.
  apply (external_links_unchanged test_root test_state ["README.md"]).
  right. reflexivity.
Defined.

Lemma links_point_to_chapters_witness :
  ∃ ch, ch ∈ (collect_all_chapters tmp_project test_order new_state).1 ∧
    convert_href test_root test_state ["01-test-chapter"; "README.md"]
      "section.md#intro"
    = chapter_filename ch +:+ (split_anchor "section.md#intro").2.
Proof.
  apply (links_point_to_chapters tmp_project test_order test_root
           ["01-test-chapter"; "README.md"] "section.md#intro").
  by vm_compute.
Defined.

Lemma outside_links_unchanged_witness :
  convert_href test_root test_state ["README.md"] "../../other/README.md#x"
  = "../../other/README.md#x".
Proof.
  apply (outside_links_unchanged test_root test_state ["README.md"]).
  reflexivity.
Defined.
