(* ===== verification/Assembler.v ===== *)
(** * Assembler: validation, table of contents, the build, exit codes

    [validate_inputs], [build_epub_async] and [main] of
    scripts/build_epub.py.  The build composes the components in the order
    of the code: reset of the build state, validation, cover and stylesheet,
    chapter collection, diagram extraction, [render_all], the loop over the
    chapters with the table of contents, navigation and spine.

    What the build takes from outside is explicit: the file system ([fs_env]:
    the tree below the root, and whether the output directory exists and is
    writable), the result of the cover drawing, the text of the stylesheet,
    and the schedule of the event loop with the outcomes of the requests.
    The markdown converter and the HTML tree are parameters of the section.
    A schedule that does not run [render_all] to an answer gives no result
    ([None]): the build has not returned.  Writing the package to disk is
    not modelled; the build returns the book. *)

From Stdlib Require Import Ascii ZArith.
From stdpp Require Import base tactics list strings gmap.
From S2P Require Import Prelude PyStr Regex Sanitizer State Extractor.
From S2P Require Import Collector Renderer RenderAll Document Links.

#[local] Arguments String.append !_ _ : simpl nomatch.

(** ** [validate_inputs] *)

(** What the validation reads from the file system. *)
Record fs_env : Type := mkEnv {
  fs_root : option node;
  out_dir_exists : bool;
  out_dir_writable : bool
}.

(** [list(root.glob("**/*.md"))] is not empty. *)
Fixpoint any_md (n : node) : bool :=
  match n with
  | File _ => false
  | Dir es => existsb (λ e, endswith ".md" e.1 || any_md e.2) es
  end.

(** The list [errors] at the end of the checks. *)
Definition validation_errors (cfg : EPUBConfig) (env : fs_env) : list string :=
  match fs_root env with
  | None => ["Root path does not exist: " +:+ root_path cfg]
  | Some (File _) => ["Root path is not a directory: " +:+ root_path cfg]
  | Some (Dir _) => []
  end
  ++ (if negb (out_dir_exists env)
      then ["Output directory does not exist: " +:+ dirname (output_path cfg)]
      else if negb (out_dir_writable env)
      then ["Output directory is not writable: " +:+ dirname (output_path cfg)]
      else [])
  ++ (if from_option any_md false (fs_root env) then []
      else ["No markdown files found in " +:+ root_path cfg]).

Definition validate_inputs (cfg : EPUBConfig) (env : fs_env) : result exn unit :=
  match validation_errors cfg env with
  | [] => Ok ()
  | errors => Err (ValidationError (join nl errors))
  end.

(** ** The table of contents *)

Inductive toc_entry : Type :=
| TocLink (chapter : string)
| TocSection (section : string) (chapters : list string).

(** The three locals of the loop that build the table. *)
Record toc_state : Type := mkToc {
  toc : list toc_entry;
  current_folder : option string;
  current_folder_chapters : list string
}.

(** The part of the loop body under the comment on the structure of the
    table, for the chapter [ch]. *)
Definition toc_step (acc : toc_state) (ch : ChapterInfo) : toc_state :=
  let chapter := chapter_filename ch in
  match folder_name ch with
  | None =>
      match current_folder acc with
      | Some folder =>
          mkToc (toc acc ++ [TocSection folder (current_folder_chapters acc)]
                         ++ [TocLink chapter]) None []
      | None =>
          mkToc (toc acc ++ [TocLink chapter]) None (current_folder_chapters acc)
      end
  | Some name =>
      if decide (current_folder acc = Some name) then
        mkToc (toc acc) (current_folder acc)
              (current_folder_chapters acc ++ [chapter])
      else
        match current_folder acc with
        | Some folder =>
            mkToc (toc acc ++ [TocSection folder (current_folder_chapters acc)])
                  (Some name) [chapter]
        | None =>
            mkToc (toc acc) (Some name)
                  (current_folder_chapters acc ++ [chapter])
        end
  end.

(** The statement after the loop. *)
Definition toc_finish (acc : toc_state) : list toc_entry :=
  match current_folder acc, current_folder_chapters acc with
  | Some folder, _ :: _ =>
      toc acc ++ [TocSection folder (current_folder_chapters acc)]
  | _, _ => toc acc
  end.

Definition build_toc (chapter_infos : list ChapterInfo) : list toc_entry :=
  toc_finish (foldl toc_step (mkToc [] None []) chapter_infos).

(** The chapters a table leads to, in order. *)
Definition toc_chapters (t : list toc_entry) : list string :=
  flat_map (λ e, match e with
                 | TocLink c => [c]
                 | TocSection _ cs => cs
                 end) t.

(** ** The book *)

Record epub : Type := mkEpub {
  items : book;
  book_toc : list toc_entry;
  spine : list string
}.

Section assembler.
(** [markdown.markdown] with its extensions, the pass over the images that
    replaces SVG references, and the anchors of a page with the page that
    results from new targets for them. *)
Context (markdown : string → string) (svg_pass : string → string).
Context (anchors : string → list string).
Context (set_anchors : string → list string → string).
(** The absolute components of the root directory. *)
Context (root : list string).

(** [md_to_html(md_content, current_file, root_path, book, state, logger)] *)
Definition md_to_html (md_content : string) (current_file : path)
    (σ : doc_state) : result exn (string * doc_state) :=
  '(md1, σ') ← process_mermaid_blocks md_content σ;
  let html_content := svg_pass (markdown md1) in
  mret (set_anchors html_content
          (convert_internal_links root σ'.1 current_file (anchors html_content)),
        σ').

(** The page of a chapter as an item of the book. *)
Definition chapter_item (ch : ChapterInfo) (html_content : string) : EpubItem :=
  mkItem (chapter_filename ch) (chapter_filename ch) "application/xhtml+xml"
    (create_chapter_html (display_name ch) (file_title ch) html_content
       (is_folder_overview ch || bool_decide (folder_name ch = None))).

(** The body of the loop over the chapters, up to [book.add_item].  The
    message of the [ValidationError] names the file by its path below the
    root and leaves out the text of the decoding error, which the code
    appends. *)
Definition process_chapter (tree : node) (σ : doc_state) (ch : ChapterInfo) :
    result exn doc_state :=
  match read_text tree (file_path ch) with
  | Ok content =>
      '(html_content, σ') ← md_to_html content (file_path ch) σ;
      mret (σ'.1, σ'.2 ++ [chapter_item ch html_content])
  | Err UnicodeDecodeError =>
      Err (ValidationError ("Failed to read " +:+ path_str (file_path ch)))
  | Err e => Err e
  end.

Fixpoint process_chapters (tree : node) (σ : doc_state)
    (chapter_infos : list ChapterInfo) : result exn doc_state :=
  match chapter_infos with
  | [] => Ok σ
  | ch :: rest => σ' ← process_chapter tree σ ch; process_chapters tree σ' rest
  end.

(** The items the book has before the chapters: cover image, cover page and
    stylesheet. *)
Definition front_items (cover_data css : bytes) : book :=
  [mkItem "cover-img" "cover.png" "image/png" cover_data;
   mkItem "cover" "cover.xhtml" "application/xhtml+xml" "";
   mkItem "style_nav" "style/nav.css" "text/css" css].

Definition nav_items : book :=
  [mkItem "ncx" "toc.ncx" "application/x-dtbncx+xml" "";
   mkItem "nav" "nav.xhtml" "application/xhtml+xml" ""].

(** The diagrams, fetched: the build state after [render_all], or its
    exception; [None] when the schedule leaves [render_all] without an
    answer. *)
Definition render_diagrams (cfg : EPUBConfig) (st : BuildState)
    (all_diagrams : list (nat * string)) (schedule : list event) :
    option (result exn BuildState) :=
  match all_diagrams with
  | [] => Some (Ok st)
  | _ =>
      match init_sys cfg (render_tasks all_diagrams) st with
      | Err e => Some (Err e)
      | Ok s0 =>
          s ← run cfg (render_tasks all_diagrams) schedule s0;
          r ← render_result s;
          Some (match r with Ok _ => Ok (s_state s) | Err e => Err e end)
      end
  end.

(** The build from the chapter loop on. *)
Definition finish_build (tree : node) (chapter_infos : list ChapterInfo)
    (bk : book) (st : BuildState) : result exn epub :=
  σ ← process_chapters tree (st, bk) chapter_infos;
  mret (mkEpub (σ.2 ++ nav_items) (build_toc chapter_infos)
               ("nav" :: (chapter_filename <$> chapter_infos))).

(** [build_epub_async(config, logger, state)] *)
Definition build_epub_async (cfg : EPUBConfig) (env : fs_env)
    (cover : result exn bytes) (css : bytes) (schedule : list event)
    (state : BuildState) : option (result exn epub) :=
  let st0 := reset state in
  match validate_inputs cfg env with
  | Err e => Some (Err e)
  | Ok _ =>
      let tree := default (Dir []) (fs_root env) in
      match cover with
      | Err e => Some (Err e)
      | Ok cover_data =>
          let bk := front_items cover_data css in
          let '(chapter_infos, st1) :=
            collect_all_chapters tree get_chapter_order st0 in
          let md_files := (λ ch, (file_path ch, file_title ch)) <$> chapter_infos in
          match extract_all_mermaid_blocks (read_text tree) md_files with
          | Err e => Some (Err e)
          | Ok all_diagrams =>
              r ← render_diagrams cfg st1 all_diagrams schedule;
              Some (st2 ← r; finish_build tree chapter_infos bk st2)
          end
      end
  end.

End assembler.

(** The chapters of a tree, as the build collects them. *)
Definition chapters_of (tree : node) : list ChapterInfo :=
  (collect_all_chapters tree get_chapter_order new_state).1.

(** The files the extractor reads, the diagrams it finds in the chapters of
    a tree, and the build state the collector leaves. *)
Definition chapter_files (chapter_infos : list ChapterInfo) : list (path * string) :=
  (λ ch, (file_path ch, file_title ch)) <$> chapter_infos.

Definition diagrams_of (tree : node) : list (nat * string) :=
  default [] (result_to_option
                (extract_all_mermaid_blocks (read_text tree)
                   (chapter_files (chapters_of tree)))).

Definition collected_state (tree : node) : BuildState :=
  (collect_all_chapters tree get_chapter_order new_state).2.

(** A chapter whose file can be read and in which no block ends in an open
    numbered label: the blocks whose key the extractor and the substitution
    compute alike. *)
Definition clean_chapter (tree : node) (ch : ChapterInfo) : bool :=
  match read_text tree (file_path ch) with
  | Ok md =>
      forallb (λ body, negb (straddles (strip body) (tail_space body)))
              (finditer match_fence md)
  | Err _ => false
  end.

(** ** [main] *)

(** How the process ends: with an exit code, or with an exception that
    nothing catches. *)
Inductive exit : Type :=
| Exit (code : Z)
| Uncaught (e : exn).

(** The [try] statement of [main], for the result of the build. *)
Definition main_exit {A} (r : result exn A) : exit :=
  match r with
  | Ok _ => Exit 0
  | Err e =>
      if is_build_error e then Exit 1
      else if decide (e = KeyboardInterrupt) then Exit 130
      else Uncaught e
  end.

(** ** The files of the package *)

(** The file names of the items the build adds before and after the
    chapter loop. *)
Definition front_files : list string :=
  ["cover.png"; "cover.xhtml"; "style/nav.css"].
Definition nav_files : list string := ["toc.ncx"; "nav.xhtml"].

(** What a file of the book can be while the chapter loop runs: a file of
    the front matter, an image, or the page of a chapter that is done. *)
Definition booked (done : list string) (f : string) : Prop :=
  f ∈ front_files ∨ (∃ n, f = image_path n) ∨ f ∈ done.

(** The invariant of the chapter loop on the files of the book. *)
Record pages_inv (done : list string) (σ : doc_state) : Prop := {
  pages_book : book_inv σ;
  pages_booked : Forall (booked done) (file_name <$> σ.2)
}.

(** ** The table of contents *)

(** The chapters the loop has placed so far, and the invariant of its
    locals: chapters are pending only inside a folder. *)
Definition toc_placed (acc : toc_state) : list string :=
  toc_chapters (toc acc) ++ current_folder_chapters acc.

Definition toc_ok (acc : toc_state) : Prop :=
  current_folder acc = None → current_folder_chapters acc = [].

Lemma toc_chapters_app t1 t2 :
  toc_chapters (t1 ++ t2) = toc_chapters t1 ++ toc_chapters t2.
Proof. apply flat_map_app. Qed.

Lemma toc_step_spec acc ch :
  toc_ok acc →
  toc_ok (toc_step acc ch) ∧
  toc_placed (toc_step acc ch) = toc_placed acc ++ [chapter_filename ch].
Proof.
  unfold toc_ok, toc_placed, toc_step. intros Hok.
  destruct (folder_name ch) as [name|], (current_folder acc) as [folder|];
    try case_decide; simpl; rewrite ?toc_chapters_app, ?Hok by done; simpl;
    rewrite ?app_nil_r, <-?app_assoc; done.
Qed.

Lemma toc_loop_spec acc chapter_infos :
  toc_ok acc →
  toc_ok (foldl toc_step acc chapter_infos) ∧
  toc_placed (foldl toc_step acc chapter_infos)
  = toc_placed acc ++ (chapter_filename <$> chapter_infos).
Proof.
  revert acc; induction chapter_infos as [|ch chs IH]; intros acc Hok; simpl.
  - by rewrite app_nil_r.
  - destruct (toc_step_spec acc ch Hok) as [Hok' Heq].
    destruct (IH _ Hok') as [? ->]. by rewrite Heq, <-app_assoc.
Qed.

Lemma toc_finish_spec acc :
  toc_ok acc → toc_chapters (toc_finish acc) = toc_placed acc.
Proof.
  unfold toc_ok, toc_placed, toc_finish. intros Hok.
  destruct (current_folder acc), (current_folder_chapters acc) eqn:Hc;
    rewrite ?toc_chapters_app, ?app_nil_r; simpl;
    rewrite ?app_nil_r; try done.
  by discriminate Hok.
Qed.

(** C31. The table of contents leads to every chapter exactly as often as
    the chapter list holds it, and in the order of the list: no chapter is
    lost when the loop closes one folder and opens the next. *)
Theorem toc_covers_chapters chapter_infos :
  toc_chapters (build_toc chapter_infos) = chapter_filename <$> chapter_infos.
Proof.
  unfold build_toc.
  destruct (toc_loop_spec (mkToc [] None []) chapter_infos) as [Hok Heq];
    [done|].
  by rewrite toc_finish_spec, Heq.
Qed.

(** ** Validation *)


Lemma validate_inputs_Err cfg env e :
  validate_inputs cfg env = Err e → is_build_error e = true.
Proof.
  unfold validate_inputs. destruct (validation_errors cfg env); [done|].
  by intros [= <-].
Qed.

(** ** The build *)

Section build.
Context (markdown : string → string) (svg_pass : string → string).
Context (anchors : string → list string).
Context (set_anchors : string → list string → string).
Context (root : list string).

Notation chapter := (process_chapter markdown svg_pass anchors set_anchors root).
Notation chapter_loop :=
  (process_chapters markdown svg_pass anchors set_anchors root).
Notation build := (build_epub_async markdown svg_pass anchors set_anchors root).





(** The build state after the diagrams are fetched has no image marked as
    added. *)
Lemma render_diagrams_added cfg st ds schedule st' :
  render_diagrams cfg st ds schedule = Some (Ok st') →
  mermaid_added_to_book st' = mermaid_added_to_book st.
Proof.
  unfold render_diagrams. destruct ds as [|d ds]; [by intros [= <-]|].
  destruct (init_sys _ _ _) as [s0|] eqn:H0; [|done].
  destruct (run _ _ _ _) as [s|] eqn:Hrun; [|done]. simpl.
  destruct (render_result s) as [[results|e]|]; simpl; try done.
  intros [= <-]. eapply run_added; [|done].
  by apply init_sys_Ok in H0 as [_ ->].
Qed.


(** *** The files of the package *)

Lemma image_not_page n : is_page (image_path n) = false.
Proof. done. Qed.

Lemma image_not_fixed n : image_path n ∉ front_files ++ nav_files.
Proof. unfold image_path. set_unfold. naive_solver. Qed.

Lemma fixed_not_page f : f ∈ front_files ++ nav_files → is_page f = false.
Proof.
  intros Hin. repeat (apply elem_of_cons in Hin as [->|Hin]; [done|]).
  by apply elem_of_nil in Hin.
Qed.

Lemma front_not_nav f : f ∈ front_files → f ∉ nav_files.
Proof.
  intros Hin. repeat (apply elem_of_cons in Hin as [->|Hin]; [set_solver|]).
  by apply elem_of_nil in Hin.
Qed.

Lemma booked_mono done done' f :
  done ⊆ done' → booked done f → booked done' f.
Proof. intros Hsub [?|[?|?]]; [by left|by right; left|right; right; auto]. Qed.

(** The page of a chapter is a new file of the book. *)
Lemma page_fresh done σ f :
  pages_inv done σ → is_page f = true → f ∉ done →
  f ∉ file_name <$> σ.2.
Proof.
  intros [_ Hall] Hf Hdone Hin.
  rewrite Forall_forall in Hall. destruct (Hall f Hin) as [Hfront|[[n ->]|?]]; [| |done].
  - rewrite fixed_not_page in Hf; [done|]. apply elem_of_app. by left.
  - by rewrite image_not_page in Hf.
Qed.

(** One turn of the chapter loop keeps the invariant, with the page of the
    chapter among the pages that are done. *)
Lemma process_chapter_pages tree done σ ch σ' :
  pages_inv done σ → is_page (chapter_filename ch) = true →
  chapter_filename ch ∉ done → chapter tree σ ch = Ok σ' →
  pages_inv (done ++ [chapter_filename ch]) σ'.
Proof.
  intros [Hbook Hall] Hf Hdone. unfold process_chapter, md_to_html.
  destruct (read_text tree (file_path ch)) as [content|[]]; try done.
  unfold process_mermaid_blocks.
  destruct (sub_st _ _ σ) as [[md1 σ1]|] eqn:Hsub; simpl_result; [|done].
  intros [= <-].
  assert (pages_inv done σ1) as H1.
  { split; [by eapply (sub_st_inv book_inv), Hsub; [intros ????? ; apply replace_mermaid_inv|]|].
    eapply sub_st_files, Hsub; [|done]. intros n. right; left; eauto. }
  pose proof (page_fresh _ _ _ H1 Hf Hdone) as Hnew.
  destruct H1 as [[Hnd Hadd] Hall1]. split; [split|]; simpl; rewrite fmap_app.
  - apply NoDup_app. split_and!; [done| |apply NoDup_singleton].
    by intros f Hin ->%list_elem_of_singleton.
  - intros n. cbn [fmap list_fmap].
    rewrite elem_of_app, list_elem_of_singleton, <-Hadd.
    split; [intros [?|Heq]; [done|]|by left].
    change (image_path n = chapter_filename ch) in Heq.
    by rewrite <-Heq, image_not_page in Hf.
  - apply Forall_app. split.
    + eapply Forall_impl; [exact Hall1|]. intros f. apply booked_mono. set_solver.
    + constructor; [|constructor]. right; right. cbn. set_solver.
Qed.

Lemma process_chapters_pages tree done σ chapter_infos σ' :
  pages_inv done σ →
  NoDup (done ++ (chapter_filename <$> chapter_infos)) →
  Forall (λ f, is_page f = true) (chapter_filename <$> chapter_infos) →
  chapter_loop tree σ chapter_infos = Ok σ' →
  pages_inv (done ++ (chapter_filename <$> chapter_infos)) σ'.
Proof.
  revert done σ; induction chapter_infos as [|ch chs IH]; intros done σ Hinv;
    simpl.
  - intros _ _ [= <-]. by rewrite app_nil_r.
  - intros Hnd [Hf Hfs]%Forall_cons.
    destruct (chapter tree σ ch) as [σ1|] eqn:H1; simpl_result; [|done].
    intros Hrest. rewrite cons_middle, app_assoc in Hnd |- *.
    apply (IH _ σ1); [|done..].
    apply (process_chapter_pages tree done σ); [done..| |done].
    apply NoDup_app in Hnd as [Hnd _]. apply NoDup_app in Hnd as (_ & Hnd & _).
    intros Hin. apply (Hnd _ Hin). by left.
Qed.

(** The book before the chapter loop. *)
Lemma front_pages_inv st cover_data css :
  mermaid_added_to_book st = ∅ → pages_inv [] (st, front_items cover_data css).
Proof.
  intros Hadd. split; [split|]; simpl.
  - repeat constructor; set_solver.
  - intros n. rewrite Hadd. split; [|set_solver]. intros Hin.
    destruct (image_not_fixed n). apply elem_of_app. by left.
  - repeat constructor; by left; set_solver.
Qed.

(** C15. No two items of a book the build returns share a file name: cover,
    stylesheet, images, pages and navigation are written to distinct files
    of the package. *)
Theorem book_files_distinct cfg env cover css schedule state bk :
  build_epub_async markdown svg_pass anchors set_anchors root
    cfg env cover css schedule state = Some (Ok bk) →
  NoDup (file_name <$> items bk).
Proof.
  unfold build_epub_async.
  destruct (validate_inputs cfg env) as [[]|]; [|done].
  destruct cover as [cover_data|]; [|done]. rewrite reset_new.
  pose proof (collect_all_state (default (Dir []) (fs_root env))
                get_chapter_order new_state) as (_ & _ & Hadd).
  pose proof (collected_names (default (Dir []) (fs_root env))
                get_chapter_order new_state) as [Hnd Hpre].
  destruct (collect_all_chapters _ _ _) as [chapter_infos st1] eqn:Hcoll.
  destruct (extract_all_mermaid_blocks _ _) as [ds|]; [|done].
  destruct (render_diagrams _ _ _ _) as [[st2|]|] eqn:Hr; try done.
  apply render_diagrams_added in Hr. cbn [mbind option_bind result_bind].
  unfold finish_build.
  destruct (chapter_loop _ _ _) as [σ|] eqn:Hp;
    cbn [mbind result_bind mret result_ret]; [|done].
  intros [= <-]. cbn [items fst snd] in *.
  apply (process_chapters_pages _ []) in Hp as [[Hfiles _] Hall];
    [|apply front_pages_inv; by rewrite Hr, Hadd|done..].
  rewrite fmap_app. apply NoDup_app.
  split_and!; [done| |repeat constructor; set_solver].
  intros f Hin Hnav. rewrite Forall_forall in Hall, Hpre.
  destruct (Hall f Hin) as [Hfront|[[n ->]|Hch]].
  - by apply (front_not_nav f).
  - destruct (image_not_fixed n). apply elem_of_app. by right.
  - apply Hpre in Hch. rewrite fixed_not_page in Hch; [done|].
    apply elem_of_app. by right.
Qed.

(** *** The build returns *)

(** A [render_all] that returned had no diagram to fetch, or is a state of
    the renderer in which [gather] has its dictionary. *)
Lemma render_diagrams_Ok cfg st ds schedule st' :
  render_diagrams cfg st ds schedule = Some (Ok st') →
  (ds = [] ∧ st' = st) ∨
  ∃ s results, reachable cfg (render_tasks ds) st s ∧
               render_result s = Some (Ok results) ∧ st' = s_state s.
Proof.
  unfold render_diagrams. destruct ds as [|d ds]; [intros [= <-]; by left|].
  destruct (init_sys _ _ _) as [s0|] eqn:H0; [|done].
  destruct (run _ _ _ _) as [s|] eqn:Hrun; [|done]. cbn [mbind option_bind].
  destruct (render_result s) as [[results|e]|] eqn:Hres; try done.
  intros [= <-]. right. exists s, results. split_and!; [|done..].
  by exists s0, schedule.
Qed.

(** After extraction and rendering, the key of every clean block of a
    chapter is in the cache. *)
Lemma rendered_chapter_keys cfg tree chapter_infos ds st1 schedule st2 ch md body :
  extract_all_mermaid_blocks (read_text tree) (chapter_files chapter_infos) = Ok ds →
  render_diagrams cfg st1 ds schedule = Some (Ok st2) →
  ch ∈ chapter_infos → read_text tree (file_path ch) = Ok md →
  body ∈ finditer match_fence md →
  straddles (strip body) (tail_space body) = false →
  is_Some (mermaid_cache st2 !! block_key body).
Proof.
  intros Hex Hr Hch Hmd Hbody Hclean.
  assert ((file_path ch, file_title ch) ∈ chapter_files chapter_infos) as Hf
    by apply (list_elem_of_fmap_2 (λ ch, (file_path ch, file_title ch)) _ _ Hch).
  apply render_diagrams_Ok in Hr as [[-> ->]|(s & results & Hreach & Hres & ->)].
  - assert (strip body ∈ ([] : list (nat * string)).*2) as H; [|by apply elem_of_nil in H].
    apply (extract_elem _ _ _ _ Hex). exists (file_path ch, file_title ch), md.
    split_and!; [done..|]. by apply list_elem_of_fmap_2.
  - by eapply (rendered_key (read_text tree) cfg _ ds st1 s results
                 (file_path ch, file_title ch) md body).
Qed.

(** A chapter whose blocks have their keys in the cache gets its page, and
    the cache stays as it is. *)
Lemma process_chapter_returns tree σ ch md :
  read_text tree (file_path ch) = Ok md →
  (∀ body, body ∈ finditer match_fence md →
           is_Some (mermaid_cache σ.1 !! block_key body)) →
  ∃ σ', chapter tree σ ch = Ok σ' ∧ mermaid_cache σ'.1 = mermaid_cache σ.1.
Proof.
  intros Hmd Hkeys. unfold process_chapter, md_to_html. rewrite Hmd.
  destruct (process_replaces_blocks_aux md σ Hkeys) as (σ1 & -> & Hc).
  cbn [mbind result_bind mret result_ret]. eauto.
Qed.

Lemma process_chapters_returns tree cache σ chapter_infos :
  mermaid_cache σ.1 = cache →
  Forall (λ ch, ∃ md, read_text tree (file_path ch) = Ok md ∧
                ∀ body, body ∈ finditer match_fence md →
                        is_Some (cache !! block_key body)) chapter_infos →
  ∃ σ', chapter_loop tree σ chapter_infos = Ok σ'.
Proof.
  revert σ; induction chapter_infos as [|ch rest IH]; intros σ Hσ Hall;
    cbn [process_chapters]; [by eexists|].
  apply Forall_cons in Hall as [(md & Hmd & Hkeys) Hall]. subst cache.
  destruct (process_chapter_returns tree σ ch md Hmd Hkeys) as (σ1 & -> & Hc).
  cbn [mbind result_bind]. by apply IH.
Qed.

Lemma clean_chapter_spec tree ch :
  clean_chapter tree ch = true →
  ∃ md, read_text tree (file_path ch) = Ok md ∧
        ∀ body, body ∈ finditer match_fence md →
                straddles (strip body) (tail_space body) = false.
Proof.
  unfold clean_chapter. destruct (read_text tree (file_path ch)) as [md|]; [|done].
  intros Hall. exists md. split; [done|]. intros body Hbody.
  rewrite forallb_forall in Hall. apply negb_true_iff, Hall.
  by apply list_elem_of_In.
Qed.

(** The book of a build that goes through: the items the chapter loop
    leaves, with the navigation files, the table of contents and the spine
    of the chapters of the tree. *)
Lemma build_returns_aux cfg env cover_data css schedule state st2 :
  let tree := default (Dir []) (fs_root env) in
  validate_inputs cfg env = Ok () →
  forallb (clean_chapter tree) (chapters_of tree) = true →
  render_diagrams cfg (collected_state tree) (diagrams_of tree) schedule
  = Some (Ok st2) →
  ∃ σ : doc_state, build cfg env (Ok cover_data) css schedule state
       = Some (Ok (mkEpub (σ.2 ++ nav_items) (build_toc (chapters_of tree))
                     ("nav" :: (chapter_filename <$> chapters_of tree)))).
Proof.
  cbv zeta. unfold build_epub_async, diagrams_of, collected_state, chapters_of.
  rewrite reset_new. generalize (default (Dir []) (fs_root env)); intros tree.
  generalize get_chapter_order; intros order Hval Hclean.
  rewrite Hval. destruct (collect_all_chapters tree order new_state)
    as [chapter_infos st1]. cbn [fst snd] in *.
  assert (Forall (λ ch, clean_chapter tree ch = true) chapter_infos) as Hall.
  { apply Forall_forall. intros ch Hch. rewrite forallb_forall in Hclean.
    by apply Hclean, list_elem_of_In. }
  destruct (extract_returns (read_text tree) (chapter_files chapter_infos))
    as [ds Hex].
  { apply Forall_fmap. eapply Forall_impl; [exact Hall|].
    intros ch (md & Hmd & _)%clean_chapter_spec. by exists md. }
  fold (chapter_files chapter_infos). rewrite Hex. cbn [result_to_option default from_option id].
  intros Hr. rewrite Hr. cbn [mbind option_bind result_bind]. unfold finish_build.
  destruct (process_chapters_returns tree (mermaid_cache st2)
              (st2, front_items cover_data css) chapter_infos) as [σ ->]; [done| |].
  - apply Forall_forall. intros ch Hch. rewrite Forall_forall in Hall.
    destruct (clean_chapter_spec tree ch (Hall ch Hch)) as (md & Hmd & Hbodies).
    exists md. split; [done|]. intros body Hbody.
    eapply rendered_chapter_keys; eauto.
  - cbn [mbind result_bind mret result_ret]. by exists σ.
Qed.

(** C4. With valid inputs, a cover, chapters that can be read and have no
    block ending in an open numbered label, and a schedule under which
    [render_all] returns for the diagrams of the tree, the build returns a
    book. *)
Theorem build_returns cfg env cover_data css schedule state st2 :
  let tree := default (Dir []) (fs_root env) in
  validate_inputs cfg env = Ok () →
  forallb (clean_chapter tree) (chapters_of tree) = true →
  render_diagrams cfg (collected_state tree) (diagrams_of tree) schedule
  = Some (Ok st2) →
  ∃ bk, build_epub_async markdown svg_pass anchors set_anchors root cfg env
          (Ok cover_data) css schedule state = Some (Ok bk).
Proof.
  intros tree Hval Hclean Hr.
  destruct (build_returns_aux cfg env cover_data css schedule state st2
              Hval Hclean Hr) as [σ ->]. by eexists.
Qed.

(** C34. Validation comes first: when an input is invalid the build raises
    the [ValidationError] that lists every problem, whatever the cover, the
    network and the state passed in would have done, and [main] exits with
    code 1. *)
Theorem validation_precedes_build cfg env e cover css schedule state :
  validate_inputs cfg env = Err e →
  build cfg env cover css schedule state = Some (Err e) ∧
  main_exit (Err e : result exn epub) = Exit 1.
Proof.
  intros H. unfold build_epub_async, main_exit. rewrite H.
  by rewrite (validate_inputs_Err _ _ _ H).
Qed.

(** The build starts from a fresh state: what the state passed in holds
    has no effect on the result. *)
Theorem build_resets_state cfg env cover css schedule state :
  build cfg env cover css schedule state
  = build cfg env cover css schedule new_state.
Proof. done. Qed.

End build.

(** ** The theorems at work *)

(** The external libraries, replaced by the simplest functions: the
    markdown converter returns its input, pages have no anchors. *)
Definition demo_build :=
  build_epub_async (λ md, md) (λ html, html) (λ _, []) (λ html _, html)
    ["home"; "user"; "claude-howto"].

Definition demo_cfg : EPUBConfig :=
  cli_config "/home/user/claude-howto" "/home/user/claude-howto/out.epub" 30 10.

(** A project with a README that holds two diagrams, a folder with two
    files, a file that is not UTF-8 and a directory whose name ends in
    [.md]. *)
Definition demo_tree (extra : entries) : node :=
  Dir ([("README.md", File (Ok test_md));
        ("02-memory", Dir [("notes.md", File (Ok "# Notes"));
                           ("README.md", File (Ok (dup_md 2)))])] ++ extra).

Definition demo_env (extra : entries) : fs_env :=
  mkEnv (Some (demo_tree extra)) true true.

Definition demo_schedule : list event :=
  [Start 0; Start 1; Respond 1 (Response 200 "png-b");
   Respond 0 (Response 200 "png-a")].

(** A build that succeeds: the files of the package in the order of
    [add_item], the table of contents and the spine. *)
Example build_demo_book :
  ∃ bk, demo_build demo_cfg (demo_env []) (Ok "cover") "css" demo_schedule
          new_state = Some (Ok bk) ∧
    file_name <$> items bk =
      ["cover.png"; "cover.xhtml"; "style/nav.css";
       "images/mermaid_2.png"; "images/mermaid_1.png"; "chap_01.xhtml";
       "chap_02_00.xhtml"; "chap_02_01.xhtml"; "toc.ncx"; "nav.xhtml"] ∧
    book_toc bk = [TocLink "chap_01.xhtml";
                   TocSection "Memory" ["chap_02_00.xhtml"; "chap_02_01.xhtml"]] ∧
    spine bk = ["nav"; "chap_01.xhtml"; "chap_02_00.xhtml"; "chap_02_01.xhtml"] ∧
    main_exit (Ok bk : result exn epub) = Exit 0.
Proof. eexists. split; [by_compute|]. by vm_compute. Qed.

(** Three timeouts in a row: [render_all] raises the timeout itself, the
    build raises it, and [main] has no handler for it. *)
Example build_timeouts_uncaught :
  ∃ r, demo_build demo_cfg (demo_env []) (Ok "cover") "css"
         [Start 0; Respond 0 (Raise TimeoutException); Wake 0;
          Respond 0 (Raise TimeoutException); Wake 0;
          Respond 0 (Raise TimeoutException)] new_state = Some r ∧
       r = Err TimeoutException ∧ main_exit r = Uncaught TimeoutException.
Proof. eexists. split; [by_compute|]. by vm_compute. Qed.

(** A status other than 200 is a build error: exit code 1. *)
Example build_status_error :
  ∃ r, demo_build demo_cfg (demo_env []) (Ok "cover") "css"
         [Start 1; Respond 1 (Response 503 "Service Unavailable")] new_state
       = Some r ∧
       r = Err (status_error 503 2) ∧ main_exit r = Exit 1.
Proof. eexists. split; [by_compute|]. by vm_compute. Qed.

(** A directory whose name ends in [.md] is listed as a chapter; reading it
    raises an exception that neither the extractor nor [main] handles. *)
Example build_directory_named_md :
  ∃ r, demo_build demo_cfg
         (demo_env [("03-skills", Dir [("draft.md", Dir [])])])
         (Ok "cover") "css" demo_schedule new_state = Some r ∧
       r = Err (OtherError "IsADirectoryError") ∧
       main_exit r = Uncaught (OtherError "IsADirectoryError").
Proof. eexists. split; [by_compute|]. by vm_compute. Qed.

(** A chapter that is not UTF-8 is skipped by the extractor and fatal in
    the chapter loop, after the diagrams of the other chapters were
    fetched. *)
Example build_binary_chapter :
  ∃ r, demo_build demo_cfg
         (demo_env [("resources.md", File (Err UnicodeDecodeError))])
         (Ok "cover") "css" demo_schedule new_state = Some r ∧
       r = Err (ValidationError "Failed to read resources.md") ∧
       main_exit r = Exit 1.
Proof. eexists. split; [by_compute|]. by vm_compute. Qed.

(** The report of the validation lists every problem, one per line. *)
Example validate_reports_all :
  validate_inputs demo_cfg (mkEnv None false true) =
  Err (ValidationError
         ("Root path does not exist: /home/user/claude-howto" +:+ nl +:+
          "Output directory does not exist: /home/user/claude-howto" +:+ nl +:+
          "No markdown files found in /home/user/claude-howto")).
Proof. by_compute. Qed.


Lemma book_files_distinct_witness :
  NoDup (file_name <$>
           items (default (mkEpub [] [] [])
                    (demo_build demo_cfg (demo_env []) (Ok "cover") "css"
                       demo_schedule new_state ≫= result_to_option))).
Proof.
  apply (book_files_distinct (λ md, md) (λ html, html) (λ _, [])
           (λ html _, html) ["home"; "user"; "claude-howto"] demo_cfg
           (demo_env []) (Ok "cover") "css" demo_schedule new_state).
  by_compute.
Defined.

Lemma validation_precedes_build_witness :
  demo_build demo_cfg (mkEnv (Some (File (Ok "x"))) true true) (Ok "cover")
    "css" demo_schedule new_state
  = Some (Err (ValidationError
       ("Root path is not a directory: /home/user/claude-howto" +:+ nl +:+
        "No markdown files found in /home/user/claude-howto"))) ∧
  main_exit (Err (ValidationError
       ("Root path is not a directory: /home/user/claude-howto" +:+ nl +:+
        "No markdown files found in /home/user/claude-howto"))
     : result exn epub) = Exit 1.
Proof.
  apply (validation_precedes_build (λ md, md) (λ html, html) (λ _, [])
           (λ html _, html) ["home"; "user"; "claude-howto"] demo_cfg
           (mkEnv (Some (File (Ok "x"))) true true)).
  reflexivity.
Defined.

Lemma build_returns_witness :
  ∃ bk, demo_build demo_cfg (demo_env []) (Ok "cover") "css" demo_schedule
          new_state = Some (Ok bk).
Proof.
  eapply (build_returns (λ md, md) (λ html, html) (λ _, []) (λ html _, html)
            ["home"; "user"; "claude-howto"] demo_cfg (demo_env []) "cover" "css"
            demo_schedule new_state); by_compute.
Defined.
