(* ===== verification/Cover.v ===== *)
(** * Cover: the cover image

    [load_font], [_add_logo_to_cover], [_draw_text_centered] and
    [create_cover_image] of scripts/build_epub.py.  The image library is an
    interface, the class [ImageLibrary]: loading a font file, measuring a
    line of text, opening and resizing an image and writing the PNG are
    what the library does, and each of them returns or raises; the one
    promise the cover relies on is that [resize] returns an image of the
    size asked for.  What the code does with them is
    modelled: the order of the font paths, the geometry of the logo and of
    the lines of text, and the handler that turns every exception of the
    drawing into a [CoverGenerationError].

    The cover is the list of the drawing operations in the order the code
    issues them ([draw_op]); coordinates are integers, and [//] is the
    division of [Z], which rounds down as Python's does.  The height of the
    scaled logo is computed in binary64 floating point, as the code computes
    it, with the kernel's primitive floats: [scaled_height] is exact for
    sizes below 2^53. *)

From Stdlib Require Import Ascii ZArith Floats Uint63 Lia.
From stdpp Require Import base tactics option list strings.
From S2P Require Import Prelude PyStr Regex Sanitizer State Extractor Collector.
From S2P Require Import Renderer RenderAll Document Links Assembler.

#[local] Arguments String.append !_ _ : simpl nomatch.
#[local] Set Default Proof Using "Type".
#[local] Open Scope Z_scope.

(** ** Images, fonts, drawing *)

Record image : Type := mkImage {
  width : Z;
  height : Z;
  mode : string
}.

Inductive font : Type :=
| TrueType (path : string) (size : Z)
| DefaultFont.

(** What [cover.paste] and [draw.text] are called with. *)
Inductive draw_op : Type :=
| Paste (im : image) (x y : Z)
| DrawText (x y : Z) (line : string) (fnt : font) (fill : rgb).

(** The box [draw.textbbox] returns: left, top, right, bottom. *)
Definition bbox : Type := Z * Z * Z * Z.

(** The exception [load_font] passes over: [OSError] and its subclasses, as
    one value. *)
Definition OSError : exn := OtherError "OSError".

(** ** Floating point *)

(** [float(z)] *)
Definition float_of_Z (z : Z) : float :=
  if z <? 0 then PrimFloat.opp (PrimFloat.of_uint63 (Uint63.of_Z (- z)))
  else PrimFloat.of_uint63 (Uint63.of_Z z).

(** [int(x)] for a finite [x]: rounding towards zero. *)
Definition int_of_float (x : float) : Z :=
  match Prim2SF x with
  | S754_finite s m e =>
      let v := if 0 <=? e then Zpos m * 2 ^ e else Zpos m / 2 ^ (- e) in
      if s then - v else v
  | _ => 0
  end.

(** [int(logo.height * (target_width / logo.width))] *)
Definition scaled_height (logo_height target_width logo_width : Z) : Z :=
  int_of_float
    (PrimFloat.mul (float_of_Z logo_height)
       (PrimFloat.div (float_of_Z target_width) (float_of_Z logo_width))).

(** The logo after the two branches on its mode: an RGB image of the same
    size. *)
Definition to_rgb (im : image) : image := mkImage (width im) (height im) "RGB".

(** [config.logo_path or (config.root_path / "claude-howto-logo.png")],
    below the root. *)
Definition logo_file (cfg : EPUBConfig) : path :=
  default ["claude-howto-logo.png"] (logo_path cfg).

(** The defaults of the arguments of [create_cover_image]. *)
Definition default_title : string := "Claude Code" +:+ nl +:+ "How-To Guide".
Definition default_subtitle : string := "Complete Guide to Claude Code Features".

(** ** The image library *)

(** What the cover asks of the image library: [ImageFont.truetype(font_path,
    size)], [draw.textbbox((0, 0), line, font=font)], [Image.new],
    [Image.open] on a node of the tree, [logo.resize], [cover.save] and
    [str(e)]; and what the library promises of [resize]: the image it
    returns has the size asked for. *)
Class ImageLibrary : Type := {
  truetype : string → Z → result exn font;
  textbbox : string → font → bbox;
  new_image : Z → Z → rgb → result exn unit;
  open_image : node → result exn image;
  resize : image → Z → Z → result exn image;
  save : list draw_op → result exn bytes;
  describe : exn → string;
  resize_size : ∀ im w h im',
    resize im w h = Ok im' → width im' = w ∧ height im' = h
}.

Section cover.
Context {lib : ImageLibrary}.

(** [load_font(font_paths, size, logger)] *)
Fixpoint load_font (font_paths : list string) (size : Z) : result exn font :=
  match font_paths with
  | [] => Ok DefaultFont
  | font_path :: rest =>
      match truetype font_path size with
      | Ok fnt => Ok fnt
      | Err e => if decide (e = OSError) then load_font rest size else Err e
      end
  end.

(** [_add_logo_to_cover(cover, logo_path, config, logger)], for the node
    the logo path leads to. *)
Definition add_logo_to_cover (cfg : EPUBConfig) (logo_node : node) :
    result exn draw_op :=
  logo ← open_image logo_node;
  let target_width := cover_width cfg - 60 in
  if decide (width logo = 0) then Err (OtherError "ZeroDivisionError")
  else
    let new_height := scaled_height (height logo) target_width (width logo) in
    logo_scaled ← resize logo target_width new_height;
    let logo_scaled := to_rgb logo_scaled in
    let logo_x := (cover_width cfg - width logo_scaled) / 2 in
    let logo_y := cover_height cfg - height logo_scaled - 80 in
    Ok (Paste logo_scaled logo_x logo_y).

(** [bbox[2] - bbox[0]] for the box of a line. *)
Definition text_width (line : string) (fnt : font) : Z :=
  let '(l, _, r, _) := textbbox line fnt in r - l.

(** The loop of [_draw_text_centered] from [y_offset] on. *)
Fixpoint draw_lines (lines : list string) (fnt : font) (color : rgb)
    (canvas_width y_offset line_spacing : Z) : list draw_op * Z :=
  match lines with
  | [] => ([], y_offset)
  | line :: rest =>
      let x := (canvas_width - text_width line fnt) / 2 in
      let '(ops, y) := draw_lines rest fnt color canvas_width
                         (y_offset + line_spacing) line_spacing in
      (DrawText x y_offset line fnt color :: ops, y)
  end.

(** [_draw_text_centered(draw, text, font, color, canvas_width, y_start,
    line_spacing)] *)
Definition draw_text_centered (text : string) (fnt : font) (color : rgb)
    (canvas_width y_start line_spacing : Z) : list draw_op * Z :=
  draw_lines (split_on "010"%char text) fnt color canvas_width y_start line_spacing.

(** The [try] block of [create_cover_image] up to [cover.save]: the
    drawing operations on the new image. *)
Definition cover_ops (cfg : EPUBConfig) (tree : node) (title subtitle : string) :
    result exn (list draw_op) :=
  _ ← new_image (cover_width cfg) (cover_height cfg) (cover_bg_color cfg);
  title_font ← load_font (title_font_paths cfg) 72;
  subtitle_font ← load_font (subtitle_font_paths cfg) 24;
  logo_ops ← match lookup_node tree (logo_file cfg) with
             | Some logo_node => op ← add_logo_to_cover cfg logo_node; Ok [op]
             | None => Ok []
             end;
  let '(title_ops, y_after_title) :=
    draw_text_centered title title_font (cover_title_color cfg)
      (cover_width cfg) 120 90 in
  let '(subtitle_ops, _) :=
    draw_text_centered subtitle subtitle_font (cover_subtitle_color cfg)
      (cover_width cfg) (y_after_title + 20) 30 in
  Ok (logo_ops ++ title_ops ++ subtitle_ops).

(** [create_cover_image(config, logger, title, subtitle)] *)
Definition create_cover_image (cfg : EPUBConfig) (tree : node)
    (title subtitle : string) : result exn bytes :=
  match cover_ops cfg tree title subtitle ≫= save with
  | Ok data => Ok data
  | Err KeyboardInterrupt => Err KeyboardInterrupt
  | Err e => Err (CoverGenerationError ("Cover generation failed: " +:+ describe e))
  end.

(** The operations that draw text. *)
Definition is_text (op : draw_op) : bool :=
  match op with DrawText _ _ _ _ _ => true | Paste _ _ _ => false end.

End cover.

(** ** Arithmetic of the layout *)

Lemma half_margin (outer inner : Z) :
  0 ≤ outer - inner - 2 * ((outer - inner) / 2) ≤ 1.
Proof. Z.div_mod_to_equations. lia. Qed.

Lemma margin_of_60 (w : Z) : (w - (w - 60)) / 2 = 30.
Proof. Z.div_mod_to_equations. lia. Qed.

(** ** Fonts *)

Section cover_facts.
Context {lib : ImageLibrary}.

Notation load := load_font.
Notation lines_of := draw_lines.
Notation centered := draw_text_centered.
Notation logo := add_logo_to_cover.
Notation ops_of := cover_ops.
Notation cover_of := create_cover_image.

(** The font is the first of the list that loads; the default font when
    every file is missing. *)
Lemma load_font_Ok font_paths size fnt :
  load font_paths size = Ok fnt →
  (fnt = DefaultFont ∧ Forall (λ p, truetype p size = Err OSError) font_paths) ∨
  ∃ missing p rest, font_paths = missing ++ p :: rest ∧
    Forall (λ q, truetype q size = Err OSError) missing ∧
    truetype p size = Ok fnt.
Proof.
  induction font_paths as [|p ps IH]; simpl.
  - intros [= <-]. by left.
  - destruct (truetype p size) as [f|e] eqn:Hp.
    + intros [= ->]. right. by exists [], p, ps.
    + case_decide as He; [subst e|done].
      intros [[-> Hall]|(missing & q & rest & -> & Hm & Hq)]%IH.
      * left. split; [done|]. by constructor.
      * right. exists (p :: missing), q, rest. split_and!; [done| |done].
        by constructor.
Qed.

(** An exception other than [OSError] is not passed over. *)
Lemma load_font_Err font_paths size e :
  load font_paths size = Err e →
  e ≠ OSError ∧ ∃ p, p ∈ font_paths ∧ truetype p size = Err e.
Proof.
  induction font_paths as [|p ps IH]; simpl; [done|].
  destruct (truetype p size) as [f|e'] eqn:Hp; [done|].
  case_decide as He.
  - intros [Hne (q & Hq & Hqe)]%IH. split; [done|]. exists q. split; [by right|done].
  - intros [= <-]. split; [done|]. exists p. split; [by left|done].
Qed.

(** ** Lines of text *)

Lemma draw_lines_spec lines fnt color canvas_width y_offset line_spacing :
  lines_of lines fnt color canvas_width y_offset line_spacing =
  (imap (λ i line, DrawText ((canvas_width - text_width line fnt) / 2)
                            (y_offset + Z.of_nat i * line_spacing) line fnt color)
        lines,
   y_offset + Z.of_nat (length lines) * line_spacing).
Proof.
  revert y_offset; induction lines as [|line rest IH]; intros y_offset.
  - simpl. f_equal. lia.
  - cbn [draw_lines]. rewrite IH. cbn [imap length]. f_equal.
    + f_equal; [f_equal; lia|]. apply imap_ext. intros i l _. simpl. f_equal. lia.
    + lia.
Qed.

Lemma split_on_length c s : (1 ≤ length (split_on c s))%nat.
Proof.
  induction s as [|d s IH]; simpl; [lia|].
  destruct (Ascii.eqb d c); simpl; [lia|].
  destruct (split_on c s); simpl in *; lia.
Qed.

(** Every line is centred: the margins left and right of it differ by one
    pixel at most, also when the line is wider than the canvas. *)
Theorem text_centered text fnt color canvas_width y_start line_spacing op :
  op ∈ (centered text fnt color canvas_width y_start line_spacing).1 →
  ∃ x y line, op = DrawText x y line fnt color ∧
    0 ≤ canvas_width - text_width line fnt - 2 * x ≤ 1.
Proof.
  unfold draw_text_centered. rewrite draw_lines_spec. cbn [fst].
  intros (i & line & -> & _)%elem_of_lookup_imap.
  eexists _, _, line. split; [done|]. apply half_margin.
Qed.

(** The lines are [line_spacing] apart, from [y_start] down, and the
    position returned is that of the line after the last; a text has one
    line at least. *)
Theorem text_rows text fnt color canvas_width y_start line_spacing :
  let lines := split_on "010"%char text in
  (centered text fnt color canvas_width y_start line_spacing).2
  = y_start + Z.of_nat (length lines) * line_spacing ∧
  (1 ≤ length lines)%nat ∧
  ∀ i op, (centered text fnt color canvas_width y_start line_spacing).1 !! i
          = Some op →
          ∃ x line, op = DrawText x (y_start + Z.of_nat i * line_spacing)
                           line fnt color.
Proof.
  cbv zeta. unfold draw_text_centered. rewrite draw_lines_spec. cbn [fst snd].
  split_and!; [done|apply split_on_length|].
  intros i op (line & Hline & ->)%list_lookup_imap_Some. eauto.
Qed.

(** ** The logo *)

(** C35. The logo is as wide as the cover less 30 pixels on each side, centred,
    and ends 80 pixels above the bottom of the cover; its height is the
    height the floating-point scaling gives. *)
Theorem logo_placement cfg logo_node op :
  add_logo_to_cover cfg logo_node = Ok op →
  ∃ original scaled,
    open_image logo_node = Ok original ∧ width original ≠ 0 ∧
    op = Paste scaled 30 (cover_height cfg - height scaled - 80) ∧
    width scaled = cover_width cfg - 60 ∧ mode scaled = "RGB" ∧
    height scaled
    = scaled_height (height original) (cover_width cfg - 60) (width original).
Proof.
  unfold add_logo_to_cover.
  destruct (open_image logo_node) as [original|]; [|done]. simpl_result.
  case_decide as Hw; [done|].
  destruct (resize _ _ _) as [im|] eqn:Him; [|done]. simpl_result.
  apply resize_size in Him as [Hwidth Hheight]. intros [= <-].
  exists original, (to_rgb im). simpl. rewrite Hwidth, Hheight.
  split_and!; try done. by rewrite margin_of_60.
Qed.

(** ** The cover *)

(** Without a logo file the cover is text only. *)
Lemma text_only_cover cfg tree title subtitle ops :
  lookup_node tree (logo_file cfg) = None →
  ops_of cfg tree title subtitle = Ok ops → forallb is_text ops = true.
Proof.
  intros Hlogo. unfold cover_ops. rewrite Hlogo.
  destruct (new_image _ _ _) as [[]|]; [|done]. simpl_result.
  destruct (load _ 72) as [f1|]; [|done]. simpl_result.
  destruct (load _ 24) as [f2|]; [|done]. simpl_result.
  unfold draw_text_centered. rewrite !draw_lines_spec. intros [= <-].
  cbn [app]. rewrite forallb_app.
  apply andb_true_iff; split; apply forallb_forall; intros op;
    rewrite <-list_elem_of_In; by intros (i & line & -> & _)%elem_of_lookup_imap.
Qed.

Lemma logo_is_paste cfg logo_node op :
  logo cfg logo_node = Ok op → is_text op = false.
Proof.
  unfold add_logo_to_cover.
  destruct (open_image logo_node); [|done]. simpl_result.
  case_decide; [done|]. destruct (resize _ _ _); [|done].
  by intros; simplify_eq/=.
Qed.

(** The cover with the default title and subtitle: the logo, if there is
    one, then the two lines of the title at 120 and 210 and the subtitle at
    320. *)
Theorem cover_layout cfg tree ops :
  ops_of cfg tree default_title default_subtitle = Ok ops →
  ∃ logo_ops f1 f2 x1 x2 x3,
    ops = logo_ops ++
          [DrawText x1 120 "Claude Code" f1 (cover_title_color cfg);
           DrawText x2 210 "How-To Guide" f1 (cover_title_color cfg);
           DrawText x3 320 default_subtitle f2 (cover_subtitle_color cfg)] ∧
    (length logo_ops = 1%nat ∧ forallb is_text logo_ops = false ∨
     lookup_node tree (logo_file cfg) = None ∧ logo_ops = []).
Proof.
  unfold cover_ops.
  destruct (new_image _ _ _) as [[]|]; [|done]. simpl_result.
  destruct (load _ 72) as [f1|]; [|done]. simpl_result.
  destruct (load _ 24) as [f2|]; [|done]. simpl_result.
  destruct (lookup_node tree (logo_file cfg)) as [logo_node|].
  - destruct (logo cfg logo_node) as [op|] eqn:Hop; [|done]. simpl_result.
    intros [= <-]. eexists [op], f1, f2, _, _, _.
    split; [reflexivity|left; split; [done|]].
    cbn. by rewrite (logo_is_paste _ _ _ Hop).
  - simpl_result. intros [= <-]. eexists [], f1, f2, _, _, _.
    split; [reflexivity|by right].
Qed.

(** ** Errors *)

(** Whatever goes wrong while the cover is drawn, the build sees a
    [CoverGenerationError]; only a keyboard interrupt passes through. *)
Lemma create_cover_image_Err cfg tree title subtitle e :
  cover_of cfg tree title subtitle = Err e →
  e = KeyboardInterrupt ∨ ∃ msg, e = CoverGenerationError msg.
Proof.
  unfold create_cover_image.
  destruct (_ ≫= save) as [data|[]]; intros [= <-]; eauto.
Qed.

End cover_facts.

(** ** The cover in the build *)

Section cover_build.
Context {lib : ImageLibrary}.
Context (markdown : string → string) (svg_pass : string → string).
Context (anchors : string → list string).
Context (set_anchors : string → list string → string).
Context (root : list string).

(** [build_epub_async] with the cover it draws:
    [cover_data = create_cover_image(config, logger)], with the default
    title and subtitle, on the tree of the project. *)
Definition build_with_cover (cfg : EPUBConfig) (env : fs_env) (css : bytes)
    (schedule : list event) (state : BuildState) : option (result exn epub) :=
  build_epub_async markdown svg_pass anchors set_anchors root cfg env
    (create_cover_image cfg (default (Dir []) (fs_root env))
       default_title default_subtitle)
    css schedule state.

(** C26. A cover that cannot be drawn ends the build before a chapter is read or
    a request is sent, whatever the schedule: the build raises the
    [CoverGenerationError] that quotes the exception, and [main] exits with
    code 1. *)
Theorem cover_failure_exit cfg env css schedule state e :
  validate_inputs cfg env = Ok () →
  cover_ops cfg (default (Dir []) (fs_root env)) default_title default_subtitle
    ≫= save
  = Err e →
  e ≠ KeyboardInterrupt →
  let raised := CoverGenerationError ("Cover generation failed: " +:+ describe e) in
  build_with_cover cfg env css schedule state = Some (Err raised) ∧
  main_exit (Err raised : result exn epub) = Exit 1.
Proof.
  intros Hvalid Hcover Hne. cbv zeta. split; [|done].
  unfold build_with_cover, build_epub_async, create_cover_image.
  rewrite Hvalid, Hcover. by destruct e.
Qed.

(** An interrupt while the cover is drawn is not wrapped: [main] reports it
    with code 130. *)
Lemma cover_interrupt_exit cfg env css schedule state :
  validate_inputs cfg env = Ok () →
  cover_ops cfg (default (Dir []) (fs_root env)) default_title default_subtitle
    ≫= save
  = Err KeyboardInterrupt →
  build_with_cover cfg env css schedule state = Some (Err KeyboardInterrupt) ∧
  main_exit (Err KeyboardInterrupt : result exn epub) = Exit 130.
Proof.
  intros Hvalid Hcover. split; [|done].
  unfold build_with_cover, build_epub_async, create_cover_image.
  by rewrite Hvalid, Hcover.
Qed.

End cover_build.

(** ** A cover, drawn *)

(** An image library for the examples: the DejaVu fonts are installed, a
    character is half as wide as the font is high, every file that can be
    read is a 1070 by 1070 image with transparency, and the PNG written
    records how many operations drew it. *)
Definition demo_truetype (p : string) (size : Z) : result exn font :=
  if decide (p = "/usr/share/fonts/truetype/dejavu/DejaVuSans-Bold.ttf"
             ∨ p = "/usr/share/fonts/truetype/dejavu/DejaVuSans.ttf")
  then Ok (TrueType p size) else Err OSError.

Definition demo_textbbox (line : string) (fnt : font) : bbox :=
  let size := match fnt with TrueType _ size => size | DefaultFont => 10 end in
  (0, 0, Z.of_nat (String.length line) * size / 2, size).

Definition demo_open (n : node) : result exn image :=
  match n with
  | File (Ok _) => Ok (mkImage 1070 1070 "RGBA")
  | _ => Err (OtherError "UnidentifiedImageError")
  end.

Definition demo_resize (im : image) (w h : Z) : result exn image :=
  if decide (0 < w ∧ 0 < h) then Ok (mkImage w h (mode im))
  else Err (OtherError "ValueError").

Definition demo_save (ops : list draw_op) : result exn bytes :=
  Ok ("png:" +:+ str_of_nat (length ops)).

Definition demo_describe (e : exn) : string :=
  match e with OtherError msg => msg | _ => "error" end.

Lemma demo_resize_size im w h im' :
  demo_resize im w h = Ok im' → width im' = w ∧ height im' = h.
Proof. unfold demo_resize. case_decide; [|done]. by intros [= <-]. Qed.

Definition demo_library : ImageLibrary := {|
  truetype := demo_truetype;
  textbbox := demo_textbbox;
  new_image := λ _ _ _, Ok ();
  open_image := demo_open;
  resize := demo_resize;
  save := demo_save;
  describe := demo_describe;
  resize_size := demo_resize_size
|}.

Definition demo_cover_ops := cover_ops (lib := demo_library).

Definition demo_build_with_cover :=
  build_with_cover (lib := demo_library)
    (λ md, md) (λ html, html) (λ _, []) (λ html _, html)
    ["home"; "user"; "claude-howto"].

(** The height of a square logo of 1070 pixels, scaled to the 540 pixels of
    the default cover, is 539: [540 / 1070] is rounded, the product with
    1070 falls just short of 540, and [int] rounds down. *)
Example square_logo_height :
  scaled_height 1070 540 1070 = 539 ∧ scaled_height 1000 540 1000 = 540 ∧
  scaled_height 270 540 1080 = 135.
Proof. by vm_compute. Qed.

(** The cover of a project with a logo: the logo first, then the title and
    the subtitle, in the fonts found third in their lists. *)
Example demo_cover_with_logo :
  let bold := TrueType "/usr/share/fonts/truetype/dejavu/DejaVuSans-Bold.ttf" 72 in
  let regular := TrueType "/usr/share/fonts/truetype/dejavu/DejaVuSans.ttf" 24 in
  demo_cover_ops demo_cfg
    (demo_tree [("claude-howto-logo.png", File (Ok "logo"))])
    default_title default_subtitle
  = Ok [Paste (mkImage 540 539 "RGB") 30 281;
        DrawText 102 120 "Claude Code" bold (78, 205, 196)%nat;
        DrawText 84 210 "How-To Guide" bold (78, 205, 196)%nat;
        DrawText 72 320 "Complete Guide to Claude Code Features" regular
          (168, 178, 209)%nat].
Proof. by vm_compute. Qed.

(** The end-to-end scenario without a logo: a text-only cover, and the build
    succeeds with it. *)
Example demo_text_only_book :
  (∃ ops, demo_cover_ops demo_cfg (demo_tree []) default_title default_subtitle
          = Ok ops ∧ forallb is_text ops = true ∧ length ops = 3%nat) ∧
  ∃ bk, demo_build_with_cover demo_cfg (demo_env []) "css" demo_schedule new_state
        = Some (Ok bk) ∧
        (items bk !! 0%nat) = Some (mkItem "cover-img" "cover.png" "image/png" "png:3").
Proof.
  split; [eexists; split; [by vm_compute|done]|].
  eexists. split; [by_compute|]. by vm_compute.
Qed.

(** A logo that is not an image: the build stops with the error of the
    cover, and no diagram is requested. *)
Example demo_corrupt_logo :
  demo_build_with_cover demo_cfg
    (demo_env [("claude-howto-logo.png", File (Err UnicodeDecodeError))])
    "css" demo_schedule new_state
  = Some (Err (CoverGenerationError
                 "Cover generation failed: UnidentifiedImageError")).
Proof. by vm_compute. Qed.

Lemma text_centered_witness :
  let bold := TrueType "/usr/share/fonts/truetype/dejavu/DejaVuSans-Bold.ttf" 72 in
  ∃ x y line,
    DrawText 84 210 "How-To Guide" bold (78, 205, 196)%nat
    = DrawText x y line bold (78, 205, 196)%nat ∧
    0 ≤ 600 - text_width (lib := demo_library) line bold - 2 * x ≤ 1.
Proof.
  intros bold.
  apply (text_centered (lib := demo_library) default_title bold _ 600 120 90).
  vm_compute. right. left.
Defined.

Lemma logo_placement_witness :
  ∃ original scaled,
    demo_open (File (Ok "logo")) = Ok original ∧ width original ≠ 0 ∧
    Paste (mkImage 540 539 "RGB") 30 281
    = Paste scaled 30 (cover_height demo_cfg - height scaled - 80) ∧
    width scaled = cover_width demo_cfg - 60 ∧ mode scaled = "RGB" ∧
    height scaled
    = scaled_height (height original) (cover_width demo_cfg - 60) (width original).
Proof.
  apply (logo_placement (lib := demo_library) demo_cfg (File (Ok "logo"))).
  by vm_compute.
Defined.

Lemma cover_failure_exit_witness :
  let raised :=
    CoverGenerationError ("Cover generation failed: " +:+ "UnidentifiedImageError") in
  demo_build_with_cover demo_cfg
    (demo_env [("claude-howto-logo.png", File (Err UnicodeDecodeError))])
    "css" demo_schedule new_state = Some (Err raised) ∧
  main_exit (Err raised : result exn epub) = Exit 1.
Proof.
  apply (cover_failure_exit (lib := demo_library)
           (λ md, md) (λ html, html) (λ _, []) (λ html _, html)
           ["home"; "user"; "claude-howto"] demo_cfg
           (demo_env [("claude-howto-logo.png", File (Err UnicodeDecodeError))])
           "css" demo_schedule new_state (OtherError "UnidentifiedImageError"));
    by vm_compute.
Defined.
