(* ===== verification/Legacy.v ===== *)
(** * Legacy: the single-pass builder (build_epub.py)

    The older builder keeps its diagram cache, its counter and its chapter
    map in module globals and fetches each diagram when it meets it, one
    request at a time.  A diagram that cannot be fetched is not an error:
    the block is shown as code.  A diagram found in the cache still takes a
    new image name, so every reference adds its own image item to the book.

    The functions whose names the two builders share carry the prefix
    [legacy_] here.  [legacy_get_chapter_order], [legacy_collect_folder_files]
    and [legacy_convert_href] are, line by line, the functions of the new
    builder, and are defined by them.

    The network is a function from the number of the request to its
    outcome.  [create_epub] and the functions it calls for the cover and
    the pages are in [LegacyBook]. *)

From Stdlib Require Import Ascii.
From stdpp Require Import base tactics list strings gmap.
From S2P Require Import Prelude PyStr Regex Sanitizer State Extractor.
From S2P Require Import Collector Renderer RenderAll Document Links.

#[local] Arguments String.append !_ _ : simpl nomatch.

(** ** The globals *)

Record globals : Type := mkGlobals {
  _mermaid_cache : gmap string bytes;
  _mermaid_counter : nat;
  _path_to_chapter : gmap string string;
  requests : nat
}.

Definition legacy_state : Type := globals * book.

(** ** [mermaid_to_image] *)

(** The function returns an image and its name, or [None]; only an
    exception that is not an [Exception] (a keyboard interrupt) leaves
    it. *)
Definition mermaid_to_image (net : nat → outcome) (mermaid_code : string)
    (g : globals) : result exn (option (bytes * string)) * globals :=
  let cache_key := strip mermaid_code in
  match _mermaid_cache g !! cache_key with
  | Some img_data =>
      let n := S (_mermaid_counter g) in
      (Ok (Some (img_data, img_name n)),
       mkGlobals (_mermaid_cache g) n (_path_to_chapter g) (requests g))
  | None =>
      let g' := mkGlobals (_mermaid_cache g) (_mermaid_counter g)
                          (_path_to_chapter g) (S (requests g)) in
      match net (requests g) with
      | Response status_code img_data =>
          if decide (status_code = 200) then
            let n := S (_mermaid_counter g) in
            (Ok (Some (img_data, img_name n)),
             mkGlobals (<[cache_key := img_data]> (_mermaid_cache g)) n
                       (_path_to_chapter g) (S (requests g)))
          else (Ok None, g')
      | Raise KeyboardInterrupt => (Err KeyboardInterrupt, g')
      | Raise _ => (Ok None, g')
      end
  end.

(** ** [sanitize_mermaid] and [process_mermaid_blocks] *)

Definition legacy_sanitize_mermaid (mermaid_code : string) : string :=
  sub match_numbered escape_numbered mermaid_code.

(** The text that stands for a diagram that could not be fetched. *)
Definition fallback (mermaid_code : string) : string :=
  nl +:+ "**[Diagram]**" +:+ nl +:+ "```" +:+ nl +:+ mermaid_code +:+ "```" +:+ nl.

Definition legacy_replace_mermaid (net : nat → outcome) (body : string)
    (σ : legacy_state) : result exn (string * legacy_state) :=
  let mermaid_code := legacy_sanitize_mermaid body in
  let '(result, g) := mermaid_to_image net mermaid_code σ.1 in
  r ← result;
  match r with
  | Some (img_data, img_name) =>
      Ok (image_ref img_name, (g, σ.2 ++ [image_item img_data img_name]))
  | None => Ok (fallback mermaid_code, (g, σ.2))
  end.

Definition legacy_process_mermaid_blocks (net : nat → outcome)
    (md_content : string) (σ : legacy_state) :
    result exn (string * legacy_state) :=
  sub_st (legacy_replace_mermaid net) (scan match_fence 0 md_content) σ.

(** ** The functions the two builders share *)

Definition legacy_get_chapter_order : list (string * string) :=
  get_chapter_order.

Definition legacy_collect_folder_files (fuel : nat) (folder_path : path)
    (es : entries) : list (path * string) :=
  collect_folder_files fuel folder_path es.

(** [convert_internal_links] with the global chapter map. *)
Definition legacy_convert_href (root : list string) (g : globals)
    (current_file : path) (href : string) : string :=
  convert_href root (mkState ∅ 0 ∅ (_path_to_chapter g)) current_file href.

(** ** Invariant *)

(** The image items of the book carry numbers the counter has passed, and
    no two items share a file name. *)
Record legacy_inv (σ : legacy_state) : Prop := {
  linv_files : NoDup (file_name <$> σ.2);
  linv_names : ∀ n, image_path (img_name n) ∈ file_name <$> σ.2 →
                    n ≤ _mermaid_counter σ.1
}.

(** ** Facts *)

Lemma legacy_sanitize_agrees s : legacy_sanitize_mermaid s = sanitize_mermaid s.
Proof. done. Qed.

(** The counter never decreases; an image returned is named by the new
    value of the counter. *)
Lemma mermaid_to_image_spec net code g r g' :
  mermaid_to_image net code g = (r, g') →
  match r with
  | Ok (Some (d, n)) =>
      _mermaid_counter g' = S (_mermaid_counter g) ∧ n = img_name (S (_mermaid_counter g))
  | _ => _mermaid_counter g' = _mermaid_counter g
  end.
Proof.
  unfold mermaid_to_image.
  destruct (_mermaid_cache g !! strip code); [by intros [= <- <-]|].
  destruct (net (requests g)) as [status d|[]]; try case_decide;
    by intros [= <- <-].
Qed.

Lemma legacy_replace_inv net body σ x σ' :
  legacy_inv σ → legacy_replace_mermaid net body σ = Ok (x, σ') → legacy_inv σ'.
Proof.
  intros [Hnd Hn]. unfold legacy_replace_mermaid.
  destruct (mermaid_to_image _ _ _) as [r g] eqn:Hm.
  apply mermaid_to_image_spec in Hm.
  destruct r as [[[d n]|]|]; simpl_result; [| |done]; intros [= <- <-].
  - destruct Hm as [Hc ->]. split; simpl; rewrite fmap_app; simpl.
    + apply NoDup_app. split_and!; [done| |apply NoDup_singleton].
      intros f Hf ->%list_elem_of_singleton. apply Hn in Hf. lia.
    + intros m [H%Hn|H%list_elem_of_singleton]%elem_of_app; [lia|].
      apply images_inj, img_name_inj in H. lia.
  - split; simpl; [done|]. intros m H%Hn. lia.
Qed.

(** The older builder never gives two image items the same file name:
    every reference to a diagram, cached or not, takes the next value of
    the counter. *)
Theorem legacy_images_distinct net md σ out σ' :
  legacy_inv σ → legacy_process_mermaid_blocks net md σ = Ok (out, σ') →
  legacy_inv σ'.
Proof.
  intros Hinv. apply (sub_st_inv legacy_inv); [|done].
  intros body σ0 x σ1 _. apply legacy_replace_inv.
Qed.

Lemma legacy_process_returns net md σ :
  (∀ k, net k ≠ Raise KeyboardInterrupt) →
  ∃ out σ', legacy_process_mermaid_blocks net md σ = Ok (out, σ').
Proof.
  intros Hnet.
  destruct (legacy_process_mermaid_blocks net md σ) as [[out σ']|e] eqn:Hp;
    [by eauto|].
  apply (sub_st_Err (λ _, True)) in Hp as (body & σ0 & _ & _ & Hb); [|done..].
  unfold legacy_replace_mermaid, mermaid_to_image in Hb.
  destruct (_mermaid_cache _ !! _); [done|].
  pose proof (Hnet (requests σ0.1)).
  destruct (net (requests σ0.1)) as [status d|[]]; try case_decide; done.
Qed.

(** The older builder is not strict: whatever the network answers,
    short of a keyboard interrupt, the substitution returns, with a code
    block in place of each diagram it could not fetch. *)
Theorem legacy_never_fails net md σ :
  (∀ k, net k ≠ Raise KeyboardInterrupt) →
  ∃ out σ', legacy_process_mermaid_blocks net md σ = Ok (out, σ').
Proof. apply legacy_process_returns. Qed.

(** ** The theorems at work *)

(** The test chapter with the second diagram failing: the first diagram
    becomes an image, the second stays a code block. *)
Example legacy_fallback :
  ∃ out g, legacy_process_mermaid_blocks
             (λ k, if decide (k = 0) then Response 200 "png-1"
                   else Response 500 "Internal Server Error")
             test_md (mkGlobals ∅ 0 ∅ 0, []) =
           Ok (out, (g, [mkItem "mermaid_1_png" "images/mermaid_1.png"
                                "image/png" "png-1"])) ∧
           requests g = 2 ∧ _mermaid_counter g = 1.
Proof. eexists _, _. split; [by_compute|]. by vm_compute. Qed.

(** A diagram shown twice is fetched once and added twice, under two
    names. *)
Example legacy_cached_twice :
  ∃ out g, legacy_process_mermaid_blocks (λ _, Response 200 "png")
             (dup_md 0 +:+ nl +:+ dup_md 1) (mkGlobals ∅ 0 ∅ 0, []) =
           Ok (out, (g, [mkItem "mermaid_1_png" "images/mermaid_1.png"
                                "image/png" "png";
                         mkItem "mermaid_2_png" "images/mermaid_2.png"
                                "image/png" "png"])) ∧
           requests g = 1.
Proof. eexists _, _. split; [by_compute|]. by vm_compute. Qed.

Lemma legacy_images_distinct_witness :
  legacy_inv (mkGlobals {[ "graph TD
    A --> B" := "png" ]} 2 ∅ 1,
              [mkItem "mermaid_1_png" "images/mermaid_1.png" "image/png" "png";
               mkItem "mermaid_2_png" "images/mermaid_2.png" "image/png" "png"]).
Proof.
  eapply (legacy_images_distinct (λ _, Response 200 "png")
            (dup_md 0 +:+ nl +:+ dup_md 1) (mkGlobals ∅ 0 ∅ 0, [])).
  - split; [constructor|]. by intros n ?%elem_of_nil.
  - by_compute.
Defined.

Lemma legacy_never_fails_witness :
  ∃ out σ', legacy_process_mermaid_blocks (λ _, Raise TimeoutException)
              test_md (mkGlobals ∅ 0 ∅ 0, []) = Ok (out, σ').
Proof. by apply (legacy_never_fails (λ _, Raise TimeoutException)). Defined.
