(* ===== verification/LegacyBook.v ===== *)
(** * LegacyBook: the book of the older builder (build_epub.py)

    [create_cover_image], [md_to_html] and [create_epub] of the older
    builder.  [create_epub] walks the chapter order twice: the first pass
    fills the global chapter map, the second reads every file, converts it
    and adds its page to the book.  Nothing is validated and no exception
    is caught; the titles are written into the pages as they are.

    The book is the [epub] of [Assembler]; the image library is the two
    calls the cover makes, as parameters.

    Theorems: the first pass computes the chapter map of the collector of
    the new builder; the pages of the second pass are the chapters of that
    collector, so every entry the first pass writes leads to a page of the
    book; the table of contents lists the pages in the order of the spine;
    the build returns unless a file cannot be read, the cover cannot be
    drawn or the user interrupts. *)

From Stdlib Require Import Ascii ZArith.
From stdpp Require Import base tactics option list strings gmap.
From S2P Require Import Prelude PyStr Regex Sanitizer State Extractor Collector.
From S2P Require Import Renderer RenderAll Document Codec Links Assembler Cover.
From S2P Require Import Legacy.

#[local] Arguments String.append !_ _ : simpl nomatch.
#[local] Set Default Proof Using "Type".

(** ** The cover *)

(** The image after the branch on its mode: an image with transparency or
    a palette is pasted on an RGB background of its size. *)
Definition legacy_flatten (img : image) : image :=
  if decide (mode img = "RGBA" ∨ mode img = "P")
  then mkImage (width img) (height img) "RGB" else img.

(** [img.crop((0, 0, square_size, square_size))] with the height of the
    image as [square_size]. *)
Definition legacy_crop (img : image) : image :=
  let square_size := height img in
  mkImage square_size square_size (mode img).

(** ** The stylesheet and the pages *)

(** The text of [style] in [create_epub]. *)
Definition legacy_style : string :=
  "
    body { font-family: Georgia, serif; line-height: 1.6; padding: 1em; }
    h1 { color: #333; border-bottom: 2px solid #e67e22; padding-bottom: 0.3em; }
    h2 { color: #444; margin-top: 1.5em; }
    h3 { color: #555; }
    code { background: #f4f4f4; padding: 0.2em 0.4em; border-radius: 3px; font-family: monospace; }
    pre { background: #f4f4f4; padding: 1em; overflow-x: auto; border-radius: 5px; }
    pre code { background: none; padding: 0; }
    table { border-collapse: collapse; width: 100%; margin: 1em 0; }
    th, td { border: 1px solid #ddd; padding: 0.5em; text-align: left; }
    th { background: #f4f4f4; }
    blockquote { border-left: 4px solid #e67e22; margin: 1em 0; padding-left: 1em; color: #666; }
    a { color: #e67e22; }
    img { max-width: 100%; height: auto; display: block; margin: 1em auto; }
    .diagram { text-align: center; margin: 1.5em 0; }
    ".

(** The f-string of a page, at the indentation of the statement that holds
    it, with the heading [h]. *)
Definition legacy_page (indent h shown html_content : string) : string :=
  nl +:+ indent +:+ "<html>" +:+ nl +:+
  indent +:+ "<head><title>" +:+ shown +:+ "</title></head>" +:+ nl +:+
  indent +:+ "<body>" +:+ nl +:+
  indent +:+ "<" +:+ h +:+ ">" +:+ shown +:+ "</" +:+ h +:+ ">" +:+ nl +:+
  indent +:+ html_content +:+ nl +:+
  indent +:+ "</body>" +:+ nl +:+
  indent +:+ "</html>" +:+ nl +:+ indent.

Definition indent_file : string := "            ".
Definition indent_folder : string := "                    ".

(** [epub.EpubHtml(title, file_name, lang)] with its content, as an item. *)
Definition legacy_page_item (file content : string) : EpubItem :=
  mkItem file file "application/xhtml+xml" content.

(** ** The first pass *)

(** The loop over the files of a folder, from index [i]. *)
Fixpoint legacy_map_files (chapter_num i : nat)
    (folder_files : list (path * string)) (m : gmap string string) :
    gmap string string :=
  match folder_files with
  | [] => m
  | (file_path, _) :: rest =>
      let rel_path := path_str file_path in
      legacy_map_files chapter_num (S i) rest
        (<[rel_path := chap_sub_file chapter_num i]> m)
  end.

(** One iteration of the first loop of [create_epub]: the counter and the
    chapter map. *)
Definition legacy_map_item (tree : node) (acc : nat * gmap string string)
    (entry : string * string) : nat * gmap string string :=
  let '(item, _) := entry in
  let item_path := parts item in
  if is_file tree item_path
     && String.eqb (suffix (default "" (last item_path))) ".md" then
    let chapter_num := acc.1 + 1 in
    (chapter_num, <[item := chap_file chapter_num]> acc.2)
  else
    match lookup_node tree item_path with
    | Some (Dir es) =>
        match legacy_collect_folder_files (depth (Dir es)) item_path es with
        | [] => acc
        | folder_files =>
            let chapter_num := acc.1 + 1 in
            (chapter_num,
             legacy_map_files chapter_num 0 folder_files
               (<[rstrip_char "/" item := chap_sub_file chapter_num 0]>
                  (<[item := chap_sub_file chapter_num 0]> acc.2)))
        end
    | _ => acc
    end.

Definition legacy_first_pass (tree : node) (m : gmap string string) :
    gmap string string :=
  (foldl (legacy_map_item tree) (0, m) legacy_get_chapter_order).2.

Section legacy_book.
(** The network, the converters of [Assembler], the components of the root
    directory, and [Image.open] and [img.save] of the cover. *)
Context (net : nat → outcome).
Context (markdown : string → string) (svg_pass : string → string).
Context (anchors : string → list string).
Context (set_anchors : string → list string → string).
Context (root : list string).
Context (open_image : node → result exn image).
Context (save_image : image → result exn bytes).

(** [create_cover_image(logo_path)], for the node the path leads to. *)
Definition legacy_create_cover_image (logo : node) : result exn bytes :=
  img ← open_image logo;
  save_image (legacy_crop (legacy_flatten img)).

(** [md_to_html(md_content, current_file, root_path, book)] *)
Definition legacy_md_to_html (md_content : string) (current_file : path)
    (σ : legacy_state) : result exn (string * legacy_state) :=
  '(md1, σ') ← legacy_process_mermaid_blocks net md_content σ;
  let html := svg_pass (markdown md1) in
  mret (set_anchors html
          (legacy_convert_href root σ'.1 current_file <$> anchors html),
        σ').

(** ** The second pass *)

(** The locals of the second loop, with the globals and the book. *)
Record legacy_acc : Type := mkLegacy {
  l_num : nat;
  l_state : legacy_state;
  l_chapters : list string;
  l_toc : list toc_entry
}.

(** The loop over the files of a folder, from index [i]: the globals and
    the book, and [sub_chapters]. *)
Fixpoint legacy_sub_chapters (tree : node) (display_name : string)
    (chapter_num i : nat) (folder_files : list (path * string))
    (σ : legacy_state) (sub_chapters : list string) :
    result exn (legacy_state * list string) :=
  match folder_files with
  | [] => Ok (σ, sub_chapters)
  | (file_path, file_title) :: rest =>
      content ← read_text tree file_path;
      '(html_content, σ') ← legacy_md_to_html content file_path σ;
      let file := chap_sub_file chapter_num i in
      let page :=
        if decide (i = 0)
        then legacy_page indent_folder "h1" display_name html_content
        else legacy_page indent_folder "h2" file_title html_content in
      legacy_sub_chapters tree display_name chapter_num (S i) rest
        (σ'.1, σ'.2 ++ [legacy_page_item file page]) (sub_chapters ++ [file])
  end.

(** One iteration of the second loop of [create_epub]. *)
Definition legacy_chapter (tree : node) (acc : legacy_acc)
    (entry : string * string) : result exn legacy_acc :=
  let '(item, display_name) := entry in
  let item_path := parts item in
  if is_file tree item_path
     && String.eqb (suffix (default "" (last item_path))) ".md" then
    let chapter_num := l_num acc + 1 in
    content ← read_text tree item_path;
    '(html_content, σ') ← legacy_md_to_html content item_path (l_state acc);
    let file := chap_file chapter_num in
    let page := legacy_page indent_file "h1" display_name html_content in
    Ok (mkLegacy chapter_num (σ'.1, σ'.2 ++ [legacy_page_item file page])
          (l_chapters acc ++ [file]) (l_toc acc ++ [TocLink file]))
  else
    match lookup_node tree item_path with
    | Some (Dir es) =>
        match legacy_collect_folder_files (depth (Dir es)) item_path es with
        | [] => Ok acc
        | folder_files =>
            let chapter_num := l_num acc + 1 in
            '(σ', sub_chapters) ←
              legacy_sub_chapters tree display_name chapter_num 0 folder_files
                (l_state acc) [];
            Ok (mkLegacy chapter_num σ' (l_chapters acc ++ sub_chapters)
                  (match sub_chapters with
                   | [] => l_toc acc
                   | _ => l_toc acc ++ [TocSection display_name sub_chapters]
                   end))
        end
    | _ => Ok acc
    end.

Fixpoint legacy_chapters (tree : node) (acc : legacy_acc)
    (chapter_order : list (string * string)) : result exn legacy_acc :=
  match chapter_order with
  | [] => Ok acc
  | entry :: rest =>
      acc' ← legacy_chapter tree acc entry; legacy_chapters tree acc' rest
  end.

(** ** [create_epub] *)

(** [create_epub(root_path, output_path)] up to [write_epub]: the book and
    the globals it leaves. *)
Definition legacy_create_epub (tree : node) (g : globals) :
    result exn (epub * globals) :=
  cover_items ←
    match lookup_node tree ["claude-howto-logo.png"] with
    | Some logo =>
        cover_data ← legacy_create_cover_image logo;
        Ok [mkItem "cover-img" "cover.png" "image/png" cover_data;
            mkItem "cover" "cover.xhtml" "application/xhtml+xml" ""]
    | None => Ok []
    end;
  let bk := cover_items ++ [mkItem "style_nav" "style/nav.css" "text/css"
                              legacy_style] in
  let g1 := mkGlobals (_mermaid_cache g) (_mermaid_counter g)
              (legacy_first_pass tree (_path_to_chapter g)) (requests g) in
  acc ← legacy_chapters tree (mkLegacy 0 (g1, bk) [] []) legacy_get_chapter_order;
  Ok (mkEpub ((l_state acc).2 ++ nav_items) (l_toc acc)
        ("nav" :: l_chapters acc),
      (l_state acc).1).

End legacy_book.

(** ** Invariants *)

(** What a state keeps of an earlier one: the chapter map, and the items
    of the book. *)
Definition keeps (σ σ' : legacy_state) : Prop :=
  _path_to_chapter σ'.1 = _path_to_chapter σ.1 ∧
  ∀ f, f ∈ file_name <$> σ.2 → f ∈ file_name <$> σ'.2.

(** A file that can be read as text. *)
Definition readable (tree : node) (p : path) : Prop :=
  ∃ content, read_text tree p = Ok content.

(** The second pass against the collector of the new builder, whose state
    is [c]: the same counter, the pages of its chapters, read from their
    files, a table of contents that lists them, every page in the book, and
    the chapter map [m] untouched. *)
Record legacy_sim (m : gmap string string) (c : collect_state)
    (acc : legacy_acc) : Prop := {
  sim_num : l_num acc = chapter_num c;
  sim_chapters : l_chapters acc = chapter_filename <$> chapters c;
  sim_toc : toc_chapters (l_toc acc) = l_chapters acc;
  sim_pages : ∀ f, f ∈ l_chapters acc → f ∈ file_name <$> (l_state acc).2;
  sim_map : _path_to_chapter (l_state acc).1 = m
}.

(** ** The first pass and the collector *)

Lemma legacy_map_files_loop display_name n i fs
    (acc : list ChapterInfo * BuildState) :
  legacy_map_files n i fs (path_to_chapter acc.2)
  = path_to_chapter (folder_loop display_name n i fs acc).2.
Proof.
  revert i acc; induction fs as [|[p t] fs IH]; intros i acc; [done|].
  cbn [legacy_map_files folder_loop]. by rewrite <-IH.
Qed.

(** A folder with files gives chapters. *)
Lemma folder_loop_nonempty display_name n i f fs acc :
  (folder_loop display_name n i (f :: fs) acc).1 ≠ [].
Proof.
  intros H. pose proof (folder_loop_files display_name n i (f :: fs) acc) as Hf.
  rewrite H in Hf. cbn in Hf. by destruct (chapter_filename <$> acc.1).
Qed.

(** One iteration of the first pass is the iteration of the collector, for
    the counter and the chapter map. *)
Lemma legacy_map_item_collect tree acc entry :
  legacy_map_item tree (chapter_num acc, path_to_chapter (build acc)) entry
  = (chapter_num (collect_item tree acc entry),
     path_to_chapter (build (collect_item tree acc entry))).
Proof.
  destruct entry as [item display_name]. unfold legacy_map_item, collect_item.
  cbn [fst snd]. destruct (is_file tree (parts item) && _); [done|].
  destruct (lookup_node tree (parts item)) as [[text|es]|]; [done| |done].
  unfold collect_folder, legacy_collect_folder_files.
  destruct (collect_folder_files _ _ es) as [|f fs]; [done|].
  set (st2 := set_paths <[rstrip_char "/" item := _]> (set_paths _ (build acc))).
  pose proof (folder_loop_nonempty display_name (chapter_num acc + 1) 0 f fs
                ([], st2)) as Hne.
  pose proof (legacy_map_files_loop display_name (chapter_num acc + 1) 0
                (f :: fs) ([], st2)) as Hloop.
  destruct (folder_loop _ _ _ _ _) as [[|ch chs] st']; [done|].
  cbn [fst snd build chapter_num] in *. by rewrite <-Hloop.
Qed.

Lemma legacy_map_loop_collect tree acc order :
  foldl (legacy_map_item tree) (chapter_num acc, path_to_chapter (build acc)) order
  = (chapter_num (foldl (collect_item tree) acc order),
     path_to_chapter (build (foldl (collect_item tree) acc order))).
Proof.
  revert acc; induction order as [|e order IH]; intros acc; [done|].
  cbn [foldl]. by rewrite legacy_map_item_collect, IH.
Qed.

(** C28. The first pass of the older builder computes the chapter map of the
    collector of the new one. *)
Theorem legacy_first_pass_collector tree st :
  legacy_first_pass tree (path_to_chapter st)
  = path_to_chapter (collect_all_chapters tree get_chapter_order st).2.
Proof.
  unfold legacy_first_pass, collect_all_chapters, legacy_get_chapter_order.
  generalize get_chapter_order; intros order.
  by rewrite (legacy_map_loop_collect tree (mkCollect [] 0 st)).
Qed.

(** ** The files of the chapters *)

Lemma folder_loop_file_paths display_name n i fs
    (acc : list ChapterInfo * BuildState) :
  file_path <$> (folder_loop display_name n i fs acc).1
  = (file_path <$> acc.1) ++ fs.*1.
Proof.
  revert i acc; induction fs as [|[p t] fs IH]; intros i acc;
    cbn [folder_loop]; [by rewrite app_nil_r|].
  rewrite IH. cbn [fst]. by rewrite fmap_app, <-app_assoc.
Qed.

Lemma collect_item_prefix tree c entry :
  chapters c `prefix_of` chapters (collect_item tree c entry).
Proof.
  destruct entry as [item display_name]. unfold collect_item.
  destruct (is_file tree (parts item) && _); [by eexists|].
  destruct (lookup_node tree (parts item)) as [[text|es]|]; [done| |done].
  destruct (collect_folder _ _ _ _ _ _) as [[|ch chs] st']; [done|by eexists].
Qed.

Lemma collect_loop_prefix tree c order :
  chapters c `prefix_of` chapters (foldl (collect_item tree) c order).
Proof.
  revert c; induction order as [|e order IH]; intros c; [done|].
  cbn [foldl]. etrans; [apply collect_item_prefix|apply IH].
Qed.

Lemma Forall_prefix {A} (P : A → Prop) (l1 l2 : list A) :
  l1 `prefix_of` l2 → Forall P l2 → Forall P l1.
Proof. intros [k ->] [H _]%Forall_app. exact H. Qed.

(** ** The second pass *)

#[local] Instance keeps_preorder : PreOrder keeps.
Proof.
  split; [by split|]. intros σ1 σ2 σ3 [Hm1 Hb1] [Hm2 Hb2].
  split; [congruence|auto].
Qed.

Lemma keeps_add σ item : keeps σ (σ.1, σ.2 ++ [item]).
Proof. split; [done|]. intros f Hf. cbn. rewrite fmap_app. set_solver. Qed.

Lemma legacy_replace_keeps net body σ x σ' :
  legacy_replace_mermaid net body σ = Ok (x, σ') → keeps σ σ'.
Proof.
  unfold legacy_replace_mermaid, mermaid_to_image.
  destruct (_mermaid_cache σ.1 !! _) as [d|].
  - intros [= <- <-]. split; [done|]. intros f Hf. cbn. rewrite fmap_app. set_solver.
  - destruct (net _) as [status d|[]]; try case_decide; simpl_result;
      intros [= <- <-]; (split; [done|]); intros f Hf; cbn;
      rewrite ?fmap_app; set_solver.
Qed.

Section second_pass.
Context (net : nat → outcome).
Context (markdown : string → string) (svg_pass : string → string).
Context (anchors : string → list string).
Context (set_anchors : string → list string → string).
Context (root : list string).

Notation html_of := (legacy_md_to_html net markdown svg_pass anchors set_anchors root).
Notation sub_loop := (legacy_sub_chapters net markdown svg_pass anchors set_anchors root).
Notation chapter := (legacy_chapter net markdown svg_pass anchors set_anchors root).
Notation chapter_loop := (legacy_chapters net markdown svg_pass anchors set_anchors root).

Lemma legacy_md_to_html_keeps md current_file σ html σ' :
  html_of md current_file σ = Ok (html, σ') → keeps σ σ'.
Proof.
  unfold legacy_md_to_html.
  destruct (legacy_process_mermaid_blocks net md σ) as [[md1 σ1]|] eqn:Hp;
    simpl_result; [|done].
  intros [= _ <-]. revert Hp. apply (sub_st_inv (keeps σ)); [|done].
  intros body σ0 x σ2 _ H0 H%legacy_replace_keeps. by etrans.
Qed.

(** The loop over a folder adds one page per file, named by the indices
    from [i] on. *)
Lemma legacy_sub_chapters_spec tree display_name n i fs σ subs σ' subs' :
  sub_loop tree display_name n i fs σ subs = Ok (σ', subs') →
  subs' = subs ++ (chap_sub_file n <$> seq i (length fs)) ∧ keeps σ σ' ∧
  ∀ f, f ∈ chap_sub_file n <$> seq i (length fs) → f ∈ file_name <$> σ'.2.
Proof.
  revert i σ subs; induction fs as [|[p t] fs IH]; intros i σ subs;
    cbn [legacy_sub_chapters].
  - intros [= <- <-]. rewrite app_nil_r. split_and!; [done..|]. by intros f ?%elem_of_nil.
  - destruct (read_text tree p) as [content|]; simpl_result; [|done].
    destruct (html_of content p σ) as [[html σ1]|] eqn:Hh; simpl_result; [|done].
    apply legacy_md_to_html_keeps in Hh.
    intros (-> & Hk & Hin)%IH. cbn [length seq fmap list_fmap].
    assert (keeps σ σ') as Hσ.
    { etrans; [exact Hh|]. etrans; [apply keeps_add|exact Hk]. }
    split_and!; [by rewrite <-app_assoc|done|].
    intros f [->|Hf]%elem_of_cons; [|by apply Hin].
    apply Hk. cbn. rewrite fmap_app. set_solver.
Qed.

(** One iteration of the second pass against one of the collector. *)
Lemma legacy_chapter_sim tree m c acc entry acc' :
  legacy_sim m c acc → chapter tree acc entry = Ok acc' →
  legacy_sim m (collect_item tree c entry) acc'.
Proof.
  intros [Hnum Hchs Htoc Hpages Hmap]. destruct entry as [item display_name].
  unfold legacy_chapter, collect_item.
  destruct (is_file tree (parts item) && _).
  - destruct (read_text tree (parts item)) as [content|]; simpl_result; [|done].
    destruct (html_of content (parts item) (l_state acc)) as [[html σ1]|] eqn:Hh;
      simpl_result; [|done].
    apply legacy_md_to_html_keeps in Hh as [Hm Hb]. intros [= <-].
    split; cbn [l_num l_chapters l_toc l_state chapter_num chapters fst snd].
    + by rewrite Hnum.
    + by rewrite fmap_app, Hchs, Hnum.
    + by rewrite toc_chapters_app, Htoc.
    + intros f. rewrite fmap_app. set_solver.
    + exact (eq_trans Hm Hmap).
  - destruct (lookup_node tree (parts item)) as [[text|es]|]; try by intros [= <-].
    unfold collect_folder, legacy_collect_folder_files.
    destruct (collect_folder_files _ _ es) as [|f0 fs]; [by intros [= <-]|].
    intros ([σ1 subs] & Hs & Hacc)%bind_Ok.
    apply legacy_sub_chapters_spec in Hs as (-> & [Hm Hb] & Hin).
    pose proof (folder_loop_files display_name (chapter_num c + 1) 0 (f0 :: fs)
      ([], set_paths <[rstrip_char "/" item := chap_sub_file (chapter_num c + 1) 0]>
             (set_paths <[item := chap_sub_file (chapter_num c + 1) 0]>
                (build c)))) as Hfiles.
    destruct (folder_loop _ _ _ _ _) as [chs st'].
    cbn [fst] in Hfiles. rewrite app_nil_l in *. rewrite <-Hnum in Hfiles.
    cbn [length seq fmap list_fmap] in Hin, Hacc, Hfiles.
    destruct chs as [|ch chs]; [done|]. injection Hacc as <-.
    split; cbn [l_num l_chapters l_toc l_state chapter_num chapters fst snd].
    + by rewrite Hnum.
    + by rewrite fmap_app, Hchs, Hfiles.
    + rewrite toc_chapters_app, Htoc. cbn. by rewrite app_nil_r.
    + intros f [Hf|Hf]%elem_of_app; [by apply Hb, Hpages|by apply Hin].
    + exact (eq_trans Hm Hmap).
Qed.

Lemma legacy_chapters_sim tree m c acc order acc' :
  legacy_sim m c acc → chapter_loop tree acc order = Ok acc' →
  legacy_sim m (foldl (collect_item tree) c order) acc'.
Proof.
  revert c acc; induction order as [|e order IH]; intros c acc Hsim;
    cbn [legacy_chapters foldl]; [by intros [= <-]|].
  destruct (chapter tree acc e) as [acc1|] eqn:He; simpl_result; [|done].
  apply IH. by eapply legacy_chapter_sim.
Qed.

(** *** The second pass returns *)

Lemma legacy_md_to_html_returns md current_file σ :
  (∀ k, net k ≠ Raise KeyboardInterrupt) →
  ∃ html σ', html_of md current_file σ = Ok (html, σ').
Proof.
  intros Hnet. unfold legacy_md_to_html.
  destruct (legacy_process_returns net md σ Hnet) as (md1 & σ' & ->).
  simpl_result. eauto.
Qed.

Lemma legacy_sub_chapters_returns tree display_name n i fs σ subs :
  (∀ k, net k ≠ Raise KeyboardInterrupt) →
  Forall (readable tree) fs.*1 →
  ∃ r, sub_loop tree display_name n i fs σ subs = Ok r.
Proof.
  intros Hnet. revert i σ subs; induction fs as [|[p t] fs IH];
    intros i σ subs Hfs; cbn [legacy_sub_chapters]; [by eexists|].
  apply Forall_cons in Hfs as [[content Hp] Hfs]. cbn [fst] in Hp.
  destruct (legacy_md_to_html_returns content p σ Hnet) as (html & σ' & Hh).
  rewrite Hp. cbn [mbind result_bind]. rewrite Hh. cbn [mbind result_bind].
  by apply IH.
Qed.

(** One iteration returns when the files of the chapters the collector
    adds for the entry can be read. *)
Lemma legacy_chapter_returns tree c acc entry :
  (∀ k, net k ≠ Raise KeyboardInterrupt) →
  Forall (λ ch, readable tree (file_path ch))
         (chapters (collect_item tree c entry)) →
  ∃ acc', chapter tree acc entry = Ok acc'.
Proof.
  intros Hnet. destruct entry as [item display_name].
  unfold legacy_chapter, collect_item.
  destruct (is_file tree (parts item) && _).
  - cbn [chapters]. intros [_ [[content Hp] _]%Forall_cons]%Forall_app.
    cbn [file_path] in Hp. rewrite Hp. cbn [mbind result_bind].
    destruct (legacy_md_to_html_returns content (parts item) (l_state acc) Hnet)
      as (html & σ' & ->). cbn [mbind result_bind]. by eexists.
  - destruct (lookup_node tree (parts item)) as [[text|es]|]; try by eexists.
    unfold collect_folder, legacy_collect_folder_files.
    destruct (collect_folder_files _ _ es) as [|f0 fs]; [by eexists|].
    pose proof (folder_loop_file_paths display_name (chapter_num c + 1) 0 (f0 :: fs)
      ([], set_paths <[rstrip_char "/" item := chap_sub_file (chapter_num c + 1) 0]>
             (set_paths <[item := chap_sub_file (chapter_num c + 1) 0]>
                (build c)))) as Hpaths.
    destruct (folder_loop _ _ _ _ _) as [[|ch chs] st']; [done|].
    cbn [chapters fst]. intros [_ Hread]%Forall_app.
    apply Forall_fmap in Hread. cbn [fst] in Hpaths.
    change (Forall (readable tree) (file_path <$> ch :: chs)) in Hread.
    rewrite Hpaths, app_nil_l in Hread.
    destruct (legacy_sub_chapters_returns tree display_name (l_num acc + 1) 0
                (f0 :: fs) (l_state acc) [] Hnet Hread) as ([σ' subs] & ->).
    cbn [mbind result_bind]. by eexists.
Qed.

Lemma legacy_chapters_returns tree c acc order :
  (∀ k, net k ≠ Raise KeyboardInterrupt) →
  Forall (λ ch, readable tree (file_path ch))
         (chapters (foldl (collect_item tree) c order)) →
  ∃ acc', chapter_loop tree acc order = Ok acc'.
Proof.
  intros Hnet. revert c acc; induction order as [|e order IH]; intros c acc Hread;
    cbn [legacy_chapters foldl] in *; [by eexists|].
  destruct (legacy_chapter_returns tree c acc e Hnet) as [acc1 ->].
  { eapply Forall_prefix; [apply collect_loop_prefix|exact Hread]. }
  cbn [mbind result_bind]. by apply (IH (collect_item tree c e)).
Qed.

End second_pass.

(** ** The book *)

Section legacy_facts.
Context (net : nat → outcome).
Context (markdown : string → string) (svg_pass : string → string).
Context (anchors : string → list string).
Context (set_anchors : string → list string → string).
Context (root : list string).
Context (open_image : node → result exn image).
Context (save_image : image → result exn bytes).

Notation create :=
  (legacy_create_epub net markdown svg_pass anchors set_anchors root
     open_image save_image).

(** A book [create_epub] returns, against the collector of the new builder
    started from any build state [st]: the pages are its chapters, the
    table of contents leads to them, each is an item of the book, and the
    chapter map is the one the first pass computed. *)
Lemma legacy_create_epub_Ok st tree g bk g' :
  create tree g = Ok (bk, g') →
  let chs := chapter_filename <$> (collect_all_chapters tree get_chapter_order st).1 in
  spine bk = "nav" :: chs ∧ toc_chapters (book_toc bk) = chs ∧
  (∀ f, f ∈ chs → f ∈ file_name <$> items bk) ∧
  _path_to_chapter g' = legacy_first_pass tree (_path_to_chapter g).
Proof.
  unfold legacy_create_epub, legacy_first_pass, collect_all_chapters,
    legacy_get_chapter_order.
  generalize get_chapter_order; intros order.
  intros (cover_items & _ & (acc & Hacc & [= <- <-])%bind_Ok)%bind_Ok.
  eapply (legacy_chapters_sim _ _ _ _ _ _ _ _ (mkCollect [] 0 st)) in Hacc
    as [_ Hchs Htoc Hpages Hmap].
  - cbn [fst spine book_toc items]. rewrite <-Hchs. split_and!; [done..| |done].
    intros f Hf. rewrite fmap_app. apply elem_of_app; left. by apply Hpages.
  - split; try done. by intros f ?%elem_of_nil.
Qed.

(** The pages of the older builder are the chapters of the collector of
    the new one, in its order: the spine lists them after the navigation
    page, the table of contents leads to each of them once, and each is an
    item of the book. *)
Theorem legacy_book_chapters tree g bk g' :
  legacy_create_epub net markdown svg_pass anchors set_anchors root
    open_image save_image tree g = Ok (bk, g') →
  spine bk = "nav" :: (chapter_filename <$> chapters_of tree) ∧
  toc_chapters (book_toc bk) = chapter_filename <$> chapters_of tree ∧
  ∀ ch, ch ∈ chapters_of tree → chapter_filename ch ∈ file_name <$> items bk.
Proof.
  intros (Hspine & Htoc & Hpages & _)%(legacy_create_epub_Ok new_state).
  unfold chapters_of. split_and!; [done..|].
  intros ch Hch. by apply Hpages, list_elem_of_fmap_2.
Qed.

(** C27. Every entry the first pass writes to the chapter map leads to a page
    the second pass adds: a link the older builder rewrites never points
    outside the book. *)
Theorem legacy_links_lead_to_pages tree g bk g' p f :
  legacy_create_epub net markdown svg_pass anchors set_anchors root
    open_image save_image tree g = Ok (bk, g') →
  _path_to_chapter g' !! p = Some f →
  _path_to_chapter g !! p = Some f ∨
  f ∈ spine bk ∧ f ∈ file_name <$> items bk.
Proof.
  pose (st := mkState ∅ 0 ∅ (_path_to_chapter g)).
  intros (Hspine & _ & Hpages & Hmap)%(legacy_create_epub_Ok st).
  rewrite Hmap. intros Hp.
  assert (path_to_chapter (collect_all_chapters tree get_chapter_order st).2 !! p
          = Some f) as [H|H]%path_targets_exist_aux
    by (rewrite <-legacy_first_pass_collector; exact Hp); [by left|right].
  rewrite Hspine. split; [by right|by apply Hpages].
Qed.

(** C36. The older builder returns a book unless a chapter cannot be read as
    text, the cover cannot be drawn or the user interrupts: nothing the
    network answers stops it. *)
Theorem legacy_build_returns tree g :
  (∀ k, net k ≠ Raise KeyboardInterrupt) →
  Forall (λ ch, readable tree (file_path ch)) (chapters_of tree) →
  (∀ logo, lookup_node tree ["claude-howto-logo.png"] = Some logo →
           ∃ data, legacy_create_cover_image open_image save_image logo = Ok data) →
  ∃ bk g', legacy_create_epub net markdown svg_pass anchors set_anchors root
             open_image save_image tree g = Ok (bk, g').
Proof.
  unfold chapters_of, collect_all_chapters, legacy_create_epub,
    legacy_get_chapter_order. cbn [fst].
  generalize get_chapter_order; intros order Hnet Hread Hcover.
  destruct (lookup_node tree ["claude-howto-logo.png"]) as [logo|].
  - destruct (Hcover logo eq_refl) as [data ->]. cbn [mbind result_bind].
    edestruct legacy_chapters_returns as [acc ->]; [done..|].
    cbn [mbind result_bind]. by eexists _, _.
  - cbn [mbind result_bind].
    edestruct legacy_chapters_returns as [acc ->]; [done..|].
    cbn [mbind result_bind]. by eexists _, _.
Qed.

End legacy_facts.

(** ** The cover *)

(** The cover of the older builder is a square of the height of the logo,
    whatever the width of the logo is: a logo less wide than high is
    padded, not scaled. *)
Lemma legacy_cover_square img :
  width (legacy_crop (legacy_flatten img)) = height img ∧
  height (legacy_crop (legacy_flatten img)) = height img.
Proof. unfold legacy_crop, legacy_flatten. by case_decide. Qed.

(** ** The older builder at work *)

Definition demo_save_image (img : image) : result exn bytes :=
  Ok ("png:" +:+ mode img).

Definition demo_legacy :=
  legacy_create_epub (λ _, Response 200 "png") (λ md, md) (λ html, html)
    (λ _, []) (λ html _, html) ["home"; "user"; "claude-howto"]
    demo_open demo_save_image.

Definition no_globals : globals := mkGlobals ∅ 0 ∅ 0.

(** The page of a single file, as the f-string gives it. *)
Example legacy_page_text :
  legacy_page indent_file "h1" "Title" "<p>text</p>" =
"
            <html>
            <head><title>Title</title></head>
            <body>
            <h1>Title</h1>
            <p>text</p>
            </body>
            </html>
            ".
Proof. reflexivity. Qed.

(** The book of the project of the examples: the stylesheet first (there is
    no logo), then every image before the page that shows it. *)
Example legacy_demo_book :
  ∃ bk g, demo_legacy (demo_tree []) no_globals = Ok (bk, g) ∧
    file_name <$> items bk =
      ["style/nav.css"; "images/mermaid_1.png"; "images/mermaid_2.png";
       "chap_01.xhtml"; "images/mermaid_3.png"; "chap_02_00.xhtml";
       "chap_02_01.xhtml"; "toc.ncx"; "nav.xhtml"] ∧
    book_toc bk = [TocLink "chap_01.xhtml";
                   TocSection "Memory" ["chap_02_00.xhtml"; "chap_02_01.xhtml"]] ∧
    spine bk = ["nav"; "chap_01.xhtml"; "chap_02_00.xhtml"; "chap_02_01.xhtml"] ∧
    requests g = 2 ∧ _mermaid_counter g = 3.
Proof. eexists _, _. split; [by_compute|]. by vm_compute. Qed.

(** The globals outlive the build: a second build in the same process
    sends no request, and its images take the names after those of the
    first. *)
Example legacy_second_build :
  ∃ bk1 g1 bk2 g2,
    demo_legacy (demo_tree []) no_globals = Ok (bk1, g1) ∧
    demo_legacy (demo_tree []) g1 = Ok (bk2, g2) ∧
    requests g2 = requests g1 ∧
    filter (λ f, negb (is_page f)) (file_name <$> items bk2) =
      ["style/nav.css"; "images/mermaid_4.png"; "images/mermaid_5.png";
       "images/mermaid_6.png"; "toc.ncx"; "nav.xhtml"].
Proof.
  eexists _, _, _, _. split; [by_compute|]. split; [by_compute|]. by vm_compute.
Qed.

(** A logo with transparency: the cover is flattened and cropped, and the
    cover and its page come before the stylesheet. *)
Example legacy_demo_cover :
  ∃ bk g, demo_legacy (demo_tree [("claude-howto-logo.png", File (Ok "logo"))])
            no_globals = Ok (bk, g) ∧
    take 3 (items bk) =
      [mkItem "cover-img" "cover.png" "image/png" "png:RGB";
       mkItem "cover" "cover.xhtml" "application/xhtml+xml" "";
       mkItem "style_nav" "style/nav.css" "text/css" legacy_style].
Proof. eexists _, _. split; [by_compute|]. by vm_compute. Qed.

(** The titles are written as they are: markup in a title is markup of the
    page, where the new builder writes character references. *)
Example legacy_title_unescaped :
  between "<title>" "</title>"
    (legacy_page indent_file "h1" "R&D <notes>" "<p>text</p>")
  = Some "R&D <notes>" ∧
  between "<title>" "</title>"
    (create_chapter_html "R&D <notes>" "R&D <notes>" "<p>text</p>" true)
  = Some "R&amp;D &lt;notes&gt;" ∧
  markup_count (legacy_page indent_file "h1" "R&D <notes>" "")
  = 4 + markup_count (legacy_page indent_file "h1" "R&D notes" "").
Proof. by vm_compute. Qed.

(** A chapter that is not UTF-8 ends the build with the decoding error,
    which nothing catches. *)
Example legacy_binary_chapter :
  demo_legacy (demo_tree [("resources.md", File (Err UnicodeDecodeError))])
    no_globals = Err UnicodeDecodeError.
Proof. by_compute. Qed.

(** The book and the globals of the example, evaluated. *)
Definition demo_legacy_result : epub * globals :=
  Eval vm_compute in
  match demo_legacy (demo_tree []) no_globals with
  | Ok r => r
  | Err _ => (mkEpub [] [] [], no_globals)
  end.

Lemma legacy_links_lead_to_pages_witness :
  _path_to_chapter no_globals !! "02-memory/notes.md" = Some "chap_02_01.xhtml" ∨
  "chap_02_01.xhtml" ∈ spine demo_legacy_result.1 ∧
  "chap_02_01.xhtml" ∈ file_name <$> items demo_legacy_result.1.
Proof.
  apply (legacy_links_lead_to_pages (λ _, Response 200 "png") (λ md, md)
           (λ html, html) (λ _, []) (λ html _, html)
           ["home"; "user"; "claude-howto"] demo_open demo_save_image
           (demo_tree []) no_globals demo_legacy_result.1 demo_legacy_result.2
           "02-memory/notes.md" "chap_02_01.xhtml"); by vm_compute.
Defined.

Lemma legacy_build_returns_witness :
  ∃ bk g, demo_legacy (demo_tree []) (mkGlobals ∅ 7 ∅ 0) = Ok (bk, g).
Proof.
  apply (legacy_build_returns (λ _, Response 200 "png") (λ md, md)
           (λ html, html) (λ _, []) (λ html _, html)
           ["home"; "user"; "claude-howto"] demo_open demo_save_image
           (demo_tree []) (mkGlobals ∅ 7 ∅ 0)).
  - done.
  - vm_compute. repeat constructor; by eexists.
  - by vm_compute.
Defined.
